(* ===== verification/_CoqProject ===== *)
-Q . S2P
Prelude.v
Text.v
F64.v
Net.v
NetRoundtrip.v
Http.v
Config.v
Routing.v
Toml.v
Validation.v
Fixtures.v
ValidationErrors.v
TestsValidation.v
ValidRouting.v
Reload.v
CommandLine.v
ReloadProps.v
ReloadConc.v
TestsConfig.v
RateLimit.v
RateLimitProps.v
Proxy.v
ProxyProps.v
Redirect.v
TestsProxy.v
Admin.v
Server.v
ServerProps.v
Upstream.v
System.v
SystemTrail.v
SystemProps.v
SystemRate.v
SystemLoads.v
Tls.v
Logging.v
Shutdown.v
TestsServer.v
TestsTls.v
Main.v
TestsIntegration.v
