(* ===== verification/Prelude.v ===== *)
(** * Verification of the reverse proxy

    A model of the [reverse-proxy] crate (src/src) and the theorems that make it
    correct.  This file holds the overview and the shared prelude.

    ** The program

    The proxy terminates TLS on a list of listeners and forwards each request to
    the upstream of the site its Host names.  A config file is parsed, split into
    a static half (listeners, ports, timeouts) and a dynamic half (sites, limits)
    and validated; both halves live in cells that SIGHUP and an authenticated
    admin endpoint replace while requests are running.  A connection passes the
    accept loop, a process-wide semaphore and a TLS handshake; a request passes
    the rate limiter, the body limit and the forwarding handler, each of which
    loads the dynamic half for itself.  An idle watchdog closes silent
    connections, and a shutdown signal stops the listeners and drains what is in
    flight.

    ** Files and sources

    - [Prelude], [Text], [F64], [Net], [NetRoundtrip]: results, machine integers,
      lists with duplicates; Rust strings; IEEE binary64; [std::net] addresses with
      parser and [Display], and that a printed address parses back.
    - [Http]: the interface to http, hyper and http-body-util: a class of
      operations, a class of their documented laws, and a concrete instance.
    - [Config], [Toml]: the structs of config/static_config.rs,
      config/dynamic_config.rs and config/mod.rs, their serde defaults, and the
      derived deserializers over TOML documents.
    - [Routing]: utils.rs and the routing table of config/dynamic_config.rs.
    - [Validation], [ValidationErrors], [ValidRouting]: config/validation.rs and
      config/fd_budget.rs, the declarative specifications [valid_config] and
      [violation], and what validation and routing give together.
    - [Reload], [ReloadProps], [ReloadConc]: [ConfigReloadHandle],
      [read_and_validate_config], [load_config] and [run_validate]
      (config/mod.rs, config/dynamic_config.rs, cli.rs), first as sequential
      operations, then as tasks that interleave ([task_step]).
    - [RateLimit], [RateLimitProps]: rate_limit/bucket.rs and rate_limit/mod.rs.
    - [Proxy], [ProxyProps]: proxy/headers.rs, proxy/error.rs,
      proxy/body_limit.rs, proxy/handler.rs, proxy/mod.rs and the log events of
      logging/format.rs; [Upstream]: the two clients of proxy/handler.rs.
    - [Redirect]: tls/redirect.rs.  [Tls]: tls/config.rs, tls/acceptor.rs and
      tls/acme.rs.
    - [Admin]: admin/auth.rs, admin/handler.rs and health.rs.
    - [Server], [ServerProps]: server.rs, the accept loops of the listeners included.
    - [CommandLine]: the options of cli.rs.
    - [Logging]: logging/mod.rs, logging/reopen.rs and the visitor of
      logging/format.rs.  [Shutdown]: shutdown.rs.  [Main]: main.rs.
    - [System]: the tasks [run_server] spawns, together over the state they share; a
      request takes a step per layer and one more when its upstream answers.
      [SystemTrail]: the way of a request through a run; [SystemProps]: what holds in
      every reachable state; [SystemRate], [SystemLoads]: the runs between two states,
      as the limiter and as one request see them.
    - [Fixtures]: config/test_fixtures.rs and concrete instances of the
      parameters.  [TestsValidation], [TestsConfig], [TestsProxy], [TestsServer]
      and [TestsTls]: the in-file unit tests of the crate, evaluated on the model.
      [TestsIntegration]: the tests of tests/integration_test.rs, likewise.

    A struct is a [Record], an enum an [Inductive]; integers are [Z] with their
    width in a well-formedness predicate; a Result is [result]; a clock reading or
    a file's content is an argument in program order; an [ArcSwap] cell is a field
    of the state an operation returns; concurrent code is a step function on the
    shared state, run in any order.

    ** What is shown

    - The whole: in every run of [System] the connection cap holds, and a request
      that was sent upstream was admitted by the shared limiter, went to a site of an
      accepted file and carries the true client address ([end_to_end_safety]); the
      watchdog cuts no request off ([no_request_cut_off]), every answer is that of the
      sequential stack on states the process had ([request_explained]), one client
      sends no more than the limits in force and the eviction allow ([client_window]),
      and the sockets of the HTTPS listeners fit the limit on open files
      ([descriptors_fit]).
    - Forwarding: exactly the documented rewriting happens in both directions, the
      handler answers every request on every branch and logs it truly, the limits
      are in front of the upstream, and unreachable upstreams are given up on.
    - Configuration: documents round-trip, [validate] accepts exactly the
      configurations that satisfy its rules and reports exactly the violations, routing finds exactly the
      configured sites, and what is served is always typed and validated.
    - Reloads: a reload is a transaction, interleaved reloads refine the sequential
      one with what each of them read, and startup and reload agree.
    - Rate limiting: a client gets at most burst plus rate times the window, for the
      largest values in force while reloads change them, up to the rounding of
      binary64 that is bounded explicitly; where a bucket takes longer to fill than the
      eviction waits, one burst per eviction age takes the place of the rate; clients do
      not influence each other; silence restores tokens; eviction is invisible to
      clients whose bucket would have been full.
    - Server: the cap is global and bounds the sockets, the idle count is exact,
      stalled and silent connections are released in time, the shutdown sequence
      terminates and reports truly, accept errors are all accounted for.
    - Administration, TLS, logging, signals, startup: no effect without the key,
      keys rotate, TLS settings stay within the policy, rotation loses no line,
      signals act in order, startup succeeds exactly if each step can.

    ** Fuel and bounds

    [drain_in_flight] runs with [drain_fuel], one more than the polls that fit the
    timeout, and is proved to return; [connection_task] takes fuel for its
    watchdog and is proved to end for every large enough fuel once the connection is
    silent; [show_uint] has a digit of
    fuel per bit.  Other recursion is structural.  Binary64 values are exact
    integers at scale 2^-1074; [limiter_invariant] shows that none overflows.

    ** Parameters

    [Unicode] and [UnicodeTrim] (case mapping and trimming of non-ASCII text),
    [FileSystem] (existence of paths), [Toml] (text to document), [Http] with
    [HttpLaws], [Hyper] with [HyperLaws] (connection attempts), [Crypto] (SHA-256
    and hexadecimal), [TlsLib] (PEM and certificate checks), [Clap] (command lines) and the record of
    system calls of [Main].  Theorems with laws have witnesses on concrete
    instances.

    ** Not modelled

    The accept loops of the health and redirect listeners, which are axum's and share no
    state with the rest but the reload handle: what they answer is modelled ([Admin],
    [Redirect]), their connections are not.
    The formatting layers of tracing-subscriber, the ACME protocol, TLS and HTTP
    framing, the generation of certificates for the tests, and the scripts and documents
    outside src/src: libraries the crate only calls, or code with no state of the proxy.
    Log lines are modelled where they are the proxy's record of requests, connections
    and errors; progress messages of the startup are not. *)

From Stdlib Require Export Ascii ZArith Lia.
From stdpp Require Export base tactics decidable option list gmap fin_maps strings.

(** Let [simpl] compute [+:+] on a string that starts with a character. *)
#[global] Arguments String.append : simpl nomatch.

(** ** Results

    Rust's [Result<T, E>]. *)

Inductive result (T E : Type) : Type :=
| Ok (t : T)
| Err (e : E).
Arguments Ok {T E} t.
Arguments Err {T E} e.

#[export] Instance result_eq_dec {T E} `{EqDecision T, EqDecision E} :
  EqDecision (result T E).
Proof. solve_decision. Defined.

Definition is_ok {T E} (r : result T E) : bool :=
  match r with Ok _ => true | Err _ => false end.

Definition ok {T E} (r : result T E) : option T :=
  match r with Ok t => Some t | Err _ => None end.

Definition map_err {T E F} (f : E → F) (r : result T E) : result T F :=
  match r with Ok t => Ok t | Err e => Err (f e) end.

(** The [?] operator. *)
Definition and_then {T U E} (r : result T E) (k : T → result U E) : result U E :=
  match r with Ok t => k t | Err e => Err e end.

Declare Scope rust_scope.
Delimit Scope rust_scope with rust.
Notation "x <-? r ; k" := (and_then r (λ x, k))
  (at level 100, r at next level, right associativity,
   format "x  <-?  r ;  '/' k") : rust_scope.
Lemma and_then_Ok {T U E} (r : result T E) (k : T → result U E) u :
  and_then r k = Ok u ↔ ∃ t, r = Ok t ∧ k t = Ok u.
Proof. destruct r; naive_solver. Qed.

Lemma and_then_Err {T U E} (r : result T E) (k : T → result U E) e :
  and_then r k = Err e ↔ r = Err e ∨ ∃ t, r = Ok t ∧ k t = Err e.
Proof. destruct r; naive_solver. Qed.

(** ** Machine integers

    A Rust unsigned integer is a [Z] in the range of its width. *)

Definition u8_max : Z := 2 ^ 8 - 1.
Definition u16_max : Z := 2 ^ 16 - 1.
Definition u32_max : Z := 2 ^ 32 - 1.
Definition u64_max : Z := 2 ^ 64 - 1.
(** The supported targets are 64-bit. *)
Definition usize_max : Z := u64_max.

Definition in_range (m z : Z) : Prop := (0 ≤ z ≤ m)%Z.

(** [a + b] on [u64] in a release build: overflow checks are off. *)
Definition u64_wrapping_add (a b : Z) : Z := ((a + b) mod 2 ^ 64)%Z.

Lemma u64_wrapping_add_small a b :
  in_range u64_max a → in_range u64_max b → (a + b ≤ u64_max)%Z →
  u64_wrapping_add a b = (a + b)%Z.
Proof.
  unfold in_range, u64_wrapping_add, u64_max. intros. apply Z.mod_small. lia.
Qed.

(** [usize::saturating_sub] and [Duration::saturating_sub]. *)
Definition saturating_sub (a b : Z) : Z := Z.max 0 (a - b).

(** ** Automation *)

Create HintDb proxy.

(** [lia] with division and remainder. *)
Ltac dlia := Z.to_euclidean_division_equations; lia.

(** Splits every [if] and [match] of the goal, discharging impossible branches. *)
Ltac split_cases :=
  repeat (case_match; simplify_eq/=; try done).

(** Turns boolean comparisons and connectives in hypotheses into propositions. *)
Ltac bool_to_prop :=
  repeat match goal with
  | H : (_ && _) = true |- _ => apply andb_true_iff in H as [? ?]
  | H : (_ || _) = false |- _ => apply orb_false_iff in H as [? ?]
  | H : (_ || _) = true |- _ => apply orb_true_iff in H
  | H : (_ && _) = false |- _ => apply andb_false_iff in H
  | H : negb _ = true |- _ => apply negb_true_iff in H
  | H : negb _ = false |- _ => apply negb_false_iff in H
  | H : bool_decide _ = true |- _ => apply bool_decide_eq_true in H
  | H : bool_decide _ = false |- _ => apply bool_decide_eq_false in H
  | H : (_ =? _)%Z = true |- _ => apply Z.eqb_eq in H
  | H : (_ =? _)%Z = false |- _ => apply Z.eqb_neq in H
  | H : (_ <? _)%Z = true |- _ => apply Z.ltb_lt in H
  | H : (_ <? _)%Z = false |- _ => apply Z.ltb_ge in H
  | H : (_ <=? _)%Z = true |- _ => apply Z.leb_le in H
  | H : (_ <=? _)%Z = false |- _ => apply Z.leb_gt in H
  | H : (_ =? _)%string = true |- _ => apply String.eqb_eq in H
  | H : (_ =? _)%string = false |- _ => apply String.eqb_neq in H
  | H : Ascii.eqb _ _ = true |- _ => apply Ascii.eqb_eq in H
  | H : Ascii.eqb _ _ = false |- _ => apply Ascii.eqb_neq in H
  end.

(** ** Lists *)

(** [if c { v.push(x) }] as the suffix it contributes. *)
Definition push_if {A} (c : bool) (x : A) : list A := if c then [x] else [].

Lemma push_if_nil {A} c (x : A) : push_if c x = [] ↔ c = false.
Proof. by destruct c. Qed.

Lemma elem_of_push_if {A} c (x y : A) : y ∈ push_if c x ↔ c = true ∧ y = x.
Proof. destruct c; simpl; [rewrite list_elem_of_singleton|rewrite elem_of_nil]; naive_solver. Qed.

Lemma app_nil_iff {A} (l k : list A) : l ++ k = [] ↔ l = [] ∧ k = [].
Proof. destruct l; naive_solver. Qed.

Lemma concat_nil_iff {A} (ls : list (list A)) :
  concat ls = [] ↔ Forall (λ l, l = []) ls.
Proof.
  induction ls as [|l ls IH]; simpl; [by split|].
  by rewrite app_nil_iff, Forall_cons, IH.
Qed.

(** Distinct keys, none of them in the set [S] of keys seen before: what a loop
    that inserts into a [HashSet] and reports duplicates establishes. *)
Definition fresh `{Countable K} (S : gset K) (ks : list K) : Prop :=
  NoDup ks ∧ (∀ k, k ∈ ks → k ∉ S).

Section Fresh.
Context `{Countable K}.
Implicit Types (S : gset K) (k : K) (ks : list K).

Lemma fresh_nil S : fresh S [].
Proof. split; [constructor|]. intros k Hk. by apply elem_of_nil in Hk. Qed.

Lemma fresh_cons S k ks : fresh S (k :: ks) ↔ (k ∉ S) ∧ fresh ({[k]} ∪ S) ks.
Proof.
  unfold fresh. rewrite NoDup_cons. setoid_rewrite elem_of_cons.
  setoid_rewrite not_elem_of_union. setoid_rewrite not_elem_of_singleton. naive_solver.
Qed.

Lemma fresh_empty ks : fresh ∅ ks ↔ NoDup ks.
Proof. unfold fresh. split; [naive_solver|]. intros. split; [done|]. intros. apply not_elem_of_empty. Qed.
End Fresh.

(** The keys such a loop reports: those that occur twice, or occur and were seen. *)
Definition duplicated {K} (k : K) (ks : list K) : Prop :=
  ∃ l1 l2 l3, ks = l1 ++ k :: l2 ++ k :: l3.

Definition repeated `{Countable K} (S : gset K) (k : K) (ks : list K) : Prop :=
  (k ∈ S ∧ k ∈ ks) ∨ duplicated k ks.

Lemma duplicated_cons {K} (k k' : K) ks :
  duplicated k (k' :: ks) ↔ (k = k' ∧ k ∈ ks) ∨ duplicated k ks.
Proof.
  unfold duplicated. split.
  - intros (l1 & l2 & l3 & E). destruct l1 as [|x l1]; simplify_eq/=.
    + left. split; [done|]. apply elem_of_app. right. apply list_elem_of_here.
    + right. by exists l1, l2, l3.
  - intros [[-> (l2 & l3 & ->)%list_elem_of_split]|(l1 & l2 & l3 & ->)].
    + by exists [], l2, l3.
    + by exists (k' :: l1), l2, l3.
Qed.

Lemma duplicated_NoDup {K} `{EqDecision K} (ks : list K) : (∀ k, ¬ duplicated k ks) ↔ NoDup ks.
Proof.
  induction ks as [|k ks IH].
  - split; [constructor|]. intros _ k ([|] & l2 & l3 & E); done.
  - rewrite NoDup_cons, <- IH. setoid_rewrite duplicated_cons. naive_solver.
Qed.

Lemma repeated_nil `{Countable K} (S : gset K) k : ¬ repeated S k [].
Proof. intros [[_ []%elem_of_nil]|([|] & l2 & l3 & E)]; done. Qed.

Lemma repeated_cons `{Countable K} (S : gset K) k k' ks :
  repeated S k (k' :: ks) ↔ (k' ∈ S ∧ k = k') ∨ repeated ({[k']} ∪ S) k ks.
Proof.
  unfold repeated. rewrite duplicated_cons, elem_of_cons, elem_of_union, elem_of_singleton.
  destruct (decide (k = k')); naive_solver.
Qed.

Lemma repeated_empty `{Countable K} k ks : repeated (∅ : gset K) k ks ↔ duplicated k ks.
Proof. unfold repeated. rewrite elem_of_empty. naive_solver. Qed.

(** ** Counting in maps *)

(** How many entries of a map satisfy a test. *)
Definition n_in `{Countable K} {A} (P : A → bool) (m : gmap K A) : Z :=
  Z.of_nat (size (filter (λ kv, P kv.2 = true) m)).

Section Counting.
Context `{Countable K} {A : Type}.
Implicit Types (P : A → bool) (m : gmap K A) (i : K) (x y : A).

Lemma n_in_empty P : n_in P (∅ : gmap K A) = 0%Z.
Proof. unfold n_in. by rewrite map_filter_empty, map_size_empty. Qed.

Lemma n_in_nonneg P m : (0 ≤ n_in P m)%Z.
Proof. unfold n_in. lia. Qed.

Lemma n_in_le_size P m : (n_in P m ≤ Z.of_nat (size m))%Z.
Proof. unfold n_in. apply Nat2Z.inj_le, map_subseteq_size, map_filter_subseteq. Qed.

Lemma n_in_insert P m i x :
  m !! i = None → n_in P (<[i := x]> m) = (n_in P m + Z.b2z (P x))%Z.
Proof.
  intros Hi. unfold n_in. destruct (P x) eqn:Hx.
  - rewrite map_filter_insert_True by done. rewrite map_size_insert_None; [simpl; lia|].
    rewrite map_lookup_filter, Hi. done.
  - rewrite map_filter_insert_False by (simpl; congruence). rewrite delete_id by done. simpl. lia.
Qed.

Lemma n_in_update P m i x y :
  m !! i = Some x → n_in P (<[i := y]> m) = (n_in P m - Z.b2z (P x) + Z.b2z (P y))%Z.
Proof.
  intros Hi. rewrite <- (insert_delete_id m i x Hi) at 2. rewrite <- insert_delete_eq.
  rewrite !n_in_insert by apply lookup_delete_eq. lia.
Qed.

Lemma n_in_zero P m : n_in P m = 0%Z ↔ ∀ i x, m !! i = Some x → P x = false.
Proof.
  unfold n_in. split.
  - intros Hz i x Hi. destruct (P x) eqn:Hx; [|done].
    assert (filter (λ kv, P kv.2 = true) m = ∅) as He by (apply map_size_empty_iff; lia).
    assert (filter (λ kv, P kv.2 = true) m !! i = Some x) as Hf.
    { rewrite map_lookup_filter, Hi. simpl. by rewrite option_guard_True. }
    by rewrite He, lookup_empty in Hf.
  - intros Hall. replace (filter (λ kv, P kv.2 = true) m) with (∅ : gmap K A); [by rewrite map_size_empty|].
    symmetry. apply map_empty. intros i. rewrite map_lookup_filter.
    destruct (m !! i) as [x|] eqn:Hi; simpl; [|done].
    rewrite option_guard_False; [done|]. by rewrite (Hall i x Hi).
Qed.
End Counting.

(** ** Runs

    A component whose steps are a partial function of an event, run on a list of
    events, and the moments such a run passes. *)

Section Steps.
Context {S E : Type} (step : S → E → option S).

Fixpoint steps (s : S) (evs : list E) : option S :=
  match evs with
  | [] => Some s
  | ev :: evs => s' ← step s ev; steps s' evs
  end.

(** The run from [s] passes these moments, in this order: the event happens in the state
    beside it. *)
Fixpoint moments (s : S) (evs : list E) (ms : list (E * S)) : Prop :=
  match ms with
  | [] => True
  | (ev, s1) :: ms =>
      ∃ e1 e2 s2, evs = e1 ++ ev :: e2 ∧ steps s e1 = Some s1 ∧ step s1 ev = Some s2 ∧ moments s2 e2 ms
  end.

Lemma steps_app s evs evs' : steps s (evs ++ evs') = s1 ← steps s evs; steps s1 evs'.
Proof.
  revert s. induction evs as [|e evs IH]; intros s; simpl; [done|].
  destruct (step s e) as [s1|]; simpl; [apply IH|done].
Qed.

Lemma steps_snoc s evs ev s' :
  steps s (evs ++ [ev]) = Some s' ↔ ∃ s1, steps s evs = Some s1 ∧ step s1 ev = Some s'.
Proof.
  rewrite steps_app, bind_Some. simpl. split; intros (s1 & Hr & Hs); exists s1; (split; [done|]).
  - by apply bind_Some in Hs as (? & ? & [= <-]).
  - by rewrite Hs.
Qed.

(** What every step preserves holds at the end of a run. *)
Lemma steps_preserve (P : S → Prop) s evs s' :
  (∀ s ev s', P s → step s ev = Some s' → P s') → P s → steps s evs = Some s' → P s'.
Proof.
  intros HP. revert s. induction evs as [|ev evs IH]; intros s Hs; simpl; [naive_solver|].
  intros (s1 & Hev & Hr)%bind_Some. eapply IH; [|done]. by eapply HP.
Qed.

Lemma moments_more s evs evs' ms : moments s evs ms → moments s (evs ++ evs') ms.
Proof.
  revert s evs. induction ms as [|[ev s1] ms IH]; intros s evs; simpl; [done|].
  intros (e1 & e2 & s2 & -> & Hr & Hs & Hm%IH). exists e1, (e2 ++ evs'), s2.
  by rewrite <- (assoc_L (++)).
Qed.

Lemma moments_snoc s evs ms s1 ev s2 :
  moments s evs ms → steps s evs = Some s1 → step s1 ev = Some s2 → moments s (evs ++ [ev]) (ms ++ [(ev, s1)]).
Proof.
  intros Hm Hr Hs. revert s evs Hm Hr. induction ms as [|[e s0] ms IH]; intros s evs Hm Hr; simpl.
  - by exists evs, [], s2.
  - destruct Hm as (e1 & e2 & s3 & -> & Hr1 & Hs1 & Hm). exists e1, (e2 ++ [ev]), s3.
    rewrite <- (assoc_L (++)). split; [done|]. split; [done|]. split; [done|]. apply IH; [done|].
    rewrite steps_app, Hr1 in Hr. simpl in Hr. by rewrite Hs1 in Hr.
Qed.

Lemma moments_take s evs ms ms' : moments s evs (ms ++ ms') → moments s evs ms.
Proof.
  revert s evs. induction ms as [|[ev s1] ms IH]; intros s evs; simpl; [done|].
  intros (e1 & e2 & s2 & -> & Hr & Hs & Hm%IH). by exists e1, e2, s2.
Qed.

(** Every moment is a state the run went through. *)
Lemma moments_state (P : S → Prop) s evs ms ev s1 :
  (∀ s ev s', P s → step s ev = Some s' → P s') → P s → moments s evs ms → (ev, s1) ∈ ms → P s1.
Proof.
  intros HP. revert s evs. induction ms as [|[e s2] ms IH]; intros s evs Hs; simpl; [by rewrite elem_of_nil|].
  intros (e1 & e2 & s3 & -> & Hr & Hstep & Hm) Hin. pose proof (steps_preserve P s e1 s2 HP Hs Hr) as H2.
  apply elem_of_cons in Hin as [[= -> ->]|Hin]; [done|]. eapply IH; [|exact Hm|done]. by eapply HP.
Qed.
End Steps.
