(* ===== verification/Text.v ===== *)
(** * Rust strings

    A [&str] or [String] is the byte string of its UTF-8 encoding.  Every
    pattern the proxy searches for is ASCII, and an ASCII byte never occurs
    inside the encoding of another character, so the searches below are exact
    on bytes.  Sections: searching and slicing, case mapping, decimal numbers. *)

From S2P Require Import Prelude.
Local Open Scope string_scope.
Local Open Scope list_scope.

(** ** Searching and slicing *)

Definition is_empty (s : string) : bool :=
  match s with EmptyString => true | _ => false end.

Definition starts_with (p s : string) : bool := String.prefix p s.

Definition starts_with_char (c : ascii) (s : string) : bool :=
  match s with EmptyString => false | String a _ => Ascii.eqb a c end.

Fixpoint ends_with_char (c : ascii) (s : string) : bool :=
  match s with
  | EmptyString => false
  | String a EmptyString => Ascii.eqb a c
  | String _ s' => ends_with_char c s'
  end.

Fixpoint contains_char (c : ascii) (s : string) : bool :=
  match s with
  | EmptyString => false
  | String a s' => Ascii.eqb a c || contains_char c s'
  end.

Fixpoint contains (p s : string) : bool :=
  String.prefix p s ||
  match s with EmptyString => false | String _ s' => contains p s' end.

(** [str::find] with a [char] pattern. *)
Fixpoint find_char (c : ascii) (s : string) : option nat :=
  match s with
  | EmptyString => None
  | String a s' => if Ascii.eqb a c then Some O else S <$> find_char c s'
  end.

(** [str::rfind] with a [char] pattern. *)
Fixpoint rfind_char (c : ascii) (s : string) : option nat :=
  match s with
  | EmptyString => None
  | String a s' =>
      match rfind_char c s' with
      | Some n => Some (S n)
      | None => if Ascii.eqb a c then Some O else None
      end
  end.

(** [&s[..n]] *)
Fixpoint str_take (n : nat) (s : string) : string :=
  match n, s with
  | S n', String a s' => String a (str_take n' s')
  | _, _ => EmptyString
  end.

(** [&s[n..]] *)
Fixpoint str_drop (n : nat) (s : string) : string :=
  match n, s with
  | S n', String _ s' => str_drop n' s'
  | _, _ => s
  end.

Definition strip_prefix_char (c : ascii) (s : string) : option string :=
  match s with
  | String a s' => if Ascii.eqb a c then Some s' else None
  | EmptyString => None
  end.

Definition strip_suffix_char (c : ascii) (s : string) : option string :=
  if ends_with_char c s then Some (str_take (String.length s - 1) s) else None.

(** [str::split] with a [char] pattern: never empty, and [""] gives [[""]]. *)
Fixpoint split_char (c : ascii) (s : string) : list string :=
  match s with
  | EmptyString => [EmptyString]
  | String a s' =>
      if Ascii.eqb a c then EmptyString :: split_char c s'
      else match split_char c s' with
           | [] => [String a EmptyString]
           | w :: ws => String a w :: ws
           end
  end.

(** [chars().all(f)] for an [f] that is false outside ASCII. *)
Fixpoint str_all (f : ascii → bool) (s : string) : bool :=
  match s with EmptyString => true | String a s' => f a && str_all f s' end.

(** [Vec<String>::join]. *)
Fixpoint join (sep : string) (l : list string) : string :=
  match l with
  | [] => ""
  | [x] => x
  | x :: l' => x +:+ sep +:+ join sep l'
  end.

(** ** Characters *)

Definition code (a : ascii) : Z := Z.of_N (N_of_ascii a).

Definition is_ascii (a : ascii) : bool := (code a <? 128)%Z.
Definition is_ascii_digit (a : ascii) : bool := (48 <=? code a)%Z && (code a <=? 57)%Z.
Definition is_ascii_uppercase (a : ascii) : bool := (65 <=? code a)%Z && (code a <=? 90)%Z.
Definition is_ascii_lowercase (a : ascii) : bool := (97 <=? code a)%Z && (code a <=? 122)%Z.
Definition is_ascii_alphanumeric (a : ascii) : bool :=
  is_ascii_digit a || is_ascii_uppercase a || is_ascii_lowercase a.

(** [char::to_digit(radix)] for radix 10 and 16. *)
Definition to_digit (radix : Z) (a : ascii) : option Z :=
  let d :=
    if is_ascii_digit a then Some (code a - 48)%Z
    else if is_ascii_lowercase a then Some (code a - 87)%Z
    else if is_ascii_uppercase a then Some (code a - 55)%Z
    else None in
  match d with Some v => if (v <? radix)%Z then Some v else None | None => None end.

Definition ascii_lower (a : ascii) : ascii :=
  if is_ascii_uppercase a then ascii_of_N (Z.to_N (code a + 32)) else a.

Fixpoint str_map (f : ascii → ascii) (s : string) : string :=
  match s with EmptyString => EmptyString | String a s' => String (f a) (str_map f s') end.

(** ** Case mapping

    [str::to_lowercase] follows the Unicode tables.  On an ASCII string it maps
    [A]-[Z]; what it does on other strings is a parameter. *)

Class Unicode := { unicode_to_lowercase : string → string }.

Definition to_lowercase `{Unicode} (s : string) : string :=
  if str_all is_ascii s then str_map ascii_lower s else unicode_to_lowercase s.

(** ** Decimal numbers *)

(** The digit loop of [u16::from_str], [u64::from_str]: [checked_mul] and
    [checked_add] fail past [m]. *)
Fixpoint parse_digits (m acc : Z) (s : string) : option Z :=
  match s with
  | EmptyString => Some acc
  | String a s' =>
      match to_digit 10 a with
      | None => None
      | Some d =>
          let v := (acc * 10 + d)%Z in
          if (v <=? m)%Z then parse_digits m v s' else None
      end
  end.

(** [str::parse::<uN>()] with largest value [m]: an optional ["+"], then at
    least one digit. *)
Definition parse_uint (m : Z) (s : string) : option Z :=
  let s := default s (strip_prefix_char "+" s) in
  if is_empty s then None else parse_digits m 0 s.

Definition digit_char (d : Z) : ascii := ascii_of_N (Z.to_N (48 + d)).

Fixpoint show_go (fuel : nat) (n : Z) (acc : string) : string :=
  match fuel with
  | O => acc
  | S f =>
      let acc := String (digit_char (n mod 10)) acc in
      if (n <? 10)%Z then acc else show_go f (n / 10) acc
  end.

(** [Display] for unsigned integers.  [log2 n + 1] bounds the digit count. *)
Definition show_uint (n : Z) : string := show_go (S (Z.to_nat (Z.log2 n))) n "".

(** ** Lemmas on searching and slicing *)

Lemma contains_char_false c s :
  contains_char c s = false ↔ str_all (λ a, negb (Ascii.eqb a c)) s = true.
Proof.
  induction s as [|a s IH]; simpl; [done|].
  rewrite orb_false_iff, andb_true_iff, negb_true_iff. naive_solver.
Qed.

Lemma str_all_impl (f g : ascii → bool) s :
  (∀ a, f a = true → g a = true) → str_all f s = true → str_all g s = true.
Proof.
  intros Hfg. induction s as [|a s IH]; simpl; [done|].
  rewrite !andb_true_iff. naive_solver.
Qed.

Lemma str_all_app f s t : str_all f (s +:+ t) = str_all f s && str_all f t.
Proof. induction s as [|a s IH]; simpl; [done|]. by rewrite IH, andb_assoc. Qed.

Lemma str_all_map f (g : ascii → ascii) s :
  str_all f (str_map g s) = str_all (λ a, f (g a)) s.
Proof. induction s as [|a s IH]; simpl; [done|]. by rewrite IH. Qed.

Lemma str_all_ext (f g : ascii → bool) s :
  (∀ a, f a = g a) → str_all f s = str_all g s.
Proof. intros Hfg. induction s as [|a s IH]; simpl; [done|]. by rewrite Hfg, IH. Qed.

Lemma rfind_char_None c s : contains_char c s = false → rfind_char c s = None.
Proof.
  induction s as [|a s IH]; simpl; [done|].
  intros [-> Hs]%orb_false_iff. by rewrite IH.
Qed.

Lemma rfind_char_last c s t :
  contains_char c t = false → rfind_char c (s +:+ String c t) = Some (String.length s).
Proof.
  intros Ht. induction s as [|a s IH]; simpl.
  - by rewrite rfind_char_None, Ascii.eqb_refl.
  - by rewrite IH.
Qed.

Lemma rfind_char_Some c s n :
  rfind_char c s = Some n →
  s = str_take n s +:+ String c (str_drop (S n) s) ∧
  contains_char c (str_drop (S n) s) = false.
Proof.
  revert n. induction s as [|a s IH]; simpl; intros n Hn; [done|].
  destruct (rfind_char c s) as [k|] eqn:Hk; simplify_eq.
  - destruct (IH k eq_refl) as [Hs Hc]. simpl. split; [|done]. by rewrite Hs at 1.
  - destruct (Ascii.eqb a c) eqn:Ha; simplify_eq. bool_to_prop. subst. simpl.
    split; [done|]. clear IH. induction s as [|b s IH]; simpl in *; [done|].
    destruct (rfind_char c s); [done|]. destruct (Ascii.eqb b c); [done|]. auto.
Qed.

Lemma find_char_None c s : contains_char c s = false → find_char c s = None.
Proof.
  induction s as [|a s IH]; simpl; [done|].
  intros [-> Hs]%orb_false_iff. by rewrite IH.
Qed.

Lemma find_char_first c s t :
  contains_char c s = false → find_char c (s +:+ String c t) = Some (String.length s).
Proof.
  induction s as [|a s IH]; simpl.
  - by rewrite Ascii.eqb_refl.
  - intros [-> Hs]%orb_false_iff. by rewrite IH.
Qed.

Lemma str_take_app s t : str_take (String.length s) (s +:+ t) = s.
Proof. induction s as [|a s IH]; simpl; [by destruct t|]. by rewrite IH. Qed.

Lemma str_take_app_S s c t : str_take (S (String.length s)) (s +:+ String c t) = s +:+ String c "".
Proof.
  induction s as [|a s IH]; [simpl; by destruct t|].
  change (String a (str_take (S (String.length s)) (s +:+ String c t)) = String a (s +:+ String c "")).
  by rewrite IH.
Qed.

Lemma str_take_all s : str_take (String.length s) s = s.
Proof. induction s as [|a s IH]; simpl; [done|]. by rewrite IH. Qed.

Lemma str_drop_app s t : str_drop (String.length s) (s +:+ t) = t.
Proof. induction s as [|a s IH]; simpl; [by destruct t|]. done. Qed.

Lemma str_app_assoc (s t u : string) : (s +:+ t) +:+ u = s +:+ t +:+ u.
Proof. induction s as [|a s IH]; simpl; [done|]. by rewrite IH. Qed.

Lemma str_app_nil_r (s : string) : s +:+ "" = s.
Proof. induction s as [|a s IH]; simpl; [done|]. by rewrite IH. Qed.

Lemma str_length_app (s t : string) :
  String.length (s +:+ t) = String.length s + String.length t.
Proof. induction s as [|a s IH]; simpl; [done|]. by rewrite IH. Qed.

Lemma starts_with_char_false c s :
  contains_char c s = false → starts_with_char c s = false.
Proof. destruct s; simpl; [done|]. by intros [? ?]%orb_false_iff. Qed.

Lemma ends_with_char_false c s :
  contains_char c s = false → ends_with_char c s = false.
Proof.
  induction s as [|a s IH]; simpl; [done|]. intros [Ha Hs]%orb_false_iff.
  destruct s; [done|]. by apply IH.
Qed.

Lemma ends_with_char_app c s : ends_with_char c (s +:+ String c "") = true.
Proof.
  induction s as [|a s IH]; simpl; [by rewrite Ascii.eqb_refl|].
  destruct (s +:+ String c "") eqn:E; [by destruct s|done].
Qed.

Lemma strip_suffix_char_app c s : strip_suffix_char c (s +:+ String c "") = Some s.
Proof.
  unfold strip_suffix_char. rewrite ends_with_char_app, str_length_app. simpl.
  replace (String.length s + 1 - 1) with (String.length s) by lia.
  by rewrite str_take_app.
Qed.

Lemma starts_with_char_prefix c s : starts_with_char c (String c s) = true.
Proof. apply Ascii.eqb_refl. Qed.

Lemma prefix_app (p s : string) : String.prefix p (p +:+ s) = true.
Proof.
  induction p as [|a p IH]; simpl; [by destruct s|].
  destruct (ascii_dec a a); [done|congruence].
Qed.

Lemma prefix_spec (p s : string) :
  String.prefix p s = true ↔ ∃ t, s = p +:+ t.
Proof.
  split; [|intros [t ->]; apply prefix_app].
  revert s. induction p as [|a p IH]; intros s; simpl; [intros _; by exists s|].
  destruct s as [|b s]; [done|]. simpl. destruct (ascii_dec a b) as [->|]; [|done].
  intros [t ->]%IH. by exists t.
Qed.

Lemma contains_char_app c s t :
  contains_char c (s +:+ t) = contains_char c s || contains_char c t.
Proof. induction s as [|a s IH]; simpl; [done|]. by rewrite IH, orb_assoc. Qed.

#[export] Hint Resolve starts_with_char_false ends_with_char_false
  rfind_char_None find_char_None : proxy.

(** ** Lemmas on case mapping *)

(** A statement about all characters, decided by running through the 256 of them. *)
Lemma ascii_forall (P : ascii → bool) :
  forallb P (map (λ n, ascii_of_nat n) (seq 0 256)) = true → ∀ a, P a = true.
Proof.
  intros H a. rewrite <- (ascii_nat_embedding a).
  apply (proj1 (forallb_forall P _) H), in_map_iff.
  exists (nat_of_ascii a). split; [done|]. apply in_seq.
  pose proof (nat_ascii_bounded a). lia.
Qed.

(** The same for an implication between two classes of characters. *)
Lemma ascii_forall_impl (P Q : ascii → bool) :
  forallb (λ a, implb (P a) (Q a)) (map (λ n, ascii_of_nat n) (seq 0 256)) = true →
  ∀ a, P a = true → Q a = true.
Proof. intros H a Ha. pose proof (ascii_forall _ H a) as Hi. simpl in Hi. by rewrite Ha in Hi. Qed.

Lemma ascii_lower_idemp a : ascii_lower (ascii_lower a) = ascii_lower a.
Proof.
  apply Ascii.eqb_eq. revert a. apply ascii_forall. vm_compute. reflexivity.
Qed.

Lemma str_map_lower_idemp s :
  str_map ascii_lower (str_map ascii_lower s) = str_map ascii_lower s.
Proof. induction s as [|a s IH]; simpl; [done|]. by rewrite ascii_lower_idemp, IH. Qed.

Lemma ascii_lower_ascii a : is_ascii (ascii_lower a) = is_ascii a.
Proof.
  apply eqb_prop. revert a. apply ascii_forall. vm_compute. reflexivity.
Qed.

Lemma ascii_lower_other a c :
  is_ascii_uppercase c = false → is_ascii_lowercase c = false →
  Ascii.eqb (ascii_lower a) c = Ascii.eqb a c.
Proof.
  intros Hu Hl. unfold ascii_lower. destruct (is_ascii_uppercase a) eqn:Ha; [|done].
  assert (is_ascii_lowercase (ascii_of_N (Z.to_N (code a + 32))) = true) as Hal.
  { revert Ha. assert (∀ b, implb (is_ascii_uppercase b)
      (is_ascii_lowercase (ascii_of_N (Z.to_N (code b + 32)))) = true) as Hb
      by (apply ascii_forall; vm_compute; reflexivity).
    specialize (Hb a). by destruct (is_ascii_uppercase a). }
  transitivity false; [|symmetry]; apply Ascii.eqb_neq; congruence.
Qed.

Lemma contains_char_lower c s :
  is_ascii_uppercase c = false → is_ascii_lowercase c = false →
  contains_char c (str_map ascii_lower s) = contains_char c s.
Proof.
  intros Hu Hl. induction s as [|a s IH]; simpl; [done|].
  by rewrite ascii_lower_other, IH.
Qed.

Lemma str_map_length f s : String.length (str_map f s) = String.length s.
Proof. induction s; simpl; auto. Qed.

Lemma str_map_app f s t : str_map f (s +:+ t) = str_map f s +:+ str_map f t.
Proof. induction s as [|a s IH]; simpl; [done|]. by rewrite IH. Qed.

Section Lowercase.
Context `{Unicode}.

Lemma to_lowercase_ascii s :
  str_all is_ascii s = true → to_lowercase s = str_map ascii_lower s.
Proof. unfold to_lowercase. by intros ->. Qed.

Lemma to_lowercase_idemp_ascii s :
  str_all is_ascii s = true → to_lowercase (to_lowercase s) = to_lowercase s.
Proof.
  intros Hs. rewrite (to_lowercase_ascii s) by done. rewrite to_lowercase_ascii.
  - apply str_map_lower_idemp.
  - rewrite str_all_map, (str_all_ext _ is_ascii); auto using ascii_lower_ascii.
Qed.
End Lowercase.

(** ** Lemmas on decimal numbers *)

Lemma digit_char_spec d :
  (0 ≤ d < 10)%Z →
  to_digit 10 (digit_char d) = Some d ∧ is_ascii_digit (digit_char d) = true.
Proof.
  intros Hd. assert (d ∈ [0;1;2;3;4;5;6;7;8;9]%Z) as Hin.
  { rewrite !elem_of_cons, elem_of_nil. lia. }
  rewrite !elem_of_cons, elem_of_nil in Hin.
  destruct_or! Hin; subst; done.
Qed.

Lemma show_go_digits fuel n acc :
  (0 ≤ n)%Z → str_all is_ascii_digit acc = true →
  str_all is_ascii_digit (show_go fuel n acc) = true.
Proof.
  revert n acc. induction fuel as [|f IH]; intros n acc Hn Hacc; simpl; [done|].
  assert (str_all is_ascii_digit (String (digit_char (n mod 10)) acc) = true) as H'.
  { simpl. rewrite Hacc, (proj2 (digit_char_spec (n mod 10) ltac:(dlia))). done. }
  destruct (n <? 10)%Z; [done|]. apply IH; [dlia|done].
Qed.

Lemma show_uint_digits n : (0 ≤ n)%Z → str_all is_ascii_digit (show_uint n) = true.
Proof. intros. by apply show_go_digits. Qed.

Lemma show_uint_contains c n :
  (0 ≤ n)%Z → is_ascii_digit c = false → contains_char c (show_uint n) = false.
Proof.
  intros Hn Hc. apply contains_char_false.
  eapply str_all_impl; [|by apply show_uint_digits].
  intros a Ha. apply negb_true_iff. destruct (Ascii.eqb a c) eqn:E; [|done].
  bool_to_prop. congruence.
Qed.

Lemma parse_digits_show_go m fuel n acc :
  (0 ≤ n ≤ m)%Z → (n < 2 ^ Z.of_nat fuel)%Z → (0 < fuel)%nat →
  parse_digits m 0 (show_go fuel n acc) = parse_digits m n acc.
Proof.
  revert n acc. induction fuel as [|f IH]; intros n acc Hn Hf H0; [lia|].
  simpl show_go. destruct (digit_char_spec (n mod 10)) as [Hd _]; [dlia|].
  destruct (Z.ltb_spec n 10).
  - cbn [parse_digits]. rewrite Hd. rewrite (Z.mod_small n 10) by lia.
    cbn zeta. replace (0 * 10 + n)%Z with n by lia. by rewrite (proj2 (Z.leb_le n m)) by lia.
  - assert (2 ^ Z.of_nat (S f) = 2 * 2 ^ Z.of_nat f)%Z as Hpow.
    { rewrite Nat2Z.inj_succ, Z.pow_succ_r by lia. done. }
    rewrite IH; [| |rewrite Hpow in Hf|].
    + cbn [parse_digits]. rewrite Hd. cbn zeta.
      replace (n / 10 * 10 + n mod 10)%Z with n by dlia.
      by rewrite (proj2 (Z.leb_le n m)) by lia.
    + dlia.
    + dlia.
    + destruct f; [simpl in Hf; lia|lia].
Qed.

Lemma show_uint_nonempty n : is_empty (show_uint n) = false.
Proof.
  unfold show_uint. cbn [show_go].
  assert (∀ f k c s, is_empty (show_go f k (String c s)) = false) as Hne.
  { induction f as [|f IH]; intros; simpl; [done|]. destruct (_ <? _)%Z; auto. }
  destruct (_ <? _)%Z; auto.
Qed.

Lemma strip_plus_show n : (0 ≤ n)%Z → strip_prefix_char "+" (show_uint n) = None.
Proof.
  intros Hn. pose proof (show_uint_digits n Hn) as Hd. pose proof (show_uint_nonempty n).
  destruct (show_uint n) as [|a s]; [done|]. simpl in *.
  destruct (Ascii.eqb a "+") eqn:E; [|done]. bool_to_prop. subst. done.
Qed.

(** Printing a number in range and parsing it back gives the number. *)
Lemma parse_show_uint m n : (0 ≤ n ≤ m)%Z → parse_uint m (show_uint n) = Some n.
Proof.
  intros Hn. unfold parse_uint. rewrite strip_plus_show by lia. simpl default.
  rewrite show_uint_nonempty. unfold show_uint. rewrite parse_digits_show_go; [done|lia| |lia].
  rewrite Nat2Z.inj_succ, Z2Nat.id by apply Z.log2_nonneg.
  destruct (Z.eq_dec n 0%Z) as [->|]; [done|]. apply Z.log2_spec. lia.
Qed.

Lemma parse_digits_bound m acc s n :
  (0 ≤ acc ≤ m)%Z → parse_digits m acc s = Some n → (0 ≤ n ≤ m)%Z.
Proof.
  revert acc. induction s as [|a s IH]; intros acc Hacc; simpl; [intros; simplify_eq; lia|].
  destruct (to_digit 10 a) as [d|] eqn:Hd; [|done].
  destruct (Z.leb_spec (acc * 10 + d) m); [|done].
  apply IH. split; [|done].
  assert (0 ≤ d)%Z; [|lia].
  unfold to_digit, is_ascii_digit, is_ascii_lowercase, is_ascii_uppercase in Hd.
  repeat case_match; simplify_eq; bool_to_prop; lia.
Qed.

Lemma parse_uint_bound m s n : (0 ≤ m)%Z → parse_uint m s = Some n → (0 ≤ n ≤ m)%Z.
Proof.
  unfold parse_uint. intros Hm. destruct (is_empty _); [done|].
  apply parse_digits_bound. lia.
Qed.
