(* ===== verification/F64.v ===== *)
(** * IEEE 754 binary64

    The finite doubles are integer multiples of [2^-1074]: a value of type
    [f64] is that integer.  Arithmetic is the exact result rounded to nearest,
    ties to even, at 53 significant bits; below [2^53] units (the subnormal
    range and the first normal binades) the spacing is one unit.  Infinities
    and NaN have no representation here: [RateLimit] proves that every
    intermediate value of the rate limiter stays below [2^1024]. *)

From S2P Require Import Prelude.
Local Open Scope Z_scope.

Definition f64 : Type := Z.

(** One, in units of [2^-1074]. *)
Definition one_unit : Z := 2 ^ 1074.

(** The integer nearest to [n / d], ties to even. *)
Definition rne (n d : Z) : Z :=
  let q := n / d in
  let r := n mod d in
  match 2 * r ?= d with
  | Lt => q
  | Gt => q + 1
  | Eq => if Z.even q then q else q + 1
  end.

(** The exponent of the spacing of doubles around [n / d] units. *)
Definition ulp_exp (n d : Z) : Z := Z.max 0 (Z.log2 (n / d) - 52).

Definition round_pos (n d : Z) : Z :=
  let e := ulp_exp n d in rne n (d * 2 ^ e) * 2 ^ e.

(** The double nearest to [n / d] units. *)
Definition round (n d : Z) : f64 :=
  if n <? 0 then - round_pos (- n) d else round_pos n d.

(** [x as f64] for an integer [x]. *)
Definition f64_of_int (x : Z) : f64 := round (x * one_unit) 1.
Definition f64_add (x y : f64) : f64 := round (x + y) 1.
Definition f64_sub (x y : f64) : f64 := round (x - y) 1.
Definition f64_mul (x y : f64) : f64 := round (x * y) one_unit.
(** Division by a positive double. *)
Definition f64_div (x y : f64) : f64 := round (x * one_unit) y.
(** [f64::min] on non-NaN values. *)
Definition f64_min (x y : f64) : f64 := Z.min x y.
Definition f64_ge (x y : f64) : bool := y <=? x.

(** ** Rounding to an integer *)

Lemma rne_spec n d :
  0 < d →
  2 * n - d ≤ 2 * d * rne n d ≤ 2 * n + d ∧
  (2 * d * rne n d = 2 * n - d ∨ 2 * d * rne n d = 2 * n + d → Z.even (rne n d) = true).
Proof.
  intros Hd. unfold rne. pose proof (Z.div_mod n d ltac:(lia)) as Hdm.
  pose proof (Z.mod_pos_bound n d Hd) as Hr.
  set (q := n / d) in *. set (r := n mod d) in *. clearbody q r. subst n.
  destruct (Z.compare_spec (2 * r) d).
  - destruct (Z.even q) eqn:Hq; (split; [nia|]); [done|].
    intros _. by rewrite Z.even_add, Hq.
  - split; [nia|]. intros [?|?]; exfalso; nia.
  - split; [nia|]. intros [?|?]; exfalso; nia.
Qed.

Lemma rne_mono n1 d1 n2 d2 :
  0 < d1 → 0 < d2 → n1 * d2 ≤ n2 * d1 → rne n1 d1 ≤ rne n2 d2.
Proof.
  intros Hd1 Hd2 Hle. apply Z.nlt_ge. intros Hlt.
  destruct (rne_spec n1 d1 Hd1) as [[_ Hu1] Ht1].
  destruct (rne_spec n2 d2 Hd2) as [[Hl2 _] Ht2].
  set (k1 := rne n1 d1) in *. set (k2 := rne n2 d2) in *. clearbody k1 k2.
  (* [k1 - 1/2 ≤ n1/d1 ≤ n2/d2 ≤ k2 + 1/2] and [k2 + 1 ≤ k1] force ties *)
  assert (d1 * d2 * (2 * k1) ≤ d1 * d2 * (2 * k2 + 2)) as Hk by nia.
  assert (k1 = k2 + 1) as -> by nia.
  assert (2 * d1 * (k2 + 1) = 2 * n1 + d1) as E1 by nia.
  assert (2 * d2 * k2 = 2 * n2 - d2) as E2 by nia.
  specialize (Ht1 (or_intror E1)). specialize (Ht2 (or_introl E2)).
  by rewrite Z.even_add, Ht2 in Ht1.
Qed.

Lemma rne_exact k d : 0 < d → rne (k * d) d = k.
Proof.
  intros Hd. unfold rne. rewrite Z.div_mul, Z.mod_mul by lia.
  destruct (Z.compare_spec (2 * 0) d); lia.
Qed.

Lemma rne_nonneg n d : 0 < d → 0 ≤ n → 0 ≤ rne n d.
Proof.
  intros Hd Hn. rewrite <- (rne_exact 0 1) by lia. apply rne_mono; nia.
Qed.

(** ** Rounding to a double *)

Section Rounding.
Context (n d : Z) (Hd : 0 < d) (Hn : 0 ≤ n).

Lemma ulp_exp_nonneg : 0 ≤ ulp_exp n d.
Proof. unfold ulp_exp. lia. Qed.

Lemma ulp_exp_upper : n < d * 2 ^ (ulp_exp n d + 53).
Proof.
  pose proof (Z.mul_succ_div_gt n d Hd) as Hgt.
  assert (n / d < 2 ^ (Z.log2 (n / d) + 1)) as Hlog.
  { destruct (Z.eq_dec (n / d) 0) as [->|Hne]; [done|].
    apply Z.log2_spec. pose proof (Z.div_pos n d). lia. }
  pose proof (Z.log2_nonneg (n / d)).
  assert (2 ^ (Z.log2 (n / d) + 1) ≤ 2 ^ (ulp_exp n d + 53)) as Hpow.
  { apply Z.pow_le_mono_r; unfold ulp_exp; lia. }
  nia.
Qed.

Lemma ulp_exp_lower : 0 < ulp_exp n d → d * 2 ^ (ulp_exp n d + 52) ≤ n.
Proof.
  intros He. assert (ulp_exp n d + 52 = Z.log2 (n / d)) as -> by (unfold ulp_exp in *; lia).
  assert (0 < n / d) as Hpos.
  { apply Z.nle_gt. intros Hle. unfold ulp_exp in He.
    rewrite (Z.log2_nonpos (n / d)) in He by lia. lia. }
  pose proof (proj1 (Z.log2_spec (n / d) Hpos)).
  pose proof (Z.mul_div_le n d Hd). nia.
Qed.

Lemma round_pos_error :
  2 ^ 53 * Z.abs (round_pos n d * d - n) ≤ n + 2 ^ 52 * d.
Proof.
  unfold round_pos. pose proof ulp_exp_nonneg as He0. pose proof ulp_exp_lower as Hlow.
  set (e := ulp_exp n d) in *. pose proof (Z.pow_pos_nonneg 2 e ltac:(lia) He0) as H2e.
  destruct (rne_spec n (d * 2 ^ e) ltac:(nia)) as [Hb _].
  set (k := rne n (d * 2 ^ e)) in *. clearbody k.
  assert (2 * Z.abs (k * 2 ^ e * d - n) ≤ d * 2 ^ e) as Habs by nia.
  destruct (Z.eq_dec e 0) as [->|Hne].
  - rewrite Z.mul_1_r in *. nia.
  - specialize (Hlow ltac:(lia)). rewrite Z.pow_add_r in Hlow by lia. nia.
Qed.

Lemma round_pos_nonneg : 0 ≤ round_pos n d.
Proof.
  unfold round_pos. pose proof (Z.pow_pos_nonneg 2 (ulp_exp n d) ltac:(lia) ulp_exp_nonneg).
  apply Z.mul_nonneg_nonneg; [|lia]. apply rne_nonneg; nia.
Qed.
End Rounding.

(** Integers below [2^53] units, and sums of doubles, round with no absolute
    term in the error. *)
Lemma round_pos_error_int n :
  0 ≤ n → 2 ^ 53 * Z.abs (round_pos n 1 - n) ≤ n.
Proof.
  intros Hn. unfold round_pos. pose proof (ulp_exp_nonneg n 1) as He0.
  pose proof (ulp_exp_lower n 1 ltac:(lia)) as Hlow. set (e := ulp_exp n 1) in *.
  destruct (Z.eq_dec e 0) as [->|Hne].
  - rewrite Z.mul_1_r, <- (Z.mul_1_r n) at 1. rewrite rne_exact by lia. lia.
  - specialize (Hlow ltac:(lia)). rewrite Z.pow_add_r in Hlow by lia.
    pose proof (Z.pow_pos_nonneg 2 e ltac:(lia) He0) as H2e.
    destruct (rne_spec n (1 * 2 ^ e) ltac:(nia)) as [Hb _].
    set (k := rne n (1 * 2 ^ e)) in *. clearbody k. nia.
Qed.

Lemma round_pos_mono n1 d1 n2 d2 :
  0 < d1 → 0 < d2 → 0 ≤ n1 → 0 ≤ n2 → n1 * d2 ≤ n2 * d1 →
  round_pos n1 d1 ≤ round_pos n2 d2.
Proof.
  intros Hd1 Hd2 Hn1 Hn2 Hle.
  assert (n1 / d1 ≤ n2 / d2) as Hq.
  { apply Z.div_le_lower_bound; [done|]. pose proof (Z.mul_div_le n1 d1 Hd1). nia. }
  assert (ulp_exp n1 d1 ≤ ulp_exp n2 d2) as He.
  { unfold ulp_exp. pose proof (Z.log2_le_mono _ _ Hq). lia. }
  pose proof (ulp_exp_nonneg n1 d1) as He1. pose proof (ulp_exp_nonneg n2 d2) as He2.
  pose proof (ulp_exp_upper n1 d1 Hd1 Hn1) as Hup.
  pose proof (ulp_exp_lower n2 d2 Hd2) as Hlow.
  unfold round_pos. set (e1 := ulp_exp n1 d1) in *. set (e2 := ulp_exp n2 d2) in *.
  pose proof (Z.pow_pos_nonneg 2 e1 ltac:(lia) He1) as H1.
  pose proof (Z.pow_pos_nonneg 2 e2 ltac:(lia) He2) as H2.
  destruct (Z.eq_dec e1 e2) as [<-|Hne].
  - apply Z.mul_le_mono_nonneg_r; [lia|]. apply rne_mono; nia.
  - assert (rne n1 (d1 * 2 ^ e1) ≤ 2 ^ 53) as Hr1.
    { rewrite <- (rne_exact (2 ^ 53) 1) by lia. rewrite Z.pow_add_r in Hup by lia.
      apply rne_mono; nia. }
    assert (2 ^ 52 ≤ rne n2 (d2 * 2 ^ e2)) as Hr2.
    { specialize (Hlow ltac:(lia)). rewrite Z.pow_add_r in Hlow by lia.
      rewrite <- (rne_exact (2 ^ 52) 1) by lia. apply rne_mono; nia. }
    assert (2 * 2 ^ e1 ≤ 2 ^ e2) as H12.
    { rewrite <- Z.pow_succ_r by lia. apply Z.pow_le_mono_r; lia. }
    nia.
Qed.

(** ** Representable values *)

(** At most 53 significant bits. *)
Definition representable (v : f64) : Prop :=
  ∃ m k, 0 ≤ m ≤ 2 ^ 53 ∧ 0 ≤ k ∧ v = m * 2 ^ k.

Lemma representable_nonneg v : representable v → 0 ≤ v.
Proof. intros (m & k & ? & ? & ->). pose proof (Z.pow_pos_nonneg 2 k). nia. Qed.

Lemma round_pos_exact v : representable v → round_pos v 1 = v.
Proof.
  intros Hv. pose proof (representable_nonneg v Hv) as Hv0. destruct Hv as (m & k & Hm & Hk & Hvm).
  pose proof (ulp_exp_nonneg v 1) as He0. pose proof (ulp_exp_lower v 1 ltac:(lia)) as Hlow.
  unfold round_pos. set (e := ulp_exp v 1) in *. rewrite !Z.mul_1_l in *.
  pose proof (Z.pow_pos_nonneg 2 e ltac:(lia) He0) as H2e.
  assert (∃ j, v = j * 2 ^ e) as [j Hj]; [|rewrite Hj at 1; by rewrite rne_exact].
  destruct (Z.eq_dec e 0) as [->|Hne]; [exists v; lia|]. specialize (Hlow ltac:(lia)).
  pose proof (Z.pow_pos_nonneg 2 k ltac:(lia) Hk) as H2k.
  destruct (Z.le_gt_cases e k) as [Hek|Hek].
  { exists (m * 2 ^ (k - e)). rewrite Hvm, <- Z.mul_assoc, <- Z.pow_add_r by lia.
    do 2 f_equal. lia. }
  exists (2 ^ 52). rewrite <- Z.pow_add_r by lia. rewrite (Z.add_comm 52).
  apply Z.le_antisymm; [|done]. rewrite Hvm.
  transitivity (2 ^ (k + 53)); [|apply Z.pow_le_mono_r; lia].
  rewrite Z.pow_add_r by lia. nia.
Qed.

Lemma rne_round_representable n d : 0 < d → 0 ≤ n → representable (round_pos n d).
Proof.
  intros Hd Hn. pose proof (ulp_exp_nonneg n d) as He. pose proof (ulp_exp_upper n d Hd Hn) as Hup.
  unfold round_pos. set (e := ulp_exp n d) in *.
  pose proof (Z.pow_pos_nonneg 2 e ltac:(lia) He) as H2e.
  exists (rne n (d * 2 ^ e)), e. split; [|done]. split; [apply rne_nonneg; nia|].
  rewrite <- (rne_exact (2 ^ 53) 1) by lia. rewrite Z.pow_add_r in Hup by lia.
  apply rne_mono; nia.
Qed.

Lemma representable_int x : 0 ≤ x ≤ 2 ^ 53 → representable (x * one_unit).
Proof. intros. exists x, 1074. split; [done|]. split; [lia|done]. Qed.

Lemma representable_min x y : representable x → representable y → representable (f64_min x y).
Proof. unfold f64_min. intros. destruct (Z.min_spec x y) as [[_ ->]|[_ ->]]; done. Qed.

(** Subtracting one from a double between 1 and [2^53] is exact. *)
Lemma representable_sub_one v :
  representable v → one_unit ≤ v → v ≤ 2 ^ 53 * one_unit → representable (v - one_unit).
Proof.
  intros (m & k & Hm & Hk & ->) H1 H2. destruct (Z.le_gt_cases k 1074) as [Hle|Hgt].
  - exists (m - 2 ^ (1074 - k)), k.
    assert (one_unit = 2 ^ (1074 - k) * 2 ^ k) as Hone.
    { unfold one_unit. rewrite <- Z.pow_add_r by lia. f_equal. lia. }
    pose proof (Z.pow_pos_nonneg 2 k ltac:(lia) Hk).
    pose proof (Z.pow_pos_nonneg 2 (1074 - k) ltac:(lia) ltac:(lia)). rewrite Hone in *.
    split; [nia|]. split; [done|]. lia.
  - assert (2 ^ k = 2 ^ (k - 1074) * one_unit) as Hone.
    { unfold one_unit. rewrite <- Z.pow_add_r by lia. f_equal. lia. }
    rewrite Hone in *. pose proof (Z.pow_pos_nonneg 2 (k - 1074) ltac:(lia) ltac:(lia)).
    assert (0 < one_unit) by done.
    exists (m * 2 ^ (k - 1074) - 1), 1074. change (2 ^ 1074) with one_unit. split; [nia|]. split; [lia|]. lia.
Qed.

(** ** The operations on non-negative doubles *)

Lemma round_nonneg n d : 0 ≤ n → round n d = round_pos n d.
Proof. intros. unfold round. by rewrite (proj2 (Z.ltb_ge n 0)) by lia. Qed.

Lemma one_unit_pos : 0 < one_unit.
Proof. done. Qed.

Lemma f64_of_int_exact x : 0 ≤ x ≤ 2 ^ 53 → f64_of_int x = x * one_unit.
Proof.
  intros. pose proof one_unit_pos. unfold f64_of_int. rewrite round_nonneg by nia.
  apply round_pos_exact. by apply representable_int.
Qed.

Lemma f64_of_int_nonneg x : 0 ≤ x → 0 ≤ f64_of_int x.
Proof.
  intros. pose proof one_unit_pos. unfold f64_of_int. rewrite round_nonneg by nia.
  apply round_pos_nonneg; nia.
Qed.

Lemma f64_add_nonneg x y : 0 ≤ x → 0 ≤ y → 0 ≤ f64_add x y.
Proof. intros. unfold f64_add. rewrite round_nonneg by lia. apply round_pos_nonneg; lia. Qed.

Lemma f64_mul_nonneg x y : 0 ≤ x → 0 ≤ y → 0 ≤ f64_mul x y.
Proof.
  intros. pose proof one_unit_pos. unfold f64_mul. rewrite round_nonneg by nia.
  apply round_pos_nonneg; nia.
Qed.

Lemma f64_div_nonneg x y : 0 ≤ x → 0 < y → 0 ≤ f64_div x y.
Proof.
  intros. pose proof one_unit_pos. unfold f64_div. rewrite round_nonneg by nia.
  apply round_pos_nonneg; nia.
Qed.

Lemma f64_add_representable x y : 0 ≤ x → 0 ≤ y → representable (f64_add x y).
Proof. intros. unfold f64_add. rewrite round_nonneg by lia. apply rne_round_representable; lia. Qed.

Lemma f64_add_0_r x : representable x → f64_add x 0 = x.
Proof.
  intros Hx. pose proof (representable_nonneg x Hx). unfold f64_add.
  rewrite Z.add_0_r, round_nonneg by done. by apply round_pos_exact.
Qed.

Lemma f64_sub_one v :
  representable v → one_unit ≤ v → v ≤ 2 ^ 53 * one_unit →
  f64_sub v one_unit = v - one_unit.
Proof.
  intros. unfold f64_sub. rewrite round_nonneg by lia.
  apply round_pos_exact. by apply representable_sub_one.
Qed.
