(* ===== verification/Net.v ===== *)
(** * IP addresses

    The part of [std::net] the proxy uses: [IpAddr] and [SocketAddr], their
    textual form ([Display]) and the parser behind [str::parse::<IpAddr>()]. *)

From S2P Require Import Prelude Text.
Local Open Scope string_scope.
Local Open Scope list_scope.

(** ** Addresses *)

(** Octets of an IPv4 address and 16-bit segments of an IPv6 address, in
    network order. *)
Inductive IpAddr : Type :=
| V4 (a b c d : Z)
| V6 (s0 s1 s2 s3 s4 s5 s6 s7 : Z).

Record SocketAddr := mk_socket_addr { sa_ip : IpAddr; sa_port : Z }.

#[export] Instance IpAddr_eq_dec : EqDecision IpAddr.
Proof. solve_decision. Defined.

#[export] Instance SocketAddr_eq_dec : EqDecision SocketAddr.
Proof. solve_decision. Defined.

Definition ip_to_list (ip : IpAddr) : list Z :=
  match ip with
  | V4 a b c d => [a; b; c; d]
  | V6 s0 s1 s2 s3 s4 s5 s6 s7 => [s0; s1; s2; s3; s4; s5; s6; s7]
  end.

Definition ip_of_list (l : list Z) : option IpAddr :=
  match l with
  | [a; b; c; d] => Some (V4 a b c d)
  | [s0; s1; s2; s3; s4; s5; s6; s7] => Some (V6 s0 s1 s2 s3 s4 s5 s6 s7)
  | _ => None
  end.

Lemma ip_of_to_list ip : ip_of_list (ip_to_list ip) = Some ip.
Proof. by destruct ip. Qed.

#[export] Instance IpAddr_countable : Countable IpAddr :=
  inj_countable ip_to_list ip_of_list ip_of_to_list.

Definition wf_ip (ip : IpAddr) : Prop :=
  match ip with
  | V4 _ _ _ _ => Forall (in_range u8_max) (ip_to_list ip)
  | V6 _ _ _ _ _ _ _ _ => Forall (in_range u16_max) (ip_to_list ip)
  end.

(** ** Parsing

    A reader returns what it read and the rest of the input; returning [None]
    leaves the input untouched ([read_atomically]). *)

Fixpoint read_digits (radix : Z) (max_digits count : nat) (acc : Z) (s : string)
    : option (Z * nat * string) :=
  match s with
  | EmptyString => Some (acc, count, s)
  | String a s' =>
      match to_digit radix a with
      | None => Some (acc, count, s)
      | Some d =>
          if (max_digits <? S count)%nat then None
          else read_digits radix max_digits (S count) (acc * radix + d)%Z s'
      end
  end.

Definition read_number (radix : Z) (max_digits : nat) (allow_zero_prefix : bool)
    (limit : Z) (s : string) : option (Z * string) :=
  match read_digits radix max_digits 0 0 s with
  | None => None
  | Some (v, count, rest) =>
      if (count =? 0)%nat then None
      else if negb allow_zero_prefix && starts_with_char "0" s && (1 <? count)%nat then None
      else if (v <=? limit)%Z then Some (v, rest) else None
  end.

Definition read_given_char (c : ascii) (s : string) : option string :=
  strip_prefix_char c s.

(** [read_separator]: the separator is read before every item but the first. *)
Definition read_separator {A} (sep : ascii) (index : nat)
    (inner : string → option (A * string)) (s : string) : option (A * string) :=
  match index with
  | O => inner s
  | S _ => read_given_char sep s ≫= inner
  end.

Definition read_octet : string → option (Z * string) := read_number 10 3 false u8_max.

Definition read_ipv4_addr (s : string) : option (IpAddr * string) :=
  '(a, s) ← read_separator "." 0 read_octet s;
  '(b, s) ← read_separator "." 1 read_octet s;
  '(c, s) ← read_separator "." 2 read_octet s;
  '(d, s) ← read_separator "." 3 read_octet s;
  Some (V4 a b c d, s).

(** The groups read, whether they end in an embedded IPv4 address, and the
    rest.  [remaining] counts down from [limit]. *)
Fixpoint read_groups (limit remaining : nat) (s : string) : list Z * bool * string :=
  match remaining with
  | O => ([], false, s)
  | S r =>
      let i := (limit - remaining)%nat in
      let ipv4 := if (i <? limit - 1)%nat then read_separator ":" i read_ipv4_addr s else None in
      match ipv4 with
      | Some (V4 a b c d, rest) => ([a * 256 + b; c * 256 + d]%Z, true, rest)
      | _ =>
          match read_separator ":" i (read_number 16 4 true u16_max) s with
          | Some (g, rest) =>
              let '(gs, v4, rest) := read_groups limit r rest in (g :: gs, v4, rest)
          | None => ([], false, s)
          end
      end
  end.

Definition read_ipv6_addr (s : string) : option (IpAddr * string) :=
  let '(head, head_ipv4, s1) := read_groups 8 8 s in
  if (length head =? 8)%nat then ip ← ip_of_list head; Some (ip, s1)
  else if head_ipv4 then None
  else
    s2 ← read_given_char ":" s1;
    s3 ← read_given_char ":" s2;
    let limit := (8 - (length head + 1))%nat in
    let '(tail, _, s4) := read_groups limit limit s3 in
    ip ← ip_of_list (head ++ replicate (8 - length head - length tail) 0%Z ++ tail);
    Some (ip, s4).

Definition read_ip_addr (s : string) : option (IpAddr * string) :=
  match read_ipv4_addr s with Some r => Some r | None => read_ipv6_addr s end.

(** [parse_with]: the whole input must be consumed. *)
Definition parse_with {A} (inner : string → option (A * string)) (s : string) : option A :=
  match inner s with Some (a, EmptyString) => Some a | _ => None end.

(** [str::parse::<IpAddr>()] and [str::parse::<Ipv6Addr>()]. *)
Definition parse_ip_addr : string → option IpAddr := parse_with read_ip_addr.
Definition parse_ipv6_addr : string → option IpAddr := parse_with read_ipv6_addr.

(** [str::parse::<SocketAddr>()]: [a.b.c.d:port] or [[v6]:port], the latter with an
    optional scope [%id], which the proxy drops. *)
Definition read_port (s : string) : option (Z * string) :=
  s ← read_given_char ":" s; read_number 10 (String.length s) true u16_max s.

Definition read_scope_id (s : string) : option string :=
  match read_given_char "%" s with
  | Some s' => match read_number 10 (String.length s') true u32_max s' with Some (_, s'') => Some s'' | None => None end
  | None => Some s
  end.

Definition read_socket_addr_v4 (s : string) : option (SocketAddr * string) :=
  '(ip, s) ← read_ipv4_addr s;
  '(port, s) ← read_port s;
  Some (mk_socket_addr ip port, s).

Definition read_socket_addr_v6 (s : string) : option (SocketAddr * string) :=
  s ← read_given_char "[" s;
  '(ip, s) ← read_ipv6_addr s;
  s ← read_scope_id s;
  s ← read_given_char "]" s;
  '(port, s) ← read_port s;
  Some (mk_socket_addr ip port, s).

Definition parse_socket_addr : string → option SocketAddr :=
  parse_with (λ s, match read_socket_addr_v4 s with Some r => Some r | None => read_socket_addr_v6 s end).

(** ** Printing *)

Definition hex_char (d : Z) : ascii :=
  ascii_of_N (Z.to_N (if (d <? 10)%Z then 48 + d else 87 + d)%Z).

(** [{:x}] of a [u16]. *)
Definition show_hex16 (n : Z) : string :=
  let d3 := (n / 4096)%Z in
  let d2 := (n / 256 mod 16)%Z in
  let d1 := (n / 16 mod 16)%Z in
  let d0 := (n mod 16)%Z in
  let s0 := String (hex_char d0) "" in
  if (n <? 16)%Z then s0
  else if (n <? 256)%Z then String (hex_char d1) s0
  else if (n <? 4096)%Z then String (hex_char d2) (String (hex_char d1) s0)
  else String (hex_char d3) (String (hex_char d2) (String (hex_char d1) s0)).

(** The longest run of zero segments, the first of equal ones: start and length. *)
Fixpoint zero_span (i cur_start cur_len best_start best_len : nat) (segs : list Z) : nat * nat :=
  match segs with
  | [] => (best_start, best_len)
  | s :: segs =>
      if (s =? 0)%Z then
        let cur_start := if (cur_len =? 0)%nat then i else cur_start in
        let cur_len := S cur_len in
        if (best_len <? cur_len)%nat
        then zero_span (S i) cur_start cur_len cur_start cur_len segs
        else zero_span (S i) cur_start cur_len best_start best_len segs
      else zero_span (S i) 0 0 best_start best_len segs
  end.

Definition fmt_subslice (chunk : list Z) : string := join ":" (map show_hex16 chunk).

Definition show_ipv4 (a b c d : Z) : string :=
  show_uint a +:+ "." +:+ show_uint b +:+ "." +:+ show_uint c +:+ "." +:+ show_uint d.

Definition show_ip (ip : IpAddr) : string :=
  match ip with
  | V4 a b c d => show_ipv4 a b c d
  | V6 s0 s1 s2 s3 s4 s5 s6 s7 =>
      if forallb (Z.eqb 0) [s0; s1; s2; s3; s4] && (s5 =? 65535)%Z
      then "::ffff:" +:+ show_ipv4 (s6 / 256) (s6 mod 256) (s7 / 256) (s7 mod 256)
      else
        let segs := [s0; s1; s2; s3; s4; s5; s6; s7] in
        let '(start, len) := zero_span 0 0 0 0 0 segs in
        if (1 <? len)%nat
        then fmt_subslice (firstn start segs) +:+ "::" +:+ fmt_subslice (skipn (start + len) segs)
        else fmt_subslice segs
  end.

Example show_ip_examples :
  show_ip (V6 0 0 0 0 0 0 0 1) = "::1" ∧
  show_ip (V6 8193 3512 0 0 1 0 0 1) = "2001:db8::1:0:0:1" ∧
  show_ip (V6 0 0 0 0 0 65535 49320 257) = "::ffff:192.168.1.1" ∧
  show_ip (V6 0 0 0 0 0 0 0 0) = "::" ∧
  show_ip (V4 192 168 1 1) = "192.168.1.1".
Proof. vm_compute. done. Qed.

Example parse_ip_examples :
  parse_ip_addr "2001:db8::1:0:0:1" = Some (V6 8193 3512 0 0 1 0 0 1) ∧
  parse_ip_addr "::ffff:192.168.1.1" = Some (V6 0 0 0 0 0 65535 49320 257) ∧
  parse_ip_addr "::" = Some (V6 0 0 0 0 0 0 0 0) ∧
  parse_ip_addr "10.0.0.05" = None ∧
  parse_ip_addr "10.0.0.256" = None ∧
  parse_ip_addr "1:2:3:4:5:6:7:8:9" = None ∧
  parse_ip_addr "1::2::3" = None ∧
  parse_ip_addr "10.0.0.5" = Some (V4 10 0 0 5).
Proof. vm_compute. done. Qed.

Example parse_socket_addr_examples :
  parse_socket_addr "127.0.0.1:443" = Some (mk_socket_addr (V4 127 0 0 1) 443) ∧
  parse_socket_addr "[::1]:80" = Some (mk_socket_addr (V6 0 0 0 0 0 0 0 1) 80) ∧
  parse_socket_addr "::1:80" = None ∧
  parse_socket_addr "localhost:80" = None ∧
  parse_socket_addr "127.0.0.1:65536" = None.
Proof. vm_compute. done. Qed.

(** ** Reading back a printed IPv4 address *)

(** The value of a string of decimal digits. *)
Fixpoint dec_value (acc : Z) (s : string) : Z :=
  match s with
  | EmptyString => acc
  | String a s' => dec_value (acc * 10 + default 0 (to_digit 10 a))%Z s'
  end.

Lemma parse_digits_value m acc s v : parse_digits m acc s = Some v → dec_value acc s = v.
Proof.
  revert acc. induction s as [|a s IH]; intros acc; simpl; [congruence|].
  destruct (to_digit 10 a); [|done]. simpl. case_match; [apply IH|done].
Qed.

Lemma dec_value_show n : (0 ≤ n)%Z → dec_value 0 (show_uint n) = n.
Proof.
  intros Hn. apply (parse_digits_value n). pose proof (parse_show_uint n n ltac:(lia)) as H.
  unfold parse_uint in H. rewrite strip_plus_show in H by done.
  change (default (show_uint n) None) with (show_uint n) in H.
  by rewrite show_uint_nonempty in H.
Qed.

(** The rest of the input does not continue the number. *)
Definition stops (rest : string) : bool :=
  match rest with
  | EmptyString => true
  | String a _ => match to_digit 10 a with None => true | Some _ => false end
  end.

Lemma digit_to_digit a : is_ascii_digit a = true → is_Some (to_digit 10 a).
Proof.
  intros Ha. assert (∀ b, implb (is_ascii_digit b)
    (match to_digit 10 b with Some _ => true | None => false end) = true) as H
    by (apply ascii_forall; vm_compute; reflexivity).
  specialize (H a). rewrite Ha in H. by destruct (to_digit 10 a).
Qed.

Lemma read_digits_app max count acc s rest :
  str_all is_ascii_digit s = true → stops rest = true →
  (count + String.length s ≤ max)%nat →
  read_digits 10 max count acc (s +:+ rest) =
    Some (dec_value acc s, (count + String.length s)%nat, rest).
Proof.
  revert count acc. induction s as [|a s IH]; intros count acc Hs Hr Hlen.
  - simpl in *. rewrite Nat.add_0_r. destruct rest as [|b rest]; simpl in *; [done|].
    by destruct (to_digit 10 b).
  - simpl in *. apply andb_true_iff in Hs as [Ha Hs].
    destruct (digit_to_digit a Ha) as [d Hd]. rewrite Hd. simpl.
    rewrite (proj2 (Nat.ltb_ge _ _)) by lia. rewrite IH by (done || lia).
    do 3 f_equal. lia.
Qed.

Lemma show_octet_shape n :
  in_range u8_max n →
  (String.length (show_uint n) ≤ 3)%nat ∧ (String.length (show_uint n) =? 0)%nat = false ∧
  starts_with_char "0" (show_uint n) && (1 <? String.length (show_uint n))%nat = false.
Proof.
  intros Hn. set (check := λ n, let s := show_uint n in
    (String.length s <=? 3)%nat && negb (String.length s =? 0)%nat &&
    negb (starts_with_char "0" s && (1 <? String.length s)%nat)).
  assert (forallb check (map Z.of_nat (seq 0 256)) = true) as H by (vm_compute; reflexivity).
  assert (check n = true) as Hc.
  { apply (proj1 (forallb_forall _ _) H), in_map_iff. exists (Z.to_nat n).
    unfold in_range, u8_max in Hn. split; [lia|]. apply in_seq. lia. }
  unfold check in Hc. rewrite !andb_true_iff, !negb_true_iff in Hc.
  destruct Hc as [[Hl Hz] Hs]. split; [by apply Nat.leb_le|]. by split.
Qed.

Lemma starts_with_char_app c s rest :
  (String.length s =? 0)%nat = false → starts_with_char c (s +:+ rest) = starts_with_char c s.
Proof. by destruct s. Qed.

Lemma read_octet_show n rest :
  in_range u8_max n → stops rest = true →
  read_octet (show_uint n +:+ rest) = Some (n, rest).
Proof.
  intros Hn Hr. unfold read_octet, read_number.
  destruct (show_octet_shape n Hn) as (Hlen & Hne & Hz).
  rewrite read_digits_app; [|by apply show_uint_digits, Hn|done|done].
  cbn [negb]. rewrite andb_true_l, Nat.add_0_l, Hne, starts_with_char_app, Hz by done.
  rewrite dec_value_show by apply Hn.
  by rewrite (proj2 (Z.leb_le _ _)) by apply Hn.
Qed.

Lemma parse_show_ipv4 a b c d :
  wf_ip (V4 a b c d) → parse_ip_addr (show_ip (V4 a b c d)) = Some (V4 a b c d).
Proof.
  intros Hwf. simpl in Hwf. rewrite !Forall_cons in Hwf. destruct Hwf as (Ha & Hb & Hc & Hd & _).
  unfold parse_ip_addr, parse_with, read_ip_addr, read_ipv4_addr, show_ip, show_ipv4.
  unfold read_separator, read_given_char.
  rewrite read_octet_show by done. simpl. rewrite read_octet_show by done. simpl.
  rewrite read_octet_show by done. simpl. rewrite <- (str_app_nil_r (show_uint d)).
  by rewrite read_octet_show.
Qed.
