(* ===== verification/NetRoundtrip.v ===== *)
(** * Printed addresses read back

    [Display] for [IpAddr] followed by [str::parse::<IpAddr>()] is the identity, also for
    IPv6 with its compressed run of zeros and its IPv4-mapped form: the address the
    upstream is told in [X-Real-IP] determines the client. *)

From S2P Require Import Prelude Text Net.
Local Open Scope string_scope.
Local Open Scope list_scope.

(** ** Hexadecimal groups *)

Definition stops16 (rest : string) : bool :=
  match rest with
  | EmptyString => true
  | String a _ => match to_digit 16 a with None => true | Some _ => false end
  end.

Lemma nibble_forall (P : Z → bool) d :
  forallb P (map Z.of_nat (seq 0 16)) = true → (0 ≤ d < 16)%Z → P d = true.
Proof.
  intros H Hd. apply (proj1 (forallb_forall _ _) H), in_map_iff. exists (Z.to_nat d).
  split; [lia|]. apply in_seq. lia.
Qed.

Lemma to_digit_hex_char d : (0 ≤ d < 16)%Z → to_digit 16 (hex_char d) = Some d.
Proof.
  intros Hd. pose proof (nibble_forall (λ d, bool_decide (to_digit 16 (hex_char d) = Some d)) d eq_refl Hd) as H.
  by apply bool_decide_eq_true in H.
Qed.

Lemma hex_char_no_dot d : (0 ≤ d < 16)%Z → Ascii.eqb (hex_char d) "." = false.
Proof.
  intros Hd. apply negb_true_iff. exact (nibble_forall (λ d, negb (Ascii.eqb (hex_char d) ".")) d eq_refl Hd).
Qed.

(** The nibbles of a group without leading zeros. *)
Definition hex_digits (n : Z) : list Z :=
  if (n <? 16)%Z then [n mod 16]%Z
  else if (n <? 256)%Z then [n / 16 mod 16; n mod 16]%Z
  else if (n <? 4096)%Z then [n / 256 mod 16; n / 16 mod 16; n mod 16]%Z
  else [n / 4096; n / 256 mod 16; n / 16 mod 16; n mod 16]%Z.

Definition hex_string (ds : list Z) : string := foldr (λ d s, String (hex_char d) s) "" ds.

Lemma show_hex16_digits n : show_hex16 n = hex_string (hex_digits n).
Proof. unfold show_hex16, hex_digits. by repeat case_match. Qed.

Lemma hex_digits_range n : in_range u16_max n → Forall (λ d, 0 ≤ d < 16)%Z (hex_digits n).
Proof.
  unfold in_range, u16_max. intros Hn. unfold hex_digits.
  pose proof (Z.mod_pos_bound n 16). pose proof (Z.mod_pos_bound (n / 16) 16).
  pose proof (Z.mod_pos_bound (n / 256) 16).
  assert (0 ≤ n / 4096 < 16)%Z by (split; [apply Z.div_pos; lia|apply Z.div_lt_upper_bound; lia]).
  repeat case_match; repeat constructor; lia.
Qed.

Lemma hex_digits_value n :
  in_range u16_max n →
  foldl (λ acc d, acc * 16 + d)%Z 0%Z (hex_digits n) = n ∧ (0 < length (hex_digits n) ≤ 4)%nat.
Proof.
  unfold in_range, u16_max. intros Hn. unfold hex_digits.
  assert (n / 256 = n / 16 / 16)%Z as -> by (rewrite Z.div_div by lia; done).
  assert (n / 4096 = n / 16 / 16 / 16)%Z as -> by (rewrite !Z.div_div by lia; done).
  repeat case_match; simpl; (split; [|lia]);
    rewrite ?Z.ltb_lt, ?Z.ltb_ge in *; Z.to_euclidean_division_equations; lia.
Qed.

Lemma read_digits_hex max count acc ds rest :
  Forall (λ d, 0 ≤ d < 16)%Z ds → stops16 rest = true → (count + length ds ≤ max)%nat →
  read_digits 16 max count acc (hex_string ds +:+ rest) =
    Some (foldl (λ acc d, acc * 16 + d)%Z acc ds, (count + length ds)%nat, rest).
Proof.
  intros Hds Hr. revert count acc. induction Hds as [|d ds Hd _ IH]; intros count acc Hlen; simpl in *.
  - rewrite Nat.add_0_r. destruct rest as [|a rest]; simpl in *; [done|]. by destruct (to_digit 16 a).
  - rewrite to_digit_hex_char by done. rewrite (proj2 (Nat.ltb_ge _ _)) by lia.
    rewrite IH by lia. by rewrite Nat.add_succ_r.
Qed.

Lemma read_group_show n rest :
  in_range u16_max n → stops16 rest = true →
  read_number 16 4 true u16_max (show_hex16 n +:+ rest) = Some (n, rest).
Proof.
  intros Hn Hr. unfold read_number. destruct (hex_digits_value n Hn) as [Hv Hl].
  rewrite show_hex16_digits, read_digits_hex; [|by apply hex_digits_range|done|lia].
  rewrite Hv, (proj2 (Nat.eqb_neq _ _)) by lia. cbn [negb andb].
  by rewrite (proj2 (Z.leb_le _ _)) by apply Hn.
Qed.

(** ** Text without dots has no IPv4 part *)

Definition no_dot (s : string) : Prop := contains_char "." s = false.

Lemma no_dot_cons a s : no_dot (String a s) ↔ Ascii.eqb a "." = false ∧ no_dot s.
Proof. unfold no_dot. simpl. rewrite orb_false_iff. done. Qed.

Lemma no_dot_app s t : no_dot (s +:+ t) ↔ no_dot s ∧ no_dot t.
Proof. induction s as [|a s IH]; simpl; [by split; [|intros [_ ?]]|]. rewrite !no_dot_cons, IH. tauto. Qed.

Lemma read_digits_no_dot radix max count acc s v n rest :
  no_dot s → read_digits radix max count acc s = Some (v, n, rest) → no_dot rest.
Proof.
  revert count acc. induction s as [|a s IH]; intros count acc Hs; simpl; [by intros [= _ _ <-]|].
  pose proof Hs as [_ Hs']%no_dot_cons. case_match; [case_match; [done|by apply IH]|by intros [= _ _ <-]].
Qed.

Lemma read_ipv4_no_dot s : no_dot s → read_ipv4_addr s = None.
Proof.
  intros Hs. unfold read_ipv4_addr, read_separator, read_octet, read_number, read_given_char.
  destruct (read_digits 10 3 0 0 s) as [[[v n] rest]|] eqn:E; [|done].
  apply read_digits_no_dot in E; [|done]. do 3 (case_match; try done). simpl.
  destruct rest as [|a rest]; [done|]. apply no_dot_cons in E as [Ha _]. simpl.
  by rewrite Ha.
Qed.

(** ** Sequences of groups *)

(** The text of groups, the first of which is the group number [i] of its sequence. *)
Fixpoint text_from (i : nat) (gs : list Z) : string :=
  match gs with
  | [] => ""
  | g :: gs => (match i with O => "" | S _ => ":" end) +:+ show_hex16 g +:+ text_from (S i) gs
  end.

Lemma text_from_S i gs : text_from (S i) gs = text_from 1 gs.
Proof. revert i. induction gs as [|g gs IH]; intros i; simpl; [done|]. by rewrite (IH (S i)), (IH 1%nat). Qed.

Lemma fmt_subslice_text gs : fmt_subslice gs = text_from 0 gs.
Proof.
  destruct gs as [|g gs]; [done|]. unfold fmt_subslice. cbn [text_from].
  change ("" +:+ ?s) with s. revert g. induction gs as [|g' gs IH]; intros g.
  - simpl. by rewrite str_app_nil_r.
  - change (join ":" (map show_hex16 (g :: g' :: gs)))
      with (show_hex16 g +:+ ":" +:+ join ":" (map show_hex16 (g' :: gs))).
    rewrite IH. cbn [text_from]. by rewrite (text_from_S 1).
Qed.

Lemma show_hex16_no_dot n : in_range u16_max n → no_dot (show_hex16 n).
Proof.
  intros Hn%hex_digits_range. rewrite show_hex16_digits.
  induction Hn as [|d ds Hd _ IH]; simpl; [done|]. apply no_dot_cons. split; [by apply hex_char_no_dot|done].
Qed.

Lemma text_from_no_dot i gs : Forall (in_range u16_max) gs → no_dot (text_from i gs).
Proof.
  intros Hgs. revert i. induction Hgs as [|g gs Hg _ IH]; intros i; simpl; [done|].
  rewrite !no_dot_app. split; [by destruct i|]. split; [by apply show_hex16_no_dot|apply IH].
Qed.

(** What follows a sequence of groups: nothing, or the compressed zeros. *)
Definition ends (rest : string) : Prop := rest = "" ∨ ∃ t, rest = "::" +:+ t.

Lemma ends_stops rest : ends rest → stops16 rest = true.
Proof. by intros [->|[t ->]]. Qed.

Lemma text_from_stops i gs rest : ends rest → stops16 (text_from (S i) gs +:+ rest) = true.
Proof. intros He. destruct gs as [|g gs]; [by apply ends_stops|done]. Qed.

Lemma read_ended i rest :
  ends rest → read_separator ":" i (read_number 16 4 true u16_max) rest = None.
Proof. by destruct i; intros [->|[t ->]]. Qed.

Lemma separated_ipv4_no_dot i s : no_dot s → read_separator ":" i read_ipv4_addr s = None.
Proof.
  intros Hs. destruct i as [|i]; simpl; [by apply read_ipv4_no_dot|].
  destruct s as [|a s]; [done|]. apply no_dot_cons in Hs as [_ Hs].
  unfold read_given_char. simpl. case_match; [|done]. by apply read_ipv4_no_dot.
Qed.

Lemma read_groups_text limit remaining gs rest :
  (length gs ≤ remaining ≤ limit)%nat → Forall (in_range u16_max) gs → ends rest → no_dot rest →
  read_groups limit remaining (text_from (limit - remaining) gs +:+ rest) = (gs, false, rest).
Proof.
  intros Hlen Hgs He Hdot. revert gs Hlen Hgs.
  induction remaining as [|r IH]; intros gs Hlen Hgs; cbn [read_groups].
  - destruct gs; [done|simpl in Hlen; lia].
  - set (i := (limit - S r)%nat). assert (limit - r = S i)%nat as Hi by lia.
    assert (no_dot (text_from i gs +:+ rest)) as Hd.
    { apply no_dot_app. split; [by apply text_from_no_dot|done]. }
    rewrite separated_ipv4_no_dot by done.
    assert ((if (i <? limit - 1)%nat then None else None) = @None (IpAddr * string)) as ->
      by (by case_match).
    destruct gs as [|g gs]; [by rewrite read_ended|].
    apply Forall_cons in Hgs as [Hg Hgs]. simpl in Hlen.
    assert (read_separator ":" i (read_number 16 4 true u16_max) (text_from i (g :: gs) +:+ rest)
      = Some (g, text_from (S i) gs +:+ rest)) as ->.
    { cbn [text_from]. rewrite !str_app_assoc.
      pose proof (read_group_show g (text_from (S i) gs +:+ rest) Hg (text_from_stops i gs rest He)) as Hrd.
      by destruct i as [|i']. }
    rewrite <- Hi, IH by (done || lia). done.
Qed.

(** ** The run of zeros *)

Definition zeros_at (l : list Z) (start n : nat) : Prop :=
  ∀ k, (start ≤ k < start + n)%nat → l !! k = Some 0%Z.

Lemma zeros_at_snoc l x start n : zeros_at l start n → zeros_at (l ++ [x]) start n.
Proof. intros Hz k Hk. apply lookup_app_l_Some. by apply Hz. Qed.

Lemma zero_span_zeros segs : ∀ pre cs cl bs bl,
  zeros_at pre cs cl → (cl = 0 ∨ cs + cl = length pre)%nat → zeros_at pre bs bl →
  let r := zero_span (length pre) cs cl bs bl segs in zeros_at (pre ++ segs) r.1 r.2.
Proof.
  induction segs as [|s segs IH]; intros pre cs cl bs bl Hc He Hb; cbn [zero_span].
  - by rewrite app_nil_r.
  - assert (pre ++ s :: segs = (pre ++ [s]) ++ segs) as -> by by rewrite <- app_assoc.
    assert (S (length pre) = length (pre ++ [s])) as -> by (rewrite length_app; simpl; lia).
    destruct (Z.eqb_spec s 0) as [->|Hs].
    + set (cs' := if (cl =? 0)%nat then length pre else cs).
      assert (cs' + S cl = S (length pre))%nat as Hlen.
      { unfold cs'. destruct (Nat.eqb_spec cl 0); lia. }
      assert (zeros_at (pre ++ [0%Z]) cs' (S cl)) as Hz.
      { intros k Hk. destruct (decide (k = length pre)) as [->|].
        - rewrite lookup_app_r, Nat.sub_diag by lia. done.
        - apply lookup_app_l_Some, Hc. unfold cs' in *. destruct (Nat.eqb_spec cl 0); lia. }
      assert (cs' + S cl = length (pre ++ [0%Z]))%nat as Hlen' by (rewrite length_app; simpl; lia).
      case_match; apply IH; auto using zeros_at_snoc.
    + apply IH; [intros k Hk; lia|by left|by apply zeros_at_snoc].
Qed.

Lemma zeros_at_split l start n :
  zeros_at l start n → (0 < n)%nat →
  (start + n ≤ length l)%nat ∧ l = take start l ++ replicate n 0%Z ++ drop (start + n) l.
Proof.
  intros Hz Hn. assert (start + n ≤ length l)%nat as Hl.
  { pose proof (lookup_lt_Some _ _ _ (Hz (start + n - 1)%nat ltac:(lia))). lia. }
  split; [done|]. rewrite <- (take_drop start l) at 1. f_equal.
  rewrite <- (take_drop n (drop start l)) at 1. rewrite drop_drop. f_equal.
  apply list_eq. intros k. destruct (decide (k < n)%nat) as [Hk|Hk].
  - rewrite lookup_take_lt, lookup_drop, lookup_replicate_2 by done. apply Hz. lia.
  - rewrite lookup_take_ge by lia. symmetry. apply lookup_replicate_None. lia.
Qed.

(** ** Addresses *)

(** The text of eight segments, compressed or not. *)
Definition segments_text (segs : list Z) : string :=
  let '(start, len) := zero_span 0 0 0 0 0 segs in
  if (1 <? len)%nat
  then fmt_subslice (firstn start segs) +:+ "::" +:+ fmt_subslice (skipn (start + len) segs)
  else fmt_subslice segs.

Lemma read_segments segs ip :
  ip_of_list segs = Some ip → length segs = 8%nat → Forall (in_range u16_max) segs →
  read_ipv6_addr (segments_text segs) = Some (ip, "") ∧ no_dot (segments_text segs).
Proof.
  intros Hip Hlen Hr. unfold segments_text.
  pose proof (zero_span_zeros segs [] 0 0 0 0) as Hz. simpl in Hz.
  destruct (zero_span 0 0 0 0 0 segs) as [start len]. simpl in Hz.
  assert (zeros_at segs start len) as Hzs by (apply Hz; [intros k ?; lia|by left|intros k ?; lia]).
  unfold read_ipv6_addr. destruct (Nat.ltb_spec 1 len) as [Hl|_].
  - destruct (zeros_at_split _ _ _ Hzs ltac:(lia)) as [Hle Hsplit].
    set (hd := take start segs) in *. set (tl := drop (start + len) segs) in *.
    change (firstn start segs) with hd. change (skipn (start + len) segs) with tl.
    assert (length hd = start) as Hhd by (apply length_take_le; lia).
    assert (length tl = 8 - start - len)%nat as Htl by (unfold tl; rewrite length_drop; lia).
    assert (Forall (in_range u16_max) hd ∧ Forall (in_range u16_max) tl) as [Hrh Hrt]
      by (unfold hd, tl; split; [by apply Forall_take|by apply Forall_drop]).
    rewrite !fmt_subslice_text.
    assert (no_dot ("::" +:+ text_from 0 tl)) as Hdt by (apply (text_from_no_dot 0) in Hrt; done).
    split; [|apply no_dot_app; split; [by apply text_from_no_dot|done]].
    rewrite (read_groups_text 8 8 hd) by (done || lia || (right; by eexists)).
    rewrite Hhd, (proj2 (Nat.eqb_neq _ _)) by lia.
    change (read_given_char ":" ("::" +:+ ?t)) with (Some (":" +:+ t)). cbn [mbind option_bind].
    change (read_given_char ":" (":" +:+ ?t)) with (Some t). cbn [mbind option_bind].
    set (limit := (8 - (start + 1))%nat).
    pose proof (read_groups_text limit limit tl "" ltac:(lia) Hrt (or_introl eq_refl) eq_refl) as Ht.
    rewrite Nat.sub_diag, str_app_nil_r in Ht. rewrite Ht.
    replace (8 - start - length tl)%nat with len by lia. rewrite <- Hsplit, Hip. done.
  - rewrite fmt_subslice_text. split; [|by apply text_from_no_dot].
    pose proof (read_groups_text 8 8 segs "" ltac:(lia) Hr (or_introl eq_refl) eq_refl) as Ht.
    rewrite Nat.sub_diag, str_app_nil_r in Ht. rewrite Ht, Hlen. simpl. by rewrite Hip.
Qed.

Lemma read_ipv4_show a b c d :
  Forall (in_range u8_max) [a; b; c; d] → read_ipv4_addr (show_ipv4 a b c d) = Some (V4 a b c d, "").
Proof.
  intros Hwf. pose proof (parse_show_ipv4 a b c d Hwf) as Hp.
  rewrite !Forall_cons in Hwf. destruct Hwf as (Ha & Hb & Hc & Hd & _).
  unfold read_ipv4_addr, show_ipv4, read_separator, read_given_char.
  do 3 (rewrite read_octet_show by done; simpl).
  rewrite <- (str_app_nil_r (show_uint d)). by rewrite read_octet_show.
Qed.

(** The IPv4-mapped form. *)
Lemma read_mapped a b c d :
  Forall (in_range u8_max) [a; b; c; d] →
  read_ipv6_addr ("::ffff:" +:+ show_ipv4 a b c d)
  = Some (V6 0 0 0 0 0 65535 (a * 256 + b) (c * 256 + d), "").
Proof.
  intros Hwf. unfold read_ipv6_addr.
  change (read_groups 8 8 ("::ffff:" +:+ show_ipv4 a b c d))
    with (@nil Z, false, "::ffff:" +:+ show_ipv4 a b c d). cbn [length Nat.eqb].
  change (read_given_char ":" ("::ffff:" +:+ ?t)) with (Some (":ffff:" +:+ t)). cbn [mbind option_bind].
  change (read_given_char ":" (":ffff:" +:+ ?t)) with (Some ("ffff:" +:+ t)). cbn [mbind option_bind].
  assert (read_groups 7 7 ("ffff:" +:+ show_ipv4 a b c d)
    = ([65535; a * 256 + b; c * 256 + d]%Z, true, "")) as Ht.
  { change (read_groups 7 7 ("ffff:" +:+ show_ipv4 a b c d)) with
      (let '(gs, v4, rest) := read_groups 7 6 (":" +:+ show_ipv4 a b c d) in (65535%Z :: gs, v4, rest)).
    cbn [read_groups]. change (read_separator ":" (7 - 6) read_ipv4_addr (":" +:+ ?t)) with (read_ipv4_addr t).
    by rewrite read_ipv4_show. }
  change (8 - (0 + 1))%nat with 7%nat. rewrite Ht. done.
Qed.

(** [parse] after [to_string] is the identity on addresses. *)
Lemma parse_show_ip ip : wf_ip ip → parse_ip_addr (show_ip ip) = Some ip.
Proof.
  destruct ip as [a b c d|s0 s1 s2 s3 s4 s5 s6 s7]; [apply parse_show_ipv4|].
  intros Hwf. simpl in Hwf. unfold parse_ip_addr, parse_with, read_ip_addr. cbn [show_ip].
  destruct (forallb (Z.eqb 0) [s0; s1; s2; s3; s4] && (s5 =? 65535)%Z) eqn:Hm.
  - cbn [forallb] in Hm. rewrite !andb_true_iff, !Z.eqb_eq in Hm.
    destruct Hm as [(<- & <- & <- & <- & <- & _) ->].
    rewrite !Forall_cons in Hwf. destruct Hwf as (_ & _ & _ & _ & _ & _ & H6 & H7 & _).
    unfold in_range, u16_max in H6, H7.
    assert (Forall (in_range u8_max) [s6 / 256; s6 mod 256; s7 / 256; s7 mod 256]%Z) as Hb.
    { rewrite !Forall_cons. unfold in_range, u8_max.
      repeat split; try apply Forall_nil_2; Z.to_euclidean_division_equations; lia. }
    assert (∀ n, n = n / 256 * 256 + n mod 256)%Z as Hdiv
      by (intros n; rewrite Z.mul_comm; apply Z.div_mod; lia).
    assert (∀ t, read_ipv4_addr ("::ffff:" +:+ t) = None) as H4 by done.
    by rewrite H4, (read_mapped _ _ _ _ Hb), <- !Hdiv.
  - destruct (read_segments [s0; s1; s2; s3; s4; s5; s6; s7] (V6 s0 s1 s2 s3 s4 s5 s6 s7))
      as [Hrd Hdot]; [done..|].
    fold (segments_text [s0; s1; s2; s3; s4; s5; s6; s7]). by rewrite read_ipv4_no_dot, Hrd.
Qed.
