(* ===== verification/Http.v ===== *)
(** * The HTTP libraries

    The crates [http], [hyper], [http-body-util] and [tokio] are not part of the
    repository: the class [Http] names the types and functions the proxy calls,
    and [HttpLaws] the documented behaviour the theorems rely on.  The section at
    the end gives a concrete instance. *)

From S2P Require Import Prelude Text Net.
Local Open Scope string_scope.
Local Open Scope list_scope.

(** ** Operations *)

Class Http := {
  HeaderValue : Type;
  HeaderMap : Type;
  Uri : Type;
  Authority : Type;
  Body : Type;

  (** [HeaderValue::from_str], [from_static] and [to_str] *)
  header_value_from_str : string → option HeaderValue;
  header_value_from_static : string → HeaderValue;
  to_str : HeaderValue → option string;

  (** Header maps are keyed by names in lower case: [&str] keys are normalised by
      the library before the lookup. *)
  hm_empty : HeaderMap;
  hm_get : HeaderMap → string → option HeaderValue;
  hm_insert : HeaderMap → string → HeaderValue → HeaderMap;
  hm_remove : HeaderMap → string → HeaderMap;
  hm_iter : HeaderMap → list (string * HeaderValue);
  (** [try_append], which [request::Builder::header] uses: [None] when the map
      would grow over its maximal size, [hm_max] entries. *)
  hm_try_append : HeaderMap → string → HeaderValue → option HeaderMap;
  hm_max : nat;

  (** [str::parse::<Uri>()] and the accessors *)
  parse_uri : string → option Uri;
  uri_path : Uri → string;
  uri_query : Uri → option string;
  uri_authority : Uri → option Authority;
  authority_host : Authority → string;
  authority_port_u16 : Authority → option Z;

  (** The frames a body yields: data, or an error that ends it. *)
  body_frames : Body → list (result string string);
  (** [Body::new(Limited::new(body, limit))] *)
  limited : Body → Z → Body;
}.

(** [Uri::host] is the host of the authority. *)
Definition uri_host `{Http} (u : Uri) : option string := authority_host <$> uri_authority u.

(** All the values of a name, in order. *)
Definition hm_get_all `{Http} (h : HeaderMap) (n : string) : list HeaderValue :=
  (filter (λ kv, kv.1 = n) (hm_iter h)).*2.

(** ** Documented behaviour *)

(** [Limited]: data frames pass while the bytes seen fit the limit; the first
    frame that does not ends the body with a length-limit error. *)
Fixpoint limit_frames (remaining : Z) (fs : list (result string string)) : list (result string string) :=
  match fs with
  | [] => []
  | Ok data :: fs =>
      if (remaining <? Z.of_nat (String.length data))%Z then [Err "length limit exceeded"]
      else Ok data :: limit_frames (remaining - Z.of_nat (String.length data)) fs
  | Err e :: _ => [Err e]
  end.

(** The bytes of the data frames. *)
Fixpoint data_bytes (fs : list (result string string)) : Z :=
  match fs with
  | [] => 0
  | Ok d :: fs => Z.of_nat (String.length d) + data_bytes fs
  | Err _ :: fs => data_bytes fs
  end%Z.

(** The characters a header value made from a string may contain. *)
Definition header_char (a : ascii) : bool :=
  ((32 <=? code a)%Z && negb (code a =? 127)%Z) || (code a =? 9)%Z.
(** Those [to_str] gives back. *)
Definition visible_char (a : ascii) : bool :=
  ((32 <=? code a)%Z && (code a <? 127)%Z) || (code a =? 9)%Z.

Class HttpLaws `{Http} := {
  (** [from_str] accepts exactly the strings of header characters, and [to_str]
      gives a visible one back. *)
  from_str_ok s : is_Some (header_value_from_str s) ↔ str_all header_char s = true;
  from_str_to_str s v :
    header_value_from_str s = Some v → str_all visible_char s = true → to_str v = Some s;

  to_str_visible v s : to_str v = Some s → str_all visible_char s = true;
  from_static_ok s :
    str_all visible_char s = true → header_value_from_str s = Some (header_value_from_static s);

  iter_empty : hm_iter hm_empty = [];
  get_first h n : hm_get h n = head (hm_get_all h n);
  get_all_insert h n v m :
    hm_get_all (hm_insert h n v) m = if decide (m = n) then [v] else hm_get_all h m;
  get_all_remove h n m :
    hm_get_all (hm_remove h n) m = if decide (m = n) then [] else hm_get_all h m;
  insert_grows h n v : (length (hm_iter (hm_insert h n v)) ≤ S (length (hm_iter h)))%nat;
  remove_shrinks h n : (length (hm_iter (hm_remove h n)) ≤ length (hm_iter h))%nat;
  get_all_append h n v h' m :
    hm_try_append h n v = Some h' →
    hm_get_all h' m = hm_get_all h m ++ (if decide (m = n) then [v] else []);
  append_length h n v h' :
    hm_try_append h n v = Some h' → length (hm_iter h') = S (length (hm_iter h));
  append_ok h n v : (length (hm_iter h) < hm_max)%nat → is_Some (hm_try_append h n v);

  limited_frames b limit : body_frames (limited b limit) = limit_frames limit (body_frames b);
}.

(** ** Messages *)

Record Request `{Http} := mkRequest {
  req_method : string;
  req_uri : Uri;
  req_headers : HeaderMap;
  req_body : Body;
  (** The [ConnectInfo] extension: the TCP peer the server recorded. *)
  req_connect_info : option SocketAddr;
}.
Arguments mkRequest {_}.

(** Responses are made by the proxy (a status, the headers it sets and a text)
    or are those of an upstream. *)
Inductive Response `{Http} :=
| Local (status : Z) (headers : list (string * string)) (text : string)
| Forwarded (status : Z) (headers : HeaderMap) (body : Body).
Arguments Local {_}.
Arguments Forwarded {_}.

Definition status_of `{Http} (r : Response) : Z :=
  match r with Local s _ _ => s | Forwarded s _ _ => s end.

(** [(status, text).into_response()] *)
Definition text_response `{Http} (status : Z) (text : string) : Response :=
  Local status [("content-type", "text/plain; charset=utf-8")] text.

(** [status.into_response()] *)
Definition status_response `{Http} (status : Z) : Response := Local status [] "".

(** ** Timeouts

    A future is the time at which it completes, measured from its first poll, and
    its value; [None] if it never completes. *)
Definition Future (A : Type) : Type := option (Z * A).

Inductive Elapsed := elapsed.

(** [tokio::time::timeout] polls the future before its timer. *)
Definition timeout {A} (d : Z) (f : Future A) : Future (result A Elapsed) :=
  match f with
  | Some (t, v) => if (t <=? d)%Z then Some (t, Ok v) else Some (d, Err elapsed)
  | None => Some (d, Err elapsed)
  end.

(** ** Facts *)

Lemma show_uint_visible n : (0 ≤ n)%Z → str_all visible_char (show_uint n) = true.
Proof.
  intros Hn. eapply str_all_impl; [|by apply show_uint_digits].
  apply ascii_forall_impl. by vm_compute.
Qed.

Lemma visible_header_char s : str_all visible_char s = true → str_all header_char s = true.
Proof. apply str_all_impl, ascii_forall_impl. by vm_compute. Qed.

Section Facts.
Context `{HttpLaws}.
Implicit Types (h : HeaderMap) (n : string) (v : HeaderValue).

Lemma get_insert_eq h n v : hm_get (hm_insert h n v) n = Some v.
Proof. by rewrite get_first, get_all_insert, decide_True. Qed.

Lemma get_remove_eq h n : hm_get (hm_remove h n) n = None.
Proof. by rewrite get_first, get_all_remove, decide_True. Qed.

Lemma limit_frames_bytes limit fs : (0 ≤ limit)%Z → (data_bytes (limit_frames limit fs) ≤ limit)%Z.
Proof.
  revert limit. induction fs as [|[d|e] fs IH]; intros limit Hl; simpl; [lia| |simpl; lia].
  destruct (Z.ltb_spec limit (Z.of_nat (String.length d))) as [?|Hle]; simpl; [lia|].
  specialize (IH (limit - Z.of_nat (String.length d))%Z ltac:(lia)). lia.
Qed.

Lemma limit_frames_id limit fs :
  (data_bytes fs ≤ limit)%Z → Forall (λ f, is_ok f = true) fs → limit_frames limit fs = fs.
Proof.
  revert limit. induction fs as [|[d|e] fs IH]; intros limit Hl Hok; simpl in *; [done| |].
  - apply Forall_cons in Hok as [_ Hok]. assert (0 ≤ data_bytes fs)%Z as Hnn.
    { clear. induction fs as [|[|] ? ?]; simpl; lia. }
    destruct (Z.ltb_spec limit (Z.of_nat (String.length d))); [lia|]. f_equal. apply IH; [lia|done].
  - apply Forall_cons in Hok as [? _]. done.
Qed.
End Facts.

(** A body that arrives over the limit ends in an error. *)
Lemma limit_frames_over limit fs :
  (0 ≤ limit)%Z → (limit < data_bytes fs)%Z →
  ∃ pre e, limit_frames limit fs = pre ++ [Err e].
Proof.
  revert limit. induction fs as [|[d|e] fs IH]; intros limit Hl Hgt; simpl in *; [lia| |].
  - destruct (Z.ltb_spec limit (Z.of_nat (String.length d))); [by exists [], "length limit exceeded"|].
    destruct (IH (limit - Z.of_nat (String.length d))%Z) as (pre & e & ->); [lia..|].
    by exists (Ok d :: pre), e.
  - by exists [], e.
Qed.

(** ** A concrete library

    Header maps are association lists in order of insertion, header values are
    strings, at most 100 of them; [parse_uri] splits at the first [://], [/] and [?]. *)
Module Concrete.

Record Auth := mkAuth { a_host : string; a_port : option Z }.
Record U := mkU { u_authority : option Auth; u_path : string; u_query : option string }.

Definition split_query (s : string) : string * option string :=
  match find_char "?" s with
  | Some i => (str_take i s, Some (str_drop (S i) s))
  | None => (s, None)
  end.

Definition parse_authority (s : string) : option Auth :=
  match rfind_char ":" s with
  | Some i =>
      if ends_with_char "]" s then Some (mkAuth s None)
      else port ← parse_uint u16_max (str_drop (S i) s); Some (mkAuth (str_take i s) (Some port))
  | None => if is_empty s then None else Some (mkAuth s None)
  end.

(** [scheme://authority/path?query], or a path alone. *)
Definition parse_u (s : string) : option U :=
  let s' :=
    if starts_with "https://" s then Some (str_drop 8 s)
    else if starts_with "http://" s then Some (str_drop 7 s)
    else None in
  match s' with
  | Some rest =>
      let i := default (String.length rest) (find_char "/" rest) in
      a ← parse_authority (str_take i rest);
      let '(p, q) := split_query (str_drop i rest) in
      Some (mkU (Some a) (if is_empty p then "/" else p) q)
  | None =>
      if starts_with_char "/" s then let '(p, q) := split_query s in Some (mkU None p q) else None
  end.

Definition assoc_remove (n : string) (h : list (string * string)) : list (string * string) :=
  filter (λ kv, kv.1 ≠ n) h.

#[export] Instance http : Http := {|
  HeaderValue := string;
  HeaderMap := list (string * string);
  Uri := U;
  Authority := Auth;
  Body := list (result string string);
  header_value_from_str s := if str_all header_char s then Some s else None;
  header_value_from_static s := s;
  to_str v := if str_all visible_char v then Some v else None;
  hm_empty := [];
  hm_get h n := head (filter (λ kv, kv.1 = n) h).*2;
  hm_insert h n v := assoc_remove n h ++ [(n, v)];
  hm_remove h n := assoc_remove n h;
  hm_iter h := h;
  hm_try_append h n v := if decide (length h < 100)%nat then Some (h ++ [(n, v)]) else None;
  hm_max := 100;
  parse_uri := parse_u;
  uri_path := u_path;
  uri_query := u_query;
  uri_authority := u_authority;
  authority_host := a_host;
  authority_port_u16 := a_port;
  body_frames b := b;
  limited b n := limit_frames n b;
|}.

Lemma filter_assoc_remove (h : list (string * string)) n m :
  filter (λ kv, kv.1 = m) (assoc_remove n h)
  = if decide (m = n) then [] else filter (λ kv, kv.1 = m) h.
Proof.
  unfold assoc_remove. induction h as [|[k v] h IH]; [by destruct (decide _)|].
  rewrite (filter_cons (λ kv, kv.1 ≠ n)). rewrite (filter_cons (λ kv, kv.1 = m) (k, v) h).
  destruct (decide (k = n)) as [->|Hne].
  - rewrite decide_False by auto. rewrite IH. destruct (decide (m = n)); [done|].
    by rewrite decide_False by auto.
  - rewrite decide_True by auto. rewrite filter_cons, IH. simpl.
    destruct (decide (m = n)), (decide (k = m)); congruence.
Qed.

#[export] Instance http_laws : HttpLaws.
Proof.
  split; simpl; unfold hm_get_all; simpl.
  - intros s. destruct (str_all _ s); split; try done; by intros [].
  - intros s v. destruct (str_all header_char s); [|done]. by intros [= ->] ->.
  - intros v s. destruct (str_all visible_char v) eqn:E; [|done]. by intros [= <-].
  - intros s Hs%visible_header_char. by rewrite Hs.
  - done.
  - done.
  - intros h n v m. rewrite filter_app, filter_assoc_remove, filter_cons. simpl.
    destruct (decide (m = n)) as [->|Hne]; [by rewrite decide_True|].
    rewrite decide_False by auto. by rewrite app_nil_r.
  - intros h n m. rewrite filter_assoc_remove. by destruct (decide _).
  - intros h n v. rewrite length_app. simpl. unfold assoc_remove.
    pose proof (length_filter (λ kv, kv.1 ≠ n) h). lia.
  - intros h n. apply length_filter.
  - intros h n v h' m. case_decide; [|done]. intros [= <-]. rewrite filter_app, fmap_app, filter_cons.
    simpl. destruct (decide (m = n)), (decide (n = m)); done || congruence.
  - intros h n v h'. case_decide; [|done]. intros [= <-]. rewrite length_app. simpl. lia.
  - intros h n v Hl. by rewrite decide_True.
  - done.
Qed.

End Concrete.
