(* ===== verification/Config.v ===== *)
(** * Configuration data

    The structs of [src/config/static_config.rs], [src/config/dynamic_config.rs]
    and [src/config/mod.rs] and the serde defaults of their fields.  Integers
    are [Z] within the width of their Rust type ([wf_*] predicates). *)

From S2P Require Import Prelude Text.
Local Open Scope string_scope.
Local Open Scope list_scope.
Local Open Scope rust_scope.

(** ** Dynamic configuration *)

Record SiteConfig := mkSiteConfig {
  site_host : string;
  site_upstream : string;
  site_upstream_scheme : string;
  site_connect_timeout_secs : Z;
  site_request_timeout_secs : Z;
}.

Record RateLimitConfig := mkRateLimitConfig {
  requests_per_second : Z;
  burst : Z;
}.

Record BodyConfig := mkBodyConfig { limit_bytes : Z }.

(** [routing_table] is keyed by the lowercased host. *)
Record DynamicConfig := mkDynamicConfig {
  sites : list SiteConfig;
  routing_table : gmap string SiteConfig;
  rate_limit : RateLimitConfig;
  body : BodyConfig;
}.

Record SerializableDynamicConfig := mkSerializableDynamicConfig {
  ser_sites : list SiteConfig;
  ser_rate_limit : RateLimitConfig;
  ser_body : BodyConfig;
}.

(** ** Static configuration *)

Record TlsConfig := mkTlsConfig {
  tls_mode : string;
  acme_domains : list string;
  acme_cache_dir : string;
  acme_directory : string;
  acme_contact : string;
  cert_path : string;
  key_path : string;
}.

Record ListenerConfig := mkListenerConfig {
  bind_addr : string;
  http_port : Z;
  https_port : Z;
  tls : TlsConfig;
  listener_sites : list SiteConfig;
}.

Record LoggingConfig := mkLoggingConfig {
  log_level : string;
  log_format : string;
  log_file_path : option string;
}.

Record StaticConfig := mkStaticConfig {
  listeners : list ListenerConfig;
  allow_wildcard_bind : bool;
  health_check_port : Z;
  admin_key_path : string;
  shutdown_timeout_secs : Z;
  connection_idle_timeout_secs : Z;
  tls_handshake_timeout_secs : Z;
  max_connections : Z;
  logging : LoggingConfig;
}.

(** A parsed config file. *)
Record FullConfig := mkFullConfig {
  full_listeners : list ListenerConfig;
  full_allow_wildcard_bind : bool;
  full_health_check_port : Z;
  full_admin_key_path : string;
  full_shutdown_timeout_secs : Z;
  full_connection_idle_timeout_secs : Z;
  full_tls_handshake_timeout_secs : Z;
  full_max_connections : Z;
  full_logging : LoggingConfig;
  full_rate_limit : RateLimitConfig;
  full_body : BodyConfig;
}.

#[export] Instance SiteConfig_eq_dec : EqDecision SiteConfig.
Proof. solve_decision. Defined.
#[export] Instance RateLimitConfig_eq_dec : EqDecision RateLimitConfig.
Proof. solve_decision. Defined.
#[export] Instance BodyConfig_eq_dec : EqDecision BodyConfig.
Proof. solve_decision. Defined.
#[export] Instance DynamicConfig_eq_dec : EqDecision DynamicConfig.
Proof. solve_decision. Defined.
#[export] Instance TlsConfig_eq_dec : EqDecision TlsConfig.
Proof. solve_decision. Defined.
#[export] Instance ListenerConfig_eq_dec : EqDecision ListenerConfig.
Proof. solve_decision. Defined.
#[export] Instance LoggingConfig_eq_dec : EqDecision LoggingConfig.
Proof. solve_decision. Defined.
#[export] Instance StaticConfig_eq_dec : EqDecision StaticConfig.
Proof. solve_decision. Defined.

(** The largest integer of a TOML file is that of an [i64]. *)
Definition toml_int_max : Z := 2 ^ 63 - 1.

(** The ranges the field types impose on deserialized values. *)
Definition wf_site (s : SiteConfig) : Prop :=
  in_range toml_int_max (site_connect_timeout_secs s) ∧ in_range toml_int_max (site_request_timeout_secs s).

Definition wf_listener (l : ListenerConfig) : Prop :=
  in_range u16_max (http_port l) ∧ in_range u16_max (https_port l) ∧
  Forall wf_site (listener_sites l).

Definition wf_static (c : StaticConfig) : Prop :=
  Forall wf_listener (listeners c) ∧
  in_range u16_max (health_check_port c) ∧
  in_range toml_int_max (shutdown_timeout_secs c) ∧
  in_range toml_int_max (connection_idle_timeout_secs c) ∧
  in_range toml_int_max (tls_handshake_timeout_secs c) ∧
  in_range toml_int_max (max_connections c).

Definition wf_rate_limit (r : RateLimitConfig) : Prop :=
  in_range u32_max (requests_per_second r) ∧ in_range u32_max (burst r).

Definition dynamic_in_range (d : DynamicConfig) : Prop :=
  Forall wf_site (sites d) ∧ wf_rate_limit (rate_limit d) ∧ in_range toml_int_max (limit_bytes (body d)).

Definition wf_full (f : FullConfig) : Prop :=
  Forall wf_listener (full_listeners f) ∧
  in_range u16_max (full_health_check_port f) ∧
  in_range toml_int_max (full_shutdown_timeout_secs f) ∧
  in_range toml_int_max (full_connection_idle_timeout_secs f) ∧
  in_range toml_int_max (full_tls_handshake_timeout_secs f) ∧
  in_range toml_int_max (full_max_connections f) ∧
  wf_rate_limit (full_rate_limit f) ∧ in_range toml_int_max (limit_bytes (full_body f)).

(** ** Serde defaults *)

Definition default_upstream_scheme : string := "http".
Definition default_connect_timeout : Z := 5.
Definition default_request_timeout : Z := 60.
Definition default_health_check_port : Z := 9900.
Definition default_admin_key_path : string := "/etc/reverse-proxy/admin-key".
Definition default_shutdown_timeout_secs : Z := 30.
Definition default_connection_idle_timeout_secs : Z := 60.
Definition default_tls_handshake_timeout_secs : Z := 10.
Definition default_max_connections : Z := 1024.
Definition default_http_port : Z := 80.
Definition default_https_port : Z := 443.
Definition default_acme_directory : string := "production".
Definition default_log_level : string := "info".
Definition default_log_format : string := "text".

Definition LoggingConfig_default : LoggingConfig :=
  {| log_level := default_log_level;
     log_format := default_log_format;
     log_file_path := None |}.
