(* ===== verification/Routing.v ===== *)
(** * Host-based routing

    [strip_port_from_host] of [src/utils.rs] and the routing half of
    [src/config/dynamic_config.rs]: [normalize_host], [build_routing_table],
    [DynamicConfig::from_sites] and [DynamicConfig::lookup], with
    [FullConfig::into_static_and_dynamic] of [src/config/mod.rs]. *)

From S2P Require Import Prelude Text Config.
Local Open Scope string_scope.
Local Open Scope list_scope.

(** ** Operations *)

Definition strip_port_from_host (host : string) : string :=
  if starts_with_char "[" host then
    match find_char "]" host with
    | Some bracket_end => str_take (bracket_end + 1) host
    | None => host
    end
  else
    match rfind_char ":" host with
    | Some colon_pos => str_take colon_pos host
    | None => host
    end.

Section Routing.
Context `{Unicode}.

Definition normalize_host (host : string) : string :=
  let stripped := strip_port_from_host host in
  let lower := to_lowercase stripped in
  default lower (strip_suffix_char "]" (default lower (strip_prefix_char "[" lower))).

(** [collect] into a [HashMap]: a later entry replaces an earlier one. *)
Definition build_routing_table (ss : list SiteConfig) : gmap string SiteConfig :=
  foldl (λ (m : gmap string SiteConfig) s, <[to_lowercase (site_host s) := s]> m) ∅ ss.

Definition from_sites (ss : list SiteConfig) (rl : RateLimitConfig) (b : BodyConfig)
    : DynamicConfig :=
  {| sites := ss;
     routing_table := build_routing_table ss;
     rate_limit := rl;
     body := b |}.

Definition from_serializable (v : SerializableDynamicConfig) : DynamicConfig :=
  from_sites (ser_sites v) (ser_rate_limit v) (ser_body v).

Definition lookup (c : DynamicConfig) (host : string) : option SiteConfig :=
  routing_table c !! normalize_host host.

(** [PartialEq]: the routing table is derived data and not compared. *)
Definition dynamic_config_eqb (a b : DynamicConfig) : bool :=
  bool_decide (sites a = sites b) && bool_decide (rate_limit a = rate_limit b) &&
  bool_decide (body a = body b).

Definition into_static_and_dynamic (f : FullConfig) : StaticConfig * DynamicConfig :=
  let static_config := {|
    listeners := full_listeners f;
    allow_wildcard_bind := full_allow_wildcard_bind f;
    health_check_port := full_health_check_port f;
    admin_key_path := full_admin_key_path f;
    shutdown_timeout_secs := full_shutdown_timeout_secs f;
    connection_idle_timeout_secs := full_connection_idle_timeout_secs f;
    tls_handshake_timeout_secs := full_tls_handshake_timeout_secs f;
    max_connections := full_max_connections f;
    logging := full_logging f |} in
  let dynamic_config :=
    from_sites (flat_map listener_sites (listeners static_config))
      (full_rate_limit f) (full_body f) in
  (static_config, dynamic_config).
End Routing.

(** ** Invariant: the routing table is the one built from [sites] *)

Definition wf_dynamic `{Unicode} (c : DynamicConfig) : Prop :=
  routing_table c = build_routing_table (sites c).

(** ** The routing table *)

Section RoutingFacts.
Context `{Unicode}.
Implicit Types (ss : list SiteConfig) (s : SiteConfig) (k : string).

Lemma from_sites_wf ss rl b : wf_dynamic (from_sites ss rl b).
Proof. done. Qed.

Lemma into_static_and_dynamic_wf f : wf_dynamic (into_static_and_dynamic f).2.
Proof. done. Qed.

(** The equality of [DynamicConfig] ignores the table, and is sound on
    well-formed configs. *)
Lemma dynamic_config_eqb_spec a b :
  wf_dynamic a → wf_dynamic b → dynamic_config_eqb a b = true ↔ a = b.
Proof.
  unfold wf_dynamic, dynamic_config_eqb. intros Ha Hb.
  rewrite !andb_true_iff, !bool_decide_eq_true.
  destruct a, b; simpl in *. split; [|naive_solver]. intros [[-> ->] ->]. by subst.
Qed.

Lemma build_routing_table_nil k : build_routing_table [] !! k = None.
Proof. apply lookup_empty. Qed.

(** Of two sites with the same lowercased host, the later one is routed to. *)
Lemma build_routing_table_snoc ss s :
  build_routing_table (ss ++ [s]) =
    <[to_lowercase (site_host s) := s]> (build_routing_table ss).
Proof. unfold build_routing_table. by rewrite foldl_snoc. Qed.

Lemma build_routing_table_Some ss k s :
  build_routing_table ss !! k = Some s → s ∈ ss ∧ to_lowercase (site_host s) = k.
Proof.
  induction ss as [|s' ss IH] using rev_ind; [by rewrite build_routing_table_nil|].
  rewrite build_routing_table_snoc, elem_of_app, list_elem_of_singleton, lookup_insert.
  case_decide; naive_solver.
Qed.

Lemma build_routing_table_None ss k :
  build_routing_table ss !! k = None ↔ k ∉ map (to_lowercase ∘ site_host) ss.
Proof.
  induction ss as [|s ss IH] using rev_ind; [rewrite build_routing_table_nil; set_solver|].
  rewrite build_routing_table_snoc, map_app, not_elem_of_app, <- IH, lookup_insert. simpl.
  rewrite list_elem_of_singleton. case_decide; naive_solver.
Qed.

(** When hosts are distinct up to case, every site is in the table. *)
Lemma build_routing_table_unique ss s :
  NoDup (map (to_lowercase ∘ site_host) ss) → s ∈ ss →
  build_routing_table ss !! to_lowercase (site_host s) = Some s.
Proof.
  intros Hnd Hs. destruct (build_routing_table ss !! _) as [s'|] eqn:E.
  - f_equal. apply build_routing_table_Some in E as [Hs' Heq].
    apply list_elem_of_lookup in Hs as [i Hi]. apply list_elem_of_lookup in Hs' as [j Hj].
    assert (i = j) as <-; [|by simplify_eq].
    eapply NoDup_lookup; [done|rewrite list_lookup_fmap, Hi; done|].
    rewrite list_lookup_fmap, Hj. simpl. by rewrite Heq.
  - apply build_routing_table_None in E. exfalso. apply E.
    rewrite list_elem_of_fmap. eauto.
Qed.
End RoutingFacts.

(** ** Normalization of the [Host] header *)

(** A host with none of the characters [normalize_host] treats specially. *)
Definition plain_host (h : string) : Prop :=
  str_all is_ascii h = true ∧ contains_char "[" h = false ∧
  contains_char "]" h = false ∧ contains_char ":" h = false.

(** Equality of hosts up to ASCII case. *)
Definition host_eq_ci (h1 h2 : string) : Prop :=
  str_map ascii_lower h1 = str_map ascii_lower h2.

#[export] Instance host_eq_ci_equivalence : Equivalence host_eq_ci.
Proof. unfold host_eq_ci. split; congruence. Qed.

Lemma plain_host_lower h : plain_host (str_map ascii_lower h) ↔ plain_host h.
Proof.
  unfold plain_host. rewrite str_all_map, (str_all_ext _ is_ascii) by apply ascii_lower_ascii.
  by rewrite !contains_char_lower.
Qed.

#[export] Instance plain_host_proper : Proper (host_eq_ci ==> iff) plain_host.
Proof. intros h1 h2 E. by rewrite <- (plain_host_lower h1), <- (plain_host_lower h2), E. Qed.

Section Normalize.
Context `{Unicode}.

Lemma strip_port_plain h : plain_host h → strip_port_from_host h = h.
Proof.
  intros (_ & Hb & _ & Hc). unfold strip_port_from_host.
  by rewrite starts_with_char_false, rfind_char_None.
Qed.

Lemma strip_port_port h p :
  plain_host h → contains_char ":" p = false →
  strip_port_from_host (h +:+ ":" +:+ p) = h.
Proof.
  intros (_ & Hb & _ & Hc) Hp. unfold strip_port_from_host.
  replace (starts_with_char "[" (h +:+ ":" +:+ p)) with false.
  - change (":" +:+ p) with (String ":" p). by rewrite rfind_char_last, str_take_app.
  - symmetry. destruct h as [|a h]; [done|]. simpl in *. by apply orb_false_iff in Hb as [? _].
Qed.

(** A bracketed IPv6 literal keeps its brackets and loses what follows them. *)
Lemma strip_port_bracketed a rest :
  contains_char "]" a = false →
  strip_port_from_host ("[" +:+ a +:+ "]" +:+ rest) = "[" +:+ a +:+ "]".
Proof.
  intros Ha. unfold strip_port_from_host. cbn [starts_with_char String.append]. simpl.
  change ("]" +:+ rest) with (String "]" rest). rewrite find_char_first by done.
  cbn [fmap option_fmap option_map Nat.add str_take]. rewrite Nat.add_1_r.
  by rewrite str_take_app_S.
Qed.

Lemma normalize_lower_plain h :
  plain_host h →
  default (str_map ascii_lower h) (strip_suffix_char "]"
    (default (str_map ascii_lower h) (strip_prefix_char "[" (str_map ascii_lower h)))) =
  str_map ascii_lower h.
Proof.
  intros (_ & Hb & He & _)%plain_host_lower.
  assert (strip_prefix_char "[" (str_map ascii_lower h) = None) as ->.
  { destruct (str_map ascii_lower h); [done|]. simpl in *. by apply orb_false_iff in Hb as [-> _]. }
  simpl. unfold strip_suffix_char. by rewrite ends_with_char_false.
Qed.

Lemma normalize_host_plain h :
  plain_host h → normalize_host h = str_map ascii_lower h.
Proof.
  intros Hh. unfold normalize_host. rewrite strip_port_plain by done.
  rewrite to_lowercase_ascii by apply Hh. by apply normalize_lower_plain.
Qed.

Lemma normalize_host_port h p :
  plain_host h → contains_char ":" p = false →
  normalize_host (h +:+ ":" +:+ p) = str_map ascii_lower h.
Proof.
  intros Hh Hp. unfold normalize_host. rewrite strip_port_port by done.
  rewrite to_lowercase_ascii by apply Hh. by apply normalize_lower_plain.
Qed.

Lemma normalize_host_bracketed a rest :
  contains_char "]" a = false → str_all is_ascii a = true →
  normalize_host ("[" +:+ a +:+ "]" +:+ rest) = str_map ascii_lower a.
Proof.
  intros Ha Hasc. unfold normalize_host. rewrite strip_port_bracketed by done.
  rewrite to_lowercase_ascii by (simpl; by rewrite str_all_app, Hasc).
  simpl. rewrite str_map_app. simpl. by rewrite strip_suffix_char_app.
Qed.
End Normalize.

#[export] Hint Resolve normalize_host_plain normalize_host_port : proxy.
