(* ===== verification/Toml.v ===== *)
(** * Configuration files

    What [#[derive(Deserialize)]] makes of the structs of [src/config]: from the
    document the [toml] crate parsed to a [FullConfig].  The text-to-document parser
    and the wording of its errors are a parameter (class [Toml]). *)

From S2P Require Import Prelude Text Config Routing.
Local Open Scope string_scope.
Local Open Scope list_scope.
Local Open Scope rust_scope.

(** ** Documents *)

(** [toml::Value]; floats and dates by their text. *)
#[warnings="-register-all"] Inductive TomlValue :=
| TString (s : string)
| TInteger (z : Z)
| TFloat (text : string)
| TBoolean (b : bool)
| TDatetime (text : string)
| TArray (vs : list TomlValue)
| TTable (kvs : list (string * TomlValue)).

Fixpoint assoc {A} (n : string) (kvs : list (string * A)) : option A :=
  match kvs with
  | [] => None
  | (k, v) :: kvs => if (k =? n)%string then Some v else assoc n kvs
  end.

(** ** Primitive fields *)

Definition de_string (v : TomlValue) : option string :=
  match v with TString s => Some s | _ => None end.

Definition de_bool (v : TomlValue) : option bool :=
  match v with TBoolean b => Some b | _ => None end.

(** [visit_i64] of an unsigned type with largest value [m]; an integer of a document is
    an [i64]. *)
Definition de_uint (m : Z) (v : TomlValue) : option Z :=
  match v with
  | TInteger z => if (0 <=? z)%Z && (z <=? Z.min m toml_int_max)%Z then Some z else None
  | _ => None
  end.

Definition de_vec {A} (f : TomlValue → option A) (v : TomlValue) : option (list A) :=
  match v with TArray vs => mapM f vs | _ => None end.

(** ** Structs

    The value given for each field of a struct whose fields are [names], in order:
    by key in a table ([visit_map]; unknown keys are skipped), by position in an array
    ([visit_seq]).  A date is visited as a map with one private key. *)
Definition struct_fields (names : list string) (v : TomlValue)
    : option (string → option TomlValue) :=
  match v with
  | TTable kvs => Some (λ n, assoc n kvs)
  | TArray vs => Some (λ n, i ← list_find (λ m, m = n) names; vs !! i.1)
  | TDatetime _ => Some (λ _, None)
  | _ => None
  end.

(** A field without and with [#[serde(default)]]. *)
Definition required {A} (get : string → option TomlValue) (n : string)
    (f : TomlValue → option A) : option A := get n ≫= f.

Definition defaulted {A} (get : string → option TomlValue) (n : string)
    (f : TomlValue → option A) (d : A) : option A :=
  match get n with Some v => f v | None => Some d end.

Definition SITE_FIELDS : list string :=
  ["host"; "upstream"; "upstream_scheme"; "upstream_connect_timeout_secs";
   "upstream_request_timeout_secs"].

Definition deserialize_site (v : TomlValue) : option SiteConfig :=
  get ← struct_fields SITE_FIELDS v;
  h ← required get "host" de_string;
  u ← required get "upstream" de_string;
  s ← defaulted get "upstream_scheme" de_string default_upstream_scheme;
  c ← defaulted get "upstream_connect_timeout_secs" (de_uint u64_max) default_connect_timeout;
  r ← defaulted get "upstream_request_timeout_secs" (de_uint u64_max) default_request_timeout;
  Some (mkSiteConfig h u s c r).

Definition TLS_FIELDS : list string :=
  ["mode"; "acme_domains"; "acme_cache_dir"; "acme_directory"; "acme_contact"; "cert_path"; "key_path"].

Definition deserialize_tls (v : TomlValue) : option TlsConfig :=
  get ← struct_fields TLS_FIELDS v;
  m ← required get "mode" de_string;
  ds ← defaulted get "acme_domains" (de_vec de_string) [];
  cd ← defaulted get "acme_cache_dir" de_string "";
  ad ← defaulted get "acme_directory" de_string default_acme_directory;
  ac ← defaulted get "acme_contact" de_string "";
  cp ← defaulted get "cert_path" de_string "";
  kp ← defaulted get "key_path" de_string "";
  Some (mkTlsConfig m ds cd ad ac cp kp).

Definition LISTENER_FIELDS : list string := ["bind_addr"; "http_port"; "https_port"; "tls"; "sites"].

Definition deserialize_listener (v : TomlValue) : option ListenerConfig :=
  get ← struct_fields LISTENER_FIELDS v;
  b ← required get "bind_addr" de_string;
  hp ← defaulted get "http_port" (de_uint u16_max) default_http_port;
  sp ← defaulted get "https_port" (de_uint u16_max) default_https_port;
  t ← required get "tls" deserialize_tls;
  ss ← defaulted get "sites" (de_vec deserialize_site) [];
  Some (mkListenerConfig b hp sp t ss).

Definition LOGGING_FIELDS : list string := ["level"; "format"; "log_file_path"].

Definition deserialize_logging (v : TomlValue) : option LoggingConfig :=
  get ← struct_fields LOGGING_FIELDS v;
  l ← defaulted get "level" de_string default_log_level;
  f ← defaulted get "format" de_string default_log_format;
  p ← defaulted get "log_file_path" (λ v, Some <$> de_string v) None;
  Some (mkLoggingConfig l f p).

Definition deserialize_rate_limit (v : TomlValue) : option RateLimitConfig :=
  get ← struct_fields ["requests_per_second"; "burst"] v;
  r ← required get "requests_per_second" (de_uint u32_max);
  b ← required get "burst" (de_uint u32_max);
  Some (mkRateLimitConfig r b).

Definition deserialize_body (v : TomlValue) : option BodyConfig :=
  get ← struct_fields ["limit_bytes"] v;
  l ← required get "limit_bytes" (de_uint u64_max);
  Some (mkBodyConfig l).

Definition FULL_FIELDS : list string :=
  ["listeners"; "allow_wildcard_bind"; "health_check_port"; "admin_key_path"; "shutdown_timeout_secs";
   "connection_idle_timeout_secs"; "tls_handshake_timeout_secs"; "max_connections"; "logging";
   "rate_limit"; "body"].

Definition deserialize_full (v : TomlValue) : option FullConfig :=
  get ← struct_fields FULL_FIELDS v;
  ls ← defaulted get "listeners" (de_vec deserialize_listener) [];
  aw ← defaulted get "allow_wildcard_bind" de_bool false;
  hc ← defaulted get "health_check_port" (de_uint u16_max) default_health_check_port;
  ak ← defaulted get "admin_key_path" de_string default_admin_key_path;
  st ← defaulted get "shutdown_timeout_secs" (de_uint u64_max) default_shutdown_timeout_secs;
  it ← defaulted get "connection_idle_timeout_secs" (de_uint u64_max) default_connection_idle_timeout_secs;
  ht ← defaulted get "tls_handshake_timeout_secs" (de_uint u64_max) default_tls_handshake_timeout_secs;
  mc ← defaulted get "max_connections" (de_uint usize_max) default_max_connections;
  lg ← defaulted get "logging" deserialize_logging LoggingConfig_default;
  rl ← required get "rate_limit" deserialize_rate_limit;
  b ← required get "body" deserialize_body;
  Some (mkFullConfig ls aw hc ak st it ht mc lg rl b).

(** The [toml] crate: the parsed document (a table), or its syntax error; and the
    message for a document that does not fit the struct. *)
Class Toml := {
  toml_document : string → result (list (string * TomlValue)) string;
  toml_de_error : list (string * TomlValue) → string;
}.

Definition toml_from_str `{Toml} (content : string) : result FullConfig string :=
  doc <-? toml_document content;
  match deserialize_full (TTable doc) with
  | Some f => Ok f
  | None => Err (toml_de_error doc)
  end.

(** ** Every deserialized configuration is in range *)

Lemma required_Some {A} get n (f : TomlValue → option A) x :
  required get n f = Some x → ∃ v, get n = Some v ∧ f v = Some x.
Proof. unfold required. intros (v & Hv & Hf)%bind_Some. eauto. Qed.

Lemma defaulted_Some {A} get n (f : TomlValue → option A) d x :
  defaulted get n f d = Some x → (∃ v, get n = Some v ∧ f v = Some x) ∨ x = d.
Proof. unfold defaulted. destruct (get n); naive_solver. Qed.

Lemma de_uint_Some m v z : de_uint m v = Some z → v = TInteger z ∧ in_range (Z.min m toml_int_max) z.
Proof.
  destruct v; try done. simpl. intros H. destruct (_ && _) eqn:E; simplify_eq. bool_to_prop.
  unfold in_range. done.
Qed.

Lemma required_uint get n m k z :
  required get n (de_uint m) = Some z → k = Z.min m toml_int_max → in_range k z.
Proof. intros (v & _ & [_ H]%de_uint_Some)%required_Some. by intros ->. Qed.

Lemma defaulted_uint get n m k d z :
  defaulted get n (de_uint m) d = Some z → k = Z.min m toml_int_max → in_range k d → in_range k z.
Proof. intros [(v & _ & [_ H]%de_uint_Some)| ->]%defaulted_Some; [by intros ->|done]. Qed.

Lemma de_vec_Forall {A} (P : A → Prop) f v l :
  (∀ v x, f v = Some x → P x) → de_vec f v = Some l → Forall P l.
Proof.
  intros Hf. destruct v as [| | | | |vs|]; try done. simpl. intros H%mapM_Some.
  induction H; constructor; eauto.
Qed.

Lemma defaulted_vec {A} (P : A → Prop) get n f l :
  (∀ v x, f v = Some x → P x) → defaulted get n (de_vec f) [] = Some l → Forall P l.
Proof. intros Hf [(v & _ & H)| ->]%defaulted_Some; [by eapply de_vec_Forall|constructor]. Qed.

(** Opens every bind of a deserializer that succeeded. *)
Ltac invert_binds H :=
  repeat (apply bind_Some in H as (? & ? & H)); injection H as <-.

Ltac range := unfold in_range; vm_compute; intuition congruence.

Lemma deserialize_site_wf v s : deserialize_site v = Some s → wf_site s.
Proof. intros H. unfold deserialize_site in H. invert_binds H. split; eapply defaulted_uint; eauto; range. Qed.

Lemma deserialize_listener_wf v l : deserialize_listener v = Some l → wf_listener l.
Proof.
  intros H. unfold deserialize_listener in H. invert_binds H.
  split; [|split]; [eapply defaulted_uint; eauto; range..|].
  eapply defaulted_vec; [apply deserialize_site_wf|]. eassumption.
Qed.

Lemma deserialize_rate_limit_wf v r : deserialize_rate_limit v = Some r → wf_rate_limit r.
Proof. intros H. unfold deserialize_rate_limit in H. invert_binds H. split; eapply required_uint; eauto; range. Qed.

Lemma deserialize_body_wf v b : deserialize_body v = Some b → in_range toml_int_max (limit_bytes b).
Proof. intros H. unfold deserialize_body in H. invert_binds H. eapply required_uint; eauto; range. Qed.

Lemma deserialize_full_wf v f : deserialize_full v = Some f → wf_full f.
Proof.
  intros H. unfold deserialize_full in H. invert_binds H.
  split; [eapply defaulted_vec; [apply deserialize_listener_wf|eassumption]|].
  do 5 (split; [eapply defaulted_uint; eauto; range|]).
  split.
  - match goal with Hr : required _ "rate_limit" _ = _ |- _ =>
      apply required_Some in Hr as (? & _ & Hr); by apply deserialize_rate_limit_wf in Hr end.
  - match goal with Hr : required _ "body" _ = _ |- _ =>
      apply required_Some in Hr as (? & _ & Hr); by apply deserialize_body_wf in Hr end.
Qed.

Lemma toml_from_str_wf `{Toml} content f : toml_from_str content = Ok f → wf_full f.
Proof.
  unfold toml_from_str. intros (doc & _ & Hf)%and_then_Ok.
  destruct (deserialize_full _) eqn:E; simplify_eq. by apply deserialize_full_wf in E.
Qed.

Lemma split_wf `{Unicode} f :
  wf_full f → wf_static (into_static_and_dynamic f).1 ∧ dynamic_in_range (into_static_and_dynamic f).2.
Proof.
  intros (Hl & Hh & Hs & Hi & Ht & Hm & Hr & Hb). split; [done|]. split; [|done].
  simpl. clear -Hl. induction Hl as [|l ls (_ & _ & Hl) _ IH]; simpl; [constructor|].
  by apply Forall_app.
Qed.

(** ** Writing a configuration as a document

    The fields of a struct with their values and whether the value is the default;
    [omit] leaves the defaults out of the table. *)

Abbreviation Field := (string * TomlValue * bool)%type.

Definition render (omit : bool) (fs : list Field) : list (string * TomlValue) :=
  omap (λ '(n, v, is_default), if omit && is_default then None else Some (n, v)) fs.

Definition t_strings (l : list string) : TomlValue := TArray (TString <$> l).

Definition site_table (omit : bool) (s : SiteConfig) : TomlValue :=
  TTable (render omit
    [("host", TString (site_host s), false);
     ("upstream", TString (site_upstream s), false);
     ("upstream_scheme", TString (site_upstream_scheme s),
        bool_decide (site_upstream_scheme s = default_upstream_scheme));
     ("upstream_connect_timeout_secs", TInteger (site_connect_timeout_secs s),
        bool_decide (site_connect_timeout_secs s = default_connect_timeout));
     ("upstream_request_timeout_secs", TInteger (site_request_timeout_secs s),
        bool_decide (site_request_timeout_secs s = default_request_timeout))]).

Definition tls_table (omit : bool) (t : TlsConfig) : TomlValue :=
  TTable (render omit
    [("mode", TString (tls_mode t), false);
     ("acme_domains", t_strings (acme_domains t), bool_decide (acme_domains t = []));
     ("acme_cache_dir", TString (acme_cache_dir t), bool_decide (acme_cache_dir t = ""));
     ("acme_directory", TString (acme_directory t),
        bool_decide (acme_directory t = default_acme_directory));
     ("acme_contact", TString (acme_contact t), bool_decide (acme_contact t = ""));
     ("cert_path", TString (cert_path t), bool_decide (cert_path t = ""));
     ("key_path", TString (key_path t), bool_decide (key_path t = ""))]).

Definition listener_table (omit : bool) (l : ListenerConfig) : TomlValue :=
  TTable (render omit
    [("bind_addr", TString (bind_addr l), false);
     ("http_port", TInteger (http_port l), bool_decide (http_port l = default_http_port));
     ("https_port", TInteger (https_port l), bool_decide (https_port l = default_https_port));
     ("tls", tls_table omit (tls l), false);
     ("sites", TArray (site_table omit <$> listener_sites l), bool_decide (listener_sites l = []))]).

Definition logging_table (omit : bool) (l : LoggingConfig) : TomlValue :=
  TTable (render omit
    [("level", TString (log_level l), bool_decide (log_level l = default_log_level));
     ("format", TString (log_format l), bool_decide (log_format l = default_log_format))] ++
    match log_file_path l with Some p => [("log_file_path", TString p)] | None => [] end).

Definition full_table (omit : bool) (f : FullConfig) : list (string * TomlValue) :=
  render omit
    [("listeners", TArray (listener_table omit <$> full_listeners f), bool_decide (full_listeners f = []));
     ("allow_wildcard_bind", TBoolean (full_allow_wildcard_bind f),
        bool_decide (full_allow_wildcard_bind f = false));
     ("health_check_port", TInteger (full_health_check_port f),
        bool_decide (full_health_check_port f = default_health_check_port));
     ("admin_key_path", TString (full_admin_key_path f),
        bool_decide (full_admin_key_path f = default_admin_key_path));
     ("shutdown_timeout_secs", TInteger (full_shutdown_timeout_secs f),
        bool_decide (full_shutdown_timeout_secs f = default_shutdown_timeout_secs));
     ("connection_idle_timeout_secs", TInteger (full_connection_idle_timeout_secs f),
        bool_decide (full_connection_idle_timeout_secs f = default_connection_idle_timeout_secs));
     ("tls_handshake_timeout_secs", TInteger (full_tls_handshake_timeout_secs f),
        bool_decide (full_tls_handshake_timeout_secs f = default_tls_handshake_timeout_secs));
     ("max_connections", TInteger (full_max_connections f),
        bool_decide (full_max_connections f = default_max_connections));
     ("logging", logging_table omit (full_logging f),
        bool_decide (full_logging f = LoggingConfig_default));
     ("rate_limit", TTable [("requests_per_second", TInteger (requests_per_second (full_rate_limit f)));
                            ("burst", TInteger (burst (full_rate_limit f)))], false);
     ("body", TTable [("limit_bytes", TInteger (limit_bytes (full_body f)))], false)].

Lemma assoc_render omit n v d fs :
  (n, v, d) ∈ fs → NoDup (fs.*1.*1) →
  assoc n (render omit fs) = if omit && d then None else Some v.
Proof.
  induction fs as [|[[m w] e] fs IH]; [by intros ?%elem_of_nil|].
  rewrite elem_of_cons. cbn [fmap list_fmap fst]. rewrite NoDup_cons. intros Hin [Hm Hnd].
  assert (∀ rest, assoc n (if omit && e then rest else (m, w) :: rest) =
    if (m =? n)%string then (if omit && e then assoc n rest else Some w) else assoc n rest) as Hhd.
  { intros rest. destruct (omit && e); simpl; [by destruct (m =? n)%string|done]. }
  assert (render omit ((m, w, e) :: fs) =
    if omit && e then render omit fs else (m, w) :: render omit fs) as -> by (simpl; by destruct (omit && e)).
  rewrite Hhd. destruct (String.eqb_spec m n) as [->|Hne].
  - destruct Hin as [[= <- <-]|Hin].
    + destruct (omit && d); [|done]. clear -Hm. induction fs as [|[[k x] b] fs IH]; [done|].
      cbn [fmap list_fmap fst] in Hm. apply not_elem_of_cons in Hm as [Hk Hm].
      simpl. destruct (omit && b); [by apply IH|]. simpl.
      destruct (String.eqb_spec k n) as [->|]; [done|by apply IH].
    + destruct Hm. apply list_elem_of_fmap. exists (n, v). split; [done|].
      apply list_elem_of_fmap. by exists (n, v, d).
  - destruct Hin as [[= -> _ _]|Hin]; [done|]. by apply IH.
Qed.

(** A field of a rendered table reads back, present or left out. *)
Lemma required_render {A} omit n v fs (f : TomlValue → option A) x :
  (n, v, false) ∈ fs → NoDup (fs.*1.*1) → f v = Some x →
  required (λ n, assoc n (render omit fs)) n f = Some x.
Proof. intros Hin Hnd Hf. unfold required. by rewrite (assoc_render omit n v false), andb_false_r. Qed.

Lemma defaulted_render {A} omit n v b fs (f : TomlValue → option A) (x d : A) :
  (n, v, b) ∈ fs → NoDup (fs.*1.*1) → f v = Some x → (b = true → x = d) →
  defaulted (λ n, assoc n (render omit fs)) n f d = Some x.
Proof.
  intros Hin Hnd Hf Hd. unfold defaulted. rewrite (assoc_render omit n v b) by done.
  destruct omit, b; simpl; try done. by rewrite Hd.
Qed.

Lemma de_uint_Integer m z : in_range (Z.min m toml_int_max) z → de_uint m (TInteger z) = Some z.
Proof. unfold in_range. intros []. simpl. by rewrite (proj2 (Z.leb_le 0 z)), (proj2 (Z.leb_le z _)) by done. Qed.

Lemma de_vec_map {A} f (g : A → TomlValue) l :
  Forall (λ x, f (g x) = Some x) l → de_vec f (TArray (g <$> l)) = Some l.
Proof. intros H. simpl. apply mapM_Some. induction H; constructor; done. Qed.

Create HintDb toml.
#[export] Hint Resolve de_uint_Integer de_vec_map : toml.

Ltac solve_field :=
  lazymatch goal with
  | |- _ ∈ _ => repeat first [apply list_elem_of_here | apply list_elem_of_further]
  | |- NoDup _ => cbn [fmap list_fmap fst]; apply (bool_decide_unpack _); vm_compute; exact I
  | |- _ = true → _ => by intros ?%bool_decide_eq_true
  | |- _ => eauto with toml
  end.

(** Reads the next field of a rendered struct. *)
Ltac read_field :=
  match goal with
  | |- context [required (λ n, assoc n (render ?o ?fs)) ?k ?f] =>
      erewrite (required_render o k _ fs f) by solve_field
  | |- context [defaulted (λ n, assoc n (render ?o ?fs)) ?k ?f ?d] =>
      erewrite (defaulted_render o k _ _ fs f _ d) by solve_field
  end; cbn [mbind option_bind].

Lemma deserialize_site_table omit s : wf_site s → deserialize_site (site_table omit s) = Some s.
Proof.
  intros [Hc Hr]. unfold deserialize_site, site_table. cbn [struct_fields mbind option_bind].
  do 5 read_field. by destruct s.
Qed.

Lemma de_vec_strings l : de_vec de_string (t_strings l) = Some l.
Proof. apply de_vec_map. by apply Forall_true. Qed.
#[export] Hint Resolve de_vec_strings : toml.

Lemma deserialize_tls_table omit t : deserialize_tls (tls_table omit t) = Some t.
Proof.
  unfold deserialize_tls, tls_table. cbn [struct_fields mbind option_bind].
  do 7 read_field. by destruct t.
Qed.
#[export] Hint Resolve deserialize_tls_table : toml.

Lemma deserialize_listener_table omit l :
  wf_listener l → deserialize_listener (listener_table omit l) = Some l.
Proof.
  intros (Hh & Hs & Hsites). unfold deserialize_listener, listener_table.
  assert (de_vec deserialize_site (TArray (site_table omit <$> listener_sites l)) = Some (listener_sites l)).
  { apply de_vec_map. eapply Forall_impl; [exact Hsites|]. intros s. apply deserialize_site_table. }
  cbn [struct_fields mbind option_bind]. do 5 read_field. by destruct l.
Qed.

Lemma deserialize_logging_table omit l : deserialize_logging (logging_table omit l) = Some l.
Proof.
  unfold deserialize_logging, logging_table, render, defaulted. destruct l as [level format path]. simpl.
  destruct omit; simpl; repeat case_bool_decide; subst; simpl; by destruct path.
Qed.
#[export] Hint Resolve deserialize_logging_table : toml.

Lemma deserialize_limits f :
  wf_rate_limit (full_rate_limit f) → in_range toml_int_max (limit_bytes (full_body f)) →
  deserialize_rate_limit (TTable [("requests_per_second", TInteger (requests_per_second (full_rate_limit f)));
                                  ("burst", TInteger (burst (full_rate_limit f)))]) = Some (full_rate_limit f) ∧
  deserialize_body (TTable [("limit_bytes", TInteger (limit_bytes (full_body f)))]) = Some (full_body f).
Proof.
  intros [Hr Hb] Hl. unfold deserialize_rate_limit, deserialize_body, required.
  cbn [struct_fields mbind option_bind assoc String.eqb Ascii.eqb Bool.eqb].
  rewrite !de_uint_Integer by done. by destruct (full_rate_limit f), (full_body f).
Qed.

Lemma deserialize_full_table omit f :
  wf_full f → deserialize_full (TTable (full_table omit f)) = Some f.
Proof.
  intros (Hl & Hh & Hs & Hi & Ht & Hm & Hr & Hb). unfold deserialize_full, full_table.
  assert (de_vec deserialize_listener (TArray (listener_table omit <$> full_listeners f)) = Some (full_listeners f)).
  { apply de_vec_map. eapply Forall_impl; [exact Hl|]. intros l. apply deserialize_listener_table. }
  destruct (deserialize_limits f Hr Hb) as [Hrl Hbl].
  cbn [struct_fields mbind option_bind]. do 11 read_field. by destruct f.
Qed.

(** ** Only the named fields matter *)

Lemma deserialize_full_fields kvs kvs' :
  (∀ n, n ∈ FULL_FIELDS → assoc n kvs = assoc n kvs') →
  deserialize_full (TTable kvs) = deserialize_full (TTable kvs').
Proof.
  intros Hn. unfold deserialize_full, required, defaulted. cbn [struct_fields mbind option_bind].
  rewrite !Hn by (unfold FULL_FIELDS; set_solver). done.
Qed.

(** [C16] Config files are faithful: write any configuration whose integers are in range
    as a document, with the default values written out or left out, add keys the
    proxy does not know and reorder them at will: reading the document gives the
    configuration back. *)
Theorem config_roundtrip omit f doc :
  wf_full f → (∀ n, n ∈ FULL_FIELDS → assoc n doc = assoc n (full_table omit f)) →
  deserialize_full (TTable doc) = Some f.
Proof. intros Hf Hdoc. rewrite (deserialize_full_fields _ _ Hdoc). by apply deserialize_full_table. Qed.

(** A document with an unknown key in front and the limits last. *)
Definition roundtrip_config : FullConfig :=
  mkFullConfig
    [mkListenerConfig "127.0.0.1" 0 8443
       (mkTlsConfig "manual" [] "" "production" "" "/etc/cert.pem" "/etc/key.pem")
       [mkSiteConfig "git.example" "127.0.0.1:3000" "http" 5 300]]
    false 9900 "" 30 60 10 512 (mkLoggingConfig "debug" "text" (Some "/var/log/proxy.log"))
    (mkRateLimitConfig 10 20) (mkBodyConfig 1024).

Lemma config_roundtrip_witness :
  deserialize_full (TTable (("comment", TString "x") :: full_table true roundtrip_config))
  = Some roundtrip_config.
Proof.
  apply (config_roundtrip true).
  - repeat first [split | constructor]; vm_compute; congruence.
  - intros n Hn. cbn [assoc]. destruct (String.eqb_spec "comment" n) as [<-|]; [|reflexivity].
    exfalso. unfold FULL_FIELDS in Hn. set_solver.
Defined.
