(* ===== verification/Validation.v ===== *)
(** * Configuration validation

    [src/config/validation.rs] and [src/config/fd_budget.rs]: the error type,
    its messages, the hostname and upstream checks, [validate] itself, and the
    file-descriptor budget.  [validate] is shown equivalent to a declarative
    specification, [valid_config]. *)

From S2P Require Import Prelude Text Net Config Routing.
Local Open Scope string_scope.
Local Open Scope list_scope.

(** ** Errors *)

Inductive ValidationError : Type :=
| NoListeners
| WildcardBindNotAllowed (bind_addr : string)
| DuplicateHttpsBind (bind_addr : string) (https_port : Z)
| AcmeDomainsEmpty (bind_addr : string)
| ManualCertMissing (bind_addr : string)
| CertPathNotReadable (bind_addr path reason : string)
| KeyPathNotReadable (bind_addr path reason : string)
| SiteHostEmpty (host : string)
| SiteUpstreamEmpty (host : string)
| DuplicateSiteHost (host : string)
| RequestsPerSecondZero (value : Z)
| BodyLimitBytesZero (value : Z)
| DuplicateHttpBind (bind_addr : string) (http_port : Z)
| HttpsAndHttpPortSame (bind_addr : string) (http_port https_port : Z)
| HttpsPortInvalid (bind_addr : string) (https_port : Z)
| HttpPortInvalid (bind_addr : string) (http_port : Z)
| HealthCheckPortConflict (health_check_port : Z) (bind_addr : string) (port : Z)
| SiteHostContainsPort (host : string)
| SiteHostInvalid (host : string)
| UpstreamInvalid (host upstream : string)
| UpstreamSchemeInvalid (host scheme : string)
| AcmeContactInvalid (bind_addr : string)
| AdminKeyPathNotAbsolute (path : string)
| AdminKeyPathTraversal (path : string)
| ConnectionIdleTimeoutZero (value : Z)
| TlsHandshakeTimeoutZero (value : Z)
| MaxConnectionsZero (value : Z)
| MaxConnectionsExceedsNofile (max_connections soft_limit reserved : Z).

#[export] Instance ValidationError_eq_dec : EqDecision ValidationError.
Proof. solve_decision. Defined.

(** ** Hostnames and upstreams *)

Definition is_hostname_char (a : ascii) : bool := is_ascii_alphanumeric a || Ascii.eqb a "-".

Definition is_valid_label (label : string) : bool :=
  if is_empty label then false
  else if starts_with_char "-" label || ends_with_char "-" label then false
  else str_all is_hostname_char label.

Definition is_valid_hostname (host : string) : bool :=
  if is_empty host then false
  else if contains_char ":" host then false
  else if bool_decide (is_Some (parse_ip_addr host)) then false
  else if starts_with_char "-" host || ends_with_char "-" host then false
  else if contains_char "." host then forallb is_valid_label (split_char "." host)
  else str_all is_hostname_char host.

Definition is_valid_upstream (upstream : string) : bool :=
  match rfind_char ":" upstream with
  | None => false
  | Some idx =>
      let host_part := str_take idx upstream in
      let port_str := str_drop (idx + 1) upstream in
      if is_empty host_part then false
      else if starts_with "http://" upstream || starts_with "https://" upstream then false
      else
        match parse_uint u16_max port_str with
        | None => false
        | Some port =>
            if (port =? 0)%Z then false
            else if starts_with_char "[" host_part && ends_with_char "]" host_part then
              let inner := str_take (String.length host_part - 1 - 1) (str_drop 1 host_part) in
              bool_decide (is_Some (parse_ipv6_addr inner))
            else
              bool_decide (is_Some (parse_ip_addr host_part)) || is_valid_hostname host_part
        end
  end.

(** ** [validate] *)

(** [Path::exists] on the host file system. *)
Class FileSystem := { path_exists : string → bool }.

Section Validate.
Context `{Unicode, FileSystem}.

Definition validate_tls (l : ListenerConfig) : list ValidationError :=
  let t := tls l in
  if (tls_mode t =? "acme")%string then
    push_if (bool_decide (acme_domains t = [])) (AcmeDomainsEmpty (bind_addr l)) ++
    (let contact := acme_contact t in
     if is_empty contact || negb (starts_with "mailto:" contact)
     then [AcmeContactInvalid (bind_addr l)]
     else
       let email := str_drop 7 contact in
       push_if (is_empty email || negb (contains_char "@" email))
         (AcmeContactInvalid (bind_addr l)))
  else if (tls_mode t =? "manual")%string then
    if is_empty (cert_path t) || is_empty (key_path t)
    then [ManualCertMissing (bind_addr l)]
    else
      push_if (negb (path_exists (cert_path t)))
        (CertPathNotReadable (bind_addr l) (cert_path t) "file does not exist") ++
      push_if (negb (path_exists (key_path t)))
        (KeyPathNotReadable (bind_addr l) (key_path t) "file does not exist")
  else [].

(** The first loop; [HashSet::insert] is false on an element already there. *)
Fixpoint validate_listeners (allow_wildcard : bool)
    (https_bind_keys http_bind_keys : gset (string * Z)) (ls : list ListenerConfig)
    : list ValidationError :=
  match ls with
  | [] => []
  | l :: ls =>
      let https_key := (bind_addr l, https_port l) in
      let http_key := (bind_addr l, http_port l) in
      push_if ((bind_addr l =? "0.0.0.0")%string && negb allow_wildcard)
        (WildcardBindNotAllowed (bind_addr l)) ++
      push_if (bool_decide (https_key ∈ https_bind_keys))
        (DuplicateHttpsBind (bind_addr l) (https_port l)) ++
      push_if ((0 <? http_port l)%Z && bool_decide (http_key ∈ http_bind_keys))
        (DuplicateHttpBind (bind_addr l) (http_port l)) ++
      push_if (https_port l =? 0)%Z (HttpsPortInvalid (bind_addr l) (https_port l)) ++
      push_if ((0 <? http_port l)%Z && (http_port l =? https_port l)%Z)
        (HttpsAndHttpPortSame (bind_addr l) (http_port l) (https_port l)) ++
      validate_tls l ++
      validate_listeners allow_wildcard ({[https_key]} ∪ https_bind_keys)
        (if (0 <? http_port l)%Z then {[http_key]} ∪ http_bind_keys else http_bind_keys) ls
  end.

Definition validate_health_check (c : StaticConfig) : list ValidationError :=
  let hp := health_check_port c in
  if (0 <? hp)%Z then
    flat_map (λ l,
      push_if (hp =? https_port l)%Z (HealthCheckPortConflict hp (bind_addr l) (https_port l)) ++
      push_if ((0 <? http_port l)%Z && (hp =? http_port l)%Z)
        (HealthCheckPortConflict hp (bind_addr l) (http_port l))) (listeners c)
  else [].

(** The body of the second loop, and the loop over all sites of all
    listeners in order. *)
Definition validate_site (site_hosts : gset string) (s : SiteConfig) : list ValidationError :=
  let normalized_host := to_lowercase (site_host s) in
  push_if (is_empty (site_host s)) (SiteHostEmpty "") ++
  push_if (is_empty (site_upstream s)) (SiteUpstreamEmpty (site_host s)) ++
  push_if (bool_decide (normalized_host ∈ site_hosts)) (DuplicateSiteHost normalized_host) ++
  push_if (contains_char ":" (site_host s)) (SiteHostContainsPort (site_host s)) ++
  push_if (negb (is_valid_hostname (site_host s))) (SiteHostInvalid (site_host s)) ++
  push_if (negb (is_empty (site_upstream s)) && negb (is_valid_upstream (site_upstream s)))
    (UpstreamInvalid (site_host s) (site_upstream s)) ++
  push_if (negb (site_upstream_scheme s =? "http")%string &&
           negb (site_upstream_scheme s =? "https")%string)
    (UpstreamSchemeInvalid (site_host s) (site_upstream_scheme s)).

Fixpoint validate_sites (site_hosts : gset string) (ss : list SiteConfig)
    : list ValidationError :=
  match ss with
  | [] => []
  | s :: ss =>
      validate_site site_hosts s ++
      validate_sites ({[to_lowercase (site_host s)]} ∪ site_hosts) ss
  end.

Definition validate_admin_key_path (c : StaticConfig) : list ValidationError :=
  let path := admin_key_path c in
  if negb (is_empty path) then
    if negb (starts_with_char "/" path) then [AdminKeyPathNotAbsolute path]
    else push_if (contains ".." path) (AdminKeyPathTraversal path)
  else [].

Definition validate_limits (c : StaticConfig) : list ValidationError :=
  push_if (connection_idle_timeout_secs c =? 0)%Z (ConnectionIdleTimeoutZero (connection_idle_timeout_secs c)) ++
  push_if (tls_handshake_timeout_secs c =? 0)%Z (TlsHandshakeTimeoutZero (tls_handshake_timeout_secs c)) ++
  push_if (max_connections c =? 0)%Z (MaxConnectionsZero (max_connections c)).

Definition validation_errors (static_config : StaticConfig) (dynamic_config : DynamicConfig)
    (cli_allow_wildcard_bind : bool) : list ValidationError :=
  let allow_wildcard := allow_wildcard_bind static_config || cli_allow_wildcard_bind in
  push_if (bool_decide (listeners static_config = [])) NoListeners ++
  validate_listeners allow_wildcard ∅ ∅ (listeners static_config) ++
  validate_health_check static_config ++
  validate_sites ∅ (flat_map listener_sites (listeners static_config)) ++
  push_if (requests_per_second (rate_limit dynamic_config) =? 0)%Z (RequestsPerSecondZero 0) ++
  push_if (limit_bytes (body dynamic_config) =? 0)%Z (BodyLimitBytesZero 0) ++
  validate_admin_key_path static_config ++
  validate_limits static_config.

Definition validate (static_config : StaticConfig) (dynamic_config : DynamicConfig)
    (cli_allow_wildcard_bind : bool) : result unit (list ValidationError) :=
  match validation_errors static_config dynamic_config cli_allow_wildcard_bind with
  | [] => Ok tt
  | errors => Err errors
  end.
End Validate.

(** ** The file-descriptor budget *)

Definition RESERVED_FDS : Z := 64.
Definition DOCKER_DEFAULT_NOFILE : Z := 1024.

(** [getrlimit(RLIMIT_NOFILE)]: [None] when the call fails; [RLIM_INFINITY] is
    the largest [u64]. *)
Definition RLIM_INFINITY : Z := u64_max.

Definition soft_nofile_limit (getrlimit : option Z) : option Z :=
  match getrlimit with
  | Some rlim_cur => if (rlim_cur =? RLIM_INFINITY)%Z then None else Some rlim_cur
  | None => None
  end.

(** The addition wraps: release builds do not check overflow. *)
Definition check_fd_budget (max_connections soft_limit : Z) : result unit string :=
  let required := u64_wrapping_add max_connections RESERVED_FDS in
  if (soft_limit <? required)%Z then
    Err ("max_connections (" +:+ show_uint max_connections +:+ ") + reserved FDs (" +:+
         show_uint RESERVED_FDS +:+ ") exceeds soft RLIMIT_NOFILE (" +:+
         show_uint soft_limit +:+ ")")
  else Ok tt.

Definition validate_nofile (getrlimit : option Z) (max_connections : Z) : list ValidationError :=
  match soft_nofile_limit getrlimit with
  | None => []
  | Some soft_limit =>
      match check_fd_budget max_connections soft_limit with
      | Ok _ => []
      | Err _ => [MaxConnectionsExceedsNofile max_connections soft_limit RESERVED_FDS]
      end
  end.

(** Whether the startup warning is logged. *)
Definition warn_if_default_nofile (getrlimit : option Z) : bool :=
  match soft_nofile_limit getrlimit with
  | None => false
  | Some soft_limit => (soft_limit <=? DOCKER_DEFAULT_NOFILE)%Z
  end.

(** ** Specification of a valid configuration *)

Section Spec.
Context `{Unicode, FileSystem}.

Definition tls_valid (t : TlsConfig) : Prop :=
  (tls_mode t = "acme" →
     acme_domains t ≠ [] ∧
     ∃ email, acme_contact t = "mailto:" +:+ email ∧ contains_char "@" email = true) ∧
  (tls_mode t = "manual" →
     cert_path t ≠ "" ∧ key_path t ≠ "" ∧
     path_exists (cert_path t) = true ∧ path_exists (key_path t) = true).

Record listener_valid (allow_wildcard : bool) (l : ListenerConfig) : Prop := {
  lv_wildcard : bind_addr l = "0.0.0.0" → allow_wildcard = true;
  lv_https_port : https_port l ≠ 0%Z;
  lv_ports_differ : (0 < http_port l)%Z → http_port l ≠ https_port l;
  lv_tls : tls_valid (tls l);
}.

Record site_valid (s : SiteConfig) : Prop := {
  sv_host : is_valid_hostname (site_host s) = true;
  sv_upstream : is_valid_upstream (site_upstream s) = true;
  sv_scheme : site_upstream_scheme s = "http" ∨ site_upstream_scheme s = "https";
}.

Definition all_sites (c : StaticConfig) : list SiteConfig :=
  flat_map listener_sites (listeners c).

Definition https_keys (ls : list ListenerConfig) : list (string * Z) :=
  map (λ l, (bind_addr l, https_port l)) ls.

(** Listeners with [http_port = 0] have no HTTP socket. *)
Definition http_keys (ls : list ListenerConfig) : list (string * Z) :=
  map (λ l, (bind_addr l, http_port l)) (filter (λ l, 0 < http_port l)%Z ls).

Record valid_config (c : StaticConfig) (d : DynamicConfig) (cli : bool) : Prop := {
  vc_listeners : listeners c ≠ [];
  vc_each : Forall (listener_valid (allow_wildcard_bind c || cli)) (listeners c);
  vc_https_unique : NoDup (https_keys (listeners c));
  vc_http_unique : NoDup (http_keys (listeners c));
  vc_health : (0 < health_check_port c)%Z →
    Forall (λ l, health_check_port c ≠ https_port l ∧ health_check_port c ≠ http_port l)
      (listeners c);
  vc_sites : Forall site_valid (all_sites c);
  vc_hosts_unique : NoDup (map (to_lowercase ∘ site_host) (all_sites c));
  vc_rps : requests_per_second (rate_limit d) ≠ 0%Z;
  vc_body : limit_bytes (body d) ≠ 0%Z;
  vc_admin_key : admin_key_path c = "" ∨
    starts_with_char "/" (admin_key_path c) = true ∧ contains ".." (admin_key_path c) = false;
  vc_idle : connection_idle_timeout_secs c ≠ 0%Z;
  vc_handshake : tls_handshake_timeout_secs c ≠ 0%Z;
  vc_max : max_connections c ≠ 0%Z;
}.

(** *** The parts of [validate] against the specification *)

Lemma is_empty_false s : is_empty s = false ↔ s ≠ "".
Proof. by destruct s. Qed.

Lemma validate_tls_nil l : validate_tls l = [] ↔ tls_valid (tls l).
Proof.
  unfold validate_tls, tls_valid.
  destruct (String.eqb_spec (tls_mode (tls l)) "acme") as [E|Ha].
  - rewrite app_nil_iff, push_if_nil, bool_decide_eq_false.
    assert ("acme" ≠ "manual") by done. rewrite E.
    transitivity (acme_domains (tls l) ≠ [] ∧ ∃ email, acme_contact (tls l) = "mailto:" +:+ email ∧
       contains_char "@" email = true); [|naive_solver].
    f_equiv. destruct (starts_with "mailto:" (acme_contact (tls l))) eqn:Hc.
    + apply prefix_spec in Hc as [email He]. rewrite He. simpl.
      rewrite push_if_nil, orb_false_iff, negb_false_iff. split; [naive_solver|].
      intros (email' & He' & Hat). simplify_eq. split; [|done]. by destruct email'.
    + rewrite orb_true_r. split; [done|]. intros (email & He & _). rewrite He in Hc. 
      unfold starts_with in Hc. by rewrite prefix_app in Hc.
  - destruct (String.eqb_spec (tls_mode (tls l)) "manual") as [E|Hm]; [|naive_solver].
    destruct (is_empty (cert_path (tls l))) eqn:Ec; simpl.
    { split; [done|]. intros [_ Hx]. destruct (Hx E) as [Hne _].
      by apply is_empty_false in Hne; rewrite Ec in Hne. }
    destruct (is_empty (key_path (tls l))) eqn:Ek; simpl.
    { split; [done|]. intros [_ Hx]. destruct (Hx E) as (_ & Hne & _).
      by apply is_empty_false in Hne; rewrite Ek in Hne. }
    apply is_empty_false in Ec, Ek.
    rewrite app_nil_iff, !push_if_nil, !negb_false_iff. naive_solver.
Qed.

Lemma http_keys_cons l ls :
  http_keys (l :: ls) =
    if (0 <? http_port l)%Z then (bind_addr l, http_port l) :: http_keys ls else http_keys ls.
Proof.
  unfold http_keys. rewrite filter_cons.
  destruct (Z.ltb_spec 0 (http_port l)); case_decide; done || lia.
Qed.

Lemma listener_checks_nil aw l :
  (bind_addr l =? "0.0.0.0")%string && negb aw = false ∧ (https_port l =? 0)%Z = false ∧
  (0 <? http_port l)%Z && (http_port l =? https_port l)%Z = false ∧ tls_valid (tls l) ↔
  listener_valid aw l.
Proof.
  rewrite !andb_false_iff, negb_false_iff, String.eqb_neq, !Z.eqb_neq, Z.ltb_ge. split.
  - intros (Hw & Hp & Hd & Ht). split; [naive_solver|done|lia|done].
  - intros [Hw Hp Hd Ht]. split; [destruct aw; naive_solver|]. split; [done|]. split; [lia|done].
Qed.

Lemma validate_listeners_nil aw S T ls :
  validate_listeners aw S T ls = [] ↔
    Forall (listener_valid aw) ls ∧ fresh S (https_keys ls) ∧ fresh T (http_keys ls).
Proof.
  revert S T. induction ls as [|l ls IH]; intros S T; cbn [validate_listeners].
  { split; [|done]. intros _. split; [constructor|]. split; apply fresh_nil. }
  rewrite !app_nil_iff, !push_if_nil, validate_tls_nil, IH, http_keys_cons.
  rewrite Forall_cons, <- listener_checks_nil.
  cbn [https_keys map]. fold (https_keys ls). rewrite fresh_cons, bool_decide_eq_false.
  destruct (0 <? http_port l)%Z; [rewrite fresh_cons, andb_true_l, bool_decide_eq_false|];
    tauto.
Qed.

Lemma validate_health_check_nil c :
  validate_health_check c = [] ↔
    ((0 < health_check_port c)%Z →
     Forall (λ l, health_check_port c ≠ https_port l ∧ health_check_port c ≠ http_port l)
       (listeners c)).
Proof.
  unfold validate_health_check. destruct (Z.ltb_spec 0 (health_check_port c)) as [Hp|Hp];
    [|split; [intros _ ?; lia|done]].
  transitivity (Forall (λ l, health_check_port c ≠ https_port l ∧ health_check_port c ≠ http_port l)
       (listeners c)); [|naive_solver].
  rewrite flat_map_concat_map, concat_nil_iff, Forall_map. apply Forall_iff. intros l. simpl.
  rewrite app_nil_iff, !push_if_nil, andb_false_iff, Z.eqb_neq.
  rewrite Z.ltb_ge, Z.eqb_neq. lia.
Qed.

Lemma is_valid_hostname_nonempty h :
  is_valid_hostname h = true → is_empty h = false ∧ contains_char ":" h = false.
Proof. unfold is_valid_hostname. intros. split_cases. Qed.

Lemma validate_site_nil hosts s :
  validate_site hosts s = [] ↔ site_valid s ∧ to_lowercase (site_host s) ∉ hosts.
Proof.
  unfold validate_site. rewrite !app_nil_iff, !push_if_nil, bool_decide_eq_false.
  rewrite !andb_false_iff, !negb_false_iff, !String.eqb_eq. split.
  - intros (_ & Hu & Hh & _ & Hv & Hup & Hs). rewrite Hu in Hup.
    split; [split|]; naive_solver.
  - intros [[Hv Hu Hs] Hh]. destruct (is_valid_hostname_nonempty _ Hv).
    assert (is_empty (site_upstream s) = false) by (by destruct (site_upstream s)).
    naive_solver.
Qed.

Lemma validate_sites_nil hosts ss :
  validate_sites hosts ss = [] ↔
    Forall site_valid ss ∧ fresh hosts (map (to_lowercase ∘ site_host) ss).
Proof.
  revert hosts. induction ss as [|s ss IH]; intros hosts; cbn [validate_sites map].
  { split; [|done]. intros _. split; [constructor|]. apply fresh_nil. }
  rewrite app_nil_iff, validate_site_nil, IH, Forall_cons, fresh_cons. tauto.
Qed.

Lemma validate_admin_key_path_nil c :
  validate_admin_key_path c = [] ↔
    admin_key_path c = "" ∨
    starts_with_char "/" (admin_key_path c) = true ∧ contains ".." (admin_key_path c) = false.
Proof.
  unfold validate_admin_key_path. destruct (admin_key_path c) as [|a p]; [naive_solver|].
  cbn [is_empty negb]. destruct (starts_with_char _ _); cbn [negb]; [|naive_solver].
  rewrite push_if_nil. naive_solver.
Qed.

Lemma validate_Ok_nil c d cli :
  validate c d cli = Ok tt ↔ validation_errors c d cli = [].
Proof. unfold validate. by destruct (validation_errors c d cli). Qed.

Lemma validate_Ok_valid c d cli : validate c d cli = Ok tt ↔ valid_config c d cli.
Proof.
  rewrite validate_Ok_nil. unfold validation_errors, validate_limits.
  rewrite !app_nil_iff, !push_if_nil, bool_decide_eq_false, !Z.eqb_neq.
  rewrite validate_listeners_nil, validate_health_check_nil, validate_sites_nil,
    validate_admin_key_path_nil, !fresh_empty.
  split.
  - intros (? & (? & ? & ?) & ? & (? & ?) & ? & ? & ? & ? & ? & ?). by split.
  - intros []. auto 20.
Qed.
End Spec.


(** ** The file-descriptor budget *)

(** The budget as the documentation states it. *)
Definition fd_budget_ok (rlimit : option Z) (max_connections : Z) : Prop :=
  match soft_nofile_limit rlimit with
  | None => True
  | Some soft => (max_connections + RESERVED_FDS ≤ soft)%Z
  end.

Lemma check_fd_budget_exact m soft :
  in_range (u64_max - RESERVED_FDS) m →
  is_ok (check_fd_budget m soft) = true ↔ (m + RESERVED_FDS ≤ soft)%Z.
Proof.
  unfold in_range, check_fd_budget. intros Hm.
  rewrite u64_wrapping_add_small by (unfold in_range, u64_max, RESERVED_FDS in *; lia).
  destruct (Z.ltb_spec soft (m + RESERVED_FDS)); simpl; split; done || lia.
Qed.

(** No overflow in the descriptor budget: for every [max_connections] a
    config file can hold, [validate_nofile] accepts exactly when the
    connections and the reserve fit under the soft limit, or there is none. *)
Lemma validate_nofile_exact rlimit m :
  in_range toml_int_max m → validate_nofile rlimit m = [] ↔ fd_budget_ok rlimit m.
Proof.
  intros Hm. unfold validate_nofile, fd_budget_ok.
  destruct (soft_nofile_limit rlimit) as [soft|]; [|done].
  rewrite <- check_fd_budget_exact
    by (unfold in_range, toml_int_max, u64_max, RESERVED_FDS in *; lia).
  by destruct (check_fd_budget m soft).
Qed.
