(* ===== verification/Fixtures.v ===== *)
(** * Fixtures

    The configurations of [src/config/test_fixtures.rs], and concrete instances
    of the parameters ([Unicode], [FileSystem]) on which the witnesses of the
    development are evaluated. *)

From S2P Require Import Prelude Text Config Routing Toml Validation.
Local Open Scope string_scope.
Local Open Scope list_scope.

(** Leaves non-ASCII strings alone. *)
Definition ascii_only : Unicode := {| unicode_to_lowercase := λ s, s |}.

(** A file system that holds exactly the listed paths. *)
Definition fs_with (paths : list string) : FileSystem :=
  {| path_exists := λ p, bool_decide (p ∈ paths) |}.

Definition test_listener (ss : list SiteConfig) : ListenerConfig :=
  {| bind_addr := "127.0.0.1";
     http_port := 80;
     https_port := 443;
     tls := {|
       tls_mode := "acme";
       acme_domains := ["test.local"];
       acme_cache_dir := "/tmp/acme-cache";
       acme_directory := "staging";
       acme_contact := "mailto:admin@test.local";
       cert_path := "";
       key_path := "" |};
     listener_sites := ss |}.

Definition test_static_config : StaticConfig :=
  {| listeners := [test_listener []];
     allow_wildcard_bind := false;
     health_check_port := 9900;
     admin_key_path := "/etc/reverse-proxy/admin-key";
     shutdown_timeout_secs := 30;
     connection_idle_timeout_secs := 60;
     tls_handshake_timeout_secs := 10;
     max_connections := 1024;
     logging := LoggingConfig_default |}.

Definition test_site : SiteConfig :=
  {| site_host := "test.local";
     site_upstream := "127.0.0.1:8080";
     site_upstream_scheme := "http";
     site_connect_timeout_secs := 5;
     site_request_timeout_secs := 60 |}.

Definition test_dynamic_config `{Unicode} : DynamicConfig :=
  from_sites [test_site]
    {| requests_per_second := 10; burst := 20 |} {| limit_bytes := 104857600 |}.

(** The same site served by the listener, with a second site on it. *)
Definition git_site : SiteConfig :=
  {| site_host := "Git.Example-1.com";
     site_upstream := "[::1]:3000";
     site_upstream_scheme := "https";
     site_connect_timeout_secs := 5;
     site_request_timeout_secs := 60 |}.

Definition test_full_config : FullConfig :=
  {| full_listeners := [test_listener [test_site; git_site]];
     full_allow_wildcard_bind := false;
     full_health_check_port := 9900;
     full_admin_key_path := "/etc/reverse-proxy/admin-key";
     full_shutdown_timeout_secs := 30;
     full_connection_idle_timeout_secs := 60;
     full_tls_handshake_timeout_secs := 10;
     full_max_connections := 1024;
     full_logging := LoggingConfig_default;
     full_rate_limit := {| requests_per_second := 10; burst := 20 |};
     full_body := {| limit_bytes := 104857600 |} |}.

(** ** A config file *)

Definition site_doc (host upstream : string) (more : list (string * TomlValue)) : TomlValue :=
  TTable ([("host", TString host); ("upstream", TString upstream)] ++ more).

Definition tls_doc : TomlValue :=
  TTable [("mode", TString "acme");
          ("acme_domains", TArray [TString "test.local"]);
          ("acme_cache_dir", TString "/tmp/acme-cache");
          ("acme_directory", TString "staging");
          ("acme_contact", TString "mailto:admin@test.local")].

Definition listener_doc (addr : string) (ss : list TomlValue) : TomlValue :=
  TTable [("bind_addr", TString addr); ("tls", tls_doc); ("sites", TArray ss)].

Definition limits_doc (rps burst : Z) : list (string * TomlValue) :=
  [("rate_limit", TTable [("requests_per_second", TInteger rps); ("burst", TInteger burst)]);
   ("body", TTable [("limit_bytes", TInteger 104857600)])].

(** The minimal file with a rate limit: every optional key left out. *)
Definition test_doc (rps : Z) : list (string * TomlValue) :=
  limits_doc rps 20 ++
  [("listeners", TArray [listener_doc "127.0.0.1"
      [site_doc "test.local" "127.0.0.1:8080" [];
       site_doc "Git.Example-1.com" "[::1]:3000" [("upstream_scheme", TString "https")]]])].

Example test_doc_defaults : deserialize_full (TTable (test_doc 10)) = Some test_full_config.
Proof. reflexivity. Qed.

(** A TOML library that knows the texts listed. *)
Definition toml_with (texts : list (string * list (string * TomlValue))) : Toml :=
  {| toml_document := λ s,
       match assoc s texts with
       | Some doc => Ok doc
       | None => Err "invalid TOML"
       end;
     toml_de_error := λ _, "missing field" |}.
