(* ===== verification/ValidationErrors.v ===== *)
(** * The errors [validate] reports

    [validate_correct] says which configurations are accepted.  Here: on the others,
    the report is complete and precise.  [violation] states each rule of
    [src/config/validation.rs] on its own; [validate] reports an error exactly when the
    configuration violates the rule the error names. *)

From S2P Require Import Prelude Text Net Config Routing Toml Validation Fixtures.
Local Open Scope string_scope.
Local Open Scope list_scope.

Section Violations.
Context `{Unicode, FileSystem} (c : StaticConfig) (d : DynamicConfig) (cli : bool).

(** What is wrong with one listener's TLS settings. *)
Inductive tls_violation (l : ListenerConfig) : ValidationError → Prop :=
| tv_domains : tls_mode (tls l) = "acme" → acme_domains (tls l) = [] →
    tls_violation l (AcmeDomainsEmpty (bind_addr l))
| tv_contact : tls_mode (tls l) = "acme" →
    ¬ (∃ email, acme_contact (tls l) = "mailto:" +:+ email ∧ contains_char "@" email = true) →
    tls_violation l (AcmeContactInvalid (bind_addr l))
| tv_missing : tls_mode (tls l) = "manual" → cert_path (tls l) = "" ∨ key_path (tls l) = "" →
    tls_violation l (ManualCertMissing (bind_addr l))
| tv_cert : tls_mode (tls l) = "manual" → cert_path (tls l) ≠ "" → key_path (tls l) ≠ "" →
    path_exists (cert_path (tls l)) = false →
    tls_violation l (CertPathNotReadable (bind_addr l) (cert_path (tls l)) "file does not exist")
| tv_key : tls_mode (tls l) = "manual" → cert_path (tls l) ≠ "" → key_path (tls l) ≠ "" →
    path_exists (key_path (tls l)) = false →
    tls_violation l (KeyPathNotReadable (bind_addr l) (key_path (tls l)) "file does not exist").

(** What is wrong with one listener by itself. *)
Inductive listener_violation (allow_wildcard : bool) (l : ListenerConfig) : ValidationError → Prop :=
| lv_wildcard_bind : bind_addr l = "0.0.0.0" → allow_wildcard = false →
    listener_violation allow_wildcard l (WildcardBindNotAllowed (bind_addr l))
| lv_https_zero : https_port l = 0%Z →
    listener_violation allow_wildcard l (HttpsPortInvalid (bind_addr l) (https_port l))
| lv_same_port : (0 < http_port l)%Z → http_port l = https_port l →
    listener_violation allow_wildcard l (HttpsAndHttpPortSame (bind_addr l) (http_port l) (https_port l))
| lv_tls_settings e : tls_violation l e → listener_violation allow_wildcard l e.

(** What is wrong with one site by itself. *)
Inductive site_violation (s : SiteConfig) : ValidationError → Prop :=
| sv_host_empty : site_host s = "" → site_violation s (SiteHostEmpty "")
| sv_upstream_empty : site_upstream s = "" → site_violation s (SiteUpstreamEmpty (site_host s))
| sv_host_port : contains_char ":" (site_host s) = true →
    site_violation s (SiteHostContainsPort (site_host s))
| sv_host_invalid : is_valid_hostname (site_host s) = false →
    site_violation s (SiteHostInvalid (site_host s))
| sv_upstream_invalid : site_upstream s ≠ "" → is_valid_upstream (site_upstream s) = false →
    site_violation s (UpstreamInvalid (site_host s) (site_upstream s))
| sv_scheme_invalid : site_upstream_scheme s ≠ "http" → site_upstream_scheme s ≠ "https" →
    site_violation s (UpstreamSchemeInvalid (site_host s) (site_upstream_scheme s)).

(** What is wrong with the configuration. *)
Inductive violation : ValidationError → Prop :=
| v_no_listeners : listeners c = [] → violation NoListeners
| v_listener l e : l ∈ listeners c → listener_violation (allow_wildcard_bind c || cli) l e → violation e
| v_https_duplicate a p : duplicated (a, p) (https_keys (listeners c)) → violation (DuplicateHttpsBind a p)
| v_http_duplicate a p : duplicated (a, p) (http_keys (listeners c)) → violation (DuplicateHttpBind a p)
| v_health_https l : l ∈ listeners c → (0 < health_check_port c)%Z → health_check_port c = https_port l →
    violation (HealthCheckPortConflict (health_check_port c) (bind_addr l) (https_port l))
| v_health_http l : l ∈ listeners c → (0 < health_check_port c)%Z → health_check_port c = http_port l →
    violation (HealthCheckPortConflict (health_check_port c) (bind_addr l) (http_port l))
| v_site s e : s ∈ all_sites c → site_violation s e → violation e
| v_host_duplicate h : duplicated h (map (to_lowercase ∘ site_host) (all_sites c)) →
    violation (DuplicateSiteHost h)
| v_rps_zero : requests_per_second (rate_limit d) = 0%Z → violation (RequestsPerSecondZero 0)
| v_body_zero : limit_bytes (body d) = 0%Z → violation (BodyLimitBytesZero 0)
| v_key_not_absolute : admin_key_path c ≠ "" → starts_with_char "/" (admin_key_path c) = false →
    violation (AdminKeyPathNotAbsolute (admin_key_path c))
| v_key_traversal : starts_with_char "/" (admin_key_path c) = true →
    contains ".." (admin_key_path c) = true → violation (AdminKeyPathTraversal (admin_key_path c))
| v_idle_zero : connection_idle_timeout_secs c = 0%Z → violation (ConnectionIdleTimeoutZero 0)
| v_handshake_zero : tls_handshake_timeout_secs c = 0%Z → violation (TlsHandshakeTimeoutZero 0)
| v_max_zero : max_connections c = 0%Z → violation (MaxConnectionsZero 0).
End Violations.

(** Normalises membership in a list built with [push_if] and [++]. *)
Ltac report := repeat first
  [rewrite elem_of_app | rewrite elem_of_push_if | rewrite elem_of_nil | rewrite list_elem_of_singleton].

Section Reported.
Context `{Unicode, FileSystem}.

Lemma mailto_contact contact :
  (is_empty contact || negb (starts_with "mailto:" contact) = true ∨
   (is_empty (str_drop 7 contact) || negb (contains_char "@" (str_drop 7 contact)) = true)) ↔
  ¬ (∃ email, contact = "mailto:" +:+ email ∧ contains_char "@" email = true).
Proof.
  destruct (starts_with "mailto:" contact) eqn:Hc.
  - apply prefix_spec in Hc as [email ->]. simpl. split.
    + intros [?|Hbad] (email' & [= <-] & Hat); [done|]. rewrite Hat, orb_false_r in Hbad. by destruct email.
    + intros Hn. right. destruct (contains_char "@" email) eqn:Hat; [|by rewrite orb_true_r].
      destruct Hn. by exists email.
  - rewrite orb_true_r. split; [|by left]. intros _ (email & -> & _).
    unfold starts_with in Hc. by rewrite prefix_app in Hc.
Qed.

Lemma validate_tls_reports l e : e ∈ validate_tls l ↔ tls_violation l e.
Proof.
  unfold validate_tls. cbv zeta. destruct (String.eqb_spec (tls_mode (tls l)) "acme") as [E|Ha].
  - report. rewrite bool_decide_eq_true. pose proof (mailto_contact (acme_contact (tls l))) as Hm.
    assert ((e ∈ if is_empty (acme_contact (tls l)) || negb (starts_with "mailto:" (acme_contact (tls l)))
      then [AcmeContactInvalid (bind_addr l)]
      else push_if (is_empty (str_drop 7 (acme_contact (tls l))) ||
        negb (contains_char "@" (str_drop 7 (acme_contact (tls l))))) (AcmeContactInvalid (bind_addr l))) ↔
      (is_empty (acme_contact (tls l)) || negb (starts_with "mailto:" (acme_contact (tls l))) = true ∨
       (is_empty (str_drop 7 (acme_contact (tls l))) || negb (contains_char "@" (str_drop 7 (acme_contact (tls l)))) = true))
      ∧ e = AcmeContactInvalid (bind_addr l)) as ->.
    { destruct (is_empty (acme_contact (tls l)) || _); report; naive_solver. }
    rewrite Hm. split.
    + intros [[Hd ->]|[Hc ->]]; by constructor.
    + inversion 1; subst; try congruence; auto.
  - destruct (String.eqb_spec (tls_mode (tls l)) "manual") as [E|Hm].
    + destruct (is_empty (cert_path (tls l)) || is_empty (key_path (tls l))) eqn:Ee.
      * assert (cert_path (tls l) = "" ∨ key_path (tls l) = "").
        { apply orb_true_iff in Ee as [Ee|Ee]; [left; by destruct (cert_path (tls l))|right; by destruct (key_path (tls l))]. }
        report. split; [intros ->; by constructor|]. inversion 1; subst; naive_solver.
      * apply orb_false_iff in Ee as [Ec%is_empty_false Ek%is_empty_false].
        report. rewrite !negb_true_iff. split.
        -- intros [[? ->]|[? ->]]; by constructor.
        -- inversion 1; subst; naive_solver.
    + report. split; [done|]. by inversion 1.
Qed.

(** The checks a listener goes through by itself. *)
Lemma listener_reports aw l e :
  ((bind_addr l =? "0.0.0.0")%string && negb aw = true ∧ e = WildcardBindNotAllowed (bind_addr l)) ∨
  ((https_port l =? 0)%Z = true ∧ e = HttpsPortInvalid (bind_addr l) (https_port l)) ∨
  ((0 <? http_port l)%Z && (http_port l =? https_port l)%Z = true ∧
     e = HttpsAndHttpPortSame (bind_addr l) (http_port l) (https_port l)) ∨
  e ∈ validate_tls l ↔ listener_violation aw l e.
Proof.
  rewrite !andb_true_iff, negb_true_iff, String.eqb_eq, !Z.eqb_eq, Z.ltb_lt, validate_tls_reports. split.
  - intros [[[? ?] ->]|[[? ->]|[[[? ?] ->]|?]]]; by constructor.
  - inversion 1; subst; naive_solver.
Qed.

Lemma exists_cons {A} (P : A → Prop) x l : (∃ y, y ∈ x :: l ∧ P y) ↔ P x ∨ ∃ y, y ∈ l ∧ P y.
Proof. setoid_rewrite elem_of_cons. naive_solver. Qed.

Lemma https_keys_reported S l ls e :
  (∃ a p, e = DuplicateHttpsBind a p ∧ repeated S (a, p) (https_keys (l :: ls))) ↔
  ((bind_addr l, https_port l) ∈ S ∧ e = DuplicateHttpsBind (bind_addr l) (https_port l)) ∨
  (∃ a p, e = DuplicateHttpsBind a p ∧ repeated ({[(bind_addr l, https_port l)]} ∪ S) (a, p) (https_keys ls)).
Proof. cbn [https_keys map]. fold (https_keys ls). setoid_rewrite repeated_cons. naive_solver. Qed.

Lemma http_keys_reported T l ls e :
  (∃ a p, e = DuplicateHttpBind a p ∧ repeated T (a, p) (http_keys (l :: ls))) ↔
  (((0 <? http_port l)%Z = true ∧ (bind_addr l, http_port l) ∈ T) ∧
     e = DuplicateHttpBind (bind_addr l) (http_port l)) ∨
  (∃ a p, e = DuplicateHttpBind a p ∧
     repeated (if (0 <? http_port l)%Z then {[(bind_addr l, http_port l)]} ∪ T else T) (a, p) (http_keys ls)).
Proof.
  rewrite http_keys_cons. destruct (0 <? http_port l)%Z; [setoid_rewrite repeated_cons|]; naive_solver.
Qed.

Lemma validate_listeners_reports aw S T ls e :
  e ∈ validate_listeners aw S T ls ↔
    (∃ l, l ∈ ls ∧ listener_violation aw l e) ∨
    (∃ a p, e = DuplicateHttpsBind a p ∧ repeated S (a, p) (https_keys ls)) ∨
    (∃ a p, e = DuplicateHttpBind a p ∧ repeated T (a, p) (http_keys ls)).
Proof.
  revert S T. induction ls as [|l ls IH]; intros S T; cbn [validate_listeners].
  { report. split; [done|]. intros [(l & []%elem_of_nil & _)|[(a & p & _ & []%repeated_nil)|(a & p & _ & Hr)]].
    by apply repeated_nil in Hr. }
  cbv zeta. report. rewrite IH, !andb_true_iff, !bool_decide_eq_true. clear IH.
  rewrite exists_cons, https_keys_reported, http_keys_reported.
  pose proof (listener_reports aw l e) as Hl. rewrite !andb_true_iff in Hl. rewrite <- Hl. tauto.
Qed.

Lemma validate_health_check_reports c e :
  e ∈ validate_health_check c ↔
    (0 < health_check_port c)%Z ∧ ∃ l, l ∈ listeners c ∧
      ((health_check_port c = https_port l ∧
        e = HealthCheckPortConflict (health_check_port c) (bind_addr l) (https_port l)) ∨
       (health_check_port c = http_port l ∧
        e = HealthCheckPortConflict (health_check_port c) (bind_addr l) (http_port l))).
Proof.
  unfold validate_health_check. destruct (Z.ltb_spec 0 (health_check_port c)) as [Hp|Hp];
    [|report; split; [done|lia]].
  rewrite list_elem_of_In, in_flat_map. setoid_rewrite <- list_elem_of_In.
  split.
  - intros (l & Hl & He). split; [done|]. exists l. split; [done|]. revert He. report.
    rewrite !andb_true_iff, !Z.eqb_eq. naive_solver.
  - intros [_ (l & Hl & He)]. exists l. split; [done|]. report.
    rewrite !andb_true_iff, !Z.eqb_eq, Z.ltb_lt. naive_solver lia.
Qed.

Lemma validate_site_reports hosts s e :
  e ∈ validate_site hosts s ↔
    site_violation s e ∨
    (to_lowercase (site_host s) ∈ hosts ∧ e = DuplicateSiteHost (to_lowercase (site_host s))).
Proof.
  unfold validate_site. cbv zeta. report.
  rewrite bool_decide_eq_true, !andb_true_iff, !negb_true_iff, !String.eqb_neq, is_empty_false. split.
  - intros [[He ->]|[[He ->]|[[? ->]|[[? ->]|[[? ->]|[[[? ?] ->]|[[? ?] ->]]]]]]]; eauto using site_violation.
    + left. constructor. by destruct (site_host s).
    + left. constructor. by destruct (site_upstream s).
  - intros [Hv|[? ->]]; [|naive_solver]. destruct Hv as [E|E|E|E|E1 E2|E1 E2];
      try rewrite E; simpl; auto 12.
Qed.

Lemma validate_sites_reports hosts ss e :
  e ∈ validate_sites hosts ss ↔
    (∃ s, s ∈ ss ∧ site_violation s e) ∨
    (∃ h, e = DuplicateSiteHost h ∧ repeated hosts h (map (to_lowercase ∘ site_host) ss)).
Proof.
  revert hosts. induction ss as [|s ss IH]; intros hosts; cbn [validate_sites map].
  { report. split; [done|]. intros [(s & []%elem_of_nil & _)|(h & _ & []%repeated_nil)]. }
  rewrite elem_of_app, validate_site_reports, IH. clear IH.
  setoid_rewrite elem_of_cons. setoid_rewrite repeated_cons. unfold compose. naive_solver.
Qed.

Lemma validate_admin_key_reports c e :
  e ∈ validate_admin_key_path c ↔
    (admin_key_path c ≠ "" ∧ starts_with_char "/" (admin_key_path c) = false ∧
       e = AdminKeyPathNotAbsolute (admin_key_path c)) ∨
    (starts_with_char "/" (admin_key_path c) = true ∧ contains ".." (admin_key_path c) = true ∧
       e = AdminKeyPathTraversal (admin_key_path c)).
Proof.
  unfold validate_admin_key_path. cbv zeta. destruct (is_empty (admin_key_path c)) eqn:E; cbn [negb].
  - assert (admin_key_path c = "") as Hc by (by destruct (admin_key_path c)). rewrite Hc. report.
    simpl. naive_solver.
  - apply is_empty_false in E. destruct (starts_with_char _ _); cbn [negb]; report; naive_solver.
Qed.

Lemma validation_errors_exact c d cli e : e ∈ validation_errors c d cli ↔ violation c d cli e.
Proof.
  unfold validation_errors, validate_limits. cbv zeta. report.
  rewrite validate_listeners_reports, validate_health_check_reports, validate_sites_reports,
    validate_admin_key_reports, bool_decide_eq_true, !Z.eqb_eq.
  setoid_rewrite repeated_empty. split.
  - intros [[? ->]|[[(l & ? & ?)|[(a & p & -> & ?)|(a & p & -> & ?)]]|[(? & l & ? & [[? ->]|[? ->]])|
      [[(s & ? & ?)|(h & -> & ?)]|[[? ->]|[[? ->]|[[(? & ? & ->)|(? & ? & ->)]|[[E ->]|[[E ->]|[E ->]]]]]]]]]];
      try rewrite E; eauto using violation.
  - destruct 1 as [E|l e Hl Hv|a p Hd|a p Hd|l Hl Hp E|l Hl Hp E|s e Hs Hv|h Hd|E|E|E1 E2|E1 E2|E|E|E].
    + by left.
    + right. left. left. by exists l.
    + right. left. right. left. by exists a, p.
    + right. left. right. right. by exists a, p.
    + do 2 right. left. split; [done|]. exists l. auto.
    + do 2 right. left. split; [done|]. exists l. auto.
    + do 3 right. left. left. by exists s.
    + do 3 right. left. right. by exists h.
    + do 4 right. by left.
    + do 5 right. by left.
    + do 6 right. left. by left.
    + do 6 right. left. by right.
    + do 7 right. left. by rewrite E.
    + do 8 right. left. by rewrite E.
    + do 9 right. by rewrite E.
Qed.
End Reported.


(** ** Divergences from [config.md] *)

(** Rule 5: a certificate that exists passes, whether or not it can be read; what a path
    holds is not asked. *)
Lemma existing_certificate_passes `{Unicode, FileSystem} l :
  tls_mode (tls l) = "manual" → cert_path (tls l) ≠ "" → key_path (tls l) ≠ "" →
  path_exists (cert_path (tls l)) = true → path_exists (key_path (tls l)) = true → validate_tls l = [].
Proof.
  intros Hm Hc Hk Hce Hke. unfold validate_tls. rewrite Hm. simpl.
  destruct (cert_path (tls l)) eqn:E1; [done|]. destruct (key_path (tls l)) eqn:E2; [done|]. simpl.
  by rewrite Hce, Hke.
Qed.

(** Rule 14: the health listener is on loopback, yet a listener on another address cannot
    use its port. *)
Lemma health_port_of_other_address :
  let u := ascii_only in let fs := fs_with [] in
  let l := {| bind_addr := "203.0.113.10"; http_port := 0; https_port := 9900;
              tls := tls (test_listener []); listener_sites := [] |} in
  let c := {| listeners := [l]; allow_wildcard_bind := false; health_check_port := 9900;
              admin_key_path := ""; shutdown_timeout_secs := 30; connection_idle_timeout_secs := 60;
              tls_handshake_timeout_secs := 10; max_connections := 1024;
              logging := LoggingConfig_default |} in
  validate c test_dynamic_config false = Err [HealthCheckPortConflict 9900 "203.0.113.10" 9900].
Proof. vm_compute. reflexivity. Qed.
