(* ===== verification/TestsValidation.v ===== *)
(** * The unit tests of [validation.rs]

    The test module of [src/config/validation.rs], test by test: the fixtures, the
    configurations the tests build and the assertions they make, evaluated on the
    model.  A test is true when all its assertions hold. *)

From S2P Require Import Prelude Text Net Config Routing Toml Validation Fixtures.
Local Open Scope string_scope.
Local Open Scope list_scope.

(** Hosts and paths of the tests are ASCII; unless a test writes files there are none. *)
#[local] Existing Instance ascii_only.
#[local] Instance no_files : FileSystem := fs_with [].

(** ** Fixtures *)

Definition make_acme_tls : TlsConfig :=
  {| tls_mode := "acme"; acme_domains := ["test.local"]; acme_cache_dir := "/tmp/acme-cache";
     acme_directory := "production"; acme_contact := "mailto:admin@example.com";
     cert_path := ""; key_path := "" |}.

Definition make_manual_tls (cert key : string) : TlsConfig :=
  {| tls_mode := "manual"; acme_domains := []; acme_cache_dir := ""; acme_directory := "production";
     acme_contact := ""; cert_path := cert; key_path := key |}.

Definition make_static_with_sites (ss : list SiteConfig) (t : TlsConfig) : StaticConfig :=
  {| listeners := [{| bind_addr := "127.0.0.1"; http_port := 80; https_port := 443;
                      tls := t; listener_sites := ss |}];
     allow_wildcard_bind := false; health_check_port := 9900;
     admin_key_path := "/etc/reverse-proxy/admin-key"; shutdown_timeout_secs := 30;
     connection_idle_timeout_secs := 60; tls_handshake_timeout_secs := 10; max_connections := 1024;
     logging := LoggingConfig_default |}.

Definition valid_static_config : StaticConfig :=
  {| listeners := [{| bind_addr := "127.0.0.1"; http_port := 80; https_port := 443;
                      tls := {| tls_mode := "manual"; acme_domains := []; acme_cache_dir := "";
                                acme_directory := "production"; acme_contact := "";
                                cert_path := ""; key_path := "" |};
                      listener_sites := [] |}];
     allow_wildcard_bind := false; health_check_port := 9900;
     admin_key_path := "/etc/reverse-proxy/admin-key"; shutdown_timeout_secs := 30;
     connection_idle_timeout_secs := 60; tls_handshake_timeout_secs := 10; max_connections := 1024;
     logging := LoggingConfig_default |}.

Definition valid_site : SiteConfig :=
  {| site_host := "test.local"; site_upstream := "127.0.0.1:8080"; site_upstream_scheme := "http";
     site_connect_timeout_secs := 5; site_request_timeout_secs := 60 |}.

Definition valid_dynamic_config : DynamicConfig :=
  from_sites [valid_site] {| requests_per_second := 10; burst := 20 |} {| limit_bytes := 104857600 |}.

(** ** Assignments to fields *)

Definition upd_listeners (c : StaticConfig) (ls : list ListenerConfig) : StaticConfig :=
  mkStaticConfig ls (allow_wildcard_bind c) (health_check_port c) (admin_key_path c)
    (shutdown_timeout_secs c) (connection_idle_timeout_secs c) (tls_handshake_timeout_secs c)
    (max_connections c) (logging c).
Definition upd_wildcard (c : StaticConfig) (b : bool) : StaticConfig :=
  mkStaticConfig (listeners c) b (health_check_port c) (admin_key_path c)
    (shutdown_timeout_secs c) (connection_idle_timeout_secs c) (tls_handshake_timeout_secs c)
    (max_connections c) (logging c).
Definition upd_health (c : StaticConfig) (p : Z) : StaticConfig :=
  mkStaticConfig (listeners c) (allow_wildcard_bind c) p (admin_key_path c)
    (shutdown_timeout_secs c) (connection_idle_timeout_secs c) (tls_handshake_timeout_secs c)
    (max_connections c) (logging c).
Definition upd_key_path (c : StaticConfig) (p : string) : StaticConfig :=
  mkStaticConfig (listeners c) (allow_wildcard_bind c) (health_check_port c) p
    (shutdown_timeout_secs c) (connection_idle_timeout_secs c) (tls_handshake_timeout_secs c)
    (max_connections c) (logging c).
(** The idle timeout, the handshake timeout and the connection limit. *)
Definition upd_limits (c : StaticConfig) (idle handshake max : Z) : StaticConfig :=
  mkStaticConfig (listeners c) (allow_wildcard_bind c) (health_check_port c) (admin_key_path c)
    (shutdown_timeout_secs c) idle handshake max (logging c).

(** [config.listeners[0].… = …] *)
Definition upd_listener0 (c : StaticConfig) (f : ListenerConfig → ListenerConfig) : StaticConfig :=
  upd_listeners c (alter f 0%nat (listeners c)).
Definition upd_addr (a : string) (l : ListenerConfig) : ListenerConfig :=
  mkListenerConfig a (http_port l) (https_port l) (tls l) (listener_sites l).
Definition upd_ports (http https : Z) (l : ListenerConfig) : ListenerConfig :=
  mkListenerConfig (bind_addr l) http https (tls l) (listener_sites l).
Definition upd_tls (t : TlsConfig) (l : ListenerConfig) : ListenerConfig :=
  mkListenerConfig (bind_addr l) (http_port l) (https_port l) t (listener_sites l).
Definition upd_sites (ss : list SiteConfig) (l : ListenerConfig) : ListenerConfig :=
  mkListenerConfig (bind_addr l) (http_port l) (https_port l) (tls l) ss.

Definition upd_rates (d : DynamicConfig) (rps limit : Z) : DynamicConfig :=
  mkDynamicConfig (sites d) (routing_table d) (mkRateLimitConfig rps (burst (rate_limit d)))
    (mkBodyConfig limit).

(** [SiteConfig { host, upstream, ..valid_dynamic_config().sites[0].clone() }] *)
Definition site_for (host upstream : string) : SiteConfig :=
  mkSiteConfig host upstream (site_upstream_scheme valid_site)
    (site_connect_timeout_secs valid_site) (site_request_timeout_secs valid_site).

Definition acme_listener (addr : string) (http https : Z) (ss : list SiteConfig) : ListenerConfig :=
  mkListenerConfig addr http https make_acme_tls ss.

(** ** Assertions *)

Definition errors_of (r : result unit (list ValidationError)) : list ValidationError :=
  match r with Ok _ => [] | Err es => es end.

Notation "r 'reports' p" :=
  (negb (is_ok r) && existsb (λ e, if e is p then true else false) (errors_of r))
  (at level 70, p pattern, no associativity).

(** ** The tests *)

Definition rule1_no_listeners : bool :=
  validate (upd_listeners valid_static_config []) valid_dynamic_config false reports NoListeners.

Definition wildcard_config : StaticConfig :=
  upd_listener0 valid_static_config (upd_tls make_acme_tls ∘ upd_addr "0.0.0.0").

Definition rule2_wildcard_bind_rejected : bool :=
  validate wildcard_config valid_dynamic_config false reports (WildcardBindNotAllowed _).

Definition rule2_wildcard_bind_allowed_by_config_flag : bool :=
  is_ok (validate (upd_wildcard wildcard_config true) valid_dynamic_config false).

Definition rule2_wildcard_bind_allowed_by_cli_flag : bool :=
  is_ok (validate wildcard_config valid_dynamic_config true).

Definition rule2_wildcard_bind_or_logic : bool :=
  is_ok (validate (upd_wildcard wildcard_config false) valid_dynamic_config true).

Definition rule3_duplicate_https_bind : bool :=
  let config := upd_listeners valid_static_config
    [acme_listener "127.0.0.1" 80 443 []; acme_listener "127.0.0.1" 8080 443 []] in
  validate config valid_dynamic_config false reports (DuplicateHttpsBind _ _).

Definition acme_tls_with (domains : list string) (contact : string) : TlsConfig :=
  {| tls_mode := "acme"; acme_domains := domains; acme_cache_dir := "/tmp/cache";
     acme_directory := "production"; acme_contact := contact; cert_path := ""; key_path := "" |}.

Definition rule4_acme_domains_empty : bool :=
  let config := upd_listener0 valid_static_config
    (upd_tls (acme_tls_with [] "mailto:admin@example.com")) in
  validate config valid_dynamic_config false reports (AcmeDomainsEmpty _).

Definition rule5_manual_cert_missing : bool :=
  let config := upd_listener0 valid_static_config (upd_tls (make_manual_tls "" "")) in
  validate config valid_dynamic_config false reports (ManualCertMissing _).

Definition rule5_cert_path_not_readable : bool :=
  let config := upd_listener0 valid_static_config
    (upd_tls (make_manual_tls "/nonexistent/cert.pem" "/nonexistent/key.pem")) in
  let result := validate config valid_dynamic_config false in
  (result reports (CertPathNotReadable _ _ _)) && (result reports (KeyPathNotReadable _ _ _)).

(** [fs::write] of files in a temporary directory, here [/tmp/dir]. *)
Definition manual_config (cert key : string) : StaticConfig :=
  upd_listener0 valid_static_config (upd_tls (make_manual_tls cert key)).

Definition rule5_cert_path_readable : bool :=
  let files := fs_with ["/tmp/dir/cert.pem"; "/tmp/dir/key.pem"] in
  is_ok (validate (manual_config "/tmp/dir/cert.pem" "/tmp/dir/key.pem") valid_dynamic_config false).

Definition with_site (s : SiteConfig) : StaticConfig :=
  upd_listener0 valid_static_config (upd_sites [s] ∘ upd_tls make_acme_tls).

Definition rule6_site_host_empty : bool :=
  validate (with_site (site_for "" "127.0.0.1:8080")) valid_dynamic_config false
    reports (SiteHostEmpty _).

Definition rule6_site_upstream_empty : bool :=
  validate (with_site (site_for "test.local" "")) valid_dynamic_config false
    reports (SiteUpstreamEmpty _).

Definition two_sites (host host' : string) : StaticConfig :=
  upd_listeners valid_static_config
    [acme_listener "127.0.0.1" 80 443 [site_for host "127.0.0.1:8080"];
     acme_listener "127.0.0.2" 80 443 [site_for host' "127.0.0.1:9090"]].

Definition rule7_duplicate_site_host : bool :=
  validate (two_sites "test.local" "test.local") valid_dynamic_config false
    reports (DuplicateSiteHost _).

Definition rule8_requests_per_second_zero : bool :=
  validate valid_static_config (upd_rates valid_dynamic_config 0 104857600) false
    reports (RequestsPerSecondZero _).

Definition rule9_body_limit_bytes_zero : bool :=
  validate valid_static_config (upd_rates valid_dynamic_config 10 0) false
    reports (BodyLimitBytesZero _).

Definition rule10_duplicate_http_bind : bool :=
  let config := upd_listeners valid_static_config
    [acme_listener "127.0.0.1" 80 443 []; acme_listener "127.0.0.1" 80 8443 []] in
  validate config valid_dynamic_config false reports (DuplicateHttpBind _ _).

Definition rule11_http_and_https_port_same : bool :=
  let config := upd_listener0 valid_static_config (upd_tls make_acme_tls ∘ upd_ports 443 443) in
  validate config valid_dynamic_config false reports (HttpsAndHttpPortSame _ _ _).

Definition rule12_https_port_zero : bool :=
  let config := upd_listener0 valid_static_config (upd_tls make_acme_tls ∘ upd_ports 80 0) in
  validate config valid_dynamic_config false reports (HttpsPortInvalid _ _).

Definition rule13_http_port_disabled_valid : bool :=
  let config := upd_listener0 valid_static_config (upd_tls make_acme_tls ∘ upd_ports 0 443) in
  is_ok (validate config valid_dynamic_config false).

Definition rule14_health_check_port_conflict : bool :=
  let config := upd_listener0 (upd_health valid_static_config 443) (upd_tls make_acme_tls) in
  validate config valid_dynamic_config false reports (HealthCheckPortConflict _ _ _).

Definition rule14_health_check_port_conflict_with_http : bool :=
  let config := upd_listener0 (upd_health valid_static_config 80) (upd_tls make_acme_tls) in
  validate config valid_dynamic_config false reports (HealthCheckPortConflict _ _ _).

Definition rule15_site_host_contains_port : bool :=
  validate (with_site (site_for "test.local:443" "127.0.0.1:8080")) valid_dynamic_config false
    reports (SiteHostContainsPort _).

Definition rule16_site_host_is_ip : bool :=
  validate (with_site (site_for "127.0.0.1" "127.0.0.1:8080")) valid_dynamic_config false
    reports (SiteHostInvalid _).

Definition rule16_hostname_normalized_lowercase : bool :=
  validate (two_sites "Test.Local" "test.local") valid_dynamic_config false
    reports (DuplicateSiteHost _).

Definition rule17_upstream_missing_port : bool :=
  validate (with_site (site_for "test.local" "gitea")) valid_dynamic_config false
    reports (UpstreamInvalid _ _).

Definition rule17_upstream_with_scheme : bool :=
  validate (with_site (site_for "test.local" "http://gitea:3000")) valid_dynamic_config false
    reports (UpstreamInvalid _ _).

Definition rule17_upstream_port_zero : bool :=
  validate (with_site (site_for "test.local" "gitea:0")) valid_dynamic_config false
    reports (UpstreamInvalid _ _).

Definition rule18_upstream_scheme_invalid : bool :=
  validate (with_site (mkSiteConfig "test.local" "127.0.0.1:8080" "ftp" 5 60)) valid_dynamic_config false
    reports (UpstreamSchemeInvalid _ _).

Definition contact_config (contact : string) : StaticConfig :=
  upd_listener0 valid_static_config
    (upd_sites [site_for "test.local" "127.0.0.1:8080"] ∘ upd_tls (acme_tls_with ["test.local"] contact)).

Definition rule19_acme_contact_empty : bool :=
  validate (contact_config "") valid_dynamic_config false reports (AcmeContactInvalid _).

Definition rule19_acme_contact_not_mailto : bool :=
  validate (contact_config "admin@example.com") valid_dynamic_config false reports (AcmeContactInvalid _).

Definition rule19_acme_contact_valid_mailto : bool :=
  is_ok (validate (contact_config "mailto:admin@example.com") valid_dynamic_config false).

Definition rule19_acme_contact_mailto_empty_email : bool :=
  validate (contact_config "mailto:") valid_dynamic_config false reports (AcmeContactInvalid _).

Definition rule19_acme_contact_mailto_no_at_sign : bool :=
  validate (contact_config "mailto:user") valid_dynamic_config false reports (AcmeContactInvalid _).

Definition readable_config : StaticConfig :=
  make_static_with_sites [valid_site] (make_manual_tls "/tmp/dir/cert.pem" "/tmp/dir/key.pem").

Definition valid_config_passes : bool :=
  let files := fs_with ["/tmp/dir/cert.pem"; "/tmp/dir/key.pem"] in
  is_ok (validate readable_config valid_dynamic_config false).

Definition collects_all_errors : bool :=
  let result := validate (upd_listeners valid_static_config [])
                  (upd_rates valid_dynamic_config 0 0) false in
  (3 <=? length (errors_of result))%nat && (result reports NoListeners) &&
  (result reports (RequestsPerSecondZero _)) && (result reports (BodyLimitBytesZero _)).

Definition rule5_only_cert_missing : bool :=
  let files := fs_with ["/tmp/dir/key.pem"] in
  let result := validate (manual_config "/nonexistent/cert.pem" "/tmp/dir/key.pem")
                  valid_dynamic_config false in
  (result reports (CertPathNotReadable _ _ _)) && negb (result reports (KeyPathNotReadable _ _ _)).

Definition rule5_only_key_missing : bool :=
  let files := fs_with ["/tmp/dir/cert.pem"] in
  let result := validate (manual_config "/tmp/dir/cert.pem" "/nonexistent/key.pem")
                  valid_dynamic_config false in
  negb (result reports (CertPathNotReadable _ _ _)) && (result reports (KeyPathNotReadable _ _ _)).

(** The nine tests of [is_valid_upstream] by itself. *)
Definition rule17_upstream_addresses : bool :=
  is_valid_upstream "gitea:3000" && is_valid_upstream "127.0.0.1:3000" &&
  is_valid_upstream "[::1]:3000" && is_valid_upstream "[2001:db8::1]:8080" &&
  negb (is_valid_upstream "!!!bad!!!:3000") && negb (is_valid_upstream "@#$%:8080") &&
  negb (is_valid_upstream ":3000") && negb (is_valid_upstream "[notipv6]:3000") &&
  is_valid_upstream "app.example.com:8080".

Definition admin_key_path_empty_is_valid : bool :=
  let files := fs_with ["/tmp/dir/cert.pem"; "/tmp/dir/key.pem"] in
  is_ok (validate (upd_key_path readable_config "") valid_dynamic_config false).

Definition admin_key_path_absolute_is_valid : bool :=
  let files := fs_with ["/tmp/dir/cert.pem"; "/tmp/dir/key.pem"] in
  is_ok (validate (upd_key_path readable_config "/etc/reverse-proxy/admin-key") valid_dynamic_config false).

Definition admin_key_path_relative_is_invalid : bool :=
  validate (upd_key_path valid_static_config "relative/path/admin-key") valid_dynamic_config false
    reports (AdminKeyPathNotAbsolute _).

Definition admin_key_path_traversal_is_invalid : bool :=
  validate (upd_key_path valid_static_config "/etc/../etc/admin-key") valid_dynamic_config false
    reports (AdminKeyPathTraversal _).

Definition rule_connection_idle_timeout_zero_rejected : bool :=
  validate (upd_limits valid_static_config 0 10 1024) valid_dynamic_config false
    reports (ConnectionIdleTimeoutZero 0).

Definition rule_tls_handshake_timeout_zero_rejected : bool :=
  validate (upd_limits valid_static_config 60 0 1024) valid_dynamic_config false
    reports (TlsHandshakeTimeoutZero 0).

Definition rule_max_connections_zero_rejected : bool :=
  validate (upd_limits valid_static_config 60 10 0) valid_dynamic_config false
    reports (MaxConnectionsZero 0).

(** Every test passes on the model. *)
Lemma validation_tests_pass :
  forallb id
    [rule1_no_listeners; rule2_wildcard_bind_rejected; rule2_wildcard_bind_allowed_by_config_flag;
     rule2_wildcard_bind_allowed_by_cli_flag; rule2_wildcard_bind_or_logic; rule3_duplicate_https_bind;
     rule4_acme_domains_empty; rule5_manual_cert_missing; rule5_cert_path_not_readable;
     rule5_cert_path_readable; rule6_site_host_empty; rule6_site_upstream_empty;
     rule7_duplicate_site_host; rule8_requests_per_second_zero; rule9_body_limit_bytes_zero;
     rule10_duplicate_http_bind; rule11_http_and_https_port_same; rule12_https_port_zero;
     rule13_http_port_disabled_valid; rule14_health_check_port_conflict;
     rule14_health_check_port_conflict_with_http; rule15_site_host_contains_port;
     rule16_site_host_is_ip; rule16_hostname_normalized_lowercase; rule17_upstream_missing_port;
     rule17_upstream_with_scheme; rule17_upstream_port_zero; rule18_upstream_scheme_invalid;
     rule19_acme_contact_empty; rule19_acme_contact_not_mailto; rule19_acme_contact_valid_mailto;
     rule19_acme_contact_mailto_empty_email; rule19_acme_contact_mailto_no_at_sign;
     valid_config_passes; collects_all_errors; rule5_only_cert_missing; rule5_only_key_missing;
     rule17_upstream_addresses; admin_key_path_empty_is_valid; admin_key_path_absolute_is_valid;
     admin_key_path_relative_is_invalid; admin_key_path_traversal_is_invalid;
     rule_connection_idle_timeout_zero_rejected; rule_tls_handshake_timeout_zero_rejected;
     rule_max_connections_zero_rejected] = true.
Proof. vm_compute. reflexivity. Qed.
