(* ===== verification/ValidRouting.v ===== *)
(** * Routing of validated configurations

    What [validate] and [DynamicConfig::lookup] give together: a request for a
    configured host reaches that host's site, and only such requests do. *)

From S2P Require Import Prelude Text Net Config Routing Validation Fixtures.
Local Open Scope string_scope.
Local Open Scope list_scope.

(** ** Valid hostnames are plain *)

Lemma split_char_all (f : ascii → bool) c s :
  forallb (str_all f) (split_char c s) = true →
  str_all (λ a, f a || Ascii.eqb a c) s = true.
Proof.
  induction s as [|a s IH]; simpl; [done|].
  destruct (Ascii.eqb a c); [simpl; rewrite orb_true_r; auto|].
  rewrite orb_false_r. destruct (split_char c s) as [|w ws]; simpl in *.
  - rewrite !andb_true_r. intros ->. auto.
  - rewrite !andb_true_iff in *. naive_solver.
Qed.

Lemma is_valid_label_chars l : is_valid_label l = true → str_all is_hostname_char l = true.
Proof. unfold is_valid_label. intros. split_cases. Qed.

Lemma is_valid_hostname_chars h :
  is_valid_hostname h = true → str_all (λ a, is_hostname_char a || Ascii.eqb a ".") h = true.
Proof.
  unfold is_valid_hostname. intros Hv.
  destruct (is_empty h); [done|]. destruct (contains_char ":" h); [done|].
  destruct (bool_decide _); [done|]. destruct (_ || _); [done|].
  destruct (contains_char "." h).
  - apply split_char_all. rewrite forallb_forall in *. auto using is_valid_label_chars.
  - eapply str_all_impl; [|done]. by intros a ->.
Qed.

Lemma hostname_char_plain a :
  is_hostname_char a || Ascii.eqb a "." = true →
  is_ascii a && negb (Ascii.eqb a "[") && negb (Ascii.eqb a "]") && negb (Ascii.eqb a ":") = true.
Proof.
  assert (∀ b, implb (is_hostname_char b || Ascii.eqb b ".")
    (is_ascii b && negb (Ascii.eqb b "[") && negb (Ascii.eqb b "]") && negb (Ascii.eqb b ":")) = true) as H
    by (apply ascii_forall; vm_compute; reflexivity).
  specialize (H a). by destruct (_ || _).
Qed.

Lemma is_valid_hostname_plain h : is_valid_hostname h = true → plain_host h.
Proof.
  intros Hv%is_valid_hostname_chars. unfold plain_host. rewrite !contains_char_false.
  repeat split; (eapply str_all_impl; [|exact Hv]);
    intros a Ha%hostname_char_plain; rewrite !andb_true_iff in Ha; naive_solver.
Qed.

#[export] Hint Resolve is_valid_hostname_plain : proxy.

(** ** Routing *)

Section ValidRouting.
Context `{Unicode, FileSystem}.

(** The pair a config file gives, once it passed [validate]. *)
Definition accepted (f : FullConfig) (cli : bool) (c : StaticConfig) (d : DynamicConfig) : Prop :=
  into_static_and_dynamic f = (c, d) ∧ validate c d cli = Ok tt.

Lemma accepted_sites f cli c d :
  accepted f cli c d → sites d = all_sites c ∧ wf_dynamic d ∧ valid_config c d cli.
Proof.
  intros [E Hv%validate_Ok_valid]. unfold into_static_and_dynamic in E. simplify_eq/=.
  auto using from_sites_wf.
Qed.

Lemma accepted_site_plain f cli c d s :
  accepted f cli c d → s ∈ sites d → plain_host (site_host s).
Proof.
  intros (-> & _ & Hv)%accepted_sites Hs. apply is_valid_hostname_plain.
  eapply Forall_forall in Hs; [|exact (vc_sites _ _ _ Hv)]. apply Hs.
Qed.

Lemma accepted_lookup_lower f cli c d s :
  accepted f cli c d → s ∈ sites d →
  routing_table d !! str_map ascii_lower (site_host s) = Some s.
Proof.
  intros Hacc Hs. pose proof (accepted_site_plain _ _ _ _ _ Hacc Hs) as Hp.
  apply accepted_sites in Hacc as (Hss & Hwf & Hv).
  rewrite Hwf, <- to_lowercase_ascii by apply Hp.
  apply build_routing_table_unique; [|done]. rewrite Hss. apply Hv.
Qed.
Lemma accepted_lookup f cli c d host s :
  accepted f cli c d →
  lookup d host = Some s ↔
    s ∈ sites d ∧ site_valid s ∧ normalize_host host = str_map ascii_lower (site_host s).
Proof.
  intros Hacc. unfold lookup. split.
  - intros Hl. destruct (accepted_sites _ _ _ _ Hacc) as (Hss & Hwf & Hv).
    rewrite Hwf in Hl. apply build_routing_table_Some in Hl as [Hs Hk].
    pose proof (accepted_site_plain _ _ _ _ _ Hacc Hs) as Hp.
    rewrite to_lowercase_ascii in Hk by apply Hp. split; [done|]. split; [|done].
    rewrite Hss in Hs. by eapply Forall_forall in Hs; [|exact (vc_sites _ _ _ Hv)].
  - intros (Hs & _ & ->). by eapply accepted_lookup_lower.
Qed.
End ValidRouting.

(** [C6] Completeness of routing: once a config file is accepted, a request
    whose [Host] is a configured site's host, in any letter case, with or
    without a port, is routed to exactly that site. *)
Theorem routing_complete `{Unicode, FileSystem} f cli c d s host :
  accepted f cli c d → s ∈ sites d → host_eq_ci host (site_host s) →
  lookup d host = Some s ∧
  (∀ port, contains_char ":" port = false → lookup d (host +:+ ":" +:+ port) = Some s).
Proof.
  intros Hacc Hs Heq. pose proof (accepted_site_plain _ _ _ _ _ Hacc Hs) as Hp.
  rewrite <- Heq in Hp. unfold lookup. split; [|intros port Hport].
  - rewrite normalize_host_plain, Heq by done. by eapply accepted_lookup_lower.
  - rewrite normalize_host_port, Heq by done. by eapply accepted_lookup_lower.
Qed.

Lemma routing_complete_witness :
  let u := ascii_only in let fs := fs_with [] in
  lookup (into_static_and_dynamic test_full_config).2 "GIT.example-1.COM" = Some git_site ∧
  (∀ port, contains_char ":" port = false →
    lookup (into_static_and_dynamic test_full_config).2 ("GIT.example-1.COM" +:+ ":" +:+ port)
      = Some git_site).
Proof.
  intros u fs.
  apply (routing_complete test_full_config false
    (into_static_and_dynamic test_full_config).1 (into_static_and_dynamic test_full_config).2 git_site).
  - split; [reflexivity|]. vm_compute. reflexivity.
  - right. left.
  - reflexivity.
Defined.

(** Exactness of routing: in an accepted config [lookup] finds a site iff
    that site is configured and its lowercased host is the normalized [Host];
    every site found passed the per-site checks. *)
Theorem routing_exact `{Unicode, FileSystem} f cli c d host s :
  accepted f cli c d →
  lookup d host = Some s ↔
    s ∈ sites d ∧ site_valid s ∧ normalize_host host = str_map ascii_lower (site_host s).
Proof. apply accepted_lookup. Qed.

Lemma routing_exact_witness :
  let u := ascii_only in let fs := fs_with [] in
  lookup (into_static_and_dynamic test_full_config).2 "test.local:8443" = Some test_site ↔
  test_site ∈ sites (into_static_and_dynamic test_full_config).2 ∧ site_valid test_site ∧
  normalize_host "test.local:8443" = str_map ascii_lower (site_host test_site).
Proof.
  intros u fs.
  apply (routing_exact test_full_config false
    (into_static_and_dynamic test_full_config).1 (into_static_and_dynamic test_full_config).2).
  split; [reflexivity|]. vm_compute. reflexivity.
Defined.
