(* ===== verification/Reload.v ===== *)
(** * Loading and reloading the configuration

    [read_and_validate_config] and [ReloadError] of [src/config/mod.rs],
    [ConfigReloadHandle] and [diff_static_config] of
    [src/config/dynamic_config.rs], [load_config] and [run_validate] of
    [src/cli.rs].  The handle's two [ArcSwap] cells are the fields of
    [ConfigReloadHandle]; an operation returns its result and the new state. *)

From S2P Require Import Prelude Text Net Config Routing Toml Validation.
Local Open Scope string_scope.
Local Open Scope list_scope.
Local Open Scope rust_scope.

(** ** The text of a validation error *)

Definition validation_error_to_string (e : ValidationError) : string :=
  match e with
  | NoListeners => "at least one listener must be defined"
  | WildcardBindNotAllowed b =>
      "listener " +:+ b +:+ ": bind_addr is 0.0.0.0 but allow_wildcard_bind is not enabled (config or CLI flag required)"
  | DuplicateHttpsBind b p =>
      "duplicate bind_addr:https_port combination: " +:+ b +:+ ":" +:+ show_uint p
  | AcmeDomainsEmpty b =>
      "listener " +:+ b +:+ ": ACME mode requires acme_domains to be non-empty"
  | ManualCertMissing b =>
      "listener " +:+ b +:+ ": manual mode requires both cert_path and key_path"
  | CertPathNotReadable b p r =>
      "listener " +:+ b +:+ ": cert_path '" +:+ p +:+ "' is not readable: " +:+ r
  | KeyPathNotReadable b p r =>
      "listener " +:+ b +:+ ": key_path '" +:+ p +:+ "' is not readable: " +:+ r
  | SiteHostEmpty h => "site '" +:+ h +:+ "': host must be set"
  | SiteUpstreamEmpty h => "site '" +:+ h +:+ "': upstream must be set"
  | DuplicateSiteHost h => "duplicate site host '" +:+ h +:+ "' across listeners"
  | RequestsPerSecondZero v =>
      "rate_limit.requests_per_second must be > 0, got " +:+ show_uint v
  | BodyLimitBytesZero v => "body.limit_bytes must be > 0, got " +:+ show_uint v
  | DuplicateHttpBind b p =>
      "duplicate bind_addr:http_port combination: " +:+ b +:+ ":" +:+ show_uint p
  | HttpsAndHttpPortSame b p q =>
      "listener " +:+ b +:+ ": http_port (" +:+ show_uint p +:+ ") and https_port (" +:+
      show_uint q +:+ ") must differ"
  | HttpsPortInvalid b p =>
      "listener " +:+ b +:+ ": https_port must be 1-65535, got " +:+ show_uint p
  | HttpPortInvalid b p =>
      "listener " +:+ b +:+ ": http_port must be 0 (disabled) or 1-65535, got " +:+ show_uint p
  | HealthCheckPortConflict hp b p =>
      "health_check_port " +:+ show_uint hp +:+ " conflicts with listener " +:+ b +:+ ":" +:+ show_uint p
  | SiteHostContainsPort h => "site '" +:+ h +:+ "': host must not include a port number"
  | SiteHostInvalid h =>
      "site '" +:+ h +:+ "': invalid hostname (must be a valid DNS name, not an IP address)"
  | UpstreamInvalid h u =>
      "site '" +:+ h +:+ "': upstream must be in host:port format with port 1-65535, got '" +:+ u +:+ "'"
  | UpstreamSchemeInvalid h s =>
      "site '" +:+ h +:+ "': upstream_scheme must be 'http' or 'https', got '" +:+ s +:+ "'"
  | AcmeContactInvalid b =>
      "listener " +:+ b +:+ ": ACME mode requires acme_contact to be a valid mailto: URI (e.g., " +:+
      String (ascii_of_nat 34) "mailto:admin@example.com" +:+ String (ascii_of_nat 34) ")"
  | AdminKeyPathNotAbsolute p => "admin_key_path must be an absolute path or empty, got '" +:+ p +:+ "'"
  | AdminKeyPathTraversal p => "admin_key_path must not contain '..' path traversal: '" +:+ p +:+ "'"
  | ConnectionIdleTimeoutZero v =>
      "connection_idle_timeout_secs must be > 0, got " +:+ show_uint v
  | TlsHandshakeTimeoutZero v => "tls_handshake_timeout_secs must be > 0, got " +:+ show_uint v
  | MaxConnectionsZero v => "max_connections must be > 0, got " +:+ show_uint v
  | MaxConnectionsExceedsNofile m l r =>
      "max_connections (" +:+ show_uint m +:+ ") + reserved FDs (" +:+ show_uint r +:+
      ") exceeds soft RLIMIT_NOFILE (" +:+ show_uint l +:+
      "); raise nofile (docker-compose ulimits / systemd LimitNOFILE, e.g. 8192) or lower max_connections"
  end.

Definition join_errors (sep : string) (es : list ValidationError) : string :=
  join sep (map validation_error_to_string es).

(** ** Reading the file *)

Inductive ReloadError : Type :=
| Io (e : string)
| Parse (e : string)
| ValidationFailed (msg : string)
| FileChangedDuringRead.

#[export] Instance ReloadError_eq_dec : EqDecision ReloadError.
Proof. solve_decision. Defined.

Definition reload_error_to_string (e : ReloadError) : string :=
  match e with
  | Io e => "IO error reading config file: " +:+ e
  | Parse e => "Failed to parse config file: " +:+ e
  | ValidationFailed msg => "Config validation failed: " +:+ msg
  | FileChangedDuringRead => "config file changed during read, please retry"
  end.

(** [From<Vec<ValidationError>>]. *)
Definition reload_error_of_validation (es : list ValidationError) : ReloadError :=
  ValidationFailed (join_errors "; " es).

(** What the three file-system calls return, in the order they are made.  The
    modification time is [None] where the platform has none. *)
Record FileReads := mkFileReads {
  metadata_before : result (option Z) string;
  read_to_string : result string string;
  metadata_after : result (option Z) string;
}.

Section Loading.
Context `{Unicode, FileSystem, Toml}.

Definition read_and_validate_config (r : FileReads) (cli_allow_wildcard_bind : bool)
    : result (StaticConfig * DynamicConfig) ReloadError :=
  before <-? map_err Io (metadata_before r);
  config_content <-? map_err Io (read_to_string r);
  after <-? map_err Io (metadata_after r);
  if bool_decide (before ≠ after) then Err FileChangedDuringRead
  else
    full_config <-? map_err Parse (toml_from_str config_content);
    let '(new_static, new_dynamic) := into_static_and_dynamic full_config in
    _ <-? map_err reload_error_of_validation
            (validate new_static new_dynamic cli_allow_wildcard_bind);
    Ok (new_static, new_dynamic).
End Loading.

(** ** The reload handle *)

Record ConfigReloadHandle := mkHandle {
  h_config : DynamicConfig;
  h_static_config : StaticConfig;
  h_cli_allow_wildcard_bind : bool;
}.

Definition diff_static_config (old new : StaticConfig) : list string :=
  push_if (bool_decide (listeners old ≠ listeners new)) "listeners" ++
  push_if (negb (eqb (allow_wildcard_bind old) (allow_wildcard_bind new))) "allow_wildcard_bind" ++
  push_if (negb (health_check_port old =? health_check_port new)%Z) "health_check_port" ++
  push_if (negb (admin_key_path old =? admin_key_path new)%string) "admin_key_path" ++
  push_if (negb (shutdown_timeout_secs old =? shutdown_timeout_secs new)%Z)
    "shutdown_timeout_secs" ++
  push_if (negb (connection_idle_timeout_secs old =? connection_idle_timeout_secs new)%Z)
    "connection_idle_timeout_secs" ++
  push_if (negb (tls_handshake_timeout_secs old =? tls_handshake_timeout_secs new)%Z)
    "tls_handshake_timeout_secs" ++
  push_if (negb (max_connections old =? max_connections new)%Z) "max_connections" ++
  push_if (bool_decide (logging old ≠ logging new)) "logging".

Section Handle.
Context `{Unicode, FileSystem}.

(** The checks [reload] makes before it stores anything. *)
Definition reload_checks (rlimit : option Z) (cli : bool)
    (new_static : StaticConfig) (new_dynamic : DynamicConfig) : result unit string :=
  _ <-? map_err (join_errors "; ") (validate new_static new_dynamic cli);
  match validate_nofile rlimit (max_connections new_static) with
  | [] => Ok tt
  | fd_errors => Err ("FD budget validation failed: " +:+ join_errors "; " fd_errors)
  end.

(** [ConfigReloadHandle::reload], run with [reload_mutex] held throughout. *)
Definition reload (rlimit : option Z) (h : ConfigReloadHandle)
    (new_static : StaticConfig) (new_dynamic : DynamicConfig)
    : result (list string) string * ConfigReloadHandle :=
  match reload_checks rlimit (h_cli_allow_wildcard_bind h) new_static new_dynamic with
  | Err e => (Err e, h)
  | Ok _ =>
      let changed_fields := diff_static_config (h_static_config h) new_static in
      (Ok changed_fields,
       mkHandle new_dynamic new_static (h_cli_allow_wildcard_bind h))
  end.
End Handle.

(** ** Startup: [src/cli.rs] *)

Record Cli := mkCli {
  cli_config : string;
  cli_validate : bool;
  cli_allow_wildcard_bind : bool;
}.

Definition DEFAULT_CONFIG_PATH : string := "/etc/reverse-proxy/config.toml".

Record LoadedConfig := mkLoadedConfig {
  lc_static_config : StaticConfig;
  lc_dynamic_config : DynamicConfig;
  lc_allow_wildcard_bind : bool;
}.

Definition newline : string := String (ascii_of_nat 10) "".

Definition list_errors (es : list ValidationError) : string :=
  join newline (map (λ e, "  - " +:+ validation_error_to_string e) es).

Section Cli.
Context `{Unicode, FileSystem, Toml}.

(** [file] is what reading the config path returns.  The error is the outer
    message of the [anyhow] chain. *)
Definition load_config (file : string → result string string) (rlimit : option Z) (cli : Cli)
    : result LoadedConfig string :=
  config_content <-? map_err (λ _, "failed to read config file: " +:+ cli_config cli)
                       (file (cli_config cli));
  full_config <-? map_err (λ _, "failed to parse config file: " +:+ cli_config cli)
                    (toml_from_str config_content);
  let '(static_config, dynamic_config) := into_static_and_dynamic full_config in
  let allow := allow_wildcard_bind static_config || cli_allow_wildcard_bind cli in
  _ <-? map_err (λ es, "config validation failed:" +:+ newline +:+ list_errors es)
          (validate static_config dynamic_config (cli_allow_wildcard_bind cli));
  match validate_nofile rlimit (max_connections static_config) with
  | [] => Ok (mkLoadedConfig static_config dynamic_config allow)
  | fd_errors => Err ("FD budget validation failed:" +:+ newline +:+ list_errors fd_errors)
  end.

(** The line printed and the exit status of [reverse-proxy --validate]. *)
Definition run_validate (file : string → result string string) (rlimit : option Z) (cli : Cli)
    : string * result unit string :=
  match load_config file rlimit cli with
  | Ok _ => ("Configuration is valid.", Ok tt)
  | Err e => (e, Err e)
  end.

(** [ConfigReloadHandle::new] as [run_server] calls it. *)
Definition handle_of_loaded (l : LoadedConfig) : ConfigReloadHandle :=
  mkHandle (lc_dynamic_config l) (lc_static_config l) (lc_allow_wildcard_bind l).
End Cli.

(** ** The difference of two static configurations *)

Lemma sublist_push_if {A} (b : bool) (x : A) l k :
  l `sublist_of` k → push_if b x ++ l `sublist_of` x :: k.
Proof. intros. destruct b; simpl; by constructor. Qed.

(** The fields of [StaticConfig], and what it means for each to have changed. *)
Definition static_fields (old new : StaticConfig) : list (string * Prop) :=
  [("listeners", listeners old ≠ listeners new);
   ("allow_wildcard_bind", allow_wildcard_bind old ≠ allow_wildcard_bind new);
   ("health_check_port", health_check_port old ≠ health_check_port new);
   ("admin_key_path", admin_key_path old ≠ admin_key_path new);
   ("shutdown_timeout_secs", shutdown_timeout_secs old ≠ shutdown_timeout_secs new);
   ("connection_idle_timeout_secs",
      connection_idle_timeout_secs old ≠ connection_idle_timeout_secs new);
   ("tls_handshake_timeout_secs",
      tls_handshake_timeout_secs old ≠ tls_handshake_timeout_secs new);
   ("max_connections", max_connections old ≠ max_connections new);
   ("logging", logging old ≠ logging new)].

Lemma diff_static_config_nil old new : diff_static_config old new = [] ↔ old = new.
Proof.
  unfold diff_static_config.
  rewrite !app_nil_iff, !push_if_nil, !bool_decide_eq_false, !negb_false_iff, eqb_true_iff.
  rewrite !Z.eqb_eq, String.eqb_eq. destruct old, new; simpl.
  split; [|intros [=]; subst; naive_solver].
  intros (Hl & -> & -> & -> & -> & -> & -> & -> & Hg).
  apply dec_stable in Hl, Hg. by subst.
Qed.

Lemma elem_of_diff old new name :
  name ∈ diff_static_config old new ↔
    (listeners old ≠ listeners new ∧ name = "listeners") ∨
    (allow_wildcard_bind old ≠ allow_wildcard_bind new ∧ name = "allow_wildcard_bind") ∨
    (health_check_port old ≠ health_check_port new ∧ name = "health_check_port") ∨
    (admin_key_path old ≠ admin_key_path new ∧ name = "admin_key_path") ∨
    (shutdown_timeout_secs old ≠ shutdown_timeout_secs new ∧ name = "shutdown_timeout_secs") ∨
    (connection_idle_timeout_secs old ≠ connection_idle_timeout_secs new ∧
       name = "connection_idle_timeout_secs") ∨
    (tls_handshake_timeout_secs old ≠ tls_handshake_timeout_secs new ∧
       name = "tls_handshake_timeout_secs") ∨
    (max_connections old ≠ max_connections new ∧ name = "max_connections") ∨
    (logging old ≠ logging new ∧ name = "logging").
Proof.
  unfold diff_static_config. rewrite !elem_of_app, !elem_of_push_if.
  by rewrite !bool_decide_eq_true, !negb_true_iff, !eqb_false_iff, !Z.eqb_neq, !String.eqb_neq.
Qed.

(** [diff_static_config] is empty exactly when nothing changed; it lists
    the changed fields, each once and in declaration order. *)
Theorem diff_static_config_exact old new :
  (diff_static_config old new = [] ↔ old = new) ∧
  diff_static_config old new `sublist_of` map fst (static_fields old new) ∧
  Forall (λ '(name, changed), name ∈ diff_static_config old new ↔ changed)
    (static_fields old new).
Proof.
  split; [apply diff_static_config_nil|]. split.
  - unfold diff_static_config. simpl. do 8 apply sublist_push_if.
    rewrite <- (app_nil_r (push_if _ _)). apply sublist_push_if. constructor.
  - unfold static_fields.
    repeat (apply Forall_cons; split; [rewrite elem_of_diff; split;
      [intros Hd; destruct_or! Hd; by destruct Hd as [? ?]|tauto]|]).
    constructor.
Qed.
