(* ===== verification/CommandLine.v ===== *)
(** * The command line

    The options [#[derive(Parser)]] declares for [Cli] in [src/cli.rs], what it makes of
    their matches, and [parse_from].  The parser itself is that of clap, a parameter
    (class [Clap]); the tests of [cli.rs] run it on a small concrete one. *)

From S2P Require Import Prelude Text Net Http Config Routing Toml Validation Fixtures Reload.
Local Open Scope string_scope.
Local Open Scope list_scope.

(** ** Options *)

(** [ArgAction::Set] with its default value, and [ArgAction::SetTrue]. *)
Inductive ArgAction := ArgSet (default_value : string) | ArgSetTrue.

Record Arg := mkArg { arg_long : string; arg_action : ArgAction }.

(** One option per field of [Cli], its long name the field's in kebab case; the
    [version] attribute adds [--version]. *)
Definition Cli_args : list Arg :=
  [mkArg "config" (ArgSet DEFAULT_CONFIG_PATH); mkArg "validate" ArgSetTrue;
   mkArg "allow-wildcard-bind" ArgSetTrue].

(** ** clap *)

Inductive ClapErrorKind :=
| DisplayHelp | DisplayVersion | UnknownArgument | InvalidValue | ArgumentConflict | OtherClapError.

(** The values of the options that were given or have a default, and the flags given. *)
Record ArgMatches := mkMatches { get_one : string → option string; get_flag : string → bool }.

Class Clap := { get_matches_from : list Arg → list string → result ArgMatches ClapErrorKind }.

(** [FromArgMatches for Cli]; an option with a default always has a value. *)
Definition from_arg_matches (m : ArgMatches) : Cli :=
  mkCli (default "" (get_one m "config")) (get_flag m "validate") (get_flag m "allow-wildcard-bind").

Definition try_parse_from `{Clap} (args : list string) : result Cli ClapErrorKind :=
  match get_matches_from Cli_args args with
  | Ok m => Ok (from_arg_matches m)
  | Err e => Err e
  end.

(** The exit status clap documents for its errors. *)
Definition exit_code (e : ClapErrorKind) : Z :=
  match e with DisplayHelp | DisplayVersion => 0 | _ => 2 end.

(** [Cli::parse_from] exits the process on an error: the status, or the parsed line. *)
Definition parse_from `{Clap} (args : list string) : result Cli Z :=
  match try_parse_from args with Ok cli => Ok cli | Err e => Err (exit_code e) end.

(** ** A concrete parser

    Long options as separate arguments, each at most once. *)

Fixpoint find_arg (args : list Arg) (long : string) : option Arg :=
  match args with
  | [] => None
  | a :: args => if (arg_long a =? long)%string then Some a else find_arg args long
  end.

(** What has been given so far, in reverse. *)
Fixpoint match_args (decl : list Arg) (seen : list (string * option string)) (args : list string)
    : result (list (string * option string)) ClapErrorKind :=
  match args with
  | [] => Ok seen
  | arg :: args =>
      if (arg =? "--version")%string then Err DisplayVersion
      else if (arg =? "--help")%string then Err DisplayHelp
      else if starts_with "--" arg then
        let long := str_drop 2 arg in
        if existsb (λ kv, (kv.1 =? long)%string) seen then Err ArgumentConflict
        else match find_arg decl long with
        | None => Err UnknownArgument
        | Some (mkArg _ ArgSetTrue) => match_args decl ((long, None) :: seen) args
        | Some (mkArg _ (ArgSet _)) =>
            match args with
            | v :: args => match_args decl ((long, Some v) :: seen) args
            | [] => Err InvalidValue
            end
        end
      else Err UnknownArgument
  end.

Definition long_options : Clap := {|
  get_matches_from decl args :=
    match match_args decl [] (tail args) with
    | Err e => Err e
    | Ok seen =>
        Ok (mkMatches
          (λ long, match assoc long seen with
                   | Some (Some v) => Some v
                   | _ => match find_arg decl long with
                          | Some (mkArg _ (ArgSet d)) => Some d
                          | _ => None
                          end
                   end)
          (λ long, match assoc long seen with Some None => true | _ => false end))
    end
|}.

(** ** The tests of [cli.rs] that parse command lines *)

#[local] Existing Instance long_options.

Definition parsed_cli (args : list string) (asserts : Cli → bool) : bool :=
  match parse_from args with Ok cli => asserts cli | Err _ => false end.

Definition cli_default_config_path : bool :=
  parsed_cli ["reverse-proxy"]
    (λ cli, (cli_config cli =? DEFAULT_CONFIG_PATH)%string && negb (cli_validate cli) &&
            negb (cli_allow_wildcard_bind cli)).

Definition cli_custom_config_path : bool :=
  parsed_cli ["reverse-proxy"; "--config"; "/tmp/test.toml"]
    (λ cli, (cli_config cli =? "/tmp/test.toml")%string).

Definition cli_validate_flag : bool := parsed_cli ["reverse-proxy"; "--validate"] cli_validate.

Definition cli_allow_wildcard_bind_flag : bool :=
  parsed_cli ["reverse-proxy"; "--allow-wildcard-bind"] cli_allow_wildcard_bind.

Definition cli_all_flags : bool :=
  parsed_cli ["reverse-proxy"; "--config"; "/custom/path.toml"; "--validate"; "--allow-wildcard-bind"]
    (λ cli, (cli_config cli =? "/custom/path.toml")%string && cli_validate cli && cli_allow_wildcard_bind cli).

Definition cli_version_flag : bool :=
  match try_parse_from ["reverse-proxy"; "--version"] with Err DisplayVersion => true | _ => false end.

Definition parse_from_vec : bool :=
  parsed_cli ["reverse-proxy"; "--validate"; "--allow-wildcard-bind"]
    (λ cli, cli_validate cli && cli_allow_wildcard_bind cli).

Lemma command_line_tests_pass :
  forallb id
    [cli_default_config_path; cli_custom_config_path; cli_validate_flag; cli_allow_wildcard_bind_flag;
     cli_all_flags; cli_version_flag; parse_from_vec] = true.
Proof. vm_compute. reflexivity. Qed.
