(* ===== verification/ReloadProps.v ===== *)
(** * Properties of loading and reloading

    Reload is a transaction, startup and reload agree, and the states of the
    handle are always validated ones. *)

From S2P Require Import Prelude Text Net Config Routing Toml Validation Fixtures ValidRouting Reload.
Local Open Scope string_scope.
Local Open Scope list_scope.

(** Computes through the [?] operator only. *)
Ltac step := cbn [map_err and_then metadata_before read_to_string metadata_after].

Section ReloadFacts.
Context `{Unicode, FileSystem}.
Implicit Types (c : StaticConfig) (d : DynamicConfig) (h : ConfigReloadHandle).

(** What [reload] requires of a new configuration. *)
Definition admissible (rlimit : option Z) (cli : bool) c d : Prop :=
  valid_config c d cli ∧ validate_nofile rlimit (max_connections c) = [].

Lemma reload_checks_ok rlimit cli c d :
  reload_checks rlimit cli c d = Ok tt ↔ admissible rlimit cli c d.
Proof.
  unfold reload_checks, admissible. rewrite and_then_Ok, <- validate_Ok_valid.
  destruct (validate c d cli) as [[]|es]; simpl; [|naive_solver].
  destruct (validate_nofile _ _); naive_solver.
Qed.

Lemma reload_admissible rlimit h c d :
  admissible rlimit (h_cli_allow_wildcard_bind h) c d →
  reload rlimit h c d =
    (Ok (diff_static_config (h_static_config h) c),
     mkHandle d c (h_cli_allow_wildcard_bind h)).
Proof. intros Ha%reload_checks_ok. unfold reload. by rewrite Ha. Qed.

Lemma reload_not_admissible rlimit h c d :
  ¬ admissible rlimit (h_cli_allow_wildcard_bind h) c d →
  ∃ e, reload rlimit h c d = (Err e, h).
Proof.
  rewrite <- reload_checks_ok. unfold reload. intros Hn.
  destruct (reload_checks _ _ _ _) as [[]|e]; [done|eauto].
Qed.

Lemma admissible_dec rlimit cli c d :
  admissible rlimit cli c d ∨ ¬ admissible rlimit cli c d.
Proof.
  rewrite <- reload_checks_ok. destruct (reload_checks _ _ _ _) as [[]|]; auto.
Qed.

Lemma reload_Ok rlimit h c d changes h' :
  reload rlimit h c d = (Ok changes, h') →
  admissible rlimit (h_cli_allow_wildcard_bind h) c d ∧
  changes = diff_static_config (h_static_config h) c ∧
  h' = mkHandle d c (h_cli_allow_wildcard_bind h).
Proof.
  destruct (admissible_dec rlimit (h_cli_allow_wildcard_bind h) c d) as [Ha|Hn].
  - rewrite reload_admissible by done. naive_solver.
  - destruct (reload_not_admissible rlimit h c d Hn) as [e ->]. done.
Qed.

Context `{Toml}.

Lemma read_and_validate_ok r cli c d :
  read_and_validate_config r cli = Ok (c, d) ↔
    ∃ m content f, metadata_before r = Ok m ∧ metadata_after r = Ok m ∧
      read_to_string r = Ok content ∧ toml_from_str content = Ok f ∧ accepted f cli c d.
Proof.
  unfold read_and_validate_config, accepted. destruct r as [[mb|] [content|] [ma|]]; step;
    try (split; [done|intros (m & k & f & ? & ? & ? & ?); simplify_eq]).
  split.
  - case_bool_decide as E; [done|]. subst ma.
    destruct (toml_from_str content) as [f|] eqn:Hf; step; [|done].
    destruct (into_static_and_dynamic f) as [c' d'] eqn:Hi.
    destruct (validate c' d' cli) as [[]|] eqn:Hv; step; [|done]. intros [= <- <-].
    exists mb, content, f. auto 10.
  - intros (m & k & f & [= ->] & [= ->] & [= ->] & Hf & Hi & Hv).
    rewrite bool_decide_eq_false_2 by auto. rewrite Hf. step. rewrite Hi, Hv. done.
Qed.

Lemma load_config_ok file rlimit cli l :
  load_config file rlimit cli = Ok l ↔
    ∃ content f, file (cli_config cli) = Ok content ∧ toml_from_str content = Ok f ∧
      accepted f (cli_allow_wildcard_bind cli) (lc_static_config l) (lc_dynamic_config l) ∧
      validate_nofile rlimit (max_connections (lc_static_config l)) = [] ∧
      lc_allow_wildcard_bind l =
        allow_wildcard_bind (lc_static_config l) || cli_allow_wildcard_bind cli.
Proof.
  unfold load_config, accepted. destruct (file (cli_config cli)) as [content|]; step; [|naive_solver].
  split.
  - destruct (toml_from_str content) as [f|] eqn:Hf; step; [|done].
    destruct (into_static_and_dynamic f) as [c' d'] eqn:Hi.
    destruct (validate c' d' _) as [[]|] eqn:Hv; step; [|done].
    destruct (validate_nofile rlimit _) eqn:Hn; [|done]. intros [= <-]. exists content, f. auto.
  - destruct l as [c d w]; cbn [lc_static_config lc_dynamic_config lc_allow_wildcard_bind].
    intros (? & f & [= <-] & Hf & [Hi Hv] & Hn & ->).
    rewrite Hf. step. rewrite Hi, Hv. step. by rewrite Hn.
Qed.

(** The wildcard flag only widens what is valid. *)
Lemma valid_config_weaken c d cli cli' :
  (cli = true → allow_wildcard_bind c || cli' = true) →
  valid_config c d cli → valid_config c d cli'.
Proof.
  intros Hc []. split; try done. eapply Forall_impl; [done|]. intros l [Hw ? ? ?].
  split; try done. intros Hb. specialize (Hw Hb). destruct cli, (allow_wildcard_bind c); auto.
Qed.
End ReloadFacts.

(** [C25] Reload is a transaction: an inadmissible configuration (invalid, or
    over the descriptor budget) leaves the handle as it was; an admissible one
    replaces both halves at once and reports the changed static fields. *)
Theorem reload_transaction `{Unicode, FileSystem} rlimit h c d :
  let '(r, h') := reload rlimit h c d in
  (¬ admissible rlimit (h_cli_allow_wildcard_bind h) c d ∧ is_ok r = false ∧ h' = h) ∨
  (admissible rlimit (h_cli_allow_wildcard_bind h) c d ∧
   r = Ok (diff_static_config (h_static_config h) c) ∧
   h_config h' = d ∧ h_static_config h' = c ∧
   h_cli_allow_wildcard_bind h' = h_cli_allow_wildcard_bind h).
Proof.
  destruct (admissible_dec rlimit (h_cli_allow_wildcard_bind h) c d) as [Ha|Hn].
  - rewrite reload_admissible by done. right. done.
  - destruct (reload_not_admissible rlimit h c d Hn) as [e' ->]. left. done.
Qed.

(** A static change is reported once: reloading the same configuration
    again succeeds with no changed fields and leaves the handle alone. *)
Theorem reload_idempotent `{Unicode, FileSystem} rlimit h c d changes h' :
  reload rlimit h c d = (Ok changes, h') → reload rlimit h' c d = (Ok [], h').
Proof.
  intros (Ha & -> & ->)%reload_Ok. rewrite reload_admissible by done. simpl.
  by rewrite (proj2 (diff_static_config_nil c c) eq_refl).
Qed.

(** The handle after a start with the fixture configuration. *)
Definition test_handle `{Unicode} : ConfigReloadHandle :=
  mkHandle test_dynamic_config test_static_config false.

Definition changed_static_config : StaticConfig :=
  {| listeners := listeners test_static_config;
     allow_wildcard_bind := false;
     health_check_port := 8080;
     admin_key_path := admin_key_path test_static_config;
     shutdown_timeout_secs := 30;
     connection_idle_timeout_secs := 60;
     tls_handshake_timeout_secs := 10;
     max_connections := 1024;
     logging := LoggingConfig_default |}.

Lemma reload_idempotent_witness :
  let u := ascii_only in let fs := fs_with [] in
  reload None (mkHandle test_dynamic_config changed_static_config false)
    changed_static_config test_dynamic_config =
  (Ok [], mkHandle test_dynamic_config changed_static_config false).
Proof.
  intros u fs. apply (reload_idempotent None test_handle _ _ ["health_check_port"]).
  vm_compute. reflexivity.
Defined.

(** The reload handler's read followed by [reload]. *)
Definition reload_from_file `{Unicode, FileSystem, Toml} (rlimit : option Z)
    (h : ConfigReloadHandle) (r : FileReads)
    : option (result (list string) string) * ConfigReloadHandle :=
  match read_and_validate_config r (h_cli_allow_wildcard_bind h) with
  | Err _ => (None, h)
  | Ok (c, d) => let '(res, h') := reload rlimit h c d in (Some res, h')
  end.

(** [C26] Startup and reload agree: a file the process started on is accepted,
    unchanged, by every later reload that reads it undisturbed under the same
    descriptor limit, whatever combination of flag and config option allowed
    the wildcard address. *)
Theorem startup_config_reloads `{Unicode, FileSystem, Toml} file rlimit cli l content mtime :
  load_config file rlimit cli = Ok l → file (cli_config cli) = Ok content →
  reload_from_file rlimit (handle_of_loaded l) (mkFileReads (Ok mtime) (Ok content) (Ok mtime)) =
    (Some (Ok []), handle_of_loaded l).
Proof.
  intros (content' & f & Hfile & Hf & [Hi Hv] & Hn & Hw)%load_config_ok Hc.
  rewrite Hfile in Hc. injection Hc as ->. destruct l as [c d w].
  cbn [lc_static_config lc_dynamic_config lc_allow_wildcard_bind] in *.
  apply validate_Ok_valid in Hv.
  assert (valid_config c d w) as Hv'.
  { eapply valid_config_weaken; [|done]. intros E. by rewrite Hw, E, !orb_true_r. }
  unfold reload_from_file. simpl.
  rewrite (proj2 (read_and_validate_ok _ w c d)).
  - rewrite reload_admissible by (split; done). simpl.
    by rewrite (proj2 (diff_static_config_nil c c) eq_refl).
  - exists mtime, content, f. repeat split; try done. by apply validate_Ok_valid.
Qed.

Definition test_cli : Cli := mkCli "/etc/reverse-proxy/config.toml" false false.

Lemma startup_config_reloads_witness :
  let u := ascii_only in let fs := fs_with [] in
  let t := toml_with [("test", test_doc 10)] in
  let '(c, d) := into_static_and_dynamic test_full_config in
  reload_from_file (Some 8192%Z) (mkHandle d c false)
    (mkFileReads (Ok (Some 7%Z)) (Ok "test") (Ok (Some 7%Z))) = (Some (Ok []), mkHandle d c false).
Proof.
  intros u fs t.
  apply (startup_config_reloads (λ _, Ok "test") (Some 8192%Z) test_cli
    (let '(c, d) := into_static_and_dynamic test_full_config in mkLoadedConfig c d false)).
  - vm_compute. reflexivity.
  - reflexivity.
Defined.
