(* ===== verification/ReloadConc.v ===== *)
(** * Concurrent reloads

    Reloads are requested by SIGHUP ([handle_sighup_reload]) and by the admin
    endpoint ([reload_handler]); each is a task that reads the config file, then
    calls [ConfigReloadHandle::reload].  The tasks interleave with each other,
    with writers of the file and with readers of the two [ArcSwap] cells.  The
    tasks are linearizable: they behave like calls of the sequential [reload],
    one at a time. *)

From S2P Require Import Prelude Text Net Config Routing Toml Validation Fixtures ValidRouting Reload ReloadProps.
Local Open Scope string_scope.
Local Open Scope list_scope.

(** ** Tasks *)

(** The config file as the next file-system call finds it. *)
Record ConfigFile := mkFile {
  f_modified : result (option Z) string;
  f_content : result string string;
}.

Inductive TaskOutcome :=
| ReadFailed (e : ReloadError)
| Reloaded (r : result (list string) string).

(** Where a reload task is.  An I/O error ends the source's task at once; here it
    travels to the end of the read, where [read_and_validate_config] reports it:
    the reads in between have no effect. *)
Inductive Task :=
| TStart
| TMetadata (before : result (option Z) string)
| TContent (before : result (option Z) string) (content : result string string)
| TWaiting (c : StaticConfig) (d : DynamicConfig)
| TLocked (c : StaticConfig) (d : DynamicConfig)
| TStored (c : StaticConfig) (changed : list string)
| TDone (o : TaskOutcome).

(** The process: the file, the two cells and the flag of the handle, the holder of
    [reload_mutex] and the tasks. *)
Record World := mkWorld {
  w_file : ConfigFile;
  w_handle : ConfigReloadHandle;
  w_lock : option nat;
  w_tasks : gmap nat Task;
}.

Definition set_task (w : World) (i : nat) (t : Task) : World :=
  mkWorld (w_file w) (w_handle w) (w_lock w) (<[i := t]> (w_tasks w)).

Definition set_file (w : World) (f : ConfigFile) : World :=
  mkWorld f (w_handle w) (w_lock w) (w_tasks w).

Definition set_handle (w : World) (h : ConfigReloadHandle) (l : option nat) : World :=
  mkWorld (w_file w) h l (w_tasks w).

Section Steps.
Context `{Unicode, FileSystem, Toml} (rlimit : option Z).

(** What a task does next, if it can. *)
Definition task_step (w : World) (i : nat) : option World :=
  match w_tasks w !! i with
  | Some TStart => Some (set_task w i (TMetadata (f_modified (w_file w))))
  | Some (TMetadata before) => Some (set_task w i (TContent before (f_content (w_file w))))
  | Some (TContent before content) =>
      let reads := mkFileReads before content (f_modified (w_file w)) in
      match read_and_validate_config reads (h_cli_allow_wildcard_bind (w_handle w)) with
      | Ok (c, d) => Some (set_task w i (TWaiting c d))
      | Err e => Some (set_task w i (TDone (ReadFailed e)))
      end
  | Some (TWaiting c d) =>
      match w_lock w with
      | None => Some (set_task (set_handle w (w_handle w) (Some i)) i (TLocked c d))
      | Some _ => None
      end
  | Some (TLocked c d) =>
      let h := w_handle w in
      match reload_checks rlimit (h_cli_allow_wildcard_bind h) c d with
      | Err e => Some (set_task (set_handle w h None) i (TDone (Reloaded (Err e))))
      | Ok _ =>
          let changed := diff_static_config (h_static_config h) c in
          let h' := mkHandle d (h_static_config h) (h_cli_allow_wildcard_bind h) in
          Some (set_task (set_handle w h' (w_lock w)) i (TStored c changed))
      end
  | Some (TStored c changed) =>
      let h := w_handle w in
      let h' := mkHandle (h_config h) c (h_cli_allow_wildcard_bind h) in
      Some (set_task (set_handle w h' None) i (TDone (Reloaded (Ok changed))))
  | Some (TDone _) | None => None
  end.

Inductive step : World → World → Prop :=
| step_write w f : step w (set_file w f)
| step_spawn w i : w_tasks w !! i = None → step w (set_task w i TStart)
| step_task w i w' : task_step w i = Some w' → step w w'.

Inductive reachable (h0 : ConfigReloadHandle) : World → Prop :=
| reachable_init f : reachable h0 (mkWorld f h0 None ∅)
| reachable_step w w' : reachable h0 w → step w w' → reachable h0 w'.

(** Runs the tasks in the order of the list; file writes and spawns included. *)
Inductive Event := EvWrite (f : ConfigFile) | EvSpawn (i : nat) | EvRun (i : nat).

Definition run_event (w : World) (e : Event) : option World :=
  match e with
  | EvWrite f => Some (set_file w f)
  | EvSpawn i => if w_tasks w !! i is None then Some (set_task w i TStart) else None
  | EvRun i => task_step w i
  end.

Lemma run_event_step w e w' : run_event w e = Some w' → step w w'.
Proof.
  destruct e as [f|i|i]; simpl.
  - intros [= <-]. constructor.
  - destruct (w_tasks w !! i) eqn:Hi; [done|]. intros [= <-]. by constructor.
  - by apply step_task.
Qed.

Lemma run_events_reachable h0 w es w' :
  reachable h0 w → steps run_event w es = Some w' → reachable h0 w'.
Proof. intros Hw. apply steps_preserve; [|done]. eauto using reachable_step, run_event_step. Qed.

(** ** The sequential specification *)

Record Call := mkCall { c_task : nat; c_static : StaticConfig; c_dynamic : DynamicConfig }.

(** The handle after a sequence of calls of [reload]. *)
Definition replay (h : ConfigReloadHandle) (log : list Call) : ConfigReloadHandle :=
  foldl (λ h k, (reload rlimit h (c_static k) (c_dynamic k)).2) h log.

(** The outcome of the call of task [i] in the sequence. *)
Definition outcome_in (h0 : ConfigReloadHandle) (log : list Call) (i : nat)
    (r : result (list string) string) : Prop :=
  ∃ pre c d post, log = pre ++ mkCall i c d :: post ∧ r = (reload rlimit (replay h0 pre) c d).1.

(** What the run through [es] let the task [i] read: the file's time, its content and its
    time again, each as the file was when the task ran, and what
    [read_and_validate_config] makes of them. *)
Definition task_read (w0 : World) (es : list Event) (i : nat)
    (r : result (StaticConfig * DynamicConfig) ReloadError) : Prop :=
  ∃ w1 w2 w3, moments run_event w0 es [(EvRun i, w1); (EvRun i, w2); (EvRun i, w3)] ∧
    read_and_validate_config
      (mkFileReads (f_modified (w_file w1)) (f_content (w_file w2)) (f_modified (w_file w3)))
      (h_cli_allow_wildcard_bind (w_handle w0)) = r.

(** What each task holds is what it has read so far. *)
Definition holds_reads (w0 : World) (es : list Event) (i : nat) (t : Task) : Prop :=
  match t with
  | TMetadata before =>
      ∃ w1, moments run_event w0 es [(EvRun i, w1)] ∧ before = f_modified (w_file w1)
  | TContent before content =>
      ∃ w1 w2, moments run_event w0 es [(EvRun i, w1); (EvRun i, w2)] ∧
        before = f_modified (w_file w1) ∧ content = f_content (w_file w2)
  | TWaiting c d | TLocked c d => task_read w0 es i (Ok (c, d))
  | TDone (ReadFailed e) => task_read w0 es i (Err e)
  | TStart | TStored _ _ | TDone (Reloaded _) => True
  end.

Definition in_critical (t : Task) : Prop :=
  match t with TLocked _ _ | TStored _ _ => True | _ => False end.

Section Invariant.
(** [read i c d]: the task [i] read this configuration. *)
Context (read : nat → StaticConfig → DynamicConfig → Prop).

(** The cells hold what the calls completed so far leave, or, between the two
    stores of a call, the new dynamic half of it. *)
Definition cells_match (w : World) (base : ConfigReloadHandle) : Prop :=
  match w_lock w with
  | None => w_handle w = base
  | Some i =>
      (∃ c d, w_tasks w !! i = Some (TLocked c d) ∧ w_handle w = base) ∨
      (∃ c d changed, w_tasks w !! i = Some (TStored c changed) ∧
         w_handle w = mkHandle d (h_static_config base) (h_cli_allow_wildcard_bind base) ∧
         reload rlimit base c d
         = (Ok changed, mkHandle d c (h_cli_allow_wildcard_bind base)) ∧ read i c d)
  end.

Record inv (h0 : ConfigReloadHandle) (w : World) (log : list Call) : Prop := {
  inv_cells : cells_match w (replay h0 log);
  inv_critical : ∀ i t, w_tasks w !! i = Some t → in_critical t → w_lock w = Some i;
  inv_outcome : ∀ i r, w_tasks w !! i = Some (TDone (Reloaded r)) → outcome_in h0 log i r;
  inv_once : NoDup (c_task <$> log);
  inv_log : ∀ i, i ∈ c_task <$> log → ∃ r, w_tasks w !! i = Some (TDone (Reloaded r));
  inv_calls : Forall (λ k, read (c_task k) (c_static k) (c_dynamic k)) log;
}.

(** ** Preservation *)

Lemma inv_init h0 f : inv h0 (mkWorld f h0 None ∅) [].
Proof. split; simpl; [done|set_solver|set_solver|constructor|set_solver|constructor]. Qed.

(** A task moves outside the critical section. *)
Lemma inv_set_task h0 w log i t :
  inv h0 w log →
  (∀ t0, w_tasks w !! i = Some t0 → ¬ in_critical t0 ∧ ∀ r, t0 ≠ TDone (Reloaded r)) →
  ¬ in_critical t → (∀ r, t ≠ TDone (Reloaded r)) →
  inv h0 (set_task w i t) log.
Proof.
  intros [Hcells Hcrit Hout Honce Hlog Hcalls] Hold Ht Htd. split; simpl; [|clear Hcells..|done].
  - unfold cells_match in *. simpl. destruct (w_lock w) as [j|]; [|done].
    destruct Hcells as [(c & d & Hj & ?)|(c & d & ch & Hj & ?)].
    + left. exists c, d. rewrite lookup_insert_ne; [done|].
      intros <-. by destruct (Hold _ Hj) as [[] _].
    + right. exists c, d, ch. rewrite lookup_insert_ne; [done|].
      intros <-. by destruct (Hold _ Hj) as [[] _].
  - intros j t'. rewrite lookup_insert_Some. intros [[<- <-]|[_ Hj]]; [done|eauto].
  - intros j r. rewrite lookup_insert_Some. intros [[<- Htr]|[_ Hj]]; [by destruct (Htd r)|auto].
  - done.
  - intros j Hj. destruct (Hlog j Hj) as [r Hr]. exists r. rewrite lookup_insert_ne; [done|].
    intros <-. destruct (Hold _ Hr) as [_ Hn]. by destruct (Hn r).
Qed.

(** A task enters the critical section, or moves inside it. *)
Lemma inv_hold h0 w log i t0 t h' :
  inv h0 w log → w_tasks w !! i = Some t0 → (∀ r, t0 ≠ TDone (Reloaded r)) →
  (w_lock w = None ∨ w_lock w = Some i) → in_critical t →
  cells_match (set_task (set_handle w h' (Some i)) i t) (replay h0 log) →
  inv h0 (set_task (set_handle w h' (Some i)) i t) log.
Proof.
  intros [_ Hcrit Hout Honce Hlog Hcalls] Hi Ht0 Hl Ht Hcells. split; simpl; [done| | |done| |done].
  - intros j t'. rewrite lookup_insert_Some. intros [[<- <-]|[_ Hj]] Hc; [done|].
    specialize (Hcrit _ _ Hj Hc). naive_solver.
  - intros j r. rewrite lookup_insert_Some. intros [[<- ->]|[_ Hj]]; [done|auto].
  - intros j Hj. destruct (Hlog _ Hj) as [r Hr]. exists r. rewrite lookup_insert_ne; [done|].
    intros <-. naive_solver.
Qed.

(** The task that holds the lock leaves the critical section. *)
Lemma inv_complete h0 w log i c d h' r t0 :
  inv h0 w log → w_tasks w !! i = Some t0 → in_critical t0 →
  reload rlimit (replay h0 log) c d = (r, h') → read i c d →
  inv h0 (set_task (set_handle w h' None) i (TDone (Reloaded r))) (log ++ [mkCall i c d]).
Proof.
  intros [Hcells Hcrit Hout Honce Hlog Hcalls] Hi Hc Hr Hread. split; simpl.
  - unfold cells_match. simpl. unfold replay. rewrite foldl_app. simpl. fold (replay h0 log).
    by rewrite Hr.
  - intros j t'. rewrite lookup_insert_Some. intros [[<- <-]|[Hne Hj]]; [done|].
    intros Hc'. pose proof (Hcrit _ _ Hi Hc). pose proof (Hcrit _ _ Hj Hc'). congruence.
  - intros j r'. rewrite lookup_insert_Some. intros [[<- [= <-]]|[Hne Hj]].
    + exists log, c, d, []. by rewrite Hr.
    + destruct (Hout _ _ Hj) as (pre & c' & d' & post & -> & ->).
      exists pre, c', d', (post ++ [mkCall i c d]). by rewrite <- app_assoc.
  - rewrite fmap_app. apply NoDup_app. split; [done|]. split; [|apply NoDup_singleton].
    intros j Hj. simpl. rewrite list_elem_of_singleton. intros ->.
    destruct (Hlog _ Hj) as [r' Hr']. rewrite Hi in Hr'. by destruct t0; simplify_eq.
  - intros j. rewrite fmap_app, elem_of_app. simpl. rewrite list_elem_of_singleton.
    intros [Hj| ->]; [|exists r; by rewrite lookup_insert_eq].
    destruct (Hlog _ Hj) as [r' Hr']. exists r'. rewrite lookup_insert_ne; [done|].
    intros <-. rewrite Hi in Hr'. by destruct t0; simplify_eq.
  - apply Forall_app. split; [done|]. by apply Forall_singleton.
Qed.

Lemma inv_task h0 w log i w' :
  inv h0 w log → (∀ c d, w_tasks w !! i = Some (TLocked c d) → read i c d) →
  task_step w i = Some w' → ∃ post, inv h0 w' (log ++ post) ∧ Forall (λ k, c_task k = i) post.
Proof.
  intros Hinv Hread. unfold task_step.
  destruct (w_tasks w !! i) as [[|b|b k|c d|c d|c ch|o]|] eqn:Hi; try done.
  - intros [= <-]. exists []. rewrite app_nil_r. split; [|done]. apply inv_set_task; naive_solver.
  - intros [= <-]. exists []. rewrite app_nil_r. split; [|done]. apply inv_set_task; naive_solver.
  - destruct (read_and_validate_config _ _) as [[c d]|e]; intros [= <-]; exists [];
      rewrite app_nil_r; (split; [|done]); apply inv_set_task; naive_solver.
  - destruct (w_lock w) eqn:Hl; [done|]. intros [= <-]. exists []. rewrite app_nil_r. split; [|done].
    pose proof (inv_cells _ _ _ Hinv) as Hcells. unfold cells_match in Hcells. rewrite Hl in Hcells.
    eapply inv_hold; [done|done|done|by left|done|].
    left. exists c, d. simpl. by rewrite lookup_insert_eq.
  - pose proof (inv_critical _ _ _ Hinv _ _ Hi I) as Hl.
    pose proof (inv_cells _ _ _ Hinv) as Hcells. unfold cells_match in Hcells. rewrite Hl, Hi in Hcells.
    destruct Hcells as [(c' & d' & [= <- <-] & Hh)|(? & ? & ? & ? & ?)]; [|done]. rewrite Hh.
    destruct (reload_checks _ _ c d) as [[]|e] eqn:Hck; intros [= <-].
    + exists []. rewrite app_nil_r. split; [|done]. rewrite Hl. eapply inv_hold; [done|done|done|by right|done|].
      right. eexists c, d, _. simpl. rewrite lookup_insert_eq.
      split; [done|]. split; [done|]. split; [unfold reload; by rewrite Hck|by apply Hread].
    + exists [mkCall i c d]. split; [|by apply Forall_singleton].
      eapply inv_complete; [done..| |by apply Hread]. unfold reload. by rewrite Hck.
  - pose proof (inv_critical _ _ _ Hinv _ _ Hi I) as Hl.
    pose proof (inv_cells _ _ _ Hinv) as Hcells. unfold cells_match in Hcells. rewrite Hl, Hi in Hcells.
    destruct Hcells as [(c' & d' & ? & Hh)|(c' & d & ch' & [= <- <-] & -> & Hr & Hrd)]; [done|].
    intros [= <-]. exists [mkCall i c d]. split; [|by apply Forall_singleton]. by eapply inv_complete.
Qed.

Lemma inv_event h0 w log e w' :
  inv h0 w log → (∀ i c d, w_tasks w !! i = Some (TLocked c d) → read i c d) →
  run_event w e = Some w' →
  ∃ post, inv h0 w' (log ++ post) ∧ ∀ k, k ∈ post → e = EvRun (c_task k).
Proof.
  intros Hinv Hread He. destruct e as [f|i|i]; simpl in He.
  - injection He as <-. exists []. rewrite app_nil_r. split; [by destruct Hinv|set_solver].
  - destruct (w_tasks w !! i) eqn:Hi; [done|]. injection He as <-. exists []. rewrite app_nil_r.
    split; [apply inv_set_task; naive_solver|set_solver].
  - destruct (inv_task _ _ _ _ _ Hinv (Hread i) He) as (post & Hinv' & Hpost). exists post. split; [done|].
    intros k Hk. by rewrite (proj1 (Forall_forall _ _) Hpost k Hk).
Qed.
End Invariant.

Lemma inv_mono (R R' : nat → StaticConfig → DynamicConfig → Prop) h0 w log :
  (∀ i c d, R i c d → R' i c d) → inv R h0 w log → inv R' h0 w log.
Proof.
  intros HR [Hcells ?? ?? Hcalls]. split; try done.
  - unfold cells_match in *. destruct (w_lock w) as [i|]; [|done]. destruct Hcells as [?|Hs]; [by left|right].
    destruct Hs as (c & d & ch & ? & ? & ? & ?). exists c, d, ch. auto.
  - eapply Forall_impl; [done|]. auto.
Qed.

Lemma reachable_inv h0 w : reachable h0 w → ∃ log, inv (λ _ _ _, True) h0 w log.
Proof.
  induction 1 as [f|w w' Hw [log Hinv] Hstep]; [exists []; apply inv_init|].
  assert (∃ e, run_event w e = Some w') as [e He].
  { destruct Hstep as [w f|w i Hi|w i w' Hs]; [by exists (EvWrite f)| |by exists (EvRun i)].
    exists (EvSpawn i). simpl. by rewrite Hi. }
  destruct (inv_event _ _ _ _ _ _ Hinv (λ _ _ _ _, I) He) as (post & Hp & _). eauto.
Qed.

(** ** Reads *)

Lemma task_step_flag w i w' :
  task_step w i = Some w' →
  h_cli_allow_wildcard_bind (w_handle w') = h_cli_allow_wildcard_bind (w_handle w).
Proof. unfold task_step. intros. by repeat case_match; simplify_eq/=. Qed.

Lemma run_event_flag w e w' :
  run_event w e = Some w' →
  h_cli_allow_wildcard_bind (w_handle w') = h_cli_allow_wildcard_bind (w_handle w).
Proof. destruct e; simpl; [naive_solver| |apply task_step_flag]. repeat case_match; naive_solver. Qed.

Lemma run_flag w es w' :
  steps run_event w es = Some w' →
  h_cli_allow_wildcard_bind (w_handle w') = h_cli_allow_wildcard_bind (w_handle w).
Proof.
  intros Hr. refine (steps_preserve run_event (λ w', h_cli_allow_wildcard_bind (w_handle w') =
    h_cli_allow_wildcard_bind (w_handle w)) w es w' _ eq_refl Hr).
  intros w1 e w2 <- Hs. by eapply run_event_flag.
Qed.

Lemma holds_reads_more w0 es es' i t : holds_reads w0 es i t → holds_reads w0 (es ++ es') i t.
Proof.
  destruct t as [|b|b k|c d|c d|c ch|[e|r]]; cbn [holds_reads]; try done.
  - intros (w1 & Hm & ->). exists w1. split; [by apply moments_more|done].
  - intros (w1 & w2 & Hm & Hb). exists w1, w2. split; [by apply moments_more|done].
  - intros (w1 & w2 & w3 & Hm & Hr). exists w1, w2, w3. split; [by apply moments_more|done].
  - intros (w1 & w2 & w3 & Hm & Hr). exists w1, w2, w3. split; [by apply moments_more|done].
  - intros (w1 & w2 & w3 & Hm & Hr). exists w1, w2, w3. split; [by apply moments_more|done].
Qed.

(** A task moves on by reading, or keeps what it has read. *)
Lemma task_step_reads w0 es w i w' :
  steps run_event w0 es = Some w → task_step w i = Some w' →
  (∀ t, w_tasks w !! i = Some t → holds_reads w0 es i t) →
  ∃ t', w_tasks w' = <[i := t']> (w_tasks w) ∧ holds_reads w0 (es ++ [EvRun i]) i t'.
Proof.
  intros Hr Hs Hold. pose proof Hs as Hev. change (task_step w i) with (run_event w (EvRun i)) in Hev.
  pose proof (λ ms Hm, moments_snoc run_event w0 es ms w (EvRun i) w' Hm Hr Hev) as Hsnoc.
  unfold task_step in Hs. destruct (w_tasks w !! i) as [t|] eqn:Hi; [|done]. specialize (Hold _ eq_refl).
  destruct t as [|b|b k|c d|c d|c ch|o]; try done.
  - injection Hs as <-. eexists. split; [done|]. exists w. split; [by apply (Hsnoc [])|done].
  - injection Hs as <-. destruct Hold as (w1 & Hm%Hsnoc & ->). eexists. split; [done|]. by exists w1, w.
  - destruct Hold as (w1 & w2 & Hm%Hsnoc & -> & ->).
    assert (task_read w0 (es ++ [EvRun i]) i (read_and_validate_config (mkFileReads (f_modified (w_file w1))
      (f_content (w_file w2)) (f_modified (w_file w))) (h_cli_allow_wildcard_bind (w_handle w)))) as Hread.
    { exists w1, w2, w. split; [done|]. by rewrite (run_flag _ _ _ Hr). }
    destruct (read_and_validate_config _ _) as [[c d]|e]; injection Hs as <-; by eexists.
  - destruct (w_lock w); [done|]. injection Hs as <-. eexists. split; [done|].
    by apply (holds_reads_more _ _ _ _ (TLocked c d)).
  - destruct (reload_checks _ _ _ _); injection Hs as <-; by eexists.
  - injection Hs as <-. by eexists.
Qed.

Lemma run_reads w0 es w i t :
  w_tasks w0 = ∅ → steps run_event w0 es = Some w → w_tasks w !! i = Some t → holds_reads w0 es i t.
Proof.
  intros H0'. revert w t i. induction es as [|e es IH] using rev_ind; intros w t i.
  { intros [= <-]. by rewrite H0', lookup_empty. }
  intros (w1 & Hr & He)%steps_snoc Hi.
  assert (w_tasks w1 !! i = Some t → holds_reads w0 (es ++ [e]) i t) as Hold
    by (intros Ht; by apply holds_reads_more, (IH w1)).
  destruct e as [f|j|j]; simpl in He.
  - injection He as <-. by apply Hold.
  - destruct (w_tasks w1 !! j); [done|]. injection He as <-. simpl in Hi.
    apply lookup_insert_Some in Hi as [[<- <-]|[_ Hi]]; [done|by apply Hold].
  - destruct (task_step_reads _ _ _ _ _ Hr He (λ t, IH w1 t j Hr)) as (t' & Et & Ht'). rewrite Et in Hi.
    apply lookup_insert_Some in Hi as [[<- <-]|[_ Hi]]; [done|by apply Hold].
Qed.

(** ** Order *)

(** A task that is done stays done. *)
Lemma done_stays w e w' i o :
  run_event w e = Some w' → w_tasks w !! i = Some (TDone o) → w_tasks w' !! i = Some (TDone o).
Proof.
  intros He Hi. destruct e as [f|j|j]; simpl in He.
  - by injection He as <-.
  - destruct (w_tasks w !! j) eqn:Hj; [done|]. injection He as <-. simpl.
    rewrite lookup_insert_ne; [done|]. congruence.
  - assert (j ≠ i) as Hne by (intros ->; unfold task_step in He; by rewrite Hi in He).
    unfold task_step in He. repeat case_match; simplify_eq/=; by rewrite lookup_insert_ne.
Qed.

(** The call of [i] comes before that of [j]. *)
Definition before (log : list Call) (i j : nat) : Prop :=
  ∃ pre post, log = pre ++ post ∧ i ∈ c_task <$> pre ∧ j ∈ c_task <$> post.

(** If [i] was done when [j] did not exist, its call comes first. *)
Definition in_order (w0 : World) (es : list Event) (log : list Call) : Prop :=
  ∀ es1 es2 w1 i j r, es = es1 ++ es2 → steps run_event w0 es1 = Some w1 →
    w_tasks w1 !! i = Some (TDone (Reloaded r)) → w_tasks w1 !! j = None →
    j ∈ c_task <$> log → before log i j.

Lemma before_more log post i j : before log i j → before (log ++ post) i j.
Proof.
  intros (pre & post' & -> & Hi & Hj). exists pre, (post' ++ post). rewrite fmap_app, elem_of_app.
  by rewrite <- (assoc_L (++)); auto.
Qed.

Lemma in_order_snoc R w0 h0 es w e w' log post :
  steps run_event w0 es = Some w → run_event w e = Some w' → inv R h0 w log → inv R h0 w' (log ++ post) →
  in_order w0 es log → in_order w0 (es ++ [e]) (log ++ post).
Proof.
  intros Hr He Hinv Hinv' Hord es1 es2 w1 i j r Hes Hr1 Hi Hj Hin.
  destruct es2 as [|e' es2 _] using rev_ind.
  - rewrite app_nil_r in Hes. subst es1.
    assert (steps run_event w0 (es ++ [e]) = Some w') as Hr' by (apply steps_snoc; eauto).
    rewrite Hr' in Hr1. injection Hr1 as <-. destruct (inv_log _ _ _ _ Hinv' j Hin). congruence.
  - rewrite (assoc_L (++)) in Hes. apply app_inj_tail in Hes as [-> ->].
    rewrite fmap_app, elem_of_app in Hin. destruct Hin as [Hin|Hin].
    + apply before_more. by eapply (Hord es1 es2).
    + exists log, post. split; [done|]. split; [|done].
      assert (w_tasks w !! i = Some (TDone (Reloaded r))) as Hw.
      { rewrite steps_app, Hr1 in Hr. simpl in Hr.
        refine (steps_preserve run_event (λ w, w_tasks w !! i = Some (TDone (Reloaded r))) _ _ _ _ Hi Hr).
        intros ??? H1' H2'. by eapply done_stays. }
      destruct (inv_outcome _ _ _ _ Hinv i r Hw) as (pre & c & d & post' & -> & _).
      rewrite fmap_app. simpl. set_solver.
Qed.

Lemma run_inv f h0 es w :
  let w0 := mkWorld f h0 None ∅ in
  steps run_event w0 es = Some w →
  ∃ log, inv (λ i c d, task_read w0 es i (Ok (c, d))) h0 w log ∧ in_order w0 es log.
Proof.
  intros w0. revert w. induction es as [|e es IH] using rev_ind; intros w.
  { intros [= <-]. exists []. split; [apply inv_init|]. intros ?????? _ _ _ _. set_solver. }
  intros (w1 & Hr & He)%steps_snoc. destruct (IH _ Hr) as (log & Hinv & Hord).
  apply (inv_mono _ (λ i c d, task_read w0 (es ++ [e]) i (Ok (c, d)))) in Hinv.
  2: { intros i c d. apply (holds_reads_more w0 es [e] i (TWaiting c d)). }
  assert (∀ i c d, w_tasks w1 !! i = Some (TLocked c d) → task_read w0 (es ++ [e]) i (Ok (c, d))) as Hread.
  { intros i c d Hi. apply (holds_reads_more w0 es [e] i (TLocked c d)). by eapply run_reads. }
  destruct (inv_event _ _ _ _ _ _ Hinv Hread He) as (post & Hinv' & _).
  exists (log ++ post). split; [done|]. by eapply in_order_snoc.
Qed.

(** A handle that no call changed, or the halves of the last call that did. *)
Lemma replay_halves h0 log :
  replay h0 log = h0 ∨
  ∃ k, k ∈ log ∧ h_static_config (replay h0 log) = c_static k ∧ h_config (replay h0 log) = c_dynamic k.
Proof.
  induction log as [|k log IH] using rev_ind; [by left|].
  unfold replay. rewrite foldl_app. simpl. fold (replay h0 log). unfold reload.
  destruct (reload_checks _ _ _ _); simpl; [right; exists k; set_solver|].
  destruct IH as [IH|(k' & Hk & E)]; [by left|right]. exists k'. split; [set_solver|done].
Qed.
End Steps.

Abbreviation run_events rlimit := (steps (run_event rlimit)).

(** ** Linearizability *)

(** [C8] Concurrent reloads are linearizable.  For every run of reload tasks and file writes
    there is a sequence of calls of the sequential [reload], each made once by a finished
    task with the configuration that task read: [read_and_validate_config] of the file's
    time, content and time again as the file was at three moments of the run, in this
    order.  Every task that finished a reload got the outcome of its own call in the
    sequence, and a task whose read failed the error its three reads give; a task that
    finished before another was spawned comes before it in the sequence.  Whenever no
    task holds [reload_mutex], the two cells hold exactly what the sequence leaves: what
    they held at the start, or the two halves of one configuration read by one task. *)
Theorem reloads_linearizable `{Unicode, FileSystem, Toml} rlimit f h0 es w :
  let w0 := mkWorld f h0 None ∅ in
  run_events rlimit w0 es = Some w →
  ∃ log,
    NoDup (c_task <$> log) ∧
    (∀ k, k ∈ log → task_read rlimit w0 es (c_task k) (Ok (c_static k, c_dynamic k)) ∧
       ∃ r, w_tasks w !! c_task k = Some (TDone (Reloaded r))) ∧
    (∀ i r, w_tasks w !! i = Some (TDone (Reloaded r)) → outcome_in rlimit h0 log i r) ∧
    (∀ i e, w_tasks w !! i = Some (TDone (ReadFailed e)) → task_read rlimit w0 es i (Err e)) ∧
    in_order rlimit w0 es log ∧
    (w_lock w = None →
       w_handle w = replay rlimit h0 log ∧
       (w_handle w = h0 ∨
        ∃ k, k ∈ log ∧ h_static_config (w_handle w) = c_static k ∧ h_config (w_handle w) = c_dynamic k)).
Proof.
  intros w0 Hr. destruct (run_inv rlimit f h0 es w Hr) as (log & [Hcells _ Hout Honce Hlog Hcalls] & Hord).
  exists log. split; [done|]. split.
  { intros k Hk. split; [by apply (proj1 (Forall_forall _ _) Hcalls k)|].
    apply Hlog, list_elem_of_fmap. eauto. }
  split; [done|]. split; [intros i e Hi; by apply (run_reads rlimit w0 es w i _ eq_refl Hr Hi)|].
  split; [done|]. intros Hl. unfold cells_match in Hcells. rewrite Hl in Hcells. split; [done|].
  rewrite Hcells. apply replay_halves.
Qed.

Section Served.
Context `{Unicode, FileSystem, Toml} (rlimit : option Z).

(** The halves a handle holds are those of an admissible configuration. *)
Definition handle_ok (cli : bool) (h : ConfigReloadHandle) : Prop :=
  h_cli_allow_wildcard_bind h = cli ∧ admissible rlimit cli (h_static_config h) (h_config h).

Lemma reload_handle_ok cli h c d : handle_ok cli h → handle_ok cli (reload rlimit h c d).2.
Proof.
  intros [Hc Ha]. destruct (admissible_dec rlimit (h_cli_allow_wildcard_bind h) c d) as [Hok|Hn].
  - rewrite reload_admissible by done. split; simpl; [done|]. by rewrite <- Hc.
  - destruct (reload_not_admissible rlimit h c d Hn) as [e ->]. done.
Qed.

Lemma replay_handle_ok cli h log : handle_ok cli h → handle_ok cli (replay rlimit h log).
Proof.
  revert h. induction log as [|k log IH]; intros h Hh; [done|]. by apply IH, reload_handle_ok.
Qed.
End Served.

(** At every point of every interleaving, the dynamic configuration in the cell is the
    dynamic half, and the static one the static half, of a configuration that passed all
    the checks of [reload] under the flag the process started with. *)
Lemma served_config_admissible `{Unicode, FileSystem, Toml} rlimit h0 w :
  admissible rlimit (h_cli_allow_wildcard_bind h0) (h_static_config h0) (h_config h0) →
  reachable rlimit h0 w →
  h_cli_allow_wildcard_bind (w_handle w) = h_cli_allow_wildcard_bind h0 ∧
  (∃ c, admissible rlimit (h_cli_allow_wildcard_bind h0) c (h_config (w_handle w))) ∧
  (∃ d, admissible rlimit (h_cli_allow_wildcard_bind h0) (h_static_config (w_handle w)) d).
Proof.
  intros Ha [log [Hcells _ _ _ _ _]]%reachable_inv.
  destruct (replay_handle_ok rlimit (h_cli_allow_wildcard_bind h0) h0 log (conj eq_refl Ha)) as [Hc Hadm].
  unfold cells_match in Hcells. revert Hcells Hc Hadm. generalize (replay rlimit h0 log) as base.
  intros base Hcells Hc Hadm. destruct (w_lock w) as [i|]; [|subst; eauto].
  destruct Hcells as [(c & d & _ & ->)|(c & d & ch & _ & -> & Hr & _)]; [eauto|].
  apply reload_Ok in Hr as (Hr & _ & _). rewrite Hc in Hr. simpl. eauto.
Qed.

(** ** Every configuration comes from a file *)

Section Sourced.
Context `{Unicode, FileSystem, Toml} (rlimit : option Z).

(** The halves of one config file that parsed and passed [validate]. *)
Definition file_config (cli : bool) (c : StaticConfig) (d : DynamicConfig) : Prop :=
  ∃ content f, toml_from_str content = Ok f ∧ accepted f cli c d.

Definition task_sourced (cli : bool) (t : Task) : Prop :=
  match t with
  | TWaiting c d | TLocked c d => file_config cli c d
  | TStored c _ => ∃ d, file_config cli c d
  | _ => True
  end.

Record sourced (cli : bool) (w : World) : Prop := {
  src_flag : h_cli_allow_wildcard_bind (w_handle w) = cli;
  src_dynamic : ∃ c, file_config cli c (h_config (w_handle w));
  src_static : ∃ d, file_config cli (h_static_config (w_handle w)) d;
  src_tasks : map_Forall (λ _, task_sourced cli) (w_tasks w);
}.

Lemma file_config_typed cli c d :
  file_config cli c d →
  wf_static c ∧ dynamic_in_range d ∧ wf_dynamic d ∧ sites d = all_sites c ∧ valid_config c d cli.
Proof.
  intros (content & f & Hf & Hacc). pose proof (accepted_sites _ _ _ _ Hacc) as (Hs & Hwf & Hv).
  destruct Hacc as [Hi _]. apply toml_from_str_wf, split_wf in Hf. rewrite Hi in Hf. naive_solver.
Qed.

Lemma sourced_handle_of_loaded file cli l f0 :
  load_config file rlimit cli = Ok l →
  sourced (lc_allow_wildcard_bind l) (mkWorld f0 (handle_of_loaded l) None ∅).
Proof.
  intros (content & f & _ & Hf & [Hi Hv] & _ & Hw)%load_config_ok.
  assert (file_config (lc_allow_wildcard_bind l) (lc_static_config l) (lc_dynamic_config l)) as Hfc.
  { exists content, f. split; [done|]. split; [done|]. apply validate_Ok_valid in Hv.
    apply validate_Ok_valid. eapply valid_config_weaken; [|done].
    intros E. by rewrite Hw, E, !orb_true_r. }
  split; simpl; eauto. apply map_Forall_empty.
Qed.

Lemma sourced_set_task cli w i t : sourced cli w → task_sourced cli t → sourced cli (set_task w i t).
Proof. intros [] Ht. split; simpl; try done. by apply map_Forall_insert_2. Qed.

Lemma sourced_task cli w i w' : sourced cli w → task_step rlimit w i = Some w' → sourced cli w'.
Proof.
  intros [Hflag [cd Hd] [ds Hs] Htasks]. unfold task_step.
  destruct (w_tasks w !! i) as [t|] eqn:Hi; [|done].
  pose proof (map_Forall_lookup_1 _ _ _ _ Htasks Hi) as Ht. destruct t as [|b|b k|c d|c d|c ch|o]; try done.
  - intros [= <-]. apply sourced_set_task; [|done]. split; eauto.
  - intros [= <-]. apply sourced_set_task; [|done]. split; eauto.
  - destruct (read_and_validate_config _ _) as [[c d]|e] eqn:Hr; intros [= <-];
      (apply sourced_set_task; [by split; eauto|]); [|done].
    rewrite Hflag in Hr. apply read_and_validate_ok in Hr as (_ & content & f & _ & _ & _ & Hf & Ha).
    by exists content, f.
  - destruct (w_lock w); [done|]. intros [= <-]. apply sourced_set_task; [|done]. split; eauto.
  - destruct (reload_checks _ _ c d); intros [= <-]; (apply sourced_set_task; [|by try exists d]);
      split; simpl; eauto.
  - intros [= <-]. apply sourced_set_task; [|done]. split; simpl; eauto.
Qed.

Lemma sourced_step cli w w' : sourced cli w → step rlimit w w' → sourced cli w'.
Proof.
  intros Hw. destruct 1 as [w f|w i Hi|w i w' Hs].
  - by destruct Hw.
  - by apply sourced_set_task.
  - by eapply sourced_task.
Qed.

Lemma reachable_sourced cli h0 w :
  (∀ f, sourced cli (mkWorld f h0 None ∅)) → reachable rlimit h0 w → sourced cli w.
Proof. intros Hinit. induction 1 as [f|w w' _ IH Hs]; [done|]. by eapply sourced_step. Qed.
End Sourced.

Lemma loaded_admissible `{Unicode, FileSystem, Toml} file rlimit cli l :
  load_config file rlimit cli = Ok l →
  admissible rlimit (lc_allow_wildcard_bind l) (lc_static_config l) (lc_dynamic_config l).
Proof.
  intros (content & f & _ & _ & [_ Hv%validate_Ok_valid] & Hn & Hw)%load_config_ok. split; [|done].
  eapply valid_config_weaken; [|done]. intros E. by rewrite Hw, E, !orb_true_r.
Qed.

(** [C11] What the process serves is well typed and comes from files: from a successful
    startup on, at every point of every interleaving of reloads, file writes and
    reads, each cell holds a half of a config file that parsed and passed
    [validate]; its integers are within the widths of their Rust types, its
    routing table is the one built from its sites, its connections fit the
    descriptor limit, and readers never see a configuration that some check of
    [reload] would refuse. *)
Theorem served_config_typed `{Unicode, FileSystem, Toml} file rlimit cli l w :
  load_config file rlimit cli = Ok l →
  reachable rlimit (handle_of_loaded l) w →
  let h := w_handle w in
  wf_static (h_static_config h) ∧ dynamic_in_range (h_config h) ∧ wf_dynamic (h_config h) ∧
  (∃ content f, toml_from_str content = Ok f ∧
     accepted f (lc_allow_wildcard_bind l) (into_static_and_dynamic f).1 (h_config h)) ∧
  (∃ content f, toml_from_str content = Ok f ∧
     accepted f (lc_allow_wildcard_bind l) (h_static_config h) (into_static_and_dynamic f).2) ∧
  validate_nofile rlimit (max_connections (h_static_config h)) = [].
Proof.
  intros Hl Hw. cbv zeta.
  destruct (reachable_sourced rlimit (lc_allow_wildcard_bind l) (handle_of_loaded l) w
    (λ f, sourced_handle_of_loaded rlimit file cli l f Hl) Hw) as [_ [c Hd] [d Hs] _].
  pose proof (file_config_typed _ _ _ Hd) as (_ & Hr & Hwf & _).
  pose proof (file_config_typed _ _ _ Hs) as (Hst & _).
  do 3 (split; [done|]).
  destruct Hd as (k & f & Hf & Ha), Hs as (k' & f' & Hf' & Ha').
  split; [exists k, f; pose proof (proj1 Ha) as E; by rewrite E|].
  split; [exists k', f'; pose proof (proj1 Ha') as E; by rewrite E|].
  destruct (served_config_admissible rlimit (handle_of_loaded l) w) as (_ & _ & d0 & [_ Hn]); [|done..].
  by apply loaded_admissible in Hl.
Qed.

(** ** The file is read before the mutex is taken *)

Definition file_at (m : Z) (text : string) : ConfigFile := mkFile (Ok (Some m)) (Ok text).

(** Task 1 reads the old file; the file is replaced; task 2 reads the new one and
    reloads; then task 1 takes the mutex. *)
Definition stale_schedule : list Event :=
  [EvSpawn 1; EvRun 1; EvRun 1; EvRun 1; EvWrite (file_at 2 "new");
   EvSpawn 2; EvRun 2; EvRun 2; EvRun 2; EvRun 2; EvRun 2; EvRun 2;
   EvRun 1; EvRun 1; EvRun 1].

(** Both reloads succeed, the file holds the new rate of 50 requests per second,
    nothing is left to run, and the process serves the old rate. *)
Lemma stale_reload_overwrites :
  let u := ascii_only in let fs := fs_with [] in
  let t := toml_with [("old", test_doc 10); ("new", test_doc 50)] in
  let w0 := mkWorld (file_at 1 "old") test_handle None ∅ in
  match run_events None w0 stale_schedule with
  | Some w =>
      f_content (w_file w) = Ok "new" ∧ w_lock w = None ∧
      w_tasks w !! 1%nat = Some (TDone (Reloaded (Ok []))) ∧
      (∃ ch, w_tasks w !! 2%nat = Some (TDone (Reloaded (Ok ch)))) ∧
      requests_per_second (rate_limit (h_config (w_handle w))) = 10%Z
  | None => False
  end.
Proof. vm_compute. eauto 10. Qed.

(** ** The wildcard flag outlives the option that set it

    The handle keeps [config || flag] as its flag, so a process started with
    [allow_wildcard_bind = true] in its file and no flag accepts at reload a file
    that has the option off and binds [0.0.0.0]: the same file is refused at
    startup. *)
Definition wildcard_doc (allow : bool) : list (string * TomlValue) :=
  limits_doc 10 20 ++
  [("allow_wildcard_bind", TBoolean allow);
   ("listeners", TArray [listener_doc "0.0.0.0" [site_doc "test.local" "127.0.0.1:8080" []]])].

Lemma wildcard_flag_sticks :
  let u := ascii_only in let fs := fs_with [] in
  let t := toml_with [("on", wildcard_doc true); ("off", wildcard_doc false)] in
  is_ok (load_config (λ _, Ok "off") None test_cli) = false ∧
  match load_config (λ _, Ok "on") None test_cli with
  | Ok l =>
      let r := reload_from_file None (handle_of_loaded l)
                 (mkFileReads (Ok (Some 1%Z)) (Ok "off") (Ok (Some 1%Z))) in
      r.1 = Some (Ok ["allow_wildcard_bind"]) ∧
      allow_wildcard_bind (h_static_config r.2) = false
  | Err _ => False
  end.
Proof. vm_compute. done. Qed.

(** ** Witnesses *)

Lemma reloads_linearizable_witness :
  let u := ascii_only in let fs := fs_with [] in
  let t := toml_with [("old", test_doc 10); ("new", test_doc 50)] in
  match run_events None (mkWorld (file_at 1 "old") test_handle None ∅) stale_schedule with
  | Some w => ∃ log, NoDup (c_task <$> log) ∧ w_handle w = replay None test_handle log
  | None => False
  end.
Proof.
  intros u fs t.
  assert ((λ w, bool_decide (w_lock w = None)) <$>
    run_events None (mkWorld (file_at 1 "old") test_handle None ∅) stale_schedule = Some true) as Hsum
    by (vm_compute; reflexivity).
  destruct (run_events _ _ _) as [w|] eqn:E; [|discriminate Hsum]. injection Hsum as Hl%bool_decide_eq_true_1.
  destruct (reloads_linearizable None (file_at 1 "old") test_handle stale_schedule w E)
    as (log & Hnd & _ & _ & _ & _ & Hh).
  exists log. split; [exact Hnd|]. apply Hh, Hl.
Defined.

(** A process started on the file ["old"], with two reloads in flight. *)
Definition old_loaded `{Unicode} : LoadedConfig :=
  let '(c, d) := into_static_and_dynamic test_full_config in mkLoadedConfig c d false.

Lemma served_config_typed_witness :
  let u := ascii_only in let fs := fs_with [] in
  let t := toml_with [("old", test_doc 10); ("new", test_doc 50)] in
  match run_events None (mkWorld (file_at 1 "old") (handle_of_loaded old_loaded) None ∅) stale_schedule with
  | Some w => wf_rate_limit (rate_limit (h_config (w_handle w)))
  | None => False
  end.
Proof.
  intros u fs t. destruct (run_events _ _ _) as [w|] eqn:E.
  - apply (served_config_typed (λ _, Ok "old") None test_cli old_loaded w).
    + vm_compute. reflexivity.
    + eapply run_events_reachable; [constructor|exact E].
  - vm_compute in E. discriminate E.
Defined.
