(* ===== verification/TestsConfig.v ===== *)
(** * The unit tests of the configuration modules

    The test modules of [src/config/dynamic_config.rs], [static_config.rs], [mod.rs],
    [fd_budget.rs], [src/utils.rs] and [src/cli.rs], evaluated on the model.  A TOML text
    of a test is given as the document it denotes; command lines as the [Cli] they parse
    to; files written to a temporary directory are in [/tmp/dir]. *)

From S2P Require Import Prelude Text Net Config Routing Toml Validation Fixtures TestsValidation.
From S2P Require Import ValidRouting Reload ReloadProps ReloadConc.
Local Open Scope string_scope.
Local Open Scope list_scope.

#[local] Existing Instance ascii_only.
#[local] Existing Instance no_files.

(** ** [dynamic_config.rs] *)

Definition has (x : string) (l : list string) : bool := existsb (String.eqb x) l.

Definition eq_host (o : option SiteConfig) (h : string) : bool :=
  match o with Some s => (site_host s =? h)%string | None => false end.

Definition new_site : SiteConfig := mkSiteConfig "new.test" "127.0.0.1:9090" "http" 5 60.

(** [handle.load()] *)
Definition load (h : ConfigReloadHandle) : DynamicConfig := h_config h.

Definition with_rate (d : DynamicConfig) (ss : list SiteConfig) (rps : Z) : DynamicConfig :=
  from_sites ss (mkRateLimitConfig rps (burst (rate_limit d))) (body d).

Definition arcswap_swap_visible_after_reload : bool :=
  let initial := test_dynamic_config in
  let handle := mkHandle initial test_static_config false in
  let loaded := load handle in
  let new_dynamic := with_rate initial (sites initial ++ [new_site]) 50 in
  let '(r, handle) := reload None handle test_static_config new_dynamic in
  let loaded' := load handle in
  (length (sites loaded) =? 1)%nat && (requests_per_second (rate_limit loaded) =? 10)%Z && is_ok r &&
  (length (sites loaded') =? 2)%nat && (requests_per_second (rate_limit loaded') =? 50)%Z.

Definition reload_rejects_invalid_config : bool :=
  let initial := test_dynamic_config in
  let handle := mkHandle initial test_static_config false in
  let '(r, handle) := reload None handle test_static_config (upd_rates initial 0 104857600) in
  negb (is_ok r) && (requests_per_second (rate_limit (load handle)) =? 10)%Z.

(** Five tasks reload the rates 10, 20, …, 50; here in the order they were spawned. *)
Definition concurrent_reload_serialization : bool :=
  let initial := test_dynamic_config in
  let handle := mkHandle initial test_static_config false in
  let '(oks, handle) := foldl (λ '(oks, h) i,
    let '(r, h) := reload None h test_static_config (with_rate initial (sites initial) (i * 10)) in
    (oks && is_ok r, h)) (true, handle) [1; 2; 3; 4; 5]%Z in
  let rps := requests_per_second (rate_limit (load handle)) in
  oks && ((rps =? 10) || (rps =? 20) || (rps =? 30) || (rps =? 40) || (rps =? 50))%Z.

Definition static_config_diff_detects_changes : bool :=
  let old := test_static_config in
  let new := mkStaticConfig (listeners old) (allow_wildcard_bind old) 8080 (admin_key_path old)
    (shutdown_timeout_secs old) (connection_idle_timeout_secs old) (tls_handshake_timeout_secs old)
    (max_connections old) (mkLoggingConfig "debug" (log_format (logging old)) (log_file_path (logging old))) in
  let changes := diff_static_config old new in
  bool_decide (diff_static_config old old = []) && has "health_check_port" changes &&
  has "logging" changes && (length changes =? 2)%nat.

Definition changes_of (r : result (list string) string) : list string :=
  match r with Ok ch => ch | Err _ => [] end.

Definition reload_second_time_no_further_static_changes : bool :=
  let initial := test_dynamic_config in
  let handle := mkHandle initial test_static_config false in
  let changed_static := upd_health test_static_config 8080 in
  let '(r1, handle) := reload None handle changed_static initial in
  let '(r2, _) := reload None handle changed_static initial in
  is_ok r1 && is_ok r2 && has "health_check_port" (changes_of r1) && bool_decide (changes_of r2 = []).

Definition upd_shutdown (c : StaticConfig) (t : Z) : StaticConfig :=
  mkStaticConfig (listeners c) (allow_wildcard_bind c) (health_check_port c) (admin_key_path c)
    t (connection_idle_timeout_secs c) (tls_handshake_timeout_secs c) (max_connections c) (logging c).

Definition reload_second_time_different_static_changes : bool :=
  let initial := test_dynamic_config in
  let handle := mkHandle initial test_static_config false in
  let changed_static := upd_health test_static_config 8080 in
  let '(r1, handle) := reload None handle changed_static initial in
  let '(r2, _) := reload None handle (upd_shutdown changed_static 60) initial in
  is_ok r1 && is_ok r2 && has "health_check_port" (changes_of r1) && (length (changes_of r1) =? 1)%nat &&
  negb (has "health_check_port" (changes_of r2)) && has "shutdown_timeout_secs" (changes_of r2) &&
  (length (changes_of r2) =? 1)%nat.

(** The eight tests of [normalize_host]. *)
Definition normalize_host_tests : bool :=
  (normalize_host "Git.Alk.DEV" =? "git.alk.dev") && (normalize_host "git.alk.dev:443" =? "git.alk.dev") &&
  (normalize_host "GIT.ALK.DEV:8443" =? "git.alk.dev") && (normalize_host "git.alk.dev" =? "git.alk.dev") &&
  (normalize_host "" =? "") && (normalize_host "[::1]:443" =? "::1") &&
  (normalize_host "[2001:db8::1]:8080" =? "2001:db8::1") && (normalize_host "[::1]" =? "::1") &&
  (normalize_host "[2001:DB8::1]:443" =? "2001:db8::1").

(** The four tests of [lookup]. *)
Definition routing_table_lookup_tests : bool :=
  eq_host (lookup test_dynamic_config "test.local") "test.local" &&
  eq_host (lookup test_dynamic_config "TEST.LOCAL") "test.local" &&
  eq_host (lookup test_dynamic_config "test.local:443") "test.local" &&
  bool_decide (lookup test_dynamic_config "unknown.example" = None).

Definition build_routing_table_multiple_sites : bool :=
  let table := build_routing_table
    [mkSiteConfig "git.example.com" "127.0.0.1:3000" "http" 5 60;
     mkSiteConfig "www.example.com" "127.0.0.1:8080" "http" 5 60] in
  (size table =? 2)%nat && bool_decide (is_Some (table !! "git.example.com")) &&
  bool_decide (is_Some (table !! "www.example.com")).

Definition dynamic_config_from_sites_builds_routing_table : bool :=
  let config := from_sites [mkSiteConfig "My.Site" "127.0.0.1:8080" "http" 5 60]
    (mkRateLimitConfig 10 20) (mkBodyConfig 104857600) in
  bool_decide (is_Some (routing_table config !! "my.site")) && (size (routing_table config) =? 1)%nat.

Definition wildcard_static : StaticConfig :=
  upd_wildcard (upd_listener0 test_static_config (upd_addr "0.0.0.0")) false.

Definition reload_accepts_wildcard_bind_when_flag_true : bool :=
  let handle := mkHandle test_dynamic_config wildcard_static true in
  is_ok (reload None handle wildcard_static test_dynamic_config).1.

Definition reload_rejects_wildcard_bind_when_flag_false : bool :=
  let handle := mkHandle test_dynamic_config wildcard_static false in
  match (reload None handle wildcard_static test_dynamic_config).1 with
  | Ok _ => false
  | Err err_msg => contains "0.0.0.0" err_msg
  end.

Lemma dynamic_config_tests_pass :
  forallb id
    [arcswap_swap_visible_after_reload; reload_rejects_invalid_config; concurrent_reload_serialization;
     static_config_diff_detects_changes; reload_second_time_no_further_static_changes;
     reload_second_time_different_static_changes; normalize_host_tests; routing_table_lookup_tests;
     build_routing_table_multiple_sites; dynamic_config_from_sites_builds_routing_table;
     reload_accepts_wildcard_bind_when_flag_true; reload_rejects_wildcard_bind_when_flag_false] = true.
Proof. vm_compute. reflexivity. Qed.

(** ** [static_config.rs] *)

Definition logging_doc (level format : string) : string * TomlValue :=
  ("logging", TTable [("level", TString level); ("format", TString format)]).

Definition ports_doc (addr : string) (t : TomlValue) (ss : list TomlValue) : TomlValue :=
  TTable [("bind_addr", TString addr); ("http_port", TInteger 80); ("https_port", TInteger 443);
          ("tls", t); ("sites", TArray ss)].

Definition multi_config_toml : list (string * TomlValue) :=
  [("health_check_port", TInteger 9900); ("admin_key_path", TString "/etc/reverse-proxy/admin-key");
   logging_doc "info" "text"] ++ limits_doc 10 20 ++
  [("listeners", TArray
     [ports_doc "203.0.113.10"
        (TTable [("mode", TString "acme"); ("acme_domains", TArray [TString "git.alk.dev"]);
                 ("acme_cache_dir", TString "/var/lib/reverse-proxy/acme-cache-git");
                 ("acme_directory", TString "production")])
        [site_doc "git.alk.dev" "127.0.0.1:3000" [("upstream_scheme", TString "http")]];
      ports_doc "203.0.113.11"
        (TTable [("mode", TString "manual"); ("cert_path", TString "/etc/ssl/alk.dev/fullchain.pem");
                 ("key_path", TString "/etc/ssl/alk.dev/privkey.pem")])
        [site_doc "alk.dev" "127.0.0.1:8080" [("upstream_scheme", TString "http")]]])].

Definition shared_ip_san_toml : list (string * TomlValue) :=
  [("health_check_port", TInteger 9900); ("admin_key_path", TString "/etc/reverse-proxy/admin-key");
   logging_doc "info" "text"] ++ limits_doc 10 20 ++
  [("listeners", TArray
     [ports_doc "203.0.113.10"
        (TTable [("mode", TString "acme"); ("acme_domains", TArray [TString "git.alk.dev"; TString "alk.dev"]);
                 ("acme_cache_dir", TString "/var/lib/reverse-proxy/acme-cache");
                 ("acme_directory", TString "production")])
        [site_doc "git.alk.dev" "127.0.0.1:3000" []; site_doc "alk.dev" "127.0.0.1:8080" []]])].

(** The assertions of a test, on the configuration its document gives. *)
Definition parsed (doc : list (string * TomlValue)) (asserts : FullConfig → bool) : bool :=
  match deserialize_full (TTable doc) with Some f => asserts f | None => false end.

Definition defaults_hold (config : FullConfig) : bool :=
  negb (full_allow_wildcard_bind config) && (full_health_check_port config =? 9900)%Z &&
  (full_admin_key_path config =? "/etc/reverse-proxy/admin-key") &&
  (full_shutdown_timeout_secs config =? 30)%Z && (full_connection_idle_timeout_secs config =? 60)%Z &&
  (full_tls_handshake_timeout_secs config =? 10)%Z && (full_max_connections config =? 1024)%Z &&
  bool_decide (full_logging config = mkLoggingConfig "info" "text" None).

Definition deserialize_multi_config : bool :=
  parsed multi_config_toml (λ config,
    defaults_hold config &&
    match full_listeners config with
    | [l1; l2] =>
        (bind_addr l1 =? "203.0.113.10") && (http_port l1 =? 80)%Z && (https_port l1 =? 443)%Z &&
        (tls_mode (tls l1) =? "acme") && bool_decide (acme_domains (tls l1) = ["git.alk.dev"]) &&
        (acme_cache_dir (tls l1) =? "/var/lib/reverse-proxy/acme-cache-git") &&
        (acme_directory (tls l1) =? "production") &&
        bool_decide ((λ s, (site_host s, site_upstream s, site_upstream_scheme s)) <$> listener_sites l1
                     = [("git.alk.dev", "127.0.0.1:3000", "http")]) &&
        (bind_addr l2 =? "203.0.113.11") && (tls_mode (tls l2) =? "manual") &&
        (cert_path (tls l2) =? "/etc/ssl/alk.dev/fullchain.pem") &&
        (key_path (tls l2) =? "/etc/ssl/alk.dev/privkey.pem") &&
        bool_decide (site_host <$> listener_sites l2 = ["alk.dev"])
    | _ => false
    end).

Definition deserialize_shared_ip_san : bool :=
  parsed shared_ip_san_toml (λ config,
    match full_listeners config with
    | [l] =>
        (bind_addr l =? "203.0.113.10") && (tls_mode (tls l) =? "acme") &&
        bool_decide (acme_domains (tls l) = ["git.alk.dev"; "alk.dev"]) &&
        (acme_cache_dir (tls l) =? "/var/lib/reverse-proxy/acme-cache") &&
        bool_decide (site_host <$> listener_sites l = ["git.alk.dev"; "alk.dev"])
    | _ => false
    end).

Definition defaults_applied_when_omitted : bool :=
  let minimal := limits_doc 10 20 ++
    [("listeners", TArray [TTable
       [("bind_addr", TString "192.168.1.1");
        ("tls", TTable [("mode", TString "acme"); ("acme_domains", TArray [TString "example.com"]);
                        ("acme_cache_dir", TString "/tmp/cache")])]])] in
  parsed minimal (λ config,
    defaults_hold config &&
    match full_listeners config with
    | l :: _ => (http_port l =? 80)%Z && (https_port l =? 443)%Z &&
                (acme_directory (tls l) =? "production") && bool_decide (listener_sites l = [])
    | [] => false
    end).

Definition logging_with_file_path : bool :=
  let toml := limits_doc 10 20 ++
    [("logging", TTable [("level", TString "debug"); ("format", TString "json");
                         ("log_file_path", TString "/var/log/reverse-proxy/access.log")]);
     ("listeners", TArray [TTable
       [("bind_addr", TString "203.0.113.10");
        ("tls", TTable [("mode", TString "manual"); ("cert_path", TString "/etc/ssl/cert.pem");
                        ("key_path", TString "/etc/ssl/key.pem")])]])] in
  parsed toml (λ config, bool_decide
    (full_logging config = mkLoggingConfig "debug" "json" (Some "/var/log/reverse-proxy/access.log"))).

Definition site_defaults : bool :=
  let toml := limits_doc 10 20 ++
    [("listeners", TArray [TTable
       [("bind_addr", TString "203.0.113.10");
        ("tls", TTable [("mode", TString "acme"); ("acme_domains", TArray [TString "test.example"]);
                        ("acme_cache_dir", TString "/tmp/acme")]);
        ("sites", TArray [site_doc "test.example" "127.0.0.1:8080" []])]])] in
  parsed toml (λ config, bool_decide
    (flat_map listener_sites (full_listeners config)
     = [mkSiteConfig "test.example" "127.0.0.1:8080" "http" 5 60])).

Lemma static_config_tests_pass :
  forallb id [deserialize_multi_config; deserialize_shared_ip_san; defaults_applied_when_omitted;
              logging_with_file_path; site_defaults] = true.
Proof. vm_compute. reflexivity. Qed.

(** ** [mod.rs] *)

Definition valid_config_toml : list (string * TomlValue) :=
  [("health_check_port", TInteger 9900); ("admin_key_path", TString "/tmp/test-admin-key");
   logging_doc "info" "text"] ++ limits_doc 20 40 ++
  [("listeners", TArray [ports_doc "127.0.0.1" tls_doc [site_doc "test.local" "127.0.0.1:8080" []]])].

(** [tls] of the other files of these tests. *)
Definition tls_doc' : TomlValue :=
  TTable [("mode", TString "acme"); ("acme_domains", TArray [TString "test.local"]);
          ("acme_cache_dir", TString "/tmp/acme-cache"); ("acme_contact", TString "mailto:admin@test.local")].

Definition zero_rate_toml : list (string * TomlValue) :=
  [("health_check_port", TInteger 9900); logging_doc "info" "text"] ++ limits_doc 0 20 ++
  [("listeners", TArray [TTable [("bind_addr", TString "127.0.0.1"); ("http_port", TInteger 80);
                                 ("https_port", TInteger 443); ("tls", tls_doc')]])].

Definition wildcard_toml : list (string * TomlValue) :=
  [("health_check_port", TInteger 9900); logging_doc "info" "text"] ++ limits_doc 10 20 ++
  [("listeners", TArray [ports_doc "0.0.0.0" tls_doc' [site_doc "test.local" "127.0.0.1:8080" []]])].

#[local] Instance test_texts : Toml :=
  toml_with [("valid", valid_config_toml); ("zero rate", zero_rate_toml); ("wildcard", wildcard_toml)].

(** A read of a file that nothing changes. *)
Definition reads (content : string) : FileReads := mkFileReads (Ok (Some 1%Z)) (Ok content) (Ok (Some 1%Z)).

Definition read_and_validate_config_valid_file : bool :=
  match read_and_validate_config (reads "valid") false with
  | Ok (c, d) => (requests_per_second (rate_limit d) =? 20)%Z && (health_check_port c =? 9900)%Z
  | Err _ => false
  end.

Definition read_and_validate_config_missing_file : bool :=
  match read_and_validate_config (mkFileReads (Err "not found") (Err "not found") (Err "not found")) false with
  | Err (Io _) => true
  | _ => false
  end.

Definition read_and_validate_config_invalid_toml : bool :=
  match read_and_validate_config (reads "invalid toml {{{") false with Err (Parse _) => true | _ => false end.

Definition read_and_validate_config_validation_fails : bool :=
  match read_and_validate_config (reads "zero rate") false with
  | Err (ValidationFailed msg) => contains "requests_per_second" msg
  | _ => false
  end.

Definition read_and_validate_config_wildcard_bind_allowed_with_flag : bool :=
  is_ok (read_and_validate_config (reads "wildcard") true).

Definition read_and_validate_config_wildcard_bind_rejected_without_flag : bool :=
  match read_and_validate_config (reads "wildcard") false with
  | Err (ValidationFailed msg) => contains "0.0.0.0" msg
  | _ => false
  end.

(** The file is written again while it is read, or after: both outcomes are allowed. *)
Definition read_and_validate_config_mtime_change_detected : bool :=
  forallb (λ after,
    match read_and_validate_config (mkFileReads (Ok (Some 1%Z)) (Ok "valid") (Ok (Some after))) false with
    | Err FileChangedDuringRead | Ok _ => true
    | _ => false
    end) [1%Z; 2%Z].

Lemma config_tests_pass :
  forallb id
    [read_and_validate_config_valid_file; read_and_validate_config_missing_file;
     read_and_validate_config_invalid_toml; read_and_validate_config_validation_fails;
     read_and_validate_config_wildcard_bind_allowed_with_flag;
     read_and_validate_config_wildcard_bind_rejected_without_flag;
     read_and_validate_config_mtime_change_detected] = true.
Proof. vm_compute. reflexivity. Qed.

(** ** [cli.rs]: [load_config] *)

Definition manual_listener_doc : TomlValue :=
  ports_doc "127.0.0.1"
    (TTable [("mode", TString "manual"); ("cert_path", TString "/tmp/dir/cert.pem");
             ("key_path", TString "/tmp/dir/key.pem")])
    [site_doc "test.local" "127.0.0.1:8080" []].

Definition acme_doc : TomlValue :=
  TTable [("mode", TString "acme"); ("acme_domains", TArray [TString "test.local"]);
          ("acme_cache_dir", TString "/tmp/acme"); ("acme_contact", TString "mailto:admin@test.local")].

Definition wildcard_cli_doc (option : list (string * TomlValue)) : list (string * TomlValue) :=
  option ++ limits_doc 10 20 ++
  [("listeners", TArray [TTable [("bind_addr", TString "0.0.0.0"); ("http_port", TInteger 80);
                                 ("https_port", TInteger 443); ("tls", acme_doc)]])].

Definition cli_texts : Toml :=
  toml_with
    [("valid", limits_doc 10 20 ++ [("listeners", TArray [manual_listener_doc])]);
     ("wildcard off", wildcard_cli_doc [("allow_wildcard_bind", TBoolean false)]);
     ("wildcard unset", wildcard_cli_doc []);
     ("wildcard on", wildcard_cli_doc [("allow_wildcard_bind", TBoolean true)]);
     ("zero", [("rate_limit", TTable [("requests_per_second", TInteger 0); ("burst", TInteger 20)]);
               ("body", TTable [("limit_bytes", TInteger 0)])])].

(** [load_config] of a file with the given text, with or without the flag. *)
Definition load_text `{FileSystem} (content : string) (flag : bool) : result LoadedConfig string :=
  let t := cli_texts in
  load_config (λ _, Ok content) None (mkCli "/tmp/dir/config.toml" false flag).

Definition fails_with (r : result LoadedConfig string) (msg : string) : bool :=
  match r with Ok _ => false | Err e => contains msg e end.

Definition load_config_missing_file : bool :=
  fails_with (load_config (λ _, Err "No such file") None (mkCli "/nonexistent/config.toml" false false))
    "failed to read config file".

Definition load_config_invalid_toml : bool :=
  fails_with (load_text "not valid toml {{{{" false) "failed to parse config file".

Definition load_config_valid_file : bool :=
  let files := fs_with ["/tmp/dir/cert.pem"; "/tmp/dir/key.pem"] in
  match load_text "valid" false with
  | Ok loaded =>
      negb (lc_allow_wildcard_bind loaded) && (length (listeners (lc_static_config loaded)) =? 1)%nat &&
      (length (sites (lc_dynamic_config loaded)) =? 1)%nat
  | Err _ => false
  end.

Definition load_config_wildcard_bind_or_logic : bool :=
  match load_text "wildcard off" true with Ok loaded => lc_allow_wildcard_bind loaded | Err _ => false end.

Definition load_config_wildcard_bind_rejected_without_flag : bool :=
  fails_with (load_text "wildcard unset" false) "config validation failed".

Definition load_config_validation_fails_reports_errors : bool :=
  fails_with (load_text "zero" false) "config validation failed".

Definition load_config_allow_wildcard_from_config_only : bool :=
  match load_text "wildcard on" false with Ok loaded => lc_allow_wildcard_bind loaded | Err _ => false end.

Lemma cli_tests_pass :
  forallb id
    [load_config_missing_file; load_config_invalid_toml; load_config_valid_file;
     load_config_wildcard_bind_or_logic; load_config_wildcard_bind_rejected_without_flag;
     load_config_validation_fails_reports_errors; load_config_allow_wildcard_from_config_only] = true.
Proof. vm_compute. reflexivity. Qed.

(** ** [utils.rs] and [fd_budget.rs] *)

(** The six tests of [strip_port_from_host]. *)
Definition strip_port_tests : bool :=
  (strip_port_from_host "example.com" =? "example.com") &&
  (strip_port_from_host "example.com:8080" =? "example.com") &&
  (strip_port_from_host "[::1]" =? "[::1]") && (strip_port_from_host "[::1]:8080" =? "[::1]") &&
  (strip_port_from_host "[2001:db8::1]:8080" =? "[2001:db8::1]") &&
  (strip_port_from_host "192.168.1.1:8080" =? "192.168.1.1").

Definition fd_budget_fits_when_max_connections_plus_reserved_within_limit : bool :=
  is_ok (check_fd_budget 800 8192) && is_ok (check_fd_budget 960 1024).

Definition fd_budget_rejects_when_max_connections_plus_reserved_exceeds_limit : bool :=
  negb (is_ok (check_fd_budget 1024 1024)) && negb (is_ok (check_fd_budget 1023 1024)) &&
  negb (is_ok (check_fd_budget 8129 8192)).

Definition fd_budget_boundary_exactly_at_limit_passes : bool :=
  is_ok (check_fd_budget 960 1024) && negb (is_ok (check_fd_budget 961 1024)).

(** [usize::MAX / 2], for the soft limit of the environment. *)
Definition validate_nofile_rejects_absurd_max_connections_on_finite_limits (soft : Z) : bool :=
  match soft_nofile_limit (Some soft) with
  | None => true
  | Some _ => match validate_nofile (Some soft) (usize_max / 2) with
              | [MaxConnectionsExceedsNofile _ _ _] => true
              | _ => false
              end
  end.

Definition validate_nofile_accepts_sane_max_connections_in_this_environment (soft : Z) : bool :=
  match soft_nofile_limit (Some soft) with
  | None => true
  | Some soft => bool_decide (validate_nofile (Some soft) (saturating_sub soft RESERVED_FDS) = [])
  end.

Lemma utils_tests_pass :
  forallb id
    [strip_port_tests; fd_budget_fits_when_max_connections_plus_reserved_within_limit;
     fd_budget_rejects_when_max_connections_plus_reserved_exceeds_limit;
     fd_budget_boundary_exactly_at_limit_passes;
     forallb validate_nofile_rejects_absurd_max_connections_on_finite_limits [1024; 65536; RLIM_INFINITY]%Z;
     forallb validate_nofile_accepts_sane_max_connections_in_this_environment [1024; 65536; RLIM_INFINITY]%Z]
  = true.
Proof. vm_compute. reflexivity. Qed.

(** The second environment test fails where the soft limit is below the reserve: no number
    of connections fits then. *)
Lemma sane_test_needs_reserve :
  validate_nofile_accepts_sane_max_connections_in_this_environment 63 = false.
Proof. vm_compute. reflexivity. Qed.
