(* ===== verification/RateLimit.v ===== *)
(** * Rate limiting

    The token buckets of [rate_limit/bucket.rs] and the per-client limiter of
    [rate_limit/mod.rs].  [Instant] is a number of nanoseconds of the monotonic
    clock.  Every [Instant::now()] of the source is an argument: an operation
    that reads the clock several times takes the readings in program order.
    Token counts are binary64 values ([F64]). *)

From S2P Require Import Prelude F64 Net Config.
Local Open Scope Z_scope.

Definition Instant : Type := Z.
(** Nanoseconds. *)
Definition Duration : Type := Z.

(** [Instant::duration_since] saturates at zero. *)
Definition duration_since (later earlier : Instant) : Duration :=
  saturating_sub later earlier.

(** ** Token buckets ([bucket.rs]) *)

Record TokenBucket := mkBucket {
  tokens : f64;
  last_refill : Instant;
  b_rate : f64;
  b_max : Z;
  last_access : Instant;
}.

#[export] Instance TokenBucket_eq_dec : EqDecision TokenBucket.
Proof. solve_decision. Defined.

Definition TokenBucket_new (rate : f64) (max : Z) (now0 now1 : Instant) : TokenBucket :=
  mkBucket (f64_of_int max) now0 rate max now1.

(** The tokens [refill] adds after [elapsed] nanoseconds. *)
Definition tokens_to_add (rate : f64) (elapsed : Duration) : f64 :=
  f64_mul (f64_div (f64_of_int elapsed) (f64_of_int 1000000000)) rate.

Definition refill (b : TokenBucket) (rate : f64) (max : Z) (now : Instant) : TokenBucket :=
  let elapsed := duration_since now (last_refill b) in
  let t := f64_min (f64_add (tokens b) (tokens_to_add rate elapsed)) (f64_of_int max) in
  let t := if max <? b_max b then f64_min t (f64_of_int max) else t in
  mkBucket t now rate max (last_access b).

Definition set_last_access (b : TokenBucket) (now : Instant) : TokenBucket :=
  mkBucket (tokens b) (last_refill b) (b_rate b) (b_max b) now.

Definition set_tokens (b : TokenBucket) (t : f64) : TokenBucket :=
  mkBucket t (last_refill b) (b_rate b) (b_max b) (last_access b).

Definition try_consume (b : TokenBucket) (rate : f64) (max : Z) (now0 now1 : Instant)
    : TokenBucket * bool :=
  let b := refill b rate max now0 in
  let b := set_last_access b now1 in
  if f64_ge (tokens b) (f64_of_int 1)
  then (set_tokens b (f64_sub (tokens b) (f64_of_int 1)), true)
  else (b, false).

(** IPv6 clients share a bucket per /64. *)
Definition normalize_ip (ip : IpAddr) : IpAddr :=
  match ip with
  | V4 _ _ _ _ => ip
  | V6 s0 s1 s2 s3 _ _ _ _ => V6 s0 s1 s2 s3 0 0 0 0
  end.

(** ** The limiter ([mod.rs])

    The limiter's state is its map of buckets.  The configuration it shares with
    the reload handle is the value [config.load()] returns. *)

Record RateLimiter := mkLimiter { buckets : gmap IpAddr TokenBucket }.

Definition RateLimiter_new : RateLimiter := mkLimiter ∅.

(** The readings of the monotonic clock one call makes, in program order. *)
Record Readings := mkReadings { now0 : Instant; now1 : Instant; now2 : Instant; now3 : Instant }.

Definition check_and_consume (config : DynamicConfig) (l : RateLimiter) (ip : IpAddr)
    (c : Readings) : RateLimiter * bool :=
  let normalized := normalize_ip ip in
  let rate := f64_of_int (requests_per_second (rate_limit config)) in
  let burst := burst (rate_limit config) in
  match buckets l !! normalized with
  | Some occupied =>
      let '(b, admitted) := try_consume occupied rate burst (now0 c) (now1 c) in
      (mkLimiter (<[normalized := b]> (buckets l)), admitted)
  | None =>
      let bucket := TokenBucket_new rate burst (now0 c) (now1 c) in
      let '(b, admitted) := try_consume bucket rate burst (now2 c) (now3 c) in
      (mkLimiter (<[normalized := b]> (buckets l)), admitted)
  end.

(** [retain] keeps the buckets accessed strictly after the cutoff.  The
    subtraction cannot panic: an [Instant] has signed 64-bit seconds. *)
Definition evict_stale (l : RateLimiter) (max_age : Duration) (now : Instant) : RateLimiter :=
  let cutoff := now - max_age in
  mkLimiter (filter (λ kb, cutoff < last_access kb.2) (buckets l)).

Definition contains_ip (l : RateLimiter) (ip : IpAddr) : bool :=
  bool_decide (is_Some (buckets l !! normalize_ip ip)).

(** One atomic operation on the limiter: a request from [ip], with the configuration
    its call loaded, or a tick of the eviction task.  [DashMap::entry] locks the
    bucket's shard for the whole of the call, so the operations on one bucket are
    totally ordered. *)
Inductive LimiterOp :=
| OpCheck (config : DynamicConfig) (ip : IpAddr) (c : Readings)
| OpEvict (max_age : Duration) (now : Instant).

(** The verdict of a request is reported with the client's address. *)
Definition limiter_step (l : RateLimiter) (op : LimiterOp)
    : RateLimiter * list (IpAddr * bool) :=
  match op with
  | OpCheck config ip c =>
      let '(l, admitted) := check_and_consume config l ip c in (l, [(ip, admitted)])
  | OpEvict max_age now => (evict_stale l max_age now, [])
  end.

Fixpoint limiter_run (l : RateLimiter) (ops : list LimiterOp)
    : RateLimiter * list (IpAddr * bool) :=
  match ops with
  | [] => (l, [])
  | op :: ops =>
      let '(l, out) := limiter_step l op in
      let '(l, outs) := limiter_run l ops in (l, out ++ outs)
  end.

(** The select loop of [start_eviction_task]: ticks of the interval timer until
    the shutdown channel changes; [None] when the events run out first. *)
Inductive EvictionEvent := EvTick (now : Instant) | EvShutdownChanged.

Fixpoint start_eviction_task (l : RateLimiter) (max_age : Duration)
    (events : list EvictionEvent) : RateLimiter * bool :=
  match events with
  | [] => (l, false)
  | EvTick now :: events => start_eviction_task (evict_stale l max_age now) max_age events
  | EvShutdownChanged :: _ => (l, true)
  end.

(** The age [main.rs] gives the task: 300 seconds. *)
Definition eviction_max_age : Duration := 300 * 10 ^ 9.

(** ** Bucket invariant *)

Record wf_bucket (b : TokenBucket) : Prop := {
  wf_max : in_range u32_max (b_max b);
  wf_rep : representable (tokens b);
  wf_tokens : 0 ≤ tokens b ≤ b_max b * one_unit;
}.

Definition wf_limiter (l : RateLimiter) : Prop :=
  map_Forall (λ _, wf_bucket) (buckets l).

Lemma u32_exact x : in_range u32_max x → f64_of_int x = x * one_unit.
Proof. intros. apply f64_of_int_exact. unfold in_range, u32_max in *. lia. Qed.

Lemma f64_one : f64_of_int 1 = one_unit.
Proof. by rewrite u32_exact by (unfold in_range, u32_max; lia). Qed.

Lemma u32_representable x : in_range u32_max x → representable (x * one_unit).
Proof. intros. apply representable_int. unfold in_range, u32_max in *. lia. Qed.

Section Bucket.
Context (rate max : Z) (Hrate : in_range u32_max rate) (Hmax : in_range u32_max max).
Implicit Types (b : TokenBucket) (now : Instant).

Lemma tokens_to_add_nonneg e : 0 ≤ e → 0 ≤ tokens_to_add (f64_of_int rate) e.
Proof.
  intros. unfold tokens_to_add. apply f64_mul_nonneg.
  - apply f64_div_nonneg; [by apply f64_of_int_nonneg|].
    rewrite f64_of_int_exact by lia. done.
  - apply f64_of_int_nonneg, Hrate.
Qed.

Lemma duration_nonneg now t : 0 ≤ duration_since now t.
Proof. unfold duration_since, saturating_sub. lia. Qed.

Lemma wf_new now0 now1 : wf_bucket (TokenBucket_new (f64_of_int rate) max now0 now1).
Proof.
  pose proof one_unit_pos. split; simpl; [done| |]; rewrite u32_exact by done.
  - by apply u32_representable.
  - unfold in_range in *. nia.
Qed.

(** The new level: the sum, capped; the second cap of the source is implied. *)
Lemma refill_tokens b now :
  tokens (refill b (f64_of_int rate) max now)
  = Z.min (f64_add (tokens b)
             (tokens_to_add (f64_of_int rate) (duration_since now (last_refill b))))
          (max * one_unit).
Proof.
  unfold refill, f64_min. simpl. rewrite (u32_exact max) by done.
  destruct (max <? b_max b); [|done]. lia.
Qed.

Lemma wf_refill b now : wf_bucket b → wf_bucket (refill b (f64_of_int rate) max now).
Proof.
  intros [Hm Hr Ht]. pose proof one_unit_pos.
  pose proof (tokens_to_add_nonneg _ (duration_nonneg now (last_refill b))).
  split; [done| |]; rewrite refill_tokens.
  - apply representable_min; [apply f64_add_representable; lia|].
    by apply u32_representable.
  - change (b_max _) with max. unfold in_range in *.
    pose proof (f64_add_nonneg (tokens b) _ (proj1 Ht) H0). nia.
Qed.

(** Consuming a token is exact. *)
Lemma try_consume_spec b now0 now1 :
  wf_bucket b →
  let b' := refill b (f64_of_int rate) max now0 in
  let admitted := one_unit <=? tokens b' in
  try_consume b (f64_of_int rate) max now0 now1
  = (mkBucket (if admitted then tokens b' - one_unit else tokens b') now0
       (f64_of_int rate) max now1, admitted).
Proof.
  intros Hb b' admitted. destruct (wf_refill b now0 Hb) as [Hm Hr Ht]. fold b' in Hm, Hr, Ht.
  unfold try_consume, admitted. fold b'. rewrite f64_one. unfold f64_ge.
  change (tokens (set_last_access b' now1)) with (tokens b').
  destruct (Z.leb_spec one_unit (tokens b')) as [Hge|Hlt]; [|done].
  rewrite f64_sub_one; [done..|].
  unfold in_range, u32_max in *. pose proof one_unit_pos. nia.
Qed.

Lemma wf_try_consume b now0 now1 :
  wf_bucket b → wf_bucket (try_consume b (f64_of_int rate) max now0 now1).1.
Proof.
  intros Hb. rewrite try_consume_spec by done. destruct (wf_refill b now0 Hb) as [Hm Hr Ht].
  change (b_max (refill b (f64_of_int rate) max now0)) with max in *.
  generalize dependent (tokens (refill b (f64_of_int rate) max now0)).
  intros t Hr Ht. pose proof one_unit_pos.
  destruct (Z.leb_spec one_unit t); split; simpl; [done| |lia|done..].
  apply representable_sub_one; [done..|]. unfold in_range, u32_max in *. nia.
Qed.

(** No time passed: no tokens added. *)
Lemma tokens_to_add_0 : tokens_to_add (f64_of_int rate) 0 = 0.
Proof.
  unfold tokens_to_add. rewrite (f64_of_int_exact 0), (f64_of_int_exact 1000000000) by lia.
  unfold f64_div, f64_mul. done.
Qed.

Lemma refill_same_instant b now :
  wf_bucket b → b_max b = max → now ≤ last_refill b →
  tokens (refill b (f64_of_int rate) max now) = tokens b.
Proof.
  intros [Hm Hr Ht] Hbm Hnow. rewrite refill_tokens.
  unfold duration_since, saturating_sub. rewrite Z.max_l by lia.
  rewrite tokens_to_add_0, f64_add_0_r by done. lia.
Qed.
End Bucket.
