(* ===== verification/RateLimitProps.v ===== *)
(** * Properties of the rate limiter

    The limiter is a product of independent per-client buckets; in every window
    of time a client is admitted at most [burst + rate * T] times, up to the
    rounding of binary64 arithmetic; a client that stays silent regains
    [rate] tokens per second; evicting idle buckets does not weaken the limit. *)

From S2P Require Import Prelude F64 Net Config RateLimit Fixtures.
Local Open Scope Z_scope.

(** ** Rounding of the refill *)

Section Credit.
Context (rate max : Z) (Hrate : in_range u32_max rate) (Hmax : in_range u32_max max).

(** The tokens added for [e] nanoseconds exceed the exact amount by a relative
    error below [2^-50] and a negligible absolute one. *)
Lemma tokens_to_add_upper e :
  0 ≤ e →
  2 ^ 53 * (10 ^ 9 * tokens_to_add (f64_of_int rate) e)
  ≤ (2 ^ 53 + 8) * (rate * e * one_unit) + 10 ^ 9 * one_unit.
Proof.
  intros He. unfold tokens_to_add. rewrite (u32_exact rate Hrate).
  rewrite (f64_of_int_exact 1000000000) by lia.
  assert (2 ^ 200 ≤ one_unit) as HU by done. unfold in_range, u32_max in *.
  unfold f64_of_int, f64_div, f64_mul. revert HU. generalize one_unit as U. intros U HU.
  rewrite (round_nonneg (e * U)) by nia.
  pose proof (round_pos_nonneg (e * U) 1 ltac:(lia) ltac:(nia)) as HE0.
  pose proof (round_pos_error_int (e * U) ltac:(nia)) as HE.
  set (E := round_pos (e * U) 1) in *. clearbody E.
  rewrite (round_nonneg (E * U)) by nia.
  pose proof (round_pos_nonneg (E * U) (1000000000 * U) ltac:(nia) ltac:(nia)) as HQ0.
  pose proof (round_pos_error (E * U) (1000000000 * U) ltac:(nia) ltac:(nia)) as HQ.
  set (Q := round_pos (E * U) (1000000000 * U)) in *. clearbody Q.
  rewrite (round_nonneg (Q * (rate * U))) by nia.
  pose proof (round_pos_error (Q * (rate * U)) U ltac:(lia) ltac:(nia)) as HP.
  set (P := round_pos (Q * (rate * U)) U) in *. clearbody P.
  assert (2 ^ 53 * E ≤ (2 ^ 53 + 1) * (e * U)) as HE1 by lia.
  assert (2 ^ 53 * (Q * 1000000000) ≤ (2 ^ 53 + 1) * E + 2 ^ 52 * 1000000000) as HQ1.
  { apply (Z.mul_le_mono_pos_r _ _ U); lia. }
  assert (2 ^ 53 * P ≤ (2 ^ 53 + 1) * (Q * rate) + 2 ^ 52) as HP1.
  { apply (Z.mul_le_mono_pos_r _ _ U); lia. }
  apply (Z.mul_le_mono_nonneg_l _ _ rate) in HE1; [|lia].
  apply (Z.mul_le_mono_nonneg_l _ _ rate) in HQ1; [|lia]. lia.
Qed.

Lemma refill_credit b now :
  wf_bucket b → last_refill b ≤ now →
  2 ^ 53 * (10 ^ 9 * (tokens (refill b (f64_of_int rate) max now) - tokens b))
  ≤ ((2 ^ 53 + 8) * (rate * (now - last_refill b)) + 10 ^ 9 * (max + 1)) * one_unit.
Proof.
  intros [_ _ Ht] Hnow. rewrite refill_tokens by done. pose proof one_unit_pos as HU.
  unfold duration_since, saturating_sub. rewrite Z.max_r by lia.
  set (e := now - last_refill b). pose proof (tokens_to_add_upper e ltac:(lia)) as Hp.
  pose proof (tokens_to_add_nonneg rate Hrate e ltac:(lia)) as Hp0.
  set (p := tokens_to_add (f64_of_int rate) e) in *. clearbody p e.
  unfold f64_add. rewrite round_nonneg by lia.
  pose proof (round_pos_error_int (tokens b + p) ltac:(lia)) as Hs.
  set (s := round_pos (tokens b + p) 1) in *. clearbody s.
  assert (2 ^ 53 * (Z.min s (max * one_unit) - tokens b) ≤ 2 ^ 53 * p + max * one_unit) by lia.
  lia.
Qed.

Lemma refill_upper b now : tokens (refill b (f64_of_int rate) max now) ≤ max * one_unit.
Proof. rewrite refill_tokens by done. lia. Qed.

(** [k] seconds of silence add at least [k * rate] tokens, up to the cap. *)
Lemma refill_lower b now k :
  wf_bucket b → 0 ≤ k → k * 10 ^ 9 ≤ 2 ^ 53 → k * rate ≤ 2 ^ 53 →
  k * 10 ^ 9 ≤ now - last_refill b →
  Z.min max (k * rate) * one_unit ≤ tokens (refill b (f64_of_int rate) max now).
Proof.
  intros [_ _ Ht] Hk0 Hk Hkr Hnow. rewrite refill_tokens by done. pose proof one_unit_pos as HU.
  unfold duration_since, saturating_sub. rewrite Z.max_r by lia.
  set (e := now - last_refill b) in *. clearbody e.
  cut (k * rate * one_unit ≤ f64_add (tokens b) (tokens_to_add (f64_of_int rate) e)).
  { intros. apply Z.min_glb; nia. }
  unfold in_range in *.
  assert (∀ v n d, 0 < d → 0 ≤ v ≤ 2 ^ 53 → v * one_unit * d ≤ n → v * one_unit ≤ round n d) as Hr.
  { intros v n d Hd Hv Hn. rewrite round_nonneg by nia.
    rewrite <- (round_pos_exact (v * one_unit)) by (by apply representable_int).
    apply round_pos_mono; nia. }
  assert (k * rate * one_unit ≤ tokens_to_add (f64_of_int rate) e) as Hadd.
  { unfold tokens_to_add. rewrite (u32_exact rate) by done.
    rewrite (f64_of_int_exact 1000000000) by lia. unfold f64_of_int, f64_div, f64_mul.
    assert (k * 10 ^ 9 * one_unit ≤ round (e * one_unit) 1) as HE by (apply Hr; nia).
    set (E := round _ 1) in *. clearbody E.
    assert (k * one_unit ≤ round (E * one_unit) (1000000000 * one_unit)) as HQ by (apply Hr; nia).
    set (Q := round _ _) in *. clearbody Q.
    apply (Z.mul_le_mono_nonneg_r _ _ (rate * one_unit)) in HQ; [|nia].
    apply Hr; [lia|nia|lia]. }
  unfold f64_add. apply Hr; nia.
Qed.
End Credit.

(** ** One client

    What the limiter does with the bucket of the key [k]. *)

Definition bucket_check (config : DynamicConfig) (st : option TokenBucket) (c : Readings)
    : TokenBucket * bool :=
  let rate := f64_of_int (requests_per_second (rate_limit config)) in
  let burst := burst (rate_limit config) in
  match st with
  | Some b => try_consume b rate burst (now0 c) (now1 c)
  | None => try_consume (TokenBucket_new rate burst (now0 c) (now1 c)) rate burst (now2 c) (now3 c)
  end.

Definition client_step (k : IpAddr) (st : option TokenBucket)
    (op : LimiterOp) : option TokenBucket * list bool :=
  match op with
  | OpCheck config ip c =>
      if decide (normalize_ip ip = k)
      then let '(b, admitted) := bucket_check config st c in (Some b, [admitted])
      else (st, [])
  | OpEvict max_age now =>
      (match st with
       | Some b => if decide (now - max_age < last_access b) then Some b else None
       | None => None
       end, [])
  end.

Fixpoint client_run (k : IpAddr) (st : option TokenBucket)
    (ops : list LimiterOp) : option TokenBucket * list bool :=
  match ops with
  | [] => (st, [])
  | op :: ops =>
      let '(st, out) := client_step k st op in
      let '(st, outs) := client_run k st ops in (st, out ++ outs)
  end.

(** The verdicts given to the clients that share the key [k]. *)
Definition verdicts_for (k : IpAddr) (out : list (IpAddr * bool)) : list bool :=
  (filter (λ v, normalize_ip v.1 = k) out).*2.

(** The operations that can touch the bucket of [k]. *)
Definition concerns (k : IpAddr) (op : LimiterOp) : Prop :=
  match op with OpCheck _ ip _ => normalize_ip ip = k | OpEvict _ _ => True end.

#[export] Instance concerns_dec k op : Decision (concerns k op).
Proof. destruct op; simpl; apply _. Defined.

Lemma check_and_consume_bucket config l ip c :
  check_and_consume config l ip c
  = let '(b, admitted) := bucket_check config (buckets l !! normalize_ip ip) c in
    (mkLimiter (<[normalize_ip ip := b]> (buckets l)), admitted).
Proof. unfold check_and_consume, bucket_check. by destruct (buckets l !! _). Qed.

Lemma limiter_step_client l op k :
  buckets (limiter_step l op).1 !! k = (client_step k (buckets l !! k) op).1
  ∧ verdicts_for k (limiter_step l op).2 = (client_step k (buckets l !! k) op).2.
Proof.
  destruct op as [config ip c|max_age now]; simpl.
  - rewrite check_and_consume_bucket. unfold verdicts_for.
    destruct (bucket_check _ _ _) as [b admitted] eqn:E. simpl.
    destruct (decide (normalize_ip ip = k)) as [<-|Hne]; simpl.
    + rewrite filter_cons, decide_True, E, lookup_insert_eq by done. done.
    + rewrite filter_cons, decide_False, lookup_insert_ne by done. done.
  - split; [|done]. unfold evict_stale. simpl. rewrite map_lookup_filter.
    destruct (buckets l !! k) as [b|]; simpl; [|done].
    rewrite option_guard_decide. by destruct (decide _).
Qed.

Lemma verdicts_for_app k out1 out2 :
  verdicts_for k (out1 ++ out2) = verdicts_for k out1 ++ verdicts_for k out2.
Proof. unfold verdicts_for. by rewrite filter_app, fmap_app. Qed.

Lemma limiter_run_client l ops k :
  buckets (limiter_run l ops).1 !! k = (client_run k (buckets l !! k) ops).1
  ∧ verdicts_for k (limiter_run l ops).2 = (client_run k (buckets l !! k) ops).2.
Proof.
  revert l. induction ops as [|op ops IH]; intros l; simpl; [done|].
  destruct (limiter_step_client l op k) as [Hb Hv].
  destruct (limiter_step l op) as [l1 out], (client_step _ _ _) as [st1 out1].
  simpl in *. subst. destruct (IH l1) as [Hb' Hv'].
  destruct (limiter_run l1 ops) as [l2 outs], (client_run _ _ _) as [st2 outs2].
  simpl in *. subst. split; [done|apply verdicts_for_app].
Qed.

Lemma limiter_run_app l ops1 ops2 :
  limiter_run l (ops1 ++ ops2)
  = let '(l, out1) := limiter_run l ops1 in
    let '(l, out2) := limiter_run l ops2 in (l, out1 ++ out2).
Proof.
  revert l. induction ops1 as [|op ops1 IH]; intros l; simpl; [by destruct (limiter_run l ops2)|].
  destruct (limiter_step l op) as [l1 out]. rewrite IH.
  destruct (limiter_run l1 ops1) as [l2 out1], (limiter_run l2 ops2). by rewrite (assoc_L (++)).
Qed.

Lemma client_run_concerns k st ops :
  client_run k st (filter (concerns k) ops) = client_run k st ops.
Proof.
  revert st. induction ops as [|op ops IH]; intros st; [done|]. rewrite filter_cons.
  destruct (decide (concerns k op)) as [Hc|Hc]; simpl.
  - destruct (client_step k st op) as [st1 out]. by rewrite IH.
  - destruct op as [config ip c|]; simpl in *; [|done]. rewrite decide_False by done. rewrite IH.
    by destruct (client_run k st ops).
Qed.

(** ** The limit over a window *)

Definition count_true (vs : list bool) : Z := Z.of_nat (length (filter Is_true vs)).

Lemma count_true_cons v vs : count_true (v :: vs) = (if v then 1 else 0) + count_true vs.
Proof. unfold count_true. rewrite filter_cons. destruct v; simpl; lia. Qed.

Lemma count_true_app vs1 vs2 : count_true (vs1 ++ vs2) = count_true vs1 + count_true vs2.
Proof. unfold count_true. rewrite filter_app, length_app. lia. Qed.

(** The clock readings of the operations on the bucket of [k] are ordered and lie
    in [lo, hi].  An eviction reads the clock before it reaches the bucket, so its
    reading is only known to precede those of later requests. *)
Fixpoint timed (k : IpAddr) (lo hi : Instant) (ops : list LimiterOp) : Prop :=
  match ops with
  | [] => lo ≤ hi
  | OpCheck _ ip c :: ops =>
      if decide (normalize_ip ip = k)
      then lo ≤ now0 c ∧ now0 c ≤ now1 c ∧ now1 c ≤ now2 c ∧ now2 c ≤ now3 c ∧
           timed k (now3 c) hi ops
      else timed k lo hi ops
  | OpEvict _ now :: ops => timed k (Z.max lo now) hi ops
  end.

(** The configuration a call loads is one the file format can express. *)
Definition op_typed (op : LimiterOp) : Prop :=
  match op with OpCheck config _ _ => wf_rate_limit (rate_limit config) | OpEvict _ _ => True end.

(** Every configuration loaded stays within [rate] and [max], and an idle bucket is
    evicted no earlier than it would have been full at that rate. *)
Definition op_within (rate max : Z) (op : LimiterOp) : Prop :=
  match op with
  | OpCheck config _ _ =>
      requests_per_second (rate_limit config) ≤ rate ∧ burst (rate_limit config) ≤ max
  | OpEvict max_age _ => max * 10 ^ 9 ≤ rate * max_age
  end.

Lemma timed_bounds k lo hi ops : timed k lo hi ops → lo ≤ hi.
Proof.
  revert lo. induction ops as [|[config ip c|m now] ops IH]; intros lo; simpl; [done| |].
  - destruct (decide _); [|auto]. intros (? & ? & ? & ? & ?%IH). lia.
  - intros ?%IH. lia.
Qed.

Section Window.
Context (rate max : Z) (Hrate : 0 ≤ rate) (Hmax : 0 ≤ max) (k : IpAddr) (hi : Instant).
Implicit Types (st : option TokenBucket) (b : TokenBucket).

(** [x] bounds the tokens the client has, as of the instant [tau]. *)
Inductive tracks : option TokenBucket → Z → Instant → Instant → Prop :=
| tracks_full st tau t :
    (∀ b, st = Some b → wf_bucket b) → tau ≤ t → tracks st (max * one_unit) tau t
| tracks_bucket b tau t :
    wf_bucket b → last_refill b = tau → tau ≤ last_access b →
    last_access b ≤ t → tracks (Some b) (tokens b) tau t
| tracks_evicted x tau t :
    0 ≤ x → tau ≤ t → max * 10 ^ 9 ≤ rate * (t - tau) → tracks None x tau t.

(** The credit of a span of time, with the rounding of one refill. *)
Definition credit (span : Z) : Z := (2 ^ 53 + 8) * (rate * span) + 10 ^ 9 * (max + 1).

Lemma credit_mono r m span :
  r ≤ rate → m ≤ max → 0 ≤ span → (2 ^ 53 + 8) * (r * span) + 10 ^ 9 * (m + 1) ≤ credit span.
Proof. unfold credit. nia. Qed.

(** A request under a configuration within the bounds: what the refill gains over [x]. *)
Lemma tracks_refill config st x tau t c :
  wf_rate_limit (rate_limit config) → requests_per_second (rate_limit config) ≤ rate →
  burst (rate_limit config) ≤ max → tracks st x tau t →
  t ≤ now0 c → now0 c ≤ now1 c → now1 c ≤ now2 c → now2 c ≤ now3 c →
  let r := f64_of_int (requests_per_second (rate_limit config)) in
  let m := burst (rate_limit config) in
  ∃ b0 s s', wf_bucket b0 ∧ tau ≤ s ∧ s ≤ s' ∧ s' ≤ now3 c ∧
    bucket_check config st c = try_consume b0 r m s s' ∧
    2 ^ 53 * (10 ^ 9 * (tokens (refill b0 r m s) - x)) ≤ credit (s - tau) * one_unit.
Proof.
  intros [Hr Hm] Hrle Hmle Htr H0 H1 H2 H3 r m. pose proof one_unit_pos as HU.
  assert (∀ b0 s, tokens (refill b0 r m s) ≤ max * one_unit) as Hup.
  { intros b0 s. pose proof (refill_upper (requests_per_second (rate_limit config)) _ Hm b0 s) as Hu.
    fold r m in Hu. change (burst (rate_limit config)) with m in Hmle. nia. }
  assert (∀ b0 s, tau ≤ s → 2 ^ 53 * (10 ^ 9 * (tokens (refill b0 r m s) - max * one_unit))
    ≤ credit (s - tau) * one_unit) as Hfull.
  { intros b0 s ?. specialize (Hup b0 s). unfold credit.
    transitivity 0; [lia|]. apply Z.mul_nonneg_nonneg; nia. }
  unfold bucket_check. fold r m.
  destruct Htr as [[b|] tau t Hwf Htau|b tau t Hwf <- Hla Ht|x tau t Hx Htau Hev].
  - exists b, (now0 c), (now1 c). split; [by apply Hwf|]. repeat split; [lia..|]. apply Hfull. lia.
  - eexists _, (now2 c), (now3 c). split; [by apply wf_new|]. repeat split; [lia..|]. apply Hfull. lia.
  - exists b, (now0 c), (now1 c). split; [done|]. repeat split; [lia..|].
    etransitivity; [by apply refill_credit; [..|lia]|]. apply Z.mul_le_mono_nonneg_r; [lia|].
    apply credit_mono; lia.
  - eexists _, (now2 c), (now3 c). split; [by apply wf_new|]. repeat split; [lia..|].
    set (b0 := TokenBucket_new _ _ _ _). specialize (Hup b0 (now2 c)). unfold credit.
    assert (rate * (t - tau) ≤ rate * (now2 c - tau)) by nia.
    assert (0 ≤ rate * (t - tau)) by nia. nia.
Qed.

(** The level moves by the credit and by the token consumed. *)
Lemma tracks_check config st x tau t c :
  wf_rate_limit (rate_limit config) → requests_per_second (rate_limit config) ≤ rate →
  burst (rate_limit config) ≤ max → tracks st x tau t →
  t ≤ now0 c → now0 c ≤ now1 c → now1 c ≤ now2 c → now2 c ≤ now3 c →
  ∃ b tau', (bucket_check config st c) = (b, (bucket_check config st c).2) ∧
    tracks (Some b) (tokens b) tau' (now3 c) ∧ tau ≤ tau' ∧
    2 ^ 53 * (10 ^ 9 * ((if (bucket_check config st c).2 then 1 else 0) * one_unit
                        + tokens b - x))
    ≤ credit (tau' - tau) * one_unit.
Proof.
  intros Hrl Hrle Hmle Htr H0 H1 H2 H3. pose proof one_unit_pos as HU.
  destruct (tracks_refill config st x tau t c Hrl Hrle Hmle Htr H0 H1 H2 H3)
    as (b0 & s & s' & Hb0 & Hs & Hs' & Hs3 & -> & Hcr). destruct Hrl as [Hr Hm].
  pose proof (wf_try_consume _ _ Hr Hm b0 s s' Hb0) as Hwf.
  rewrite try_consume_spec in * by done. cbn [fst snd] in *.
  eexists _, s. split; [done|]. split; [by constructor|]. split; [done|].
  cbn [tokens]. destruct (_ <=? _); lia.
Qed.

Lemma tracks_evict st x tau t max_age now :
  tracks st x tau t → max * 10 ^ 9 ≤ rate * max_age →
  tracks (client_step k st (OpEvict max_age now)).1 x tau (Z.max t now).
Proof.
  intros Htr Hage.
  destruct Htr as [st tau t Hwf Htau|b tau t Hwf <- Hla Ht|x tau t Hx Htau Hev]; simpl.
  - apply tracks_full; [|lia]. destruct st as [b|]; [|done].
    destruct (decide _); naive_solver.
  - destruct (decide _); [constructor; done || lia|].
    apply tracks_evicted; [apply Hwf|lia|]. nia.
  - apply tracks_evicted; [done|lia|]. nia.
Qed.

Lemma client_run_bound st x tau t ops :
  tracks st x tau t → timed k t hi ops → Forall op_typed ops → Forall (op_within rate max) ops →
  let vs := (client_run k st ops).2 in
  2 ^ 53 * (10 ^ 9 * (count_true vs * one_unit - x))
  ≤ ((2 ^ 53 + 8) * (rate * (hi - tau)) + 10 ^ 9 * (max + 1) * Z.of_nat (length vs)) * one_unit.
Proof.
  revert st x tau t. pose proof one_unit_pos as HU.
  induction ops as [|op ops IH]; intros st x tau t Htr Htm Hty Hev.
  { simpl in *. assert (0 ≤ x ∧ tau ≤ t) as [? ?].
    { destruct Htr as [| ? ? ? []|]; nia. }
    change (count_true []) with 0. assert (0 ≤ rate * (hi - tau)) by nia. nia. }
  apply Forall_cons in Hty as [Hrl Hty], Hev as [Hop Hev].
  destruct op as [config ip c|max_age now]; simpl in Htm, Hop, Hrl.
  - simpl. destruct (decide (normalize_ip ip = k)); [|].
    + destruct Htm as (H0 & H1 & H2 & H3 & Htm), Hop as [Hr Hm].
      destruct (tracks_check config st x tau t c Hrl Hr Hm Htr H0 H1 H2 H3)
        as (b & tau' & Hbc & Htr' & Htau & Hcr).
      rewrite Hbc. set (v := (bucket_check config st c).2) in *. clearbody v.
      specialize (IH _ _ _ _ Htr' Htm Hty Hev). simpl in IH.
      destruct (client_run k (Some b) ops) as [st2 vs]. simpl in *. unfold credit in Hcr.
      rewrite count_true_cons. clear -IH Hcr. destruct v; lia.
    + specialize (IH _ _ _ _ Htr Htm Hty Hev). by destruct (client_run k st ops).
  - pose proof (tracks_evict st x tau t max_age now Htr Hop) as Htr'.
    specialize (IH _ _ _ _ Htr' Htm Hty Hev). simpl in *.
    by destruct (client_run k _ ops).
Qed.
End Window.

(** ** The limiter's invariant *)

(** The states the limiter goes through while requests arrive, the eviction task
    runs and the configuration is reloaded in between. *)
Inductive limiter_reachable : RateLimiter → Prop :=
| limiter_init : limiter_reachable RateLimiter_new
| limiter_next l op :
    op_typed op → limiter_reachable l → limiter_reachable (limiter_step l op).1.

Lemma bucket_check_wf config st c :
  wf_rate_limit (rate_limit config) → (∀ b, st = Some b → wf_bucket b) →
  wf_bucket (bucket_check config st c).1.
Proof.
  intros [Hr Hm] Hst. unfold bucket_check. destruct st as [b|].
  - apply wf_try_consume; auto.
  - apply wf_try_consume, wf_new; auto.
Qed.

Lemma client_step_wf k st op :
  op_typed op → (∀ b, st = Some b → wf_bucket b) →
  ∀ b, (client_step k st op).1 = Some b → wf_bucket b.
Proof.
  intros Hrl Hst b. destruct op as [config ip c|m now]; simpl in *.
  - destruct (decide _); [|by apply Hst]. pose proof (bucket_check_wf config st c Hrl Hst).
    destruct (bucket_check config st c). naive_solver.
  - destruct st as [b0|]; [|done]. destruct (decide _); [|done]. naive_solver.
Qed.

Lemma limiter_step_wf l op :
  op_typed op → wf_limiter l → wf_limiter (limiter_step l op).1.
Proof.
  intros Hrl Hl k b. rewrite (proj1 (limiter_step_client l op k)).
  apply client_step_wf; [done|]. intros b' Hb'. by apply (Hl k).
Qed.

Lemma limiter_reachable_wf l : limiter_reachable l → wf_limiter l.
Proof. induction 1; [apply map_Forall_empty|by apply limiter_step_wf]. Qed.

(** The largest finite double is below [2^1024]. *)
Definition f64_overflow : Z := 2 ^ 1024 * one_unit.

(** Everything [refill] computes for a [Duration] (below [2^94] nanoseconds) is a
    finite double. *)
Lemma refill_finite rate max b e :
  in_range u32_max rate → in_range u32_max max → wf_bucket b → 0 ≤ e < 2 ^ 94 →
  f64_of_int e < f64_overflow ∧
  f64_div (f64_of_int e) (f64_of_int 1000000000) < f64_overflow ∧
  tokens_to_add (f64_of_int rate) e < f64_overflow ∧
  f64_add (tokens b) (tokens_to_add (f64_of_int rate) e) < f64_overflow.
Proof.
  intros Hrate Hmax [Hbm Hrep Ht] He. unfold f64_overflow.
  assert (2 ^ 1024 * one_unit = 2 ^ 890 * (2 ^ 134 * one_unit)) as -> by done.
  pose proof (tokens_to_add_upper rate Hrate e ltac:(lia)) as Hp.
  pose proof (tokens_to_add_nonneg rate Hrate e ltac:(lia)) as Hp0.
  set (p := tokens_to_add _ e) in *. clearbody p.
  assert (2 ^ 200 ≤ one_unit) as HU by done. unfold in_range, u32_max in *.
  assert (rate * e ≤ 2 ^ 32 * 2 ^ 94) as Hre by nia.
  rewrite (f64_of_int_exact 1000000000) by lia. unfold f64_of_int, f64_div, f64_add.
  assert (2 ^ 130 ≤ 2 ^ 890) as Hbig by done. revert Hbig. generalize (2 ^ 890). intros B HB.
  revert HU Hp Ht. generalize one_unit. intros U HU Hp Ht.
  rewrite (round_nonneg (e * U)) by nia.
  pose proof (round_pos_nonneg (e * U) 1 ltac:(lia) ltac:(nia)) as HE0.
  pose proof (round_pos_error_int (e * U) ltac:(nia)) as HE.
  set (E := round_pos (e * U) 1) in *. clearbody E.
  rewrite (round_nonneg (E * U)) by nia.
  pose proof (round_pos_error (E * U) (1000000000 * U) ltac:(nia) ltac:(nia)) as HQ.
  set (Q := round_pos (E * U) (1000000000 * U)) in *. clearbody Q.
  rewrite round_nonneg by lia. pose proof (round_pos_error_int (tokens b + p) ltac:(lia)) as Hs.
  set (s := round_pos (tokens b + p) 1) in *. clearbody s.
  assert (2 ^ 53 * (Q * 1000000000) ≤ (2 ^ 53 + 1) * E + 2 ^ 52 * 1000000000) as HQ1.
  { apply (Z.mul_le_mono_pos_r _ _ U); lia. }
  assert (e * U ≤ 2 ^ 94 * U) by nia. assert (rate * e * U ≤ 2 ^ 32 * 2 ^ 94 * U) by nia.
  assert (b_max b * U ≤ 2 ^ 32 * U) by nia. assert (2 ^ 130 * (2 ^ 134 * U) ≤ B * (2 ^ 134 * U)) by nia.
  clear -HU H H0 H1 H2 HE HQ1 Hp Hs Ht Hp0 HE0. repeat split; lia.
Qed.

(** [C31] In every state the limiter can reach, whatever requests, evictions and
    configuration changes led to it, each bucket holds between 0 and its capacity
    tokens and a value binary64 represents exactly; and the refill of such a
    bucket with any [u32] rate and capacity after any elapsed [Duration] computes
    finite doubles only, so no infinity or NaN enters the state. *)
Theorem limiter_invariant l :
  limiter_reachable l →
  ∀ k b, buckets l !! k = Some b →
  wf_bucket b ∧
  ∀ r e, wf_rate_limit r → 0 ≤ e < 2 ^ 94 →
    let rate := f64_of_int (requests_per_second r) in
    f64_of_int e < f64_overflow ∧
    f64_div (f64_of_int e) (f64_of_int 1000000000) < f64_overflow ∧
    tokens_to_add rate e < f64_overflow ∧
    f64_add (tokens b) (tokens_to_add rate e) < f64_overflow.
Proof.
  intros Hl%limiter_reachable_wf k b Hb. pose proof (Hl k b Hb) as Hwf. split; [exact Hwf|].
  intros r e [Hr Hm] He. by apply (refill_finite _ (burst r)).
Qed.

Lemma limiter_window l ops k lo hi rate max :
  0 ≤ rate → 0 ≤ max → wf_limiter l → timed k lo hi ops →
  Forall op_typed ops → Forall (op_within rate max) ops →
  let vs := verdicts_for k (limiter_run l ops).2 in
  2 ^ 53 * 10 ^ 9 * count_true vs
  ≤ 2 ^ 53 * 10 ^ 9 * max + (2 ^ 53 + 8) * (rate * (hi - lo))
    + 10 ^ 9 * (max + 1) * Z.of_nat (length vs).
Proof.
  intros Hr Hm Hl Htm Hty Hev vs. unfold vs.
  rewrite (proj2 (limiter_run_client l ops k)). pose proof one_unit_pos.
  unshelve epose proof (client_run_bound rate max Hr Hm k hi (buckets l !! k) _ lo lo ops _ Htm Hty Hev) as Hb.
  2: { apply tracks_full; [|lia]. intros b Hb. by apply (Hl k). }
  simpl in Hb. apply (Z.mul_le_mono_pos_r _ _ one_unit); [done|]. lia.
Qed.

(** The window bound in whole requests. *)
Lemma window_requests n m rate max span :
  2 ^ 53 * 10 ^ 9 * n
  ≤ 2 ^ 53 * 10 ^ 9 * max + (2 ^ 53 + 8) * (rate * span) + 10 ^ 9 * (max + 1) * m →
  (max + 1) * m < 2 ^ 52 → rate * span ≤ 2 ^ 49 * 10 ^ 9 →
  n ≤ max + rate * span / 10 ^ 9 + 1.
Proof.
  intros Hb Hm Ht. cut (n - max - 1 ≤ rate * span / 10 ^ 9); [lia|].
  apply Z.div_le_lower_bound; lia.
Qed.

(** What a client can get from a limiter whose evictions drop buckets idle for [age]: the
    configured rate or, where a full burst comes back faster by eviction than by refill,
    one burst per [age]. *)
Definition window_rate (rate max : Z) (age : Duration) : Z :=
  Z.max rate ((max * 10 ^ 9 + age - 1) / age).

(** Every configuration loaded stays within [rate] and [max], and evictions drop only
    buckets idle for [age] or longer. *)
Definition op_bounded (rate max : Z) (age : Duration) (op : LimiterOp) : Prop :=
  match op with
  | OpCheck config _ _ =>
      requests_per_second (rate_limit config) ≤ rate ∧ burst (rate_limit config) ≤ max
  | OpEvict max_age _ => age ≤ max_age
  end.

Lemma window_rate_age rate max age : 0 < age → max * 10 ^ 9 ≤ window_rate rate max age * age.
Proof.
  intros Ha. unfold window_rate. set (d := (max * 10 ^ 9 + age - 1) / age).
  assert (max * 10 ^ 9 ≤ d * age).
  { pose proof (Z.mod_pos_bound (max * 10 ^ 9 + age - 1) age Ha).
    pose proof (Z.div_mod (max * 10 ^ 9 + age - 1) age ltac:(lia)). unfold d. lia. }
  nia.
Qed.

(** With the rate so corrected an evicted bucket would have been full. *)
Lemma op_bounded_within rate max age op :
  0 < age → 0 ≤ rate → op_bounded rate max age op → op_within (window_rate rate max age) max op.
Proof.
  intros Ha Hr. pose proof (window_rate_age rate max age Ha).
  assert (rate ≤ window_rate rate max age) by (unfold window_rate; lia).
  destruct op as [config ip c|m now]; simpl; [lia|]. nia.
Qed.

Lemma window_rate_plain rate max age :
  0 < age → max * 10 ^ 9 ≤ rate * age → window_rate rate max age = rate.
Proof.
  intros Ha Hle. unfold window_rate. apply Z.max_l.
  assert ((max * 10 ^ 9 + age - 1) / age < rate + 1); [|lia]. apply Z.div_lt_upper_bound; [done|]. lia.
Qed.

(** [C7] Over any window of time [lo, hi], in any state reached before it and for any
    interleaving of requests with evictions of buckets idle for [age] or longer, the
    clients behind one address (IPv4) or /64 prefix (IPv6) are admitted at most
    [max + R * (hi - lo)] times, where [rate] and [max] bound the rates and bursts of the
    configurations in force, which reloads may change at any point of the window, and
    [R] is [rate] or, if larger, [max] per [age]: evicting a bucket gives its client a
    full burst anew.  [R] is [rate] itself if a bucket fills within [age].  This is up to
    a relative rounding error of [2^-50] on the refilled tokens and of [2^-53] of the
    capacity per request: at most [max + R * (hi - lo) + 1] times when there are fewer
    than [2^52 / (max + 1)] requests and [2^49] refilled tokens. *)
Theorem rate_limit_window l ops k lo hi rate max age :
  0 ≤ rate → 0 ≤ max → 0 < age → limiter_reachable l →
  timed k lo hi ops → Forall op_typed ops → Forall (op_bounded rate max age) ops →
  let vs := verdicts_for k (limiter_run l ops).2 in
  let R := window_rate rate max age in
  2 ^ 53 * 10 ^ 9 * count_true vs
  ≤ 2 ^ 53 * 10 ^ 9 * max + (2 ^ 53 + 8) * (R * (hi - lo))
    + 10 ^ 9 * (max + 1) * Z.of_nat (length vs)
  ∧ ((max + 1) * Z.of_nat (length vs) < 2 ^ 52 → R * (hi - lo) ≤ 2 ^ 49 * 10 ^ 9 →
     count_true vs ≤ max + R * (hi - lo) / 10 ^ 9 + 1)
  ∧ (max * 10 ^ 9 ≤ rate * age → R = rate).
Proof.
  intros Hr Hm Ha Hl%limiter_reachable_wf Htm Hty Hev vs R.
  assert (Forall (op_within R max) ops) as Hw.
  { eapply Forall_impl; [exact Hev|]. intros op. by apply op_bounded_within. }
  pose proof (limiter_window l ops k lo hi R max ltac:(unfold R, window_rate; lia) Hm Hl Htm Hty Hw) as Hb.
  split; [exact Hb|]. split; [apply window_requests, Hb|]. by apply window_rate_plain.
Qed.

(** [C22] Isolation: what the clients of one key are told does not depend on any
    other client, however the configuration changes meanwhile.  It is what a limiter
    holding only their bucket answers to their own requests (and the evictions), and
    their bucket ends up the same. *)
Theorem client_isolation l ops k :
  let alone := mkLimiter (filter (λ kb, kb.1 = k) (buckets l)) in
  verdicts_for k (limiter_run l ops).2
  = verdicts_for k (limiter_run alone (filter (concerns k) ops)).2
  ∧ buckets (limiter_run l ops).1 !! k
    = buckets (limiter_run alone (filter (concerns k) ops)).1 !! k.
Proof.
  intros alone. destruct (limiter_run_client l ops k) as [-> ->].
  destruct (limiter_run_client alone (filter (concerns k) ops) k) as [-> ->].
  rewrite client_run_concerns.
  assert (buckets alone !! k = buckets l !! k) as ->; [|done].
  simpl. rewrite map_lookup_filter. destruct (buckets l !! k); simpl; [|done].
  by rewrite option_guard_True.
Qed.

(** ** Bursts and silence *)

(** All the readings of a call at one instant. *)
Definition at_instant (t : Instant) : Readings := mkReadings t t t t.

Lemma div_sub_one x u : 0 < u → (x - u) / u = x / u - 1.
Proof. intros. replace (x - u) with (x + -1 * u) by lia. rewrite Z.div_add; lia. Qed.

Section Burst.
Context (config : DynamicConfig) (ip : IpAddr) (t : Instant).
Abbreviation rate := (requests_per_second (rate_limit config)).
Abbreviation max := (burst (rate_limit config)).
Context (Hrl : wf_rate_limit (rate_limit config)).

Definition requests (n : nat) : list LimiterOp := replicate n (OpCheck config ip (at_instant t)).

(** Requests at one instant against a bucket refilled at that instant. *)
Lemma client_run_burst b n :
  wf_bucket b → b_max b = max → last_refill b = t →
  (client_run (normalize_ip ip) (Some b) (requests n)).2
  = let have := Z.to_nat (tokens b / one_unit) in
    replicate (n `min` have) true ++ replicate (n - have) false.
Proof.
  destruct Hrl as [Hr Hm]. revert b. pose proof one_unit_pos as HU.
  induction n as [|n IH]; intros b Hb Hbm Hlr; [done|]. cbn [requests replicate client_run client_step].
  rewrite decide_True by done. cbn [bucket_check now0 now1 at_instant].
  pose proof (wf_try_consume rate max Hr Hm b t t Hb) as Hb'.
  rewrite try_consume_spec, (refill_same_instant _ _ Hm) in * by (done || lia).
  specialize (IH _ Hb' eq_refl eq_refl). unfold requests in IH.
  destruct (client_run _ _ _) as [st outs]. cbn [fst snd tokens] in *. rewrite IH.
  pose proof (wf_tokens _ Hb). destruct (Z.leb_spec one_unit (tokens b)) as [Hge|Hlt]; simpl.
  - rewrite div_sub_one by done. assert (1 ≤ tokens b / one_unit) by (apply Z.div_le_lower_bound; lia).
    assert (Z.to_nat (tokens b / one_unit) = S (Z.to_nat (tokens b / one_unit - 1))) as -> by lia.
    done.
  - rewrite Z.div_small by lia. simpl. by rewrite Nat.min_0_r, Nat.sub_0_r.
Qed.

(** A first request that finds [m] tokens. *)
Lemma client_run_first st n m :
  0 ≤ m →
  (∃ b0, wf_bucket b0 ∧ bucket_check config st (at_instant t)
           = try_consume b0 (f64_of_int rate) max t t ∧
         tokens (refill b0 (f64_of_int rate) max t) / one_unit = m) →
  (client_run (normalize_ip ip) st (requests n)).2
  = replicate (n `min` Z.to_nat m) true ++ replicate (n - Z.to_nat m) false.
Proof.
  intros Hm0 (b0 & Hb0 & Hbc & Hlv). destruct Hrl as [Hr Hm]. destruct n as [|n]; [done|].
  cbn [requests replicate client_run client_step]. rewrite decide_True, Hbc by done.
  pose proof (wf_try_consume rate max Hr Hm b0 t t Hb0) as Hb'.
  pose proof (wf_refill rate max Hr Hm b0 t Hb0) as [_ _ Hb0'].
  rewrite try_consume_spec in * by done. cbn [fst] in Hb'.
  pose proof (client_run_burst _ n Hb' eq_refl eq_refl) as IH. unfold requests in IH.
  destruct (client_run _ _ _) as [st' outs]. cbn [fst snd tokens] in *. rewrite IH.
  revert Hlv Hb0'. generalize (tokens (refill b0 (f64_of_int rate) max t)). intros x Hlv Hx.
  pose proof one_unit_pos as HU. destruct (Z.leb_spec one_unit x) as [Hge|Hlt]; simpl.
  - rewrite div_sub_one, Hlv by done. assert (1 ≤ m) by (rewrite <- Hlv; apply Z.div_le_lower_bound; lia).
    assert (Z.to_nat m = S (Z.to_nat (m - 1))) as -> by lia. done.
  - rewrite Z.div_small in * by lia. subst m. simpl. by rewrite Nat.min_0_r, Nat.sub_0_r.
Qed.
End Burst.

Lemma full_bucket_check config st t m :
  wf_rate_limit (rate_limit config) → (∀ b, st = Some b → wf_bucket b) →
  m = match st with
      | Some b => tokens (refill b (f64_of_int (requests_per_second (rate_limit config)))
                            (burst (rate_limit config)) t) / one_unit
      | None => burst (rate_limit config)
      end →
  ∃ b0, wf_bucket b0 ∧
    bucket_check config st (at_instant t)
    = try_consume b0 (f64_of_int (requests_per_second (rate_limit config)))
        (burst (rate_limit config)) t t ∧
    tokens (refill b0 (f64_of_int (requests_per_second (rate_limit config)))
        (burst (rate_limit config)) t) / one_unit = m.
Proof.
  intros [Hr Hm] Hst ->. unfold bucket_check, at_instant. cbn [now0 now1 now2 now3].
  destruct st as [b|]; [exists b; auto|]. eexists. split; [by apply wf_new|]. split; [done|].
  rewrite refill_same_instant; [|done|by apply wf_new|done|simpl; lia].
  simpl. rewrite u32_exact by done. by apply Z.div_mul.
Qed.

(** [C23] A client never seen before (or evicted) that sends [n] requests at one
    instant gets exactly the first [burst] of them through, whatever the rate. *)
Theorem burst_exact config l ip t n :
  wf_rate_limit (rate_limit config) → buckets l !! normalize_ip ip = None →
  let max := Z.to_nat (burst (rate_limit config)) in
  verdicts_for (normalize_ip ip) (limiter_run l (requests config ip t n)).2
  = replicate (n `min` max) true ++ replicate (n - max) false.
Proof.
  intros Hrl Hnone max. rewrite (proj2 (limiter_run_client _ _ _)), Hnone.
  apply client_run_first; [done|apply Hrl|]. by apply full_bucket_check.
Qed.

(** [C24] A client whose bucket was last refilled [secs] seconds ago or more is
    admitted for at least [min burst (secs * rate)] further requests, all of them
    at one instant if it likes: no rounding ever costs it a token. *)
Theorem silence_restores_tokens config l ip t n secs :
  wf_rate_limit (rate_limit config) → limiter_reachable l →
  0 ≤ secs → secs * 10 ^ 9 ≤ 2 ^ 53 →
  secs * requests_per_second (rate_limit config) ≤ 2 ^ 53 →
  (∀ b, buckets l !! normalize_ip ip = Some b → secs * 10 ^ 9 ≤ t - last_refill b) →
  Z.of_nat n ≤ Z.min (burst (rate_limit config)) (secs * requests_per_second (rate_limit config)) →
  verdicts_for (normalize_ip ip) (limiter_run l (requests config ip t n)).2 = replicate n true.
Proof.
  intros Hrl Hl%limiter_reachable_wf Hs0 Hs1 Hs2 Hlr Hn. pose proof one_unit_pos as HU.
  rewrite (proj2 (limiter_run_client _ _ _)). destruct Hrl as [Hr Hm] eqn:E. clear E.
  edestruct (full_bucket_check config (buckets l !! normalize_ip ip) t) as (b0 & Hb0 & Hbc & Hlv);
    [done|intros b Hb; by apply (Hl _ _ Hb)|reflexivity|].
  assert (Z.of_nat n ≤ tokens (refill b0 (f64_of_int (requests_per_second (rate_limit config)))
            (burst (rate_limit config)) t) / one_unit) as Hge.
  { rewrite Hlv. destruct (buckets l !! normalize_ip ip) as [b|] eqn:Hb; [|lia].
    apply Z.div_le_lower_bound; [done|].
    pose proof (refill_lower _ _ Hr Hm b t secs (Hl _ _ Hb) Hs0 Hs1 Hs2 (Hlr b eq_refl)). nia. }
  rewrite (client_run_first config ip t Hrl _ n _ (Z.le_trans _ _ _ (Nat2Z.is_nonneg n) Hge)) by eauto.
  rewrite Nat.min_l, (proj2 (Nat.sub_0_le _ _)) by lia. apply app_nil_r.
Qed.

(** ** Eviction *)

(** A full bucket behaves like no bucket. *)
Lemma full_refill_transparent config b c :
  wf_rate_limit (rate_limit config) → wf_bucket b →
  tokens (refill b (f64_of_int (requests_per_second (rate_limit config)))
            (burst (rate_limit config)) (now0 c))
  = burst (rate_limit config) * one_unit →
  now0 c ≤ now2 c →
  (bucket_check config (Some b) c).2 = (bucket_check config None c).2 ∧
  tokens (bucket_check config (Some b) c).1 = tokens (bucket_check config None c).1.
Proof.
  intros [Hr Hm] Hb Hfull Hle. unfold bucket_check.
  assert (tokens (refill (TokenBucket_new (f64_of_int (requests_per_second (rate_limit config)))
      (burst (rate_limit config)) (now0 c) (now1 c))
      (f64_of_int (requests_per_second (rate_limit config))) (burst (rate_limit config)) (now2 c))
    = burst (rate_limit config) * one_unit) as Hnew.
  { rewrite refill_tokens by done. simpl. rewrite (u32_exact (burst _)) by done.
    apply Z.min_r. set (e := duration_since _ _).
    pose proof (tokens_to_add_nonneg _ Hr e (duration_nonneg _ _)) as Hp. clearbody e.
    set (p := tokens_to_add _ e) in *. clearbody p. unfold f64_add, in_range in *.
    pose proof one_unit_pos. rewrite round_nonneg by nia.
    rewrite <- (round_pos_exact (burst (rate_limit config) * one_unit)) at 1
      by (by apply u32_representable). apply round_pos_mono; nia. }
  rewrite !try_consume_spec; [|try done; by apply wf_new..]. rewrite Hnew, Hfull. done.
Qed.

(** [C32] Eviction is exact and, with the age it is run with, invisible.  A tick
    of the eviction task keeps exactly the buckets accessed less than [max_age]
    ago.  A bucket it drops after [secs] seconds of silence would have been full
    by then if [burst <= secs * rate], so the client's next request gets the
    verdict, and leaves the tokens, it would have without the eviction. *)
Theorem eviction_transparent config l max_age now secs k b c :
  wf_rate_limit (rate_limit config) → limiter_reachable l → buckets l !! k = Some b →
  last_refill b ≤ last_access b →
  0 ≤ secs → secs * 10 ^ 9 ≤ 2 ^ 53 → secs * 10 ^ 9 ≤ max_age →
  burst (rate_limit config) ≤ secs * requests_per_second (rate_limit config) ≤ 2 ^ 53 →
  now ≤ now0 c → now0 c ≤ now2 c →
  let kept := buckets (evict_stale l max_age now) !! k in
  kept = (if bool_decide (now - max_age < last_access b) then Some b else None) ∧
  (bucket_check config kept c).2 = (bucket_check config (Some b) c).2 ∧
  tokens (bucket_check config kept c).1 = tokens (bucket_check config (Some b) c).1.
Proof.
  intros Hrl Hl%limiter_reachable_wf Hb Hla Hs0 Hs1 Hage [Hfull Hs2] Hn0 Hn2 kept.
  assert (kept = if bool_decide (now - max_age < last_access b) then Some b else None) as Hkept.
  { unfold kept, evict_stale. simpl. rewrite map_lookup_filter, Hb. simpl.
    case_bool_decide; [by rewrite option_guard_True|by rewrite option_guard_False]. }
  split; [done|]. rewrite Hkept. case_bool_decide as Hd; [done|].
  pose proof Hrl as [Hr Hm]. pose proof (Hl _ _ Hb) as Hwf.
  destruct (full_refill_transparent config b c Hrl Hwf) as [-> ->]; [|done..].
  pose proof (refill_lower _ _ Hr Hm b (now0 c) secs Hwf Hs0 Hs1 Hs2 ltac:(lia)).
  pose proof (refill_upper (requests_per_second (rate_limit config)) _ Hm b (now0 c)).
  rewrite Z.min_l in * by lia. lia.
Qed.

(** Without that condition eviction weakens the limit: with one request per second
    and a burst of 1000, an empty bucket left alone for 300 seconds has 300 tokens,
    but evicting it at that age leaves the client with 1000. *)
Lemma eviction_can_refill :
  let u := ascii_only in
  let config := mkDynamicConfig [] ∅ (mkRateLimitConfig 1 1000) (body test_dynamic_config) in
  let ip := V4 192 0 2 1 in
  let l := mkLimiter {[ ip := mkBucket 0 0 (f64_of_int 1) 1000 0 ]} in
  let t := eviction_max_age in
  let left l := tokens <$> buckets (check_and_consume config l ip (at_instant t)).1 !! ip in
  left l = Some (f64_of_int 299) ∧
  left (evict_stale l eviction_max_age t) = Some (f64_of_int 999).
Proof. vm_compute. done. Qed.

(** After a tick of the eviction task only recent buckets are left; once the
    shutdown channel changes the task ends and the map is left alone. *)
Lemma start_eviction_task_shutdown l max_age ticks events :
  start_eviction_task l max_age ((EvTick <$> ticks) ++ EvShutdownChanged :: events)
  = (foldl (λ l now, evict_stale l max_age now) l ticks, true).
Proof. revert l. induction ticks as [|now ticks IH]; intros l; simpl; [done|apply IH]. Qed.

(** ** Witnesses *)

(** Ten requests a second with a burst of twenty, the documented default. *)
Definition default_limits : DynamicConfig :=
  mkDynamicConfig [] ∅ (mkRateLimitConfig 10 20) (mkBodyConfig 0).

Lemma default_limits_wf : wf_rate_limit (rate_limit default_limits).
Proof. split; by vm_compute. Qed.

Lemma limiter_invariant_witness :
  let l := (limiter_step RateLimiter_new
              (OpCheck default_limits (V4 192 0 2 1) (at_instant 7))).1 in
  match buckets l !! V4 192 0 2 1 with Some b => wf_bucket b | None => False end.
Proof.
  intros l. destruct (buckets l !! V4 192 0 2 1) as [b|] eqn:Hb.
  - apply (limiter_invariant l (limiter_next RateLimiter_new
      (OpCheck default_limits (V4 192 0 2 1) (at_instant 7)) default_limits_wf limiter_init) _ b Hb).
  - vm_compute in Hb. discriminate Hb.
Defined.

(** The window holds a reload that halves the rate; a bucket of 20 fills well within the
    eviction age. *)
Lemma rate_limit_window_witness :
  let slower := mkDynamicConfig [] ∅ (mkRateLimitConfig 5 20) (mkBodyConfig 0) in
  let ops := [OpCheck default_limits (V4 192 0 2 1) (at_instant 0); OpEvict eviction_max_age 1;
              OpCheck default_limits (V4 192 0 2 2) (at_instant 0);
              OpCheck slower (V4 192 0 2 1) (at_instant (10 ^ 9))] in
  let vs := verdicts_for (V4 192 0 2 1) (limiter_run RateLimiter_new ops).2 in
  vs = [true; true] ∧ count_true vs ≤ 20 + 10 * (10 ^ 9 - 0) / 10 ^ 9 + 1.
Proof.
  intros slower ops vs. assert (vs = [true; true]) as Hvs by (vm_compute; reflexivity).
  split; [exact Hvs|].
  destruct (rate_limit_window RateLimiter_new ops (V4 192 0 2 1) 0 (10 ^ 9) 10 20 eviction_max_age)
    as (_ & Hb & HR).
  - lia.
  - lia.
  - reflexivity.
  - constructor.
  - simpl. lia.
  - repeat constructor; simpl; unfold in_range, u32_max; lia.
  - repeat constructor; simpl; lia.
  - fold vs in Hb. rewrite HR in Hb by (vm_compute; discriminate).
    apply Hb; [rewrite Hvs; simpl; lia|lia].
Defined.

Lemma burst_exact_witness :
  verdicts_for (V6 1 2 3 4 0 0 0 0)
    (limiter_run RateLimiter_new (requests default_limits (V6 1 2 3 4 5 6 7 8) 0 25)).2
  = replicate 20 true ++ replicate 5 false.
Proof.
  apply (burst_exact default_limits RateLimiter_new (V6 1 2 3 4 5 6 7 8) 0 25).
  - apply default_limits_wf.
  - reflexivity.
Defined.

Lemma silence_restores_tokens_witness :
  let l := (limiter_step RateLimiter_new (OpCheck default_limits (V4 192 0 2 1) (at_instant 0))).1 in
  verdicts_for (V4 192 0 2 1) (limiter_run l (requests default_limits (V4 192 0 2 1) (10 ^ 9) 10)).2
  = replicate 10 true.
Proof.
  intros l. apply (silence_restores_tokens default_limits l (V4 192 0 2 1) (10 ^ 9) 10 1).
  - apply default_limits_wf.
  - exact (limiter_next RateLimiter_new (OpCheck _ _ _) default_limits_wf limiter_init).
  - lia.
  - lia.
  - simpl. lia.
  - intros b Hb. vm_compute in Hb. injection Hb as <-. simpl. lia.
  - simpl. lia.
Defined.

Lemma eviction_transparent_witness :
  let l := (limiter_step RateLimiter_new (OpCheck default_limits (V4 192 0 2 1) (at_instant 0))).1 in
  let kept := buckets (evict_stale l eviction_max_age eviction_max_age) !! V4 192 0 2 1 in
  kept = None ∧ (bucket_check default_limits kept (at_instant eviction_max_age)).2 = true.
Proof.
  intros l kept. destruct (buckets l !! V4 192 0 2 1) as [b|] eqn:Hb; [|by vm_compute in Hb].
  pose proof Hb as Hb'. vm_compute in Hb'. injection Hb' as Hb'.
  destruct (eviction_transparent default_limits l eviction_max_age eviction_max_age 300
    (V4 192 0 2 1) b (at_instant eviction_max_age)) as (Hk & Hv & _).
  - apply default_limits_wf.
  - exact (limiter_next RateLimiter_new (OpCheck _ _ _) default_limits_wf limiter_init).
  - exact Hb.
  - rewrite <- Hb'. simpl. lia.
  - lia.
  - lia.
  - unfold eviction_max_age. lia.
  - simpl. lia.
  - simpl. lia.
  - simpl. lia.
  - fold kept in Hk, Hv. split; [rewrite Hk, <- Hb'; reflexivity|].
    rewrite Hv, <- Hb'. vm_compute. reflexivity.
Defined.
