(* ===== verification/Proxy.v ===== *)
(** * The proxy

    Header rewriting ([proxy/headers.rs]), error responses ([proxy/error.rs]), the
    forwarding handler ([proxy/handler.rs]), the two middlewares
    ([proxy/body_limit.rs], [rate_limit/mod.rs]) and the order in which
    [build_router] ([proxy/mod.rs]) stacks them.  A handler returns its response
    together with what it sent upstream and what it logged. *)

From S2P Require Import Prelude Text Net Http Config Routing RateLimit.
Local Open Scope string_scope.
Local Open Scope list_scope.

(** ** Headers ([headers.rs]) *)

Definition HOP_BY_HOP : list string :=
  ["connection"; "keep-alive"; "proxy-authorization"; "proxy-authenticate"; "te"; "trailers";
   "transfer-encoding"; "upgrade"].

Definition remove_hop_by_hop `{Http} (headers : HeaderMap) : HeaderMap :=
  foldl hm_remove headers HOP_BY_HOP.

Definition inject_proxy_headers `{Http} (headers : HeaderMap) (remote_addr : SocketAddr) : HeaderMap :=
  let ip_str := show_ip (sa_ip remote_addr) in
  let ip_value := default (header_value_from_static "0.0.0.0") (header_value_from_str ip_str) in
  let headers := hm_insert headers "x-real-ip" ip_value in
  let headers := hm_insert headers "x-forwarded-for" ip_value in
  hm_insert headers "x-forwarded-proto" (header_value_from_static "https").

(** ** Errors ([error.rs]) *)

(** [hyper_util::client::legacy::Error] *)
Record ClientError := mkClientError { is_connect : bool; client_error_display : string }.

Inductive ProxyError :=
| BadGateway (host upstream : string)
| GatewayTimeout (host upstream : string)
| TooManyRequests (client_ip host path : string)
| UpstreamConnection (e : ClientError)
| UpstreamTimeout
| UnknownHost
| MissingHost.

Definition status_code (e : ProxyError) : Z :=
  match e with
  | BadGateway _ _ => 502
  | GatewayTimeout _ _ => 504
  | TooManyRequests _ _ _ => 429
  | UpstreamConnection _ => 502
  | UpstreamTimeout => 504
  | UnknownHost => 404
  | MissingHost => 400
  end.

Definition error_body (e : ProxyError) : string :=
  match e with
  | BadGateway _ _ => "Bad Gateway"
  | GatewayTimeout _ _ => "Gateway Timeout"
  | TooManyRequests _ _ _ => "Too Many Requests"
  | UpstreamConnection _ => "Bad Gateway"
  | UpstreamTimeout => "Gateway Timeout"
  | UnknownHost => "Not Found"
  | MissingHost => "Bad Request"
  end.

(** [Display], by the [#[error]] attributes. *)
Definition proxy_error_to_string (e : ProxyError) : string :=
  match e with
  | BadGateway _ _ => "Bad Gateway"
  | GatewayTimeout _ _ => "Gateway Timeout"
  | TooManyRequests _ _ _ => "Too Many Requests"
  | UpstreamConnection _ => "upstream connection failed"
  | UpstreamTimeout => "upstream timeout"
  | UnknownHost => "no matching site for host"
  | MissingHost => "missing host header"
  end.

Definition into_response `{Http} (e : ProxyError) : Response :=
  Local (status_code e) [("content-type", "text/plain; charset=utf-8")] (error_body e).

(** ** Logging ([logging/format.rs]) *)

(** Why [build_upstream_request] failed. *)
Inductive BuildError := InvalidAuthority (value : string) | TooManyHeaders.

Inductive UpstreamErrorText :=
| UText (s : string)
| UClient (e : ClientError)
| UBuild (e : BuildError).

(** The fields of [log_request!] and [log_upstream_error!], of the rate limiter's
    warning and of the event [into_response] emits for an error. *)
Inductive LogEvent :=
| LogRequest (client_ip host method path : string) (status : Z) (upstream : string) (duration_ms : Z)
| LogUpstreamError (host upstream : string) (error : UpstreamErrorText)
| LogRateLimit (client_ip : IpAddr) (host path : string)
| LogProxyError (e : ProxyError).

(** What [into_response] logs. *)
Definition error_log (e : ProxyError) : list LogEvent :=
  match e with UnknownHost | MissingHost => [] | _ => [LogProxyError e] end.

(** ** The handler ([handler.rs]) *)

Record UpstreamResponse `{Http} := mkUpstream {
  up_status : Z;
  up_headers : HeaderMap;
  up_body : Body;
}.
Arguments mkUpstream {_}.

(** [Client::request] of the plain and of the TLS client: third-party code. *)
Record Clients `{Http} := mkClients {
  http_client : Request → Future (result UpstreamResponse ClientError);
  https_client : Request → Future (result UpstreamResponse ClientError);
}.
Arguments mkClients {_}.

(** What handling one request did. *)
Record Outcome `{Http} := mkOutcome {
  o_response : Response;
  (** The request given to a client, and whether it was the TLS one. *)
  o_sent : option (bool * Request);
  o_log : list LogEvent;
}.
Arguments mkOutcome {_}.

Section Handler.
Context `{Http}.

Definition build_upstream_uri (scheme upstream : string) (original_uri : Uri) : option Uri :=
  let path := uri_path original_uri in
  let query := match uri_query original_uri with Some q => "?" +:+ q | None => "" end in
  parse_uri (scheme +:+ "://" +:+ upstream +:+ path +:+ query).

(** The value of the forwarded [Host] header. *)
Definition host_header (req : Request) : result (option HeaderValue) BuildError :=
  match uri_authority (req_uri req) with
  | Some authority =>
      let value :=
        match authority_port_u16 authority with
        | Some port => authority_host authority +:+ ":" +:+ show_uint port
        | None => authority_host authority
        end in
      match header_value_from_str value with
      | Some v => Ok (Some v)
      | None => Err (InvalidAuthority value)
      end
  | None => Ok (hm_get (req_headers req) "host")
  end.

(** [builder.header] for each pair: the builder keeps its first error. *)
Definition builder_headers (kvs : list (string * HeaderValue)) (acc : option HeaderMap)
    : option HeaderMap :=
  foldl (λ acc kv, h ← acc; hm_try_append h kv.1 kv.2) acc kvs.

Definition build_upstream_request (req : Request) (upstream_uri : Uri) : result Request BuildError :=
  (host <-? host_header req;
   let headers := hm_remove (req_headers req) "host" in
   let built := builder_headers (hm_iter headers) (Some hm_empty) in
   let built := match host with
                | Some v => builder_headers [("host", v)] built
                | None => built
                end in
   match built with
   | Some hs => Ok (mkRequest (req_method req) upstream_uri hs (req_body req) None)
   | None => Err TooManyHeaders
   end)%rust.

(** The host the request is routed by. *)
Definition request_host (req : Request) : string :=
  let from_header := v ← hm_get (req_headers req) "host"; to_str v in
  default "" (match from_header with Some h => Some h | None => uri_host (req_uri req) end).

Definition nanos (secs : Z) : Z := (secs * 10 ^ 9)%Z.

(** The [match result] at the end of the handler; [log] is [log_request!] with all but
    the status. *)
Definition upstream_outcome (log : Z → LogEvent) (host upstream_addr : string)
    (sent : option (bool * Request))
    (result : Future (result (result (result UpstreamResponse ClientError) Elapsed) Elapsed)) : Outcome :=
  match result with
  | Some (_, Ok (Ok (Ok upstream_resp))) =>
      let headers := remove_hop_by_hop (up_headers upstream_resp) in
      let headers := hm_remove headers "server" in
      mkOutcome (Forwarded (up_status upstream_resp) headers (up_body upstream_resp))
        sent [log (up_status upstream_resp)]
  | Some (_, Ok (Ok (Err e))) =>
      if is_connect e then
        mkOutcome (into_response (UpstreamConnection e)) sent
          (LogUpstreamError host upstream_addr (UClient e) :: error_log (UpstreamConnection e) ++ [log 502])
      else
        mkOutcome (into_response (BadGateway host upstream_addr)) sent
          (LogUpstreamError host upstream_addr (UText "bad gateway")
           :: error_log (BadGateway host upstream_addr) ++ [log 502])
  | Some (_, Ok (Err _)) =>
      mkOutcome (into_response UpstreamTimeout) sent
        (LogUpstreamError host upstream_addr (UText "upstream connect timeout")
         :: error_log UpstreamTimeout ++ [log 504])
  | Some (_, Err _) | None =>
      mkOutcome (into_response UpstreamTimeout) sent
        (LogUpstreamError host upstream_addr (UText "upstream timeout")
         :: error_log UpstreamTimeout ++ [log 504])
  end%Z.

(** What the handler holds while it awaits the upstream client. *)
Record Pending := mkPending {
  pn_client_ip : string;
  pn_method : string;
  pn_path : string;
  pn_host : string;
  pn_site : SiteConfig;
  pn_req : Request;
}.

Definition pn_tls (p : Pending) : bool := (site_upstream_scheme (pn_site p) =? "https")%string.

(** The handler up to the point where it awaits the client: the answer it returns
    early, or the call it makes.  [duration_ms] is what
    [start.elapsed().as_millis() as u64] reads where the handler logs. *)
Definition handler_start `{Unicode} (config : DynamicConfig) (remote_addr : SocketAddr)
    (duration_ms : Z) (req : Request) : result Pending Outcome :=
  let client_ip := show_ip (sa_ip remote_addr) in
  let method := req_method req in
  let path := uri_path (req_uri req) in
  let host := request_host req in
  if is_empty host then Err (mkOutcome (into_response MissingHost) None (error_log MissingHost))
  else match lookup config host with
  | None => Err (mkOutcome (into_response UnknownHost) None (error_log UnknownHost))
  | Some site =>
      let headers := inject_proxy_headers (req_headers req) remote_addr in
      let headers := remove_hop_by_hop headers in
      let req := mkRequest method (req_uri req) headers (req_body req) (req_connect_info req) in
      let upstream_scheme := site_upstream_scheme site in
      let upstream := site_upstream site in
      let upstream_addr := upstream_scheme +:+ "://" +:+ upstream in
      let log status := LogRequest client_ip host method path status upstream duration_ms in
      match build_upstream_uri upstream_scheme upstream (req_uri req) with
      | None =>
          Err (mkOutcome (status_response 502) None
            [LogUpstreamError host upstream_addr (UText "malformed upstream URI"); log 502])
      | Some upstream_uri =>
      match build_upstream_request req upstream_uri with
      | Err e =>
          Err (mkOutcome (status_response 502) None
            [LogUpstreamError host upstream_addr (UBuild e); log 502])
      | Ok upstream_req => Ok (mkPending client_ip method path host site upstream_req)
      end
      end
  end%Z.

(** The call of the client under its two deadlines. *)
Definition call_upstream (clients : Clients) (p : Pending)
    : Future (result (result (result UpstreamResponse ClientError) Elapsed) Elapsed) :=
  let connect_timeout := nanos (site_connect_timeout_secs (pn_site p)) in
  let request_timeout := nanos (site_request_timeout_secs (pn_site p)) in
  let client := if pn_tls p then https_client clients else http_client clients in
  timeout request_timeout (timeout connect_timeout (client (pn_req p))).

(** The handler from where the call returned. *)
Definition handler_finish (clients : Clients) (p : Pending) (duration_ms : Z) : Outcome :=
  let upstream := site_upstream (pn_site p) in
  let upstream_addr := site_upstream_scheme (pn_site p) +:+ "://" +:+ upstream in
  let log status :=
    LogRequest (pn_client_ip p) (pn_host p) (pn_method p) (pn_path p) status upstream duration_ms in
  upstream_outcome log (pn_host p) upstream_addr (Some (pn_tls p, pn_req p)) (call_upstream clients p).

Definition proxy_handler `{Unicode} (config : DynamicConfig) (clients : Clients)
    (remote_addr : SocketAddr) (duration_ms : Z) (req : Request) : Outcome :=
  match handler_start config remote_addr duration_ms req with
  | Ok p => handler_finish clients p duration_ms
  | Err out => out
  end.
End Handler.

(** ** Body limit ([body_limit.rs]) *)

Definition DEFAULT_BODY_LIMIT_BYTES : Z := 104857600.

(** The limit in force: zero means the default. *)
Definition effective_limit (config : DynamicConfig) : Z :=
  let limit := limit_bytes (body config) in
  if (limit =? 0)%Z then DEFAULT_BODY_LIMIT_BYTES else limit.

Definition with_body `{Http} (req : Request) (b : Body) : Request :=
  mkRequest (req_method req) (req_uri req) (req_headers req) b (req_connect_info req).

(** The layer before it calls [next]: the request it passes on, or its answer. *)
Definition body_limit_gate `{Http} (config : DynamicConfig) (request : Request)
    : result Request Outcome :=
  let limit := effective_limit config in
  let content_length :=
    v ← hm_get (req_headers request) "content-length"; s ← to_str v; parse_uint u64_max s in
  match content_length with
  | Some length =>
      if (limit <? length)%Z
      then Err (mkOutcome (text_response 413 "Payload Too Large") None [])
      else Ok (with_body request (limited (req_body request) limit))
  | None => Ok (with_body request (limited (req_body request) limit))
  end.

Definition body_limit_middleware `{Http} (config : DynamicConfig) (next : Request → Outcome)
    (request : Request) : Outcome :=
  match body_limit_gate config request with Ok request => next request | Err out => out end.

(** ** Rate limit middleware ([rate_limit/mod.rs]) *)

(** The layer before it calls [next]; [c] are the clock readings [check_and_consume]
    makes. *)
Definition rate_limit_gate `{Http} (config : DynamicConfig) (l : RateLimiter) (c : Readings)
    (req : Request) : RateLimiter * result Request Outcome :=
  match req_connect_info req with
  | None => (l, Err (mkOutcome (text_response 429 "Too Many Requests") None []))
  | Some addr =>
      let ip := sa_ip addr in
      let host := default "-" (v ← hm_get (req_headers req) "host"; to_str v) in
      let path := uri_path (req_uri req) in
      let '(l, admitted) := check_and_consume config l ip c in
      if admitted then (l, Ok req)
      else (l, Err (mkOutcome (text_response 429 "Too Many Requests") None [LogRateLimit ip host path]))
  end.

Definition rate_limit_middleware `{Http} (config : DynamicConfig) (l : RateLimiter) (c : Readings)
    (next : Request → Outcome) (req : Request) : RateLimiter * Outcome :=
  let '(l, admitted) := rate_limit_gate config l c req in
  (l, match admitted with Ok req => next req | Err out => out end).

(** ** The router ([mod.rs])

    The configurations the three stages load can differ: a reload may come in
    between. *)
Record Loads := mkLoads {
  cfg_rate : DynamicConfig;
  cfg_body : DynamicConfig;
  cfg_proxy : DynamicConfig;
}.

(** The fallback route extracts [ConnectInfo]; the extractor's rejection is 500. *)
Definition extract_connect_info `{Http} {A} (reject : Outcome → A) (handler : SocketAddr → A)
    (req : Request) : A :=
  match req_connect_info req with
  | Some remote_addr => handler remote_addr
  | None => reject (mkOutcome (status_response 500) None [])
  end.

Definition proxy_router `{Http, Unicode} (config : DynamicConfig) (clients : Clients)
    (duration_ms : Z) (req : Request) : Outcome :=
  extract_connect_info id (λ remote_addr, proxy_handler config clients remote_addr duration_ms req) req.

(** The layer added last runs first. *)
Definition build_router `{Http, Unicode} (cfg : Loads) (clients : Clients) (l : RateLimiter)
    (c : Readings) (duration_ms : Z) (req : Request) : RateLimiter * Outcome :=
  let router := proxy_router (cfg_proxy cfg) clients duration_ms in
  let router := body_limit_middleware (cfg_body cfg) router in
  rate_limit_middleware (cfg_rate cfg) l c router req.
