(* ===== verification/ProxyProps.v ===== *)
(** * Properties of the proxy

    What is forwarded, to whom, and what comes back; the limits the middlewares
    put in front of it. *)

From S2P Require Import Prelude Text Net Http Config Routing Validation Fixtures ValidRouting.
From S2P Require Import F64 RateLimit RateLimitProps Proxy.
Local Open Scope string_scope.
Local Open Scope list_scope.

(** ** Printed addresses are header values *)

Lemma str_all_join f sep l :
  str_all f sep = true → Forall (λ s, str_all f s = true) l → str_all f (join sep l) = true.
Proof.
  intros Hsep. induction 1 as [|s l Hs Hl IH]; [done|]. simpl. destruct l; [done|].
  by rewrite !str_all_app, Hs, Hsep, IH.
Qed.

Lemma hex_char_visible d : (0 ≤ d < 16)%Z → visible_char (hex_char d) = true.
Proof.
  intros Hd. assert (forallb (λ d, visible_char (hex_char (Z.of_nat d))) (seq 0 16) = true) as H
    by by vm_compute.
  rewrite <- (Z2Nat.id d) by lia. apply (proj1 (forallb_forall _ _) H). apply in_seq. lia.
Qed.

Lemma show_hex16_visible n : in_range u16_max n → str_all visible_char (show_hex16 n) = true.
Proof.
  unfold in_range, u16_max. intros Hn. unfold show_hex16.
  destruct (n <? 16)%Z; [|destruct (n <? 256)%Z; [|destruct (n <? 4096)%Z]]; cbn [str_all];
    rewrite !hex_char_visible by dlia; done.
Qed.

Lemma fmt_subslice_visible segs :
  Forall (in_range u16_max) segs → str_all visible_char (fmt_subslice segs) = true.
Proof.
  intros Hs. apply str_all_join; [done|]. apply Forall_map.
  eapply Forall_impl; [done|]. apply show_hex16_visible.
Qed.

Lemma show_ipv4_visible a b c d :
  Forall (λ z, 0 ≤ z)%Z [a; b; c; d] → str_all visible_char (show_ipv4 a b c d) = true.
Proof.
  rewrite !Forall_cons. intros (Ha & Hb & Hc & Hd & _). unfold show_ipv4.
  by rewrite !str_all_app, !show_uint_visible.
Qed.

Lemma show_ip_visible ip : wf_ip ip → str_all visible_char (show_ip ip) = true.
Proof.
  destruct ip as [a b c d|s0 s1 s2 s3 s4 s5 s6 s7]; intros Hwf; simpl in Hwf.
  - apply show_ipv4_visible. eapply Forall_impl; [done|]. by intros z [? ?].
  - unfold show_ip. destruct (_ && _).
    + rewrite str_all_app. simpl. apply show_ipv4_visible.
      rewrite !Forall_cons in Hwf. destruct Hwf as (_ & _ & _ & _ & _ & _ & [? _] & [? _] & _).
      repeat constructor; dlia.
    + destruct (zero_span _ _ _ _ _ _) as [start len]. destruct (1 <? len)%nat.
      * rewrite !str_all_app, !fmt_subslice_visible by auto using Forall_take, Forall_drop. done.
      * by apply fmt_subslice_visible.
Qed.

(** ** Header rewriting *)

Section Headers.
Context `{HttpLaws}.
Implicit Types (h : HeaderMap) (n m : string) (v : HeaderValue).

Lemma get_all_remove_list h ns m :
  hm_get_all (foldl hm_remove h ns) m = if decide (m ∈ ns) then [] else hm_get_all h m.
Proof.
  revert h. induction ns as [|n ns IH]; intros h; simpl.
  - destruct (decide (m ∈ [])) as [Hin|]; [by apply elem_of_nil in Hin|done].
  - rewrite IH, get_all_remove. destruct (decide (m ∈ n :: ns)) as [Hin|Hin];
      rewrite elem_of_cons in Hin; repeat case_decide; naive_solver.
Qed.

(** The value of [X-Real-IP] and [X-Forwarded-For]. *)
Definition ip_header_value (addr : SocketAddr) : HeaderValue :=
  default (header_value_from_static "0.0.0.0") (header_value_from_str (show_ip (sa_ip addr))).

Lemma ip_header_value_spec addr :
  wf_ip (sa_ip addr) → to_str (ip_header_value addr) = Some (show_ip (sa_ip addr)).
Proof.
  intros Hwf%show_ip_visible. unfold ip_header_value.
  pose proof (from_static_ok _ Hwf) as Hs. rewrite Hs. simpl. by eapply from_str_to_str.
Qed.

Lemma get_all_inject h addr m :
  hm_get_all (inject_proxy_headers h addr) m =
    if decide (m = "x-forwarded-proto") then [header_value_from_static "https"]
    else if decide (m ∈ ["x-real-ip"; "x-forwarded-for"]) then [ip_header_value addr]
    else hm_get_all h m.
Proof.
  unfold inject_proxy_headers. rewrite !get_all_insert. fold (ip_header_value addr).
  destruct (decide (m = "x-forwarded-proto")); [done|].
  destruct (decide (m ∈ _)) as [Hin|Hin]; rewrite !elem_of_cons, elem_of_nil in Hin;
    destruct (decide (m = "x-forwarded-for")), (decide (m = "x-real-ip")); tauto.
Qed.

Lemma builder_headers_None kvs : builder_headers kvs None = None.
Proof. induction kvs; done. Qed.

Lemma builder_headers_app kvs kvs' acc :
  builder_headers (kvs ++ kvs') acc = builder_headers kvs' (builder_headers kvs acc).
Proof. apply foldl_app. Qed.

Lemma builder_headers_get_all kvs h h' m :
  builder_headers kvs (Some h) = Some h' →
  hm_get_all h' m = hm_get_all h m ++ (filter (λ kv, kv.1 = m) kvs).*2.
Proof.
  revert h. induction kvs as [|[n v] kvs IH]; intros h.
  - intros [= <-]. by rewrite app_nil_r.
  - cbn [builder_headers foldl]. simpl. destruct (hm_try_append h n v) as [h1|] eqn:Ha.
    + intros Hb. rewrite (IH _ Hb), (get_all_append _ _ _ _ _ Ha), filter_cons. simpl.
      destruct (decide (m = n)), (decide (n = m)); try congruence; by rewrite <- app_assoc.
    + fold (builder_headers kvs None). by rewrite builder_headers_None.
Qed.

Lemma builder_headers_ok kvs h :
  (length (hm_iter h) + length kvs ≤ hm_max)%nat → is_Some (builder_headers kvs (Some h)).
Proof.
  revert h. induction kvs as [|[n v] kvs IH]; intros h Hl; [by eexists|].
  simpl in Hl. destruct (append_ok h n v) as [h1 Ha]; [lia|].
  cbn [builder_headers foldl]. simpl. rewrite Ha. apply IH.
  rewrite (append_length _ _ _ _ Ha). lia.
Qed.
End Headers.

(** ** The handler *)

Section HandlerFacts.
Context `{HttpLaws, Unicode}.
Implicit Types (req r : Request) (m : string) (addr : SocketAddr).

(** The values the upstream receives for the header [m]. *)
Definition forwarded_values req addr m : list HeaderValue :=
  if decide (m = "host") then
    match host_header req with Ok (Some v) => [v] | _ => [] end
  else if decide (m ∈ HOP_BY_HOP) then []
  else if decide (m = "x-forwarded-proto") then [header_value_from_static "https"]
  else if decide (m ∈ ["x-real-ip"; "x-forwarded-for"]) then [ip_header_value addr]
  else hm_get_all (req_headers req) m.

(** The request after header rewriting. *)
Definition rewritten req addr : Request :=
  mkRequest (req_method req) (req_uri req)
    (remove_hop_by_hop (inject_proxy_headers (req_headers req) addr))
    (req_body req) (req_connect_info req).

Lemma get_all_rewritten req addr m :
  hm_get_all (req_headers (rewritten req addr)) m =
    if decide (m ∈ HOP_BY_HOP) then []
    else if decide (m = "x-forwarded-proto") then [header_value_from_static "https"]
    else if decide (m ∈ ["x-real-ip"; "x-forwarded-for"]) then [ip_header_value addr]
    else hm_get_all (req_headers req) m.
Proof. simpl. unfold remove_hop_by_hop. by rewrite get_all_remove_list, get_all_inject. Qed.

Lemma host_header_rewritten req addr : host_header (rewritten req addr) = host_header req.
Proof.
  unfold host_header. rewrite !get_first, get_all_rewritten. done.
Qed.

Lemma length_rewritten req addr :
  (length (hm_iter (req_headers (rewritten req addr))) ≤ 3 + length (hm_iter (req_headers req)))%nat.
Proof.
  assert (∀ ns h, length (hm_iter (foldl hm_remove h ns)) ≤ length (hm_iter h))%nat as Hr.
  { induction ns as [|n ns IH]; intros h; simpl; [done|].
    etrans; [apply IH|apply remove_shrinks]. }
  simpl. unfold remove_hop_by_hop, inject_proxy_headers. etrans; [apply Hr|].
  repeat (etrans; [apply insert_grows|apply le_n_S]). done.
Qed.

Lemma build_upstream_request_Ok req u r :
  build_upstream_request req u = Ok r →
  req_method r = req_method req ∧ req_uri r = u ∧ req_body r = req_body req ∧
  ∃ host, host_header req = Ok host ∧
    ∀ m, hm_get_all (req_headers r) m =
      if decide (m = "host") then option_list host else hm_get_all (req_headers req) m.
Proof.
  unfold build_upstream_request. intros (host & Hh & Hb)%and_then_Ok. cbv zeta in Hb.
  match type of Hb with match ?b with _ => _ end = _ => destruct b as [hs|] eqn:Hbuilt; [|done] end.
  injection Hb as <-. split; [done|]. split; [done|]. split; [done|]. exists host. split; [done|]. intros m.
  assert (∀ hs', builder_headers (hm_iter (hm_remove (req_headers req) "host")) (Some hm_empty) = Some hs' →
    ∀ m, hm_get_all hs' m = if decide (m = "host") then [] else hm_get_all (req_headers req) m) as Hbase.
  { intros hs' Hhs m'. rewrite (builder_headers_get_all _ _ _ m' Hhs).
    rewrite <- get_all_remove. unfold hm_get_all. by rewrite iter_empty. }
  destruct host as [v|]; [|simpl; rewrite (Hbase _ Hbuilt); by case_decide].
  destruct (builder_headers (hm_iter _) _) as [hs'|]; [|by rewrite builder_headers_None in Hbuilt].
  cbn [req_headers]. rewrite (builder_headers_get_all _ _ _ m Hbuilt), (Hbase _ eq_refl), filter_cons. simpl.
  destruct (decide (m = "host")), (decide ("host" = m)); try congruence; simpl; by rewrite ?app_nil_r.
Qed.

Lemma build_upstream_request_total req u host :
  host_header req = Ok host → (length (hm_iter (req_headers req)) < hm_max)%nat →
  ∃ r, build_upstream_request req u = Ok r.
Proof.
  intros Hh Hl. unfold build_upstream_request. rewrite Hh. cbn [and_then]. cbv zeta.
  pose proof (remove_shrinks (req_headers req) "host") as Hs.
  set (kvs := hm_iter (hm_remove _ _)) in *.
  destruct host as [v|].
  - rewrite <- builder_headers_app.
    destruct (builder_headers_ok (kvs ++ [("host", v)]) hm_empty) as [hs ->]; [|eauto].
    rewrite iter_empty, length_app. simpl. lia.
  - destruct (builder_headers_ok kvs hm_empty) as [hs ->]; [|eauto]. rewrite iter_empty. simpl. lia.
Qed.

(** The rewritten request as built for the upstream. *)
Lemma built_request_headers req addr u r :
  build_upstream_request (rewritten req addr) u = Ok r →
  req_method r = req_method req ∧ req_uri r = u ∧ req_body r = req_body req ∧
  ∀ m, hm_get_all (req_headers r) m = forwarded_values req addr m.
Proof.
  intros (? & ? & ? & host & Hh & Hm)%build_upstream_request_Ok. repeat split; [done..|].
  intros m. rewrite Hm, get_all_rewritten. rewrite host_header_rewritten in Hh.
  unfold forwarded_values. rewrite Hh. case_decide; [by destruct host|done].
Qed.
End HandlerFacts.

Section Claims.
Context `{HttpLaws, Unicode}.
Implicit Types (req r : Request) (addr : SocketAddr) (site : SiteConfig).

(** The client a site's scheme selects. *)
Definition client_for (clients : Clients) (tls : bool) :=
  if tls then https_client clients else http_client clients.

Definition is_https site : bool := (site_upstream_scheme site =? "https")%string.

(** The time an upstream has to answer: the shorter of the two timeouts, since
    the connect timeout wraps the whole exchange. *)
Definition deadline site : Z :=
  Z.min (nanos (site_connect_timeout_secs site)) (nanos (site_request_timeout_secs site)).

(** The status the client sees once the request is sent. *)
Definition upstream_verdict site (f : Future (result UpstreamResponse ClientError)) : Z :=
  match f with
  | Some (t, v) =>
      if (t <=? deadline site)%Z
      then match v with Ok resp => up_status resp | Err _ => 502%Z end
      else 504%Z
  | None => 504%Z
  end.

(** Both timeouts together. *)
Lemma nested_timeout {A} c q (f : Future A) :
  timeout q (timeout c f) =
    match f with
    | Some (t, v) =>
        if (t <=? Z.min c q)%Z then Some (t, Ok (Ok v))
        else if (c <=? q)%Z then Some (c, Ok (Err elapsed)) else Some (q, Err elapsed)
    | None => if (c <=? q)%Z then Some (c, Ok (Err elapsed)) else Some (q, Err elapsed)
    end.
Proof.
  unfold timeout. destruct f as [[t v]|]; [|done].
  destruct (Z.leb_spec t c), (Z.leb_spec t (Z.min c q)), (Z.leb_spec t q), (Z.leb_spec c q);
    try lia; done.
Qed.

(** What the handler does once host, site and upstream request are known. *)
Lemma handler_start_sent config addr ms req site u r :
  is_empty (request_host req) = false → lookup config (request_host req) = Some site →
  build_upstream_uri (site_upstream_scheme site) (site_upstream site) (req_uri req) = Some u →
  build_upstream_request (rewritten req addr) u = Ok r →
  handler_start config addr ms req =
    Ok (mkPending (show_ip (sa_ip addr)) (req_method req) (uri_path (req_uri req)) (request_host req)
          site r).
Proof.
  intros Hh Hl Hu Hr. unfold handler_start. rewrite Hh, Hl. cbv zeta.
  fold (rewritten req addr). cbn [req_uri rewritten]. rewrite Hu.
  change (mkRequest (req_method req) (req_uri req) _ _ _) with (rewritten req addr). by rewrite Hr.
Qed.

(** An early answer is the proxy's own and nothing was sent. *)
Lemma handler_start_reply config addr ms req out :
  handler_start config addr ms req = Err out →
  o_sent out = None ∧ ∃ st hs b, o_response out = Local st hs b.
Proof. unfold handler_start. repeat case_match; intros; simplify_eq/=; eauto. Qed.

(** Only the log of an early answer depends on the time. *)
Lemma handler_start_call config addr ms ms' req p :
  handler_start config addr ms req = Ok p → handler_start config addr ms' req = Ok p.
Proof. unfold handler_start. by repeat case_match. Qed.

(** The answer to a call, and what it was made of. *)
Lemma handler_finish_spec clients p ms :
  let out := handler_finish clients p ms in
  let site := pn_site p in
  o_sent out = Some (is_https site, pn_req p) ∧
  status_of (o_response out) = upstream_verdict site (client_for clients (is_https site) (pn_req p)) ∧
  (∀ st hs b, o_response out = Forwarded st hs b →
     ∃ t resp, client_for clients (is_https site) (pn_req p) = Some (t, Ok resp) ∧
       (t ≤ deadline site)%Z ∧ st = up_status resp ∧ b = up_body resp ∧
       hs = hm_remove (remove_hop_by_hop (up_headers resp)) "server").
Proof.
  destruct p as [ip m path host site r]. unfold handler_finish, call_upstream, pn_tls. cbv zeta. cbn [pn_site pn_req].
  fold (is_https site) (client_for clients (is_https site)).
  unfold upstream_outcome. rewrite nested_timeout. unfold upstream_verdict. fold (deadline site).
  destruct (client_for clients (is_https site) r) as [[t [resp|e]]|]; cbn iota beta.
  - destruct (Z.leb_spec t (deadline site)) as [Hle|Hgt]; [|by destruct (_ <=? _)%Z].
    split; [done|]. split; [done|]. intros st hs b [= <- <- <-]. by exists t, resp.
  - destruct (t <=? deadline site)%Z; [by destruct (is_connect e)|by destruct (_ <=? _)%Z].
  - by destruct (_ <=? _)%Z.
Qed.

Lemma proxy_handler_sent config clients addr ms req site u r :
  is_empty (request_host req) = false → lookup config (request_host req) = Some site →
  build_upstream_uri (site_upstream_scheme site) (site_upstream site) (req_uri req) = Some u →
  build_upstream_request (rewritten req addr) u = Ok r →
  let out := proxy_handler config clients addr ms req in
  o_sent out = Some (is_https site, r) ∧
  status_of (o_response out) = upstream_verdict site (client_for clients (is_https site) r) ∧
  (∀ st hs b, o_response out = Forwarded st hs b →
     ∃ t resp, client_for clients (is_https site) r = Some (t, Ok resp) ∧
       (t ≤ deadline site)%Z ∧ st = up_status resp ∧ b = up_body resp ∧
       hs = hm_remove (remove_hop_by_hop (up_headers resp)) "server").
Proof.
  intros Hh Hl Hu Hr. unfold proxy_handler. rewrite (handler_start_sent _ _ _ _ _ _ _ Hh Hl Hu Hr).
  apply (handler_finish_spec clients (mkPending _ _ _ _ site r)).
Qed.

Lemma proxy_handler_sent_inv config clients addr ms req tls r :
  o_sent (proxy_handler config clients addr ms req) = Some (tls, r) →
  ∃ site u,
    is_empty (request_host req) = false ∧ lookup config (request_host req) = Some site ∧
    build_upstream_uri (site_upstream_scheme site) (site_upstream site) (req_uri req) = Some u ∧
    build_upstream_request (rewritten req addr) u = Ok r ∧ tls = is_https site.
Proof.
  intros Hs. destruct (is_empty (request_host req)) eqn:Hh;
    [by unfold proxy_handler, handler_start in Hs; rewrite Hh in Hs|].
  destruct (lookup config (request_host req)) as [site|] eqn:Hl;
    [|by unfold proxy_handler, handler_start in Hs; rewrite Hh, Hl in Hs].
  destruct (build_upstream_uri (site_upstream_scheme site) (site_upstream site) (req_uri req))
    as [u|] eqn:Hu; [|by unfold proxy_handler, handler_start in Hs; rewrite Hh, Hl in Hs; simpl in Hs; rewrite Hu in Hs].
  destruct (build_upstream_request (rewritten req addr) u) as [r'|e] eqn:Hr.
  - destruct (proxy_handler_sent config clients addr ms req site u r' Hh Hl Hu Hr) as [Hs' _].
    rewrite Hs' in Hs. injection Hs as <- <-. by exists site, u.
  - unfold proxy_handler, handler_start in Hs. rewrite Hh, Hl in Hs. cbv zeta in Hs. cbn [req_uri] in Hs.
    rewrite Hu in Hs. fold (rewritten req addr) in Hs. by rewrite Hr in Hs.
Qed.
End Claims.

(** [C5] What reaches an upstream is the client's request with exactly the
    documented rewriting.  Whenever the handler sends a request, the routing table
    has a site for the request's host, the client is the one of the site's scheme,
    the target is [scheme://upstream] followed by the client's path and query, the
    method and body are the client's, and every header has the values of
    [forwarded_values]: [X-Real-IP] and [X-Forwarded-For] are exactly the TCP peer
    and [X-Forwarded-Proto] exactly [https] whatever the client sent, hop-by-hop
    headers are gone, [Host] is the client's authority, and every other header has
    the client's values in the client's order. *)
Theorem forwarding_faithful `{HttpLaws, Unicode} config clients addr ms req tls r :
  wf_ip (sa_ip addr) →
  o_sent (proxy_handler config clients addr ms req) = Some (tls, r) →
  ∃ site,
    lookup config (request_host req) = Some site ∧ tls = is_https site ∧
    parse_uri (site_upstream_scheme site +:+ "://" +:+ site_upstream site +:+
               uri_path (req_uri req) +:+
               match uri_query (req_uri req) with Some q => "?" +:+ q | None => "" end)
    = Some (req_uri r) ∧
    req_method r = req_method req ∧ req_body r = req_body req ∧
    (∀ m, hm_get_all (req_headers r) m = forwarded_values req addr m) ∧
    to_str (ip_header_value addr) = Some (show_ip (sa_ip addr)).
Proof.
  intros Hwf (site & u & _ & Hl & Hu & Hr & ->)%proxy_handler_sent_inv.
  apply built_request_headers in Hr as (Hm & <- & Hb & Hh).
  exists site. repeat split; [done..|]. by apply ip_header_value_spec.
Qed.

(** [C12] The handler answers every request, and which answer it gives is
    determined: 400 without a host, 404 for a host with no site, 502 when the
    upstream URI or [Host] value is malformed, all without contacting an upstream;
    otherwise the request is sent, and the answer is the upstream's status if it
    responds within the deadline, 502 if the exchange fails within it, and 504 if
    neither happens. *)
Theorem handler_total `{HttpLaws, Unicode} config clients addr ms req :
  (3 + length (hm_iter (req_headers req)) < hm_max)%nat →
  let out := proxy_handler config clients addr ms req in
  let answers st := o_sent out = None ∧ status_of (o_response out) = st in
  if is_empty (request_host req) then answers 400%Z
  else match lookup config (request_host req) with
  | None => answers 404%Z
  | Some site =>
      match build_upstream_uri (site_upstream_scheme site) (site_upstream site) (req_uri req),
            host_header req with
      | Some u, Ok _ =>
          ∃ r, o_sent out = Some (is_https site, r) ∧ req_uri r = u ∧
            status_of (o_response out)
            = upstream_verdict site (client_for clients (is_https site) r)
      | _, _ => answers 502%Z
      end
  end.
Proof.
  intros Hlen out answers. destruct (is_empty (request_host req)) eqn:Hh;
    [unfold answers, out, proxy_handler, handler_start; by rewrite Hh|].
  destruct (lookup config (request_host req)) as [site|] eqn:Hl;
    [|unfold answers, out, proxy_handler, handler_start; by rewrite Hh, Hl].
  destruct (build_upstream_uri _ _ (req_uri req)) as [u|] eqn:Hu;
    [|unfold answers, out, proxy_handler, handler_start; rewrite Hh, Hl; cbv zeta; cbn [req_uri]; by rewrite Hu].
  pose proof (host_header_rewritten req addr) as Hrw. pose proof (length_rewritten req addr) as Hlr.
  destruct (host_header req) as [hv|e] eqn:Hhh.
  - destruct (build_upstream_request_total (rewritten req addr) u hv) as [r Hr]; [done|lia|].
    destruct (proxy_handler_sent config clients addr ms req site u r Hh Hl Hu Hr) as (Hs & Hst & _).
    exists r. split; [done|]. split; [|done]. by apply built_request_headers in Hr as (_ & ? & _).
  - unfold answers, out, proxy_handler, handler_start. rewrite Hh, Hl. cbv zeta. cbn [req_uri]. rewrite Hu.
    fold (rewritten req addr). unfold build_upstream_request. rewrite Hrw. done.
Qed.

(** [C18] What reaches the client from an upstream is its response with the
    hop-by-hop headers and [Server] removed: same status, same body, every other
    header with the same values; it was received within the deadline, in reply to
    the request the handler sent. *)
Theorem response_faithful `{HttpLaws, Unicode} config clients addr ms req st hs b :
  o_response (proxy_handler config clients addr ms req) = Forwarded st hs b →
  ∃ site tls r t resp,
    lookup config (request_host req) = Some site ∧
    o_sent (proxy_handler config clients addr ms req) = Some (tls, r) ∧
    client_for clients tls r = Some (t, Ok resp) ∧ (t ≤ deadline site)%Z ∧
    st = up_status resp ∧ b = up_body resp ∧
    ∀ m, hm_get_all hs m =
      if decide (m = "server" ∨ m ∈ HOP_BY_HOP) then [] else hm_get_all (up_headers resp) m.
Proof.
  intros Hf. destruct (o_sent (proxy_handler config clients addr ms req)) as [[tls r]|] eqn:Hs.
  - pose proof Hs as (site & u & Hh & Hl & Hu & Hr & ->)%proxy_handler_sent_inv.
    destruct (proxy_handler_sent config clients addr ms req site u r Hh Hl Hu Hr) as (_ & _ & Hresp).
    destruct (Hresp _ _ _ Hf) as (t & resp & Hc & Ht & -> & -> & ->).
    exists site, (is_https site), r, t, resp. do 6 (split; [done|]). intros m.
    rewrite get_all_remove. unfold remove_hop_by_hop. rewrite get_all_remove_list.
    repeat case_decide; naive_solver.
  - exfalso. revert Hf Hs. unfold proxy_handler.
    destruct (handler_start config addr ms req) as [p|out] eqn:E.
    + by destruct (handler_finish_spec clients p ms) as [-> _].
    + destruct (handler_start_reply _ _ _ _ _ E) as (_ & ? & ? & ? & ->). done.
Qed.

(** The lines of [log_request!] and of [log_upstream_error!]. *)
Definition request_lines (log : list LogEvent) : list LogEvent :=
  List.filter (λ e, match e with LogRequest _ _ _ _ _ _ _ => true | _ => false end) log.
Definition error_lines (log : list LogEvent) : list LogEvent :=
  List.filter (λ e, match e with LogUpstreamError _ _ _ => true | _ => false end) log.
Definition is_forwarded `{Http} (r : Response) : bool :=
  match r with Forwarded _ _ _ => true | Local _ _ _ => false end.

(** [C13] The access log is complete and true.  Every request that is routed to a site
    leaves exactly one request line, with the client's address, the host it was routed
    by, its method and path, the site's upstream and the status the client gets; and
    one upstream-error line before it exactly if the answer is not the upstream's.
    Requests without a host or for an unknown one leave no line. *)
Theorem access_log_exact `{Http, Unicode} config clients addr ms req :
  let out := proxy_handler config clients addr ms req in
  match (if is_empty (request_host req) then None else lookup config (request_host req)) with
  | Some site =>
      request_lines (o_log out) =
        [LogRequest (show_ip (sa_ip addr)) (request_host req) (req_method req) (uri_path (req_uri req))
           (status_of (o_response out)) (site_upstream site) ms] ∧
      length (error_lines (o_log out)) = (if is_forwarded (o_response out) then 0 else 1)%nat
  | None => o_log out = []
  end.
Proof.
  unfold proxy_handler, handler_start. destruct (is_empty (request_host req)); [done|].
  destruct (lookup config (request_host req)) as [site|]; [|done]. cbv zeta. cbn [req_uri].
  destruct (build_upstream_uri _ _ _); [|done]. destruct (build_upstream_request _ _); [|done].
  unfold handler_finish, upstream_outcome. by repeat case_match.
Qed.

(** ** The middleware stack *)

Section Stack.
Context `{HttpLaws, Unicode}.

(** What passed the limits: the limiter's verdict, the declared length, and the
    bytes of the body the upstream can receive. *)
Lemma body_limit_sent config next req x :
  o_sent (body_limit_middleware config next req) = Some x →
  o_sent (next (with_body req (limited (req_body req) (effective_limit config)))) = Some x.
Proof. unfold body_limit_middleware, body_limit_gate. repeat case_match; naive_solver. Qed.

Lemma effective_limit_nonneg config :
  (0 ≤ limit_bytes (body config))%Z → (0 < effective_limit config)%Z.
Proof. unfold effective_limit, DEFAULT_BODY_LIMIT_BYTES. destruct (Z.eqb_spec (limit_bytes (body config)) 0); lia. Qed.

End Stack.

(** [C10] The whole stack protects the upstreams.  A request reaches an upstream
    only if its TCP peer is known, the limiter admitted it, its declared length is
    within the body limit; and the body the upstream can read holds at most
    [limit] bytes, is the client's body unchanged when that is no longer than the
    limit, and ends in an error otherwise. *)
Theorem router_protects_upstream `{HttpLaws, Unicode} cfg clients l c ms req tls r :
  (0 ≤ limit_bytes (body (cfg_body cfg)))%Z →
  o_sent (build_router cfg clients l c ms req).2 = Some (tls, r) →
  let limit := effective_limit (cfg_body cfg) in
  (∃ addr, req_connect_info req = Some addr ∧
     (check_and_consume (cfg_rate cfg) l (sa_ip addr) c).2 = true) ∧
  (∀ v s n, hm_get (req_headers req) "content-length" = Some v → to_str v = Some s →
     parse_uint u64_max s = Some n → (n ≤ limit)%Z) ∧
  (data_bytes (body_frames (req_body r)) ≤ limit)%Z ∧
  ((data_bytes (body_frames (req_body req)) ≤ limit)%Z →
     Forall (λ f, is_ok f = true) (body_frames (req_body req)) →
     body_frames (req_body r) = body_frames (req_body req)) ∧
  ((limit < data_bytes (body_frames (req_body req)))%Z →
     ∃ pre e, body_frames (req_body r) = pre ++ [Err e]).
Proof.
  intros Hlim%effective_limit_nonneg. unfold build_router, rate_limit_middleware, rate_limit_gate.
  destruct (req_connect_info req) as [addr|] eqn:Haddr; [|done].
  destruct (check_and_consume _ _ _ _) as [l1 [|]] eqn:Hck; [|done]. cbn [snd].
  intros Hs. set (limit := effective_limit (cfg_body cfg)) in *.
  split; [exists addr; by rewrite Hck|]. split.
  - intros v s n Hv Hstr Hn. revert Hs. unfold body_limit_middleware, body_limit_gate. rewrite Hv. simpl.
    rewrite Hstr. simpl. rewrite Hn. fold limit. by destruct (Z.ltb_spec limit n).
  - apply body_limit_sent in Hs. unfold proxy_router, extract_connect_info in Hs. cbn [with_body req_connect_info] in Hs.
    rewrite Haddr in Hs. apply proxy_handler_sent_inv in Hs as (site & u & _ & _ & _ & Hr & _).
    apply built_request_headers in Hr as (_ & _ & -> & _). cbn [with_body req_body].
    rewrite limited_frames. fold limit. split; [apply limit_frames_bytes; lia|].
    split; [apply limit_frames_id|apply limit_frames_over; lia].
Qed.

(** ** Concrete requests *)

Import Concrete.

Definition test_addr : SocketAddr := mk_socket_addr (V4 203 0 113 7) 40000.

Lemma test_addr_wf : wf_ip (sa_ip test_addr).
Proof. repeat constructor; vm_compute; discriminate. Qed.

Definition get_request (uri : U) (headers : list (string * string)) : Request :=
  mkRequest "GET" uri headers [Ok "ab"; Ok "c"] (Some test_addr).

Definition spoofed_request : Request :=
  get_request (mkU None "/a/b" (Some "q=1"))
    [("host", "Test.Local:8443"); ("x-forwarded-for", "10.0.0.1"); ("accept", "*/*");
     ("connection", "close"); ("trailer", "Expires"); ("accept", "text/html")].

(** An upstream that answers every request after [t] nanoseconds. *)
Definition answering (t : Z) : Clients :=
  let f := λ _ : Request, Some (t, Ok (mkUpstream 200
             [("server", "nginx"); ("content-type", "text/html"); ("connection", "close")] [Ok "hi"])) in
  mkClients f f.

Definition test_loads `{Unicode} : Loads :=
  mkLoads test_dynamic_config test_dynamic_config test_dynamic_config.

(** What the upstream receives, without its type. *)
Definition received (o : option (bool * Request)) : option (bool * string * U * list (string * string)) :=
  '(tls, r) ← o; Some (tls, req_method r, req_uri r : U, req_headers r : list (string * string)).

Example forwarded_example :
  let u := ascii_only in
  received (o_sent (proxy_handler test_dynamic_config (answering 1) test_addr 0 spoofed_request))
  = Some (false, "GET", mkU (Some (mkAuth "127.0.0.1" (Some 8080%Z))) "/a/b" (Some "q=1"),
      [("accept", "*/*"); ("trailer", "Expires"); ("accept", "text/html");
       ("x-real-ip", "203.0.113.7"); ("x-forwarded-for", "203.0.113.7");
       ("x-forwarded-proto", "https"); ("host", "Test.Local:8443")]).
Proof. vm_compute. reflexivity. Qed.

Lemma received_Some o x : received o = Some x → ∃ tls r, o = Some (tls, r).
Proof. destruct o as [[tls r]|]; [eauto|done]. Qed.

Lemma forwarding_faithful_witness :
  let u := ascii_only in
  ∃ tls r, o_sent (proxy_handler test_dynamic_config (answering 1) test_addr 0 spoofed_request)
           = Some (tls, r) ∧
    hm_get_all (req_headers r) "x-forwarded-for" = forwarded_values spoofed_request test_addr "x-forwarded-for".
Proof.
  intros u. destruct (received_Some _ _ forwarded_example) as (tls & r & E).
  exists tls, r. split; [exact E|].
  destruct (forwarding_faithful test_dynamic_config (answering 1) test_addr 0 spoofed_request tls r
    test_addr_wf E) as (site & _ & _ & _ & _ & _ & Hh & _).
  apply Hh.
Defined.

Lemma handler_total_witness :
  let u := ascii_only in
  status_of (o_response (proxy_handler test_dynamic_config (answering 1) test_addr 0 spoofed_request))
  = 200%Z.
Proof.
  intros u.
  destruct (handler_total test_dynamic_config (answering 1) test_addr 0 spoofed_request)
    as (r & Hs & _ & Hst).
  - apply Nat.ltb_lt. vm_compute. reflexivity.
  - rewrite Hst. reflexivity.
Defined.

Lemma response_faithful_witness :
  let u := ascii_only in
  ∃ resp, up_status resp = 200%Z ∧
    hm_get_all (H := Concrete.http) [("content-type", "text/html")] "content-type"
    = hm_get_all (up_headers resp) "content-type".
Proof.
  intros u.
  destruct (response_faithful test_dynamic_config (answering 1) test_addr 0 spoofed_request 200
    [("content-type", "text/html")] [Ok "hi"]) as (site & tls & r & t & resp & _ & _ & _ & _ & Hst & _ & Hh).
  - reflexivity.
  - exists resp. split; [symmetry; exact Hst|apply (Hh "content-type")].
Defined.

Lemma router_protects_upstream_witness :
  let u := ascii_only in
  ∃ tls r, o_sent (build_router test_loads (answering 1) RateLimiter_new (at_instant 0%Z) 0
                     spoofed_request).2 = Some (tls, r) ∧
    (data_bytes (body_frames (req_body r)) ≤ 104857600)%Z.
Proof.
  intros u.
  destruct (received_Some (o_sent (build_router test_loads (answering 1) RateLimiter_new
    (at_instant 0%Z) 0 spoofed_request).2) (default (false, "", mkU None "" None, [])
      (received (o_sent (build_router test_loads (answering 1) RateLimiter_new
    (at_instant 0%Z) 0 spoofed_request).2)))) as (tls & r & E); [vm_compute; reflexivity|].
  exists tls, r. split; [exact E|].
  apply (router_protects_upstream test_loads (answering 1) RateLimiter_new (at_instant 0%Z) 0
    spoofed_request tls r); [vm_compute; discriminate|exact E].
Defined.

(** ** Divergences *)

(** The connect timeout covers the whole exchange: with the default timeouts (5
    and 60 seconds) an upstream that accepts the connection at once and answers
    after six seconds is reported as a timeout. *)
Lemma connect_timeout_covers_exchange `{HttpLaws} site f :
  (site_connect_timeout_secs site ≤ site_request_timeout_secs site)%Z →
  upstream_verdict site f = upstream_verdict
    {| site_host := site_host site; site_upstream := site_upstream site;
       site_upstream_scheme := site_upstream_scheme site;
       site_connect_timeout_secs := site_connect_timeout_secs site;
       site_request_timeout_secs := site_connect_timeout_secs site |} f.
Proof.
  intros Hle. unfold upstream_verdict, deadline, nanos. simpl.
  rewrite !Z.min_l by lia. done.
Qed.

Lemma slow_answer_is_timeout :
  let u := ascii_only in
  site_connect_timeout_secs test_site = default_connect_timeout ∧
  site_request_timeout_secs test_site = default_request_timeout ∧
  status_of (o_response (proxy_handler test_dynamic_config (answering (6 * 10 ^ 9)) test_addr 0
    spoofed_request)) = 504%Z.
Proof. vm_compute. done. Qed.

(** A request with both an authority in its URI and a [Host] header is routed by
    the header and forwarded with the authority. *)
Lemma routed_host_is_not_forwarded_host :
  let u := ascii_only in
  let req := get_request (mkU (Some (mkAuth "other.example" None)) "/" None) [("host", "test.local")] in
  request_host req = "test.local" ∧ host_header req = Ok (Some "other.example") ∧
  lookup test_dynamic_config "other.example" = None ∧
  match received (o_sent (proxy_handler test_dynamic_config (answering 1) test_addr 0 req)) with
  | Some (_, _, _, headers) => ("host", "other.example") ∈ headers
  | None => False
  end.
Proof.
  intros u req. do 3 (split; [reflexivity|]). vm_compute.
  repeat (apply list_elem_of_here || apply list_elem_of_further).
Qed.

(** The 502 for a malformed upstream URI has neither the text body nor the content
    type of the documented error responses. *)
Lemma malformed_uri_response_is_bare `{Http, Unicode} config clients addr ms req site :
  is_empty (request_host req) = false → lookup config (request_host req) = Some site →
  build_upstream_uri (site_upstream_scheme site) (site_upstream site) (req_uri req) = None →
  o_response (proxy_handler config clients addr ms req) = Local 502 [] "".
Proof.
  intros Hh Hl Hu. unfold proxy_handler, handler_start. rewrite Hh, Hl. cbv zeta. cbn [req_uri]. by rewrite Hu.
Qed.
