(* ===== verification/Redirect.v ===== *)
(** * HTTP to HTTPS redirect

    [tls/redirect.rs]: the plain-text listener answers every request with a
    permanent redirect to the HTTPS listener of the same host. *)

From S2P Require Import Prelude Text Net Http Config Routing Fixtures.
Local Open Scope string_scope.
Local Open Scope list_scope.

Definition ACME_CHALLENGE_PREFIX : string := "/.well-known/acme-challenge/".

Definition build_redirect_url (host : string) (https_port : Z) (path query : string) : string :=
  let hostname := strip_port_from_host host in
  let port_suffix := if (https_port =? 443)%Z then "" else ":" +:+ show_uint https_port in
  let path_part :=
    if is_empty path || negb (starts_with_char "/" path) then "/" +:+ path else path in
  if is_empty query
  then "https://" +:+ hostname +:+ port_suffix +:+ path_part
  else "https://" +:+ hostname +:+ port_suffix +:+ path_part +:+ "?" +:+ query.

(** The body of the 301 is the [Display] of the status. *)
Definition redirect_handler `{Http} (https_port : Z) (request : Request) : Response :=
  let host := v ← hm_get (req_headers request) "host"; to_str v in
  let host := h ← host; if negb (is_empty h) then Some h else None in
  match host with
  | None => text_response 400 "Bad Request"
  | Some host =>
      let path := uri_path (req_uri request) in
      let query := default "" (uri_query (req_uri request)) in
      if starts_with ACME_CHALLENGE_PREFIX path then text_response 404 "Not Found"
      else
        let location := build_redirect_url host https_port path query in
        match header_value_from_str location with
        | Some _ =>
            Local 301 [("location", location); ("content-type", "text/plain; charset=utf-8")]
              "301 Moved Permanently"
        | None => text_response 500 "Internal Server Error"
        end
  end.

(** Every route falls back to the handler. *)
Definition redirect_router `{Http} (https_port : Z) : Request → Response :=
  redirect_handler https_port.

(** [start_http_redirect_listener] up to the accept loop: the address it binds, and
    the router it serves.  [bind] is what [TcpListener::bind] and [local_addr]
    return. *)
Definition start_http_redirect_listener `{Http} (bind : SocketAddr → result SocketAddr string)
    (l : ListenerConfig) : result (SocketAddr * (Request → Response)) string :=
  (let text := bind_addr l +:+ ":" +:+ show_uint (http_port l) in
   addr <-? match parse_socket_addr text with
            | Some addr => Ok addr
            | None => Err ("invalid bind address " +:+ text +:+ " for HTTP redirect")
            end;
   local_addr <-? bind addr;
   Ok (local_addr, redirect_router (https_port l)))%rust.

(** ** The redirect target

    A reader of [https://] URLs: the authority ends at the first slash, question mark or
    hash; the rest follows. *)
Definition ends_authority (c : ascii) : bool :=
  Ascii.eqb c "/" || Ascii.eqb c "?" || Ascii.eqb c "#".

Fixpoint span_authority (s : string) : string * string :=
  match s with
  | EmptyString => ("", "")
  | String c s' =>
      if ends_authority c then ("", s)
      else let '(a, rest) := span_authority s' in (String c a, rest)
  end.

Definition url_authority (url : string) : option (string * string) :=
  if starts_with "https://" url then Some (span_authority (str_drop 8 url)) else None.

(** A host that can be an authority: nothing in it ends one. *)
Definition plain_host (host : string) : Prop := str_all (λ c, negb (ends_authority c)) host = true.

(** The authority of the HTTPS listener for a host. *)
Definition https_authority (host : string) (https_port : Z) : string :=
  strip_port_from_host host +:+ (if (https_port =? 443)%Z then "" else ":" +:+ show_uint https_port).

(** What follows the authority. *)
Definition redirect_path (path query : string) : string :=
  (if starts_with_char "/" path then path else "/" +:+ path) +:+
  (if is_empty query then "" else "?" +:+ query).

Lemma str_all_take f n s : str_all f s = true → str_all f (str_take n s) = true.
Proof.
  revert s. induction n as [|n IH]; intros [|a s]; simpl; [done..|].
  rewrite !andb_true_iff. naive_solver.
Qed.

Lemma strip_port_all f host : str_all f host = true → str_all f (strip_port_from_host host) = true.
Proof.
  intros Hf. unfold strip_port_from_host. repeat (case_match; try done); by apply str_all_take.
Qed.

Lemma https_authority_plain host port :
  (0 ≤ port)%Z → plain_host host → plain_host (https_authority host port).
Proof.
  intros Hp Hs. unfold plain_host, https_authority. rewrite str_all_app, strip_port_all by done.
  destruct (port =? 443)%Z; [done|]. simpl. eapply str_all_impl; [|by apply show_uint_digits].
  intros c Hc. unfold ends_authority. rewrite negb_true_iff, !orb_false_iff.
  repeat split; apply Ascii.eqb_neq; by intros ->.
Qed.

Lemma span_authority_app a c rest :
  plain_host a → ends_authority c = true → span_authority (a +:+ String c rest) = (a, String c rest).
Proof.
  unfold plain_host. intros Ha Hc. induction a as [|x a IH]; simpl; [by rewrite Hc|].
  simpl in Ha. apply andb_true_iff in Ha as [Hx%negb_true_iff Ha]. rewrite Hx, (IH Ha). done.
Qed.

Lemma build_redirect_url_shape host port path query :
  build_redirect_url host port path query =
    "https://" +:+ https_authority host port +:+ redirect_path path query.
Proof.
  unfold build_redirect_url, https_authority, redirect_path.
  assert ((if is_empty path || negb (starts_with_char "/" path) then "/" +:+ path else path)
    = if starts_with_char "/" path then path else "/" +:+ path) as ->.
  { destruct path as [|a path]; [done|]. change (is_empty (String a path)) with false.
    by destruct (starts_with_char "/" (String a path)). }
  destruct (is_empty query); rewrite <- ?str_app_assoc, ?str_app_nil_r; done.
Qed.

(** A reader of the location finds the authority of the HTTPS listener. *)
Lemma redirect_target host port path query :
  plain_host host → in_range u16_max port →
  url_authority (build_redirect_url host port path query)
  = Some (https_authority host port, redirect_path path query).
Proof.
  intros Hs [Hp _]. rewrite build_redirect_url_shape. unfold url_authority.
  pose proof (https_authority_plain host port Hp Hs) as Ha.
  set (a := https_authority host port) in *. clearbody a.
  assert (∃ p, redirect_path path query = String "/" p) as [p ->].
  { unfold redirect_path. destruct (starts_with_char "/" path) eqn:E; [|simpl; eauto].
    destruct path as [|c path]; [done|]. apply Ascii.eqb_eq in E as ->. simpl. eauto. }
  unfold starts_with. rewrite prefix_app.
  change (str_drop 8 ("https://" +:+ a +:+ String "/" p)) with (a +:+ String "/" p).
  by rewrite span_authority_app.
Qed.

(** ** The handler *)

(** Only path and query can spoil the header value. *)
Lemma build_redirect_url_header_chars host port path query :
  (0 ≤ port)%Z → str_all header_char host = true →
  str_all header_char (build_redirect_url host port path query)
  = str_all header_char path && str_all header_char query.
Proof.
  intros Hp Hh. rewrite build_redirect_url_shape. unfold https_authority, redirect_path.
  rewrite !str_all_app, strip_port_all by done.
  pose proof (visible_header_char _ (show_uint_visible port Hp)) as Hd.
  destruct (port =? 443)%Z, (starts_with_char "/" path), query; simpl; rewrite ?Hd, ?andb_true_r; done.
Qed.

(** [C38] What the redirect listener answers to any request: 400 without a usable [Host]
    header; 404 for paths under the ACME challenge prefix; otherwise 301 with the location
    [https://] followed by the host without its port, the HTTPS port unless that is 443,
    and the path and query of the request, or 500 exactly if the path or the query has a
    character no header value can hold.  For a host without a slash, question mark or
    hash, a reader of the location finds exactly that authority: the client is sent to the
    HTTPS listener of the host it asked for and nowhere else. *)
Theorem redirect_outcome `{HttpLaws} port req :
  in_range u16_max port →
  let path := uri_path (req_uri req) in
  let query := default "" (uri_query (req_uri req)) in
  match v ← hm_get (req_headers req) "host"; to_str v with
  | Some host =>
      if is_empty host then redirect_handler port req = text_response 400 "Bad Request"
      else if starts_with ACME_CHALLENGE_PREFIX path
      then redirect_handler port req = text_response 404 "Not Found"
      else
        let location := "https://" +:+ https_authority host port +:+ redirect_path path query in
        redirect_handler port req =
          (if str_all header_char path && str_all header_char query then
             Local 301 [("location", location); ("content-type", "text/plain; charset=utf-8")]
               "301 Moved Permanently"
           else text_response 500 "Internal Server Error") ∧
        (plain_host host →
         url_authority location = Some (https_authority host port, redirect_path path query))
  | None => redirect_handler port req = text_response 400 "Bad Request"
  end.
Proof.
  intros Hp path query. unfold redirect_handler.
  destruct (hm_get (req_headers req) "host") as [v|]; cbn [mbind option_bind]; [|done].
  destruct (to_str v) as [host|] eqn:Hv; cbn [mbind option_bind]; [|done].
  destruct (is_empty host); cbn [negb]; [done|]. cbv zeta. fold path query. destruct (starts_with _ _); [done|].
  apply to_str_visible, visible_header_char in Hv.
  pose proof (from_str_ok (build_redirect_url host port path query)) as Hok.
  rewrite (build_redirect_url_header_chars host port path query (proj1 Hp) Hv) in Hok.
  rewrite <- build_redirect_url_shape. split; [|intros Hs; by apply redirect_target].
  destruct (_ && _), (header_value_from_str _); try done.
  - destruct (proj2 Hok eq_refl). done.
  - by specialize (proj1 Hok (mk_is_Some _ _ eq_refl)).
Qed.

Import Concrete.

Definition plain_request : Request :=
  @mkRequest http "GET" (mkU None "/a" (Some "b=c")) [("host", "example.com:80")] [] None.

Lemma redirect_outcome_witness :
  redirect_handler 8443 plain_request
  = Local 301 [("location", "https://example.com:8443/a?b=c"); ("content-type", "text/plain; charset=utf-8")]
      "301 Moved Permanently" ∧
  url_authority "https://example.com:8443/a?b=c" = Some ("example.com:8443", "/a?b=c").
Proof.
  destruct (redirect_outcome 8443 plain_request) as [Hr Ht].
  - split; vm_compute; discriminate.
  - split; [exact Hr|]. apply Ht. reflexivity.
Defined.

(** ** Divergences *)

(** A [Host] that holds a slash shifts the authority of the location. *)
Lemma slash_in_host_shifts_authority :
  url_authority (build_redirect_url "example.com/evil" 8443 "/" "") = Some ("example.com", "/evil:8443/").
Proof. reflexivity. Qed.

(** Challenge paths get 404. *)
Lemma challenge_path_not_served :
  redirect_handler 443 (@mkRequest http "GET" (mkU None "/.well-known/acme-challenge/token" None)
    [("host", "example.com")] [] None) = text_response 404 "Not Found".
Proof. reflexivity. Qed.

(** An IPv6 literal keeps its brackets. *)
Example redirect_target_ipv6 :
  url_authority (build_redirect_url "[2001:db8::1]:8080" 8443 "" "x=/y") =
    Some ("[2001:db8::1]:8443", "/?x=/y").
Proof. reflexivity. Qed.
