(* ===== verification/TestsProxy.v ===== *)
(** * The unit tests of the request path

    The test modules of [src/rate_limit/bucket.rs], [rate_limit/mod.rs],
    [src/proxy/headers.rs], [handler.rs], [error.rs], [body_limit.rs] and
    [src/tls/redirect.rs], evaluated on the model with the concrete HTTP library of
    [Http].  Time is explicit: a test takes none except where it sleeps. *)

From S2P Require Import Prelude Text F64 Net Http Config Routing Toml Validation Fixtures TestsValidation.
From S2P Require Import RateLimit RateLimitProps Proxy ProxyProps Redirect.
Local Open Scope string_scope.
Local Open Scope list_scope.
Import Concrete.

#[local] Existing Instance ascii_only.

Definition ms (n : Z) : Duration := (n * 10 ^ 6)%Z.

(** ** [bucket.rs] *)

(** [n] calls of [try_consume] at the instant [t], and whether all succeeded. *)
Fixpoint consume_all (n : nat) (rate : f64) (max : Z) (t : Instant) (b : TokenBucket) : TokenBucket * bool :=
  match n with
  | O => (b, true)
  | S n =>
      let r := try_consume b rate max t t in
      let rest := consume_all n rate max t r.1 in (rest.1, r.2 && rest.2)
  end.

Definition new_bucket (rate max : Z) : TokenBucket := TokenBucket_new (f64_of_int rate) max 0%Z 0%Z.

Definition token_bucket_starts_full : bool := f64_ge (tokens (new_bucket 10 20)) (f64_of_int 20)
  && f64_ge (f64_of_int 20) (tokens (new_bucket 10 20)).

Definition token_bucket_consume_within_burst : bool :=
  (consume_all 20 (f64_of_int 10) 20 0%Z (new_bucket 10 20)).2.

Definition token_bucket_reject_when_empty : bool :=
  let r := consume_all 5 (f64_of_int 10) 5 0%Z (new_bucket 10 5) in
  r.2 && negb (try_consume r.1 (f64_of_int 10) 5 0%Z 0%Z).2.

Definition token_bucket_refills_over_time : bool :=
  let r := consume_all 5 (f64_of_int 1000) 5 0%Z (new_bucket 1000 5) in
  let again := try_consume r.1 (f64_of_int 1000) 5 0%Z 0%Z in
  r.2 && negb again.2 && (try_consume again.1 (f64_of_int 1000) 5 (ms 10) (ms 10)).2.

(** [bucket.tokens <= 5.5] *)
Definition token_bucket_caps_at_max : bool :=
  let r := consume_all 5 (f64_of_int 10) 5 0%Z (new_bucket 10 5) in
  let later := try_consume r.1 (f64_of_int 10) 5 (ms 500) (ms 500) in
  r.2 && f64_ge (f64_div (f64_of_int 11) (f64_of_int 2)) (tokens later.1).

Definition token_bucket_config_reload_caps_tokens : bool :=
  let r := try_consume (new_bucket 10 20) (f64_of_int 10) 20 0%Z 0%Z in
  let b := refill r.1 (f64_of_int 10) 10 0%Z in
  r.2 && f64_ge (f64_add (f64_of_int 10) (f64_of_int 1)) (tokens b).

Definition token_bucket_config_reload_adopts_new_rate : bool :=
  let r := consume_all 5 (f64_of_int 10) 5 0%Z (new_bucket 10 5) in
  let again := try_consume r.1 (f64_of_int 10) 5 0%Z 0%Z in
  r.2 && negb again.2 && (try_consume again.1 (f64_of_int 50) 5 (ms 200) (ms 200)).2.

(** The five tests of [normalize_ip]. *)
Definition normalize_ip_tests : bool :=
  bool_decide (normalize_ip (V4 192 168 1 1) = V4 192 168 1 1) &&
  bool_decide (normalize_ip (V6 0x2001 0x0db8 0x85a3 0x0001 0x1234 0x5678 0x9abc 0xdef0)
               = V6 0x2001 0x0db8 0x85a3 0x0001 0 0 0 0) &&
  bool_decide (normalize_ip (V6 0x2001 0x0db8 0 0 0 0 0 0) = V6 0x2001 0x0db8 0 0 0 0 0 0) &&
  bool_decide (normalize_ip (V6 0xfe80 0 0 0 0x1234 0x5678 0x9abc 0xdef0) = V6 0xfe80 0 0 0 0 0 0 0) &&
  bool_decide (normalize_ip (V6 0 0 0 0 0 0 0 1) = V6 0 0 0 0 0 0 0 0).

Lemma bucket_tests_pass :
  forallb id
    [token_bucket_starts_full; token_bucket_consume_within_burst; token_bucket_reject_when_empty;
     token_bucket_refills_over_time; token_bucket_caps_at_max; token_bucket_config_reload_caps_tokens;
     token_bucket_config_reload_adopts_new_rate; normalize_ip_tests] = true.
Proof. vm_compute. reflexivity. Qed.

(** ** [rate_limit/mod.rs] *)

Definition make_limiter (rps burst : Z) : DynamicConfig :=
  mkDynamicConfig (sites test_dynamic_config) (routing_table test_dynamic_config)
    (mkRateLimitConfig rps burst) (body test_dynamic_config).

(** The verdicts of requests from [ips], all at one instant, on a new limiter. *)
Definition verdicts (config : DynamicConfig) (ips : list IpAddr) : list bool :=
  (limiter_run RateLimiter_new ((λ ip, OpCheck config ip (at_instant 0%Z)) <$> ips)).2.*2.

Definition check_and_consume_allows_within_burst : bool :=
  bool_decide (verdicts (make_limiter 10 5) (replicate 5 (V4 192 168 1 1)) = replicate 5 true).

Definition check_and_consume_rejects_above_burst : bool :=
  bool_decide (verdicts (make_limiter 10 5) (replicate 6 (V4 192 168 1 1)) = replicate 5 true ++ [false]).

Definition check_and_consume_per_ip_independent : bool :=
  bool_decide (verdicts (make_limiter 10 5) (replicate 6 (V4 192 168 1 1) ++ [V4 192 168 1 2])
               = replicate 5 true ++ [false; true]).

Definition check_and_consume_ipv6_normalized_to_64 : bool :=
  let ip1 := V6 0x2001 0x0db8 0x85a3 0x0001 0x1111 0x2222 0x3333 0x4444 in
  let ip2 := V6 0x2001 0x0db8 0x85a3 0x0001 0x5555 0x6666 0x7777 0x8888 in
  bool_decide (verdicts (make_limiter 10 5) (replicate 5 ip1 ++ [ip2]) = replicate 5 true ++ [false]).

Definition evict_removes_stale_entries : bool :=
  let config := make_limiter 10 20 in
  let ip1 := V4 192 168 1 1 in
  let ip2 := V4 192 168 1 2 in
  let l := (limiter_run RateLimiter_new
    [OpCheck config ip1 (at_instant 0%Z); OpCheck config ip2 (at_instant (ms 50)); OpEvict (ms 25) (ms 50)]).1 in
  negb (contains_ip l ip1) && contains_ip l ip2.

Definition config_reload_adopted_on_next_request : bool :=
  let first := check_and_consume test_dynamic_config RateLimiter_new (V4 192 168 1 1) (at_instant 0%Z) in
  first.2 && bool_decide
    ((limiter_run first.1 (replicate 3 (OpCheck (make_limiter 10 2) (V4 192 168 1 1) (at_instant 0%Z)))).2.*2
     = [true; true; false]).

(** A router with one route that answers ["ok"], behind the limiter; [headers] of each request. *)
Fixpoint statuses (config : DynamicConfig) (l : RateLimiter) (peer : option SocketAddr)
    (requests : list (list (string * string))) : list Z :=
  match requests with
  | [] => []
  | headers :: requests =>
      let req := mkRequest "GET" (mkU None "/" None) headers [] peer in
      let '(l, out) := rate_limit_middleware config l (at_instant 0%Z)
                         (λ _, mkOutcome (text_response 200 "ok") None []) req in
      status_of (o_response out) :: statuses config l peer requests
  end.

Definition client_addr : SocketAddr := mk_socket_addr (V4 127 0 0 1) 12345.

Definition middleware_uses_connect_info_without_xff_header : bool :=
  bool_decide (statuses (make_limiter 10 5) RateLimiter_new (Some client_addr) (replicate 6 [])
               = replicate 5 200%Z ++ [429%Z]).

Definition middleware_rejects_without_connect_info : bool :=
  bool_decide (statuses (make_limiter 10 20) RateLimiter_new None [[]] = [429%Z]).

Definition middleware_ignores_xff_header_same_bucket : bool :=
  bool_decide (statuses (make_limiter 10 2) RateLimiter_new (Some client_addr)
                 [[("x-forwarded-for", "10.0.0.1")]; [("x-forwarded-for", "10.0.0.2")];
                  [("x-forwarded-for", "10.0.0.3")]] = [200%Z; 200%Z; 429%Z]).

Lemma rate_limit_tests_pass :
  forallb id
    [check_and_consume_allows_within_burst; check_and_consume_rejects_above_burst;
     check_and_consume_per_ip_independent; check_and_consume_ipv6_normalized_to_64;
     evict_removes_stale_entries; config_reload_adopted_on_next_request;
     middleware_uses_connect_info_without_xff_header; middleware_rejects_without_connect_info;
     middleware_ignores_xff_header_same_bucket] = true.
Proof. vm_compute. reflexivity. Qed.

(** ** [headers.rs] *)

Definition headers_of (kvs : list (string * string)) : @HeaderMap http :=
  foldl (λ h kv, hm_insert h kv.1 (header_value_from_static kv.2)) hm_empty kvs.

Definition header_is (h : @HeaderMap http) (n v : string) : bool :=
  bool_decide (hm_get h n = Some (v : @HeaderValue http)).

Definition make_headers_with_hop_by_hop : @HeaderMap http :=
  headers_of [("connection", "keep-alive"); ("keep-alive", "timeout=5");
    ("proxy-authorization", "Basic abc"); ("proxy-authenticate", "Basic realm=x"); ("te", "trailers");
    ("trailers", "chunked"); ("transfer-encoding", "chunked"); ("upgrade", "websocket");
    ("content-type", "text/html"); ("accept", "*/*")].

Definition remove_hop_by_hop_removes_all_listed_headers : bool :=
  let h := remove_hop_by_hop make_headers_with_hop_by_hop in
  forallb (λ n, bool_decide (hm_get h n = None))
    ["connection"; "keep-alive"; "proxy-authorization"; "proxy-authenticate"; "te"; "trailers";
     "transfer-encoding"; "upgrade"].

Definition remove_hop_by_hop_preserves_other_headers : bool :=
  let h := remove_hop_by_hop make_headers_with_hop_by_hop in
  header_is h "content-type" "text/html" && header_is h "accept" "*/*".

Definition addr_192 : SocketAddr := mk_socket_addr (V4 192 168 1 1) 12345.
Definition addr_127 : SocketAddr := mk_socket_addr (V4 127 0 0 1) 443.

Definition inject_proxy_headers_sets_x_real_ip : bool :=
  header_is (inject_proxy_headers hm_empty addr_192) "x-real-ip" "192.168.1.1".

Definition inject_proxy_headers_replaces_x_forwarded_for : bool :=
  header_is (inject_proxy_headers (headers_of [("x-forwarded-for", "10.0.0.1, 10.0.0.2")]) addr_192)
    "x-forwarded-for" "192.168.1.1".

Definition inject_proxy_headers_sets_x_forwarded_proto_to_https : bool :=
  header_is (inject_proxy_headers hm_empty addr_127) "x-forwarded-proto" "https".

Definition inject_proxy_headers_preserves_host : bool :=
  header_is (inject_proxy_headers (headers_of [("host", "example.com")]) addr_127) "host" "example.com".

Definition remove_hop_by_hop_empty_headers : bool :=
  match hm_iter (remove_hop_by_hop (hm_empty : @HeaderMap http)) with [] => true | _ => false end.

Lemma headers_tests_pass :
  forallb id
    [remove_hop_by_hop_removes_all_listed_headers; remove_hop_by_hop_preserves_other_headers;
     inject_proxy_headers_sets_x_real_ip; inject_proxy_headers_replaces_x_forwarded_for;
     inject_proxy_headers_sets_x_forwarded_proto_to_https; inject_proxy_headers_preserves_host;
     remove_hop_by_hop_empty_headers] = true.
Proof. vm_compute. reflexivity. Qed.

(** ** [handler.rs] *)

Definition make_proxy_state (ss : list SiteConfig) : DynamicConfig :=
  from_sites ss (mkRateLimitConfig 10 20) (mkBodyConfig 104857600).

Definition example_site : SiteConfig := mkSiteConfig "example.com" "127.0.0.1:8080" "http" 5 60.

(** [Request::builder().method(…).uri(…)], with a [Host] header if there is one. *)
Definition make_request_with_connect_info (method uri : string) (host : option string)
    (remote_addr : option SocketAddr) : option Request :=
  u ← parse_u uri;
  Some (mkRequest method u (match host with Some h => [("host", h)] | None => [] end) [] remote_addr).

(** No test gets as far as an upstream. *)
Definition status_for (host : option string) : option Z :=
  req ← make_request_with_connect_info "GET" "/some/path" host (Some client_addr);
  Some (status_of (o_response (proxy_router (make_proxy_state [example_site]) (answering 0) 0%Z req))).

Definition missing_host_returns_400 : bool := bool_decide (status_for None = Some 400%Z).

Definition unknown_host_returns_404 : bool := bool_decide (status_for (Some "unknown.host") = Some 404%Z).

(** [Display] for the URIs of the tests. *)
Definition show_uri (scheme : string) (u : U) : string :=
  match u_authority u with
  | Some a => scheme +:+ "://" +:+ a_host a +:+
              match a_port a with Some p => ":" +:+ show_uint p | None => "" end
  | None => ""
  end +:+ u_path u +:+ match u_query u with Some q => "?" +:+ q | None => "" end.

Definition upstream_uri (scheme upstream uri : string) : option string :=
  match parse_u uri with
  | Some u => match build_upstream_uri scheme upstream u with
              | Some u => Some (show_uri scheme u)
              | None => None
              end
  | None => None
  end.

(** The three tests of [build_upstream_uri]. *)
Definition build_upstream_uri_tests : bool :=
  bool_decide (upstream_uri "http" "127.0.0.1:8080" "/path?foo=bar"
               = Some "http://127.0.0.1:8080/path?foo=bar") &&
  bool_decide (upstream_uri "http" "127.0.0.1:8080" "/path" = Some "http://127.0.0.1:8080/path") &&
  bool_decide (upstream_uri "https" "upstream.example.com" "/secure"
               = Some "https://upstream.example.com/secure").

(** The [Host] the upstream request has: [make_request(host_header, uri)], then
    [build_upstream_request] with the same URI. *)
Definition upstream_host (host_header : option string) (uri : string) : option string :=
  req ← make_request_with_connect_info "GET" uri host_header None;
  match build_upstream_request req (req_uri req) with
  | Ok r => hm_get (req_headers r) "host"
  | Err _ => None
  end.

Definition build_upstream_request_sets_host_from_upstream_uri : bool :=
  bool_decide (upstream_host None "http://127.0.0.1:3000/" = Some "127.0.0.1:3000").

Definition build_upstream_request_includes_authority_port_in_host : bool :=
  bool_decide (upstream_host None "http://git.alk.dev:8443/" = Some "git.alk.dev:8443").

Definition build_upstream_request_reconstructs_host_from_authority_for_h2 : bool :=
  bool_decide (upstream_host None "http://127.0.0.1:3000/" = Some "127.0.0.1:3000").

Definition build_upstream_request_h2_authority_wins_over_stale_host_header : bool :=
  bool_decide (upstream_host (Some "evil.example.com") "http://127.0.0.1:3000/" = Some "127.0.0.1:3000").

Definition build_upstream_request_omits_default_port_in_host : bool :=
  bool_decide (upstream_host None "http://git.example.com/" = Some "git.example.com").

Definition build_upstream_request_brackets_ipv6_authority : bool :=
  bool_decide (upstream_host None "http://[::1]:3000/" = Some "[::1]:3000").

Definition build_upstream_request_keeps_method_headers_and_body : bool :=
  match parse_u "http://127.0.0.1:3000/api" with
  | Some u =>
      match build_upstream_request (mkRequest "POST" u [("x-custom", "yes")] [Ok "payload"] None) u with
      | Ok r => (req_method r =? "POST") && (u_path (req_uri r) =? "/api") &&
                header_is (req_headers r) "x-custom" "yes" &&
                bool_decide (body_frames (req_body r) = [Ok "payload"])
      | Err _ => false
      end
  | None => false
  end.

Definition build_upstream_request_h1_client_host_header_is_forwarded : bool :=
  bool_decide (upstream_host (Some "git.alk.dev") "/some/path" = Some "git.alk.dev").

Lemma handler_tests_pass :
  forallb id
    [missing_host_returns_400; unknown_host_returns_404; build_upstream_uri_tests;
     build_upstream_request_sets_host_from_upstream_uri;
     build_upstream_request_includes_authority_port_in_host;
     build_upstream_request_reconstructs_host_from_authority_for_h2;
     build_upstream_request_h2_authority_wins_over_stale_host_header;
     build_upstream_request_omits_default_port_in_host; build_upstream_request_brackets_ipv6_authority;
     build_upstream_request_keeps_method_headers_and_body;
     build_upstream_request_h1_client_host_header_is_forwarded] = true.
Proof. vm_compute. reflexivity. Qed.

(** ** [error.rs], [body_limit.rs] and [redirect.rs] *)

Definition responds (e : ProxyError) (status : Z) (text : string) : bool :=
  match @into_response http e with
  | Local s hs t => (s =? status)%Z && (t =? text)
  | Forwarded _ _ _ => false
  end.

Definition content_type_of (e : ProxyError) : option string :=
  match @into_response http e with Local _ hs _ => assoc "content-type" hs | Forwarded _ _ _ => None end.

Definition bad_gateway : ProxyError := BadGateway "example.com" "127.0.0.1:8080".
Definition gateway_timeout : ProxyError := GatewayTimeout "example.com" "127.0.0.1:8080".
Definition too_many_requests : ProxyError := TooManyRequests "192.168.1.1" "example.com" "/api".

(** The six tests of the responses. *)
Definition error_response_tests : bool :=
  responds bad_gateway 502 "Bad Gateway" && responds gateway_timeout 504 "Gateway Timeout" &&
  responds too_many_requests 429 "Too Many Requests" &&
  forallb (λ e, bool_decide (content_type_of e = Some "text/plain; charset=utf-8"))
    [bad_gateway; gateway_timeout; too_many_requests].

Definition error_display_matches_body : bool :=
  (proxy_error_to_string (BadGateway "" "") =? "Bad Gateway") &&
  (proxy_error_to_string (GatewayTimeout "" "") =? "Gateway Timeout") &&
  (proxy_error_to_string (TooManyRequests "" "" "") =? "Too Many Requests").

Definition default_body_limit_is_100mb : bool := (DEFAULT_BODY_LIMIT_BYTES =? 104857600)%Z.

(** The fourteen tests of [build_redirect_url]. *)
Definition redirect_url_tests : bool :=
  (build_redirect_url "example.com" 443 "/" "" =? "https://example.com/") &&
  (build_redirect_url "example.com" 8443 "/" "" =? "https://example.com:8443/") &&
  (build_redirect_url "example.com" 443 "/some/path" "" =? "https://example.com/some/path") &&
  (build_redirect_url "example.com" 443 "/path" "key=val" =? "https://example.com/path?key=val") &&
  (build_redirect_url "example.com" 8443 "/path" "a=b&c=d" =? "https://example.com:8443/path?a=b&c=d") &&
  (build_redirect_url "example.com:8080" 443 "/" "" =? "https://example.com/") &&
  (build_redirect_url "example.com:8080" 8443 "/api" "token=abc"
     =? "https://example.com:8443/api?token=abc") &&
  (build_redirect_url "example.com" 443 "" "" =? "https://example.com/") &&
  (build_redirect_url "example.com" 443 "path" "" =? "https://example.com/path") &&
  (build_redirect_url "git.alk.dev" 443 "/" "repo=test" =? "https://git.alk.dev/?repo=test") &&
  (build_redirect_url "[::1]" 443 "/" "" =? "https://[::1]/") &&
  (build_redirect_url "[::1]:8080" 443 "/" "" =? "https://[::1]/") &&
  (build_redirect_url "[::1]:8080" 8443 "/" "" =? "https://[::1]:8443/") &&
  (build_redirect_url "203.0.113.10" 443 "/" "" =? "https://203.0.113.10/").

Lemma response_tests_pass :
  forallb id [error_response_tests; error_display_matches_body; default_body_limit_is_100mb; redirect_url_tests] = true.
Proof. vm_compute. reflexivity. Qed.
