(* ===== verification/Admin.v ===== *)
(** * Administration

    The health and admin listener: [admin/auth.rs], [admin/handler.rs] and
    [health.rs].  SHA-256 and hexadecimal encoding are parameters; the random key
    is an argument of the handler that draws it. *)

From S2P Require Import Prelude Text Net Http Config Routing Toml Validation Fixtures ValidRouting Reload ReloadProps.
Local Open Scope string_scope.
Local Open Scope list_scope.

(** ** Parameters *)

(** The crates [sha2] and [hex]: a digest is its 32 bytes, as a string. *)
Class Crypto := {
  sha256 : string → string;
  hex_encode : string → string;
}.

(** [str::trim] on strings that are not ASCII. *)
Class UnicodeTrim := { unicode_trim : string → string }.

(** The ASCII characters with the Unicode property White_Space. *)
Definition is_ascii_space (a : ascii) : bool :=
  ((9 <=? code a)%Z && (code a <=? 13)%Z) || (code a =? 32)%Z.

Fixpoint trim_start (s : string) : string :=
  match s with
  | String a s' => if is_ascii_space a then trim_start s' else s
  | EmptyString => EmptyString
  end.

Fixpoint trim_end (s : string) : string :=
  match s with
  | EmptyString => EmptyString
  | String a s' =>
      let t := trim_end s' in
      if is_empty t && is_ascii_space a then EmptyString else String a t
  end.

Definition trim `{UnicodeTrim} (s : string) : string :=
  if str_all is_ascii s then trim_end (trim_start s) else unicode_trim s.

(** ** Authentication ([auth.rs]) *)

Inductive AdminKeyError := NotReadable (e : string) | EmptyFile.

(** [file] is what reading the path returns. *)
Definition load_admin_key `{Crypto, UnicodeTrim} (file : string → result string string) (path : string)
    : result (option string) AdminKeyError :=
  if is_empty path then Ok None
  else match file path with
  | Err _ => Ok None
  | Ok key_content =>
      let key_trimmed := trim key_content in
      if is_empty key_trimmed then Err EmptyFile else Ok (Some (sha256 key_trimmed))
  end.

(** The token of an [Authorization] header. *)
Definition bearer_token (h : string) : option string :=
  if starts_with "Bearer " h then Some (str_drop 7 h) else None.

(** Names are looked up in lower case. *)
Definition request_token `{Http} (req : Request) : option string :=
  v ← hm_get (req_headers req) "authorization"; h ← to_str v; bearer_token h.

(** [ct_eq] is equality of digests.  [next] is the handler behind the middleware. *)
Definition admin_auth_middleware `{Http, Crypto} {A} (stored_hash : string) (unauthorized : A)
    (next : Request → A) (req : Request) : A :=
  match request_token req with
  | None => unauthorized
  | Some token =>
      let provided_hash := sha256 token in
      if (stored_hash =? provided_hash)%string then next req else unauthorized
  end.

(** ** Handlers ([handler.rs]) *)

Record AdminState := mkAdmin {
  ad_reload_handle : ConfigReloadHandle;
  ad_config_path : string;
  ad_start_time : Z;
  ad_key_hash : string;
}.

(** The replies, with the fields of their JSON bodies. *)
Inductive Reply :=
| ReloadResponse (code : Z) (status : string) (message : option string)
| StatusResponse (status : string) (uptime_secs : Z) (sites : Z)
| RotateKeyResponse (status key : string)
| Empty (code : Z).

Definition reply_status (r : Reply) : Z :=
  match r with
  | ReloadResponse code _ _ => code
  | StatusResponse _ _ _ | RotateKeyResponse _ _ => 200
  | Empty code => code
  end.

Definition reload_handler `{Unicode, FileSystem, Toml} (rlimit : option Z) (reads : FileReads)
    (state : AdminState) : AdminState * Reply :=
  let failed := ReloadResponse 500 "error" (Some "reload failed") in
  match read_and_validate_config reads (h_cli_allow_wildcard_bind (ad_reload_handle state)) with
  | Err FileChangedDuringRead =>
      (state, ReloadResponse 409 "error" (Some "config file changed during read, please retry"))
  | Err _ => (state, failed)
  | Ok (new_static, new_dynamic) =>
      let '(r, h) := reload rlimit (ad_reload_handle state) new_static new_dynamic in
      let state := mkAdmin h (ad_config_path state) (ad_start_time state) (ad_key_hash state) in
      match r with
      | Ok _ => (state, ReloadResponse 200 "ok" None)
      | Err _ => (state, failed)
      end
  end.

(** [now] is the reading of [start_time.elapsed()]. *)
Definition status_handler (now : Z) (state : AdminState) : AdminState * Reply :=
  let config := h_config (ad_reload_handle state) in
  let uptime_secs := (saturating_sub now (ad_start_time state) / 10 ^ 9)%Z in
  (state, StatusResponse "ok" uptime_secs (Z.of_nat (length (sites config)))).

(** [new_key] are the 32 random bytes. *)
Definition rotate_key_handler `{Crypto} (new_key : string) (state : AdminState) : AdminState * Reply :=
  let new_key_hex := hex_encode new_key in
  let new_hash := sha256 new_key_hex in
  (mkAdmin (ad_reload_handle state) (ad_config_path state) (ad_start_time state) new_hash,
   RotateKeyResponse "ok" new_key_hex).

(** ** Routing ([health.rs]) *)

(** What the handlers read from outside the state. *)
Record Inputs := mkInputs {
  in_rlimit : option Z;
  in_reads : FileReads;
  in_now : Z;
  in_new_key : string;
}.

Definition health_handler : Reply := Empty 200.

(** A GET route also serves HEAD; a known path with another method is 405. *)
Definition is_get (m : string) : bool := (m =? "GET")%string || (m =? "HEAD")%string.

Definition health_router (m path : string) : option Reply :=
  if (path =? "/health")%string then Some (if is_get m then health_handler else Empty 405) else None.

Section AdminRouter.
Context `{Http, Crypto, Unicode, FileSystem, Toml}.

(** The admin routes; [None] for any other path. *)
Definition admin_routes (i : Inputs) (state : AdminState) (m path : string)
    : option (AdminState * Reply) :=
  if (path =? "/admin/reload")%string then
    Some (if (m =? "POST")%string then reload_handler (in_rlimit i) (in_reads i) state
          else (state, Empty 405))
  else if (path =? "/admin/status")%string then
    Some (if is_get m then status_handler (in_now i) state else (state, Empty 405))
  else if (path =? "/admin/rotate-key")%string then
    Some (if (m =? "POST")%string then rotate_key_handler (in_new_key i) state
          else (state, Empty 405))
  else None.

(** The authentication layer wraps the admin routes and their fallback, which the merge
    with the health router keeps: a path nobody serves is 404 only to a client with the
    token. *)
Definition admin_router (i : Inputs) (state : AdminState) (req : Request) : AdminState * Reply :=
  let m := req_method req in
  let path := uri_path (req_uri req) in
  match health_router m path with
  | Some r => (state, r)
  | None =>
      let outcome := default (state, Empty 404) (admin_routes i state m path) in
      admin_auth_middleware (ad_key_hash state) (state, Empty 401) (λ _, outcome) req
  end.

(** The listener without an admin key: health only. *)
Definition health_only (req : Request) : Reply :=
  default (Empty 404) (health_router (req_method req) (uri_path (req_uri req))).

(** A session on the listener: the requests with what their handlers read. *)
Fixpoint admin_run (state : AdminState) (reqs : list (Inputs * Request))
    : AdminState * list Reply :=
  match reqs with
  | [] => (state, [])
  | (i, req) :: reqs =>
      let '(state, r) := admin_router i state req in
      let '(state, rs) := admin_run state reqs in (state, r :: rs)
  end.

(** The token of the request matches the stored digest. *)
Definition authorized (state : AdminState) (req : Request) : Prop :=
  ∃ token, request_token req = Some token ∧ sha256 token = ad_key_hash state.
End AdminRouter.

(** [start_health_check_listener] up to the accept loop: always on loopback. *)
Definition start_health_check_listener (bind : SocketAddr → result SocketAddr string) (port : Z)
    : result SocketAddr string := bind (mk_socket_addr (V4 127 0 0 1) port).

(** ** Trimming *)

Lemma trim_end_spaces ws : str_all is_ascii_space ws = true → trim_end ws = "".
Proof.
  induction ws as [|a ws IH]; simpl; [done|]. intros [Ha Hw]%andb_true_iff. by rewrite IH, Ha.
Qed.

Lemma trim_end_app key ws :
  str_all (λ a, negb (is_ascii_space a)) key = true → str_all is_ascii_space ws = true →
  trim_end (key +:+ ws) = key.
Proof.
  intros Hk Hw. induction key as [|a key IH]; simpl; [by apply trim_end_spaces|].
  simpl in Hk. apply andb_true_iff in Hk as [Ha Hk]. rewrite (IH Hk).
  apply negb_true_iff in Ha. by rewrite Ha, andb_false_r.
Qed.

Lemma trim_start_app ws key :
  str_all is_ascii_space ws = true → str_all (λ a, negb (is_ascii_space a)) key = true →
  ∀ ws', trim_start (ws +:+ key +:+ ws') = if is_empty key then trim_start ws' else key +:+ ws'.
Proof.
  intros Hw Hk ws'. induction ws as [|a ws IH]; simpl.
  - destruct key as [|a key]; [done|]. simpl in Hk. apply andb_true_iff in Hk as [Ha _].
    simpl. by destruct (is_ascii_space a).
  - simpl in Hw. apply andb_true_iff in Hw as [-> Hw]. by apply IH.
Qed.

(** A key surrounded by ASCII white space, as [echo] leaves it in a file. *)
Lemma trim_key `{UnicodeTrim} ws key ws' :
  str_all is_ascii_space ws = true → str_all is_ascii_space ws' = true →
  str_all (λ a, negb (is_ascii_space a)) key = true → str_all is_ascii key = true →
  is_empty key = false → trim (ws +:+ key +:+ ws') = key.
Proof.
  intros Hw Hw' Hk Ha Hne. unfold trim.
  assert (∀ s, str_all is_ascii_space s = true → str_all is_ascii s = true) as Hsp.
  { intros s. apply str_all_impl, ascii_forall_impl. by vm_compute. }
  rewrite !str_all_app, (Hsp ws Hw), (Hsp ws' Hw'), Ha. simpl. rewrite trim_start_app, Hne by done.
  by apply trim_end_app.
Qed.

(** ** Access control *)

Section AdminFacts.
Context `{Http, Crypto, Unicode, FileSystem, Toml}.

Lemma auth_middleware_authorized {A} state (u : A) next req :
  authorized state req → admin_auth_middleware (ad_key_hash state) u next req = next req.
Proof.
  intros (token & Ht & Hs). unfold admin_auth_middleware. rewrite Ht, Hs.
  by rewrite (proj2 (String.eqb_eq _ _)).
Qed.

Lemma auth_middleware_unauthorized {A} state (u : A) next req :
  ¬ authorized state req → admin_auth_middleware (ad_key_hash state) u next req = u.
Proof.
  intros Hn. unfold admin_auth_middleware. destruct (request_token req) as [token|] eqn:Ht; [|done].
  destruct (String.eqb_spec (ad_key_hash state) (sha256 token)) as [E|]; [|done].
  destruct Hn. by exists token.
Qed.

Lemma unauthorized_router i state req :
  ¬ authorized state req → ∃ code, admin_router i state req = (state, Empty code).
Proof.
  intros Hn. unfold admin_router, health_router, health_handler. repeat case_match; simplify_eq; eauto.
  rewrite auth_middleware_unauthorized by done. eauto.
Qed.
End AdminFacts.

(** [C17] Nobody changes the process, or learns anything from the admin endpoints,
    without the key: in a session in which no request carries a token with the
    stored digest, the state (configuration, static configuration, key) stays as it
    was, and every reply is a bare status with no body. *)
Theorem unauthorized_session `{Http, Crypto, Unicode, FileSystem, Toml} state reqs :
  Forall (λ ir, ¬ authorized state ir.2) reqs →
  (admin_run state reqs).1 = state ∧
  Forall (λ r, ∃ code, r = Empty code) (admin_run state reqs).2.
Proof.
  induction 1 as [|[i req] reqs Hn _ [IH1 IH2]]; simpl; [by split|].
  destruct (unauthorized_router i state req Hn) as [code ->].
  destruct (admin_run state reqs) as [state' rs]. simpl in *. subst. eauto.
Qed.

(** The last key the session handed out. *)
Definition last_key (rs : list Reply) : option string :=
  last (omap (λ r, match r with RotateKeyResponse _ key => Some key | _ => None end) rs).

(** [C33] Key rotation: after any session the stored digest is that of the last key
    a rotation returned, or the one the session started with if there was none; so
    a token is accepted exactly if its digest is that of the last key. *)
Theorem key_rotation `{Http, Crypto, Unicode, FileSystem, Toml} state reqs :
  let '(state', rs) := admin_run state reqs in
  ad_key_hash state' = match last_key rs with
                       | Some key => sha256 key
                       | None => ad_key_hash state
                       end ∧
  (∀ req key, last_key rs = Some key → request_token req = Some key → authorized state' req).
Proof.
  assert (∀ state, let '(state', rs) := admin_run state reqs in
    ad_key_hash state' = from_option sha256 (ad_key_hash state) (last_key rs)) as Hrun.
  { clear state. induction reqs as [|[i req] reqs IH]; intros state; simpl; [done|].
    destruct (admin_router i state req) as [s1 r] eqn:Hr. specialize (IH s1).
    destruct (admin_run s1 reqs) as [s2 rs]. rewrite IH. unfold last_key. simpl.
    assert (match r with
            | RotateKeyResponse _ key => ad_key_hash s1 = sha256 key
            | _ => ad_key_hash s1 = ad_key_hash state
            end) as Hstep.
    { revert Hr. unfold admin_router, admin_auth_middleware, admin_routes, health_router,
        health_handler, reload_handler, status_handler, rotate_key_handler.
      repeat case_match; intros; simplify_eq/=; try done; repeat case_match; simplify_eq/=; done. }
    destruct r; simpl in *; try (by rewrite Hstep).
    rewrite last_cons. destruct (last _); simpl; [done|by rewrite Hstep]. }
  specialize (Hrun state). destruct (admin_run state reqs) as [state' rs]. split.
  - rewrite Hrun. by destruct (last_key rs).
  - intros req key Hk Ht. exists key. split; [done|]. by rewrite Hrun, Hk.
Qed.

(** The key file is the key: a process started on a readable file that holds an
    ASCII key, with white space around it or not, accepts a request exactly if the
    digest of its bearer token is the digest of the key; in particular it accepts
    the key itself. *)
Theorem key_file_authenticates `{HttpLaws, Crypto, UnicodeTrim} file path ws key ws' :
  is_empty path = false → file path = Ok (ws +:+ key +:+ ws') →
  str_all is_ascii_space ws = true → str_all is_ascii_space ws' = true →
  str_all (λ a, negb (is_ascii_space a)) key = true → str_all is_ascii key = true →
  is_empty key = false →
  ∃ hash, load_admin_key file path = Ok (Some hash) ∧
    ∀ h p t req,
      let state := mkAdmin h p t hash in
      (authorized state req ↔ ∃ token, request_token req = Some token ∧ sha256 token = sha256 key) ∧
      (∀ v, hm_get (req_headers req) "authorization" = Some v →
            to_str v = Some ("Bearer " +:+ key) → authorized state req).
Proof.
  intros Hp Hf Hw Hw' Hk Ha Hne. exists (sha256 key). split.
  - unfold load_admin_key. rewrite Hp, Hf, trim_key by done. by rewrite Hne.
  - intros h p t req state. split; [done|]. intros v Hv Hs. exists key. split; [|done].
    unfold request_token. rewrite Hv. cbn [mbind option_bind]. rewrite Hs. cbn [mbind option_bind].
    unfold bearer_token, starts_with. by rewrite prefix_app.
Qed.

(** [C34] The reload endpoint is the reload operation: it answers 200 exactly if the
    file was read undisturbed, parsed and is admissible, and then installs both
    halves of it; 409 exactly if the file changed while it was read; 500 otherwise;
    it leaves the state alone unless it answers 200, and no reply carries anything
    but one of two fixed messages. *)
Theorem admin_reload_outcome `{Unicode, FileSystem, Toml} rlimit reads state :
  let cli := h_cli_allow_wildcard_bind (ad_reload_handle state) in
  let '(state', r) := reload_handler rlimit reads state in
  match read_and_validate_config reads cli with
  | Err FileChangedDuringRead => reply_status r = 409%Z ∧ state' = state
  | Err _ => reply_status r = 500%Z ∧ state' = state
  | Ok (c, d) =>
      (reply_status r = 200%Z ∧ admissible rlimit cli c d ∧
       ad_reload_handle state' = mkHandle d c cli ∧ ad_key_hash state' = ad_key_hash state) ∨
      (reply_status r = 500%Z ∧ ¬ admissible rlimit cli c d ∧ state' = state)
  end ∧
  (r = ReloadResponse 200 "ok" None ∨
   r = ReloadResponse 409 "error" (Some "config file changed during read, please retry") ∨
   r = ReloadResponse 500 "error" (Some "reload failed")).
Proof.
  intros cli. unfold reload_handler. fold cli.
  destruct (read_and_validate_config reads cli) as [[c d]|e] eqn:Hr.
  - destruct (admissible_dec rlimit cli c d) as [Ha|Hn].
    + rewrite reload_admissible by done. simpl. split; [left|]; auto.
    + destruct (reload_not_admissible rlimit (ad_reload_handle state) c d Hn) as [msg ->].
      split; [right|auto]. split; [done|]. split; [done|]. by destruct state.
  - destruct e; simpl; auto.
Qed.

(** ** Witnesses *)

Import Concrete.

(** A digest that is injective, and a hexadecimal encoding left abstract. *)
Definition test_crypto : Crypto := {| sha256 := λ s, "#" +:+ s; hex_encode := λ s, s |}.
Definition no_trim : UnicodeTrim := {| unicode_trim := λ s, s |}.

Definition admin_request (m path auth : string) : Request :=
  @mkRequest http m (mkU None path None) [("authorization", auth)] [] None.

Definition test_inputs : Inputs :=
  mkInputs None (mkFileReads (Ok (Some 1%Z)) (Ok "test") (Ok (Some 1%Z))) 0 "fresh".

Definition test_admin `{Unicode} : AdminState := mkAdmin test_handle "/etc/config.toml" 0 "#secret".

Lemma unauthorized_session_witness :
  let u := ascii_only in let fs := fs_with [] in let t := toml_with [] in let k := test_crypto in
  (admin_run test_admin [(test_inputs, admin_request "POST" "/admin/rotate-key" "Bearer guess")]).1
  = test_admin.
Proof.
  intros u fs t k.
  apply (unauthorized_session test_admin
    [(test_inputs, admin_request "POST" "/admin/rotate-key" "Bearer guess")]).
  repeat constructor. intros (token & Ht & Hs). vm_compute in Ht. injection Ht as <-.
  vm_compute in Hs. discriminate Hs.
Defined.

Lemma key_file_authenticates_witness :
  let k := test_crypto in let n := no_trim in
  ∃ hash, load_admin_key (λ _, Ok ("secret" +:+ newline)) "/etc/key" = Ok (Some hash) ∧
    authorized (mkAdmin (@test_handle ascii_only) "" 0 hash)
      (admin_request "GET" "/admin/status" "Bearer secret").
Proof.
  intros k n.
  destruct (key_file_authenticates (λ _, Ok ("secret" +:+ newline)) "/etc/key" "" "secret" newline
    eq_refl eq_refl eq_refl eq_refl eq_refl eq_refl eq_refl) as (hash & Hl & Ha).
  exists hash. split; [exact Hl|].
  apply (Ha (@test_handle ascii_only) "" 0%Z (admin_request "GET" "/admin/status" "Bearer secret"))
    with (v := "Bearer secret"); reflexivity.
Defined.
