(* ===== verification/Server.v ===== *)
(** * The HTTPS server

    [server.rs]: accept errors and their reporting, the accept loops of the listeners
    with the connection semaphore and the in-flight counter they share, the idle
    tracking of a connection and its watchdog, the connection task in time, the drain at
    shutdown.  Concurrent parts are step relations over the shared counters;
    tokio's semaphore is a counter of available permits, as documented. *)

From S2P Require Import Prelude Text Net Http Config RateLimit Proxy.
Local Open Scope Z_scope.

Definition HTTP2_KEEP_ALIVE_INTERVAL_SECS : Z := 15.
Definition DEFAULT_TLS_HANDSHAKE_TIMEOUT_SECS : Z := 10.

Definition secs (n : Z) : Duration := n * 10 ^ 9.
Definition millis (n : Z) : Duration := n * 10 ^ 6.

Definition ACCEPT_BACKOFF_RESOURCE : Duration := secs 1.
Definition ACCEPT_BACKOFF_OTHER : Duration := millis 100.
Definition ACCEPT_ERROR_SUPPRESS : Duration := secs 10.

(** ** Accept errors *)

Inductive ErrorKind := WouldBlock | Interrupted | ConnectionAborted | OtherKind.

(** [std::io::Error]: kind, OS code and message. *)
Record IoError := mkIoError {
  io_kind : ErrorKind;
  io_raw_os_error : option Z;
  io_display : string;
}.

(** Linux error numbers. *)
Definition EMFILE : Z := 24.
Definition ENFILE : Z := 23.
Definition ENOBUFS : Z := 105.
Definition ENOMEM : Z := 12.

Definition is_transient_accept_error (e : IoError) : bool :=
  match io_kind e with WouldBlock | Interrupted => true | _ => false end.

Definition is_resource_accept_error (e : IoError) : bool :=
  match io_kind e with ConnectionAborted => true | _ => false end ||
  match io_raw_os_error e with
  | Some n => (n =? EMFILE) || (n =? ENFILE) || (n =? ENOBUFS) || (n =? ENOMEM)
  | None => false
  end.

Record AcceptErrorReport := mkReport { last_log : option Instant; suppressed : Z }.

Definition AcceptErrorReport_new : AcceptErrorReport := mkReport None 0.

(** A line of the error log.  The first one for a message has no count. *)
Record Emitted := mkEmitted {
  em_error : IoError;
  em_suppressed : option Z;
  (** When the interval was checked, and when the time was stored. *)
  em_checked : Instant;
  em_logged : Instant;
}.

Definition report_log (r : AcceptErrorReport) (error : IoError) (checked logged : Instant)
    : AcceptErrorReport * list Emitted :=
  let n := suppressed r + 1 in
  let should_emit :=
    match last_log r with
    | None => true
    | Some t => ACCEPT_ERROR_SUPPRESS <=? duration_since checked t
    end in
  if should_emit then
    let count := match last_log r with Some _ => Some (n - 1) | None => None end in
    (mkReport (Some logged) 0, [mkEmitted error count checked logged])
  else (mkReport (last_log r) n, []).

Abbreviation AcceptErrorReporter := (gmap string AcceptErrorReport).

Definition report (reports : AcceptErrorReporter) (error : IoError) (checked logged : Instant)
    : AcceptErrorReporter * list Emitted :=
  let key := io_display error in
  let r := default AcceptErrorReport_new (reports !! key) in
  let '(r, out) := report_log r error checked logged in
  (<[key := r]> reports, out).

(** The reporter after the error, what it logged, and how long the loop sleeps. *)
Definition handle_accept_error (reports : AcceptErrorReporter) (e : IoError)
    (checked logged : Instant) : AcceptErrorReporter * list Emitted * Duration :=
  if is_transient_accept_error e then (reports, [], 0)
  else
    let '(reports, out) := report reports e checked logged in
    (reports, out, if is_resource_accept_error e then ACCEPT_BACKOFF_RESOURCE else ACCEPT_BACKOFF_OTHER).

Fixpoint accept_errors (reports : AcceptErrorReporter) (es : list (IoError * Instant * Instant))
    : AcceptErrorReporter * list Emitted :=
  match es with
  | [] => (reports, [])
  | (e, checked, logged) :: es =>
      let '(reports, out, _) := handle_accept_error reports e checked logged in
      let '(reports, outs) := accept_errors reports es in (reports, out ++ outs)
  end.

(** ** The TLS handshake *)

Inductive AcceptTlsError := Handshake (e : IoError) | HandshakeTimeout.

(** [accept] is the handshake future of tokio-rustls. *)
Definition accept_tls_with_timeout {S} (accept : Future (result S IoError)) (d : Duration)
    : Future (result S AcceptTlsError) :=
  match timeout d accept with
  | Some (t, Ok (Ok stream)) => Some (t, Ok stream)
  | Some (t, Ok (Err e)) => Some (t, Err (Handshake e))
  | Some (t, Err _) => Some (t, Err HandshakeTimeout)
  | None => None
  end.

(** ** Connections and accept loops

    All listeners share one [ConnectionSemaphore] and one [InFlightCounter].  A
    connection goes through the phases of its task; its locals drop in reverse
    order, so the socket is closed first and the permit is back before the counter
    goes down. *)

Inductive ConnPhase :=
| CWaiting        (** accepted; the listener waits for a permit *)
| CSpawned        (** the task exists and owns the permit, but has not run *)
| CHandshake      (** the guard counts it *)
| CServing (is_h2 : bool)
| CClosing        (** permit returned, guard not yet dropped *)
| CClosed.

(** Where the loop of a listener is: in its [select!], in the sleep after an accept
    error, waiting for the permit of the connection it accepted, or past [break]. *)
Inductive LoopPhase :=
| LAccepting
| LSleeping (until : Instant)
| LAcquiring (conn : nat)
| LStopped.

Record Listener := mkListener { ls_loop : LoopPhase; ls_reports : AcceptErrorReporter }.

(** [sv_shutdown] is the value in the shutdown channel. *)
Record Server := mkServer {
  sv_max : Z;
  sv_permits : Z;
  sv_in_flight : Z;
  sv_conns : gmap nat ConnPhase;
  sv_listeners : gmap nat Listener;
  sv_shutdown : bool;
}.

(** [ConnectionSemaphore::new], [InFlightCounter::new] and the loops of [n] listeners. *)
Definition Server_new (max_connections : Z) (n : nat) : Server :=
  mkServer max_connections max_connections 0 ∅
    (list_to_map ((λ j, (j, mkListener LAccepting ∅)) <$> seq 0 n)) false.

Definition max_connections_of (s : Server) : Z := sv_max s.
Definition is_zero (s : Server) : bool := sv_in_flight s =? 0.

Definition set_conn (s : Server) (i : nat) (p : ConnPhase) : Server :=
  mkServer (sv_max s) (sv_permits s) (sv_in_flight s) (<[i := p]> (sv_conns s)) (sv_listeners s) (sv_shutdown s).

Definition set_listener (s : Server) (j : nat) (l : Listener) : Server :=
  mkServer (sv_max s) (sv_permits s) (sv_in_flight s) (sv_conns s) (<[j := l]> (sv_listeners s)) (sv_shutdown s).

(** [acquire_owned] takes a permit when one is available. *)
Definition acquire_owned (s : Server) : option Server :=
  if 0 <? sv_permits s
  then Some (mkServer (sv_max s) (sv_permits s - 1) (sv_in_flight s) (sv_conns s) (sv_listeners s) (sv_shutdown s))
  else None.

Definition drop_permit (s : Server) : Server :=
  mkServer (sv_max s) (sv_permits s + 1) (sv_in_flight s) (sv_conns s) (sv_listeners s) (sv_shutdown s).

(** [InFlightGuard::new] and its [Drop]. *)
Definition increment (s : Server) : Server :=
  mkServer (sv_max s) (sv_permits s) (sv_in_flight s + 1) (sv_conns s) (sv_listeners s) (sv_shutdown s).
Definition decrement (s : Server) : Server :=
  mkServer (sv_max s) (sv_permits s) (sv_in_flight s - 1) (sv_conns s) (sv_listeners s) (sv_shutdown s).

(** The error of hyper's connection future. *)
Record ServeError := mkServeError { se_incomplete_message : bool; se_display : string }.

(** How a connection task ends: the handshake fails, the connection future completes, or
    the idle watchdog wins the select. *)
Inductive ConnEnd :=
| HandshakeFailed (e : AcceptTlsError)
| ServeEnds (r : result unit ServeError)
| IdleCloses.

Inductive ConnLog :=
| WarnHandshakeTimeout
| WarnHandshakeFailed (e : IoError)
| ErrorHttp2Connection (e : ServeError)
| ErrorHttpConnection (e : ServeError)
| DebugIdle (is_h2 : bool).

(** What the task logs when it ends; an incomplete message on HTTP/1 is not an error. *)
Definition conn_end_log (is_h2 : bool) (why : ConnEnd) : option ConnLog :=
  match why with
  | HandshakeFailed HandshakeTimeout => Some WarnHandshakeTimeout
  | HandshakeFailed (Handshake e) => Some (WarnHandshakeFailed e)
  | ServeEnds (Ok _) => None
  | ServeEnds (Err e) =>
      if is_h2 then Some (ErrorHttp2Connection e)
      else if se_incomplete_message e then None
      else Some (ErrorHttpConnection e)
  | IdleCloses => Some (DebugIdle is_h2)
  end.

(** What can happen next to the connection [i]; [ConnAccepted] and [ConnPermit] are
    steps of the loop of the listener [j] as well.  Nothing closes the semaphore, so
    [acquire_owned] does not fail. *)
Inductive ConnEvent :=
| ConnAccepted (j : nat)
| ConnPermit (j : nat)
| ConnStarts
| ConnHandshakeDone (is_h2 : bool)
| ConnEnds (why : ConnEnd)
| ConnGuardDrops.

Definition loop_of (s : Server) (j : nat) : option LoopPhase := ls_loop <$> sv_listeners s !! j.

Definition set_loop (s : Server) (j : nat) (p : LoopPhase) : Server :=
  match sv_listeners s !! j with
  | Some l => set_listener s j (mkListener p (ls_reports l))
  | None => s
  end.

Definition conn_step (s : Server) (i : nat) (ev : ConnEvent) : option Server :=
  match ev, sv_conns s !! i with
  | ConnAccepted j, None =>
      match loop_of s j with
      | Some LAccepting => Some (set_loop (set_conn s i CWaiting) j (LAcquiring i))
      | _ => None
      end
  | ConnPermit j, Some CWaiting =>
      match loop_of s j with
      | Some (LAcquiring i') =>
          if (i' =? i)%nat
          then s ← acquire_owned s; Some (set_loop (set_conn s i CSpawned) j LAccepting)
          else None
      | _ => None
      end
  | ConnStarts, Some CSpawned => Some (set_conn (increment s) i CHandshake)
  | ConnHandshakeDone h2, Some CHandshake => Some (set_conn s i (CServing h2))
  | ConnEnds (HandshakeFailed _), Some CHandshake
  | ConnEnds (ServeEnds _ | IdleCloses), Some (CServing _) =>
      Some (set_conn (drop_permit s) i CClosing)
  | ConnGuardDrops, Some CClosing => Some (set_conn (decrement s) i CClosed)
  | _, _ => None
  end.

(** The other branches of the loop: an accept error, the end of its sleep, and
    [shutdown_rx.changed()].  A loop that sleeps or waits for a permit does not look at
    the shutdown channel. *)
Inductive LoopEvent :=
| LoopError (e : IoError) (checked logged : Instant)
| LoopWake (now : Instant)
| LoopShutdown.

Definition loop_shutdown (s : Server) (j : nat) : option Server :=
  if sv_shutdown s then Some (set_loop s j LStopped) else None.

Definition loop_step (s : Server) (j : nat) (ev : LoopEvent) : option Server :=
  l ← sv_listeners s !! j;
  match ev, ls_loop l with
  | LoopError e checked logged, LAccepting =>
      let '(reports, _, sleep) := handle_accept_error (ls_reports l) e checked logged in
      let p := if sleep =? 0 then LAccepting else LSleeping (logged + sleep) in
      Some (set_listener s j (mkListener p reports))
  | LoopWake now, LSleeping until => if until <=? now then Some (set_loop s j LAccepting) else None
  | LoopShutdown, LAccepting => loop_shutdown s j
  | _, _ => None
  end.

(** [GracefulShutdown::trigger_shutdown], as the listeners see it. *)
Definition signal_shutdown (s : Server) : Server :=
  mkServer (sv_max s) (sv_permits s) (sv_in_flight s) (sv_conns s) (sv_listeners s) true.

Inductive serve_https_listener : Server → Server → Prop :=
| serve_conn s i ev s' : conn_step s i ev = Some s' → serve_https_listener s s'
| serve_loop s j ev s' : loop_step s j ev = Some s' → serve_https_listener s s'
| serve_shutdown s : serve_https_listener s (signal_shutdown s).

Inductive server_reachable (max_connections : Z) (n : nat) : Server → Prop :=
| server_start : server_reachable max_connections n (Server_new max_connections n)
| server_next s s' : server_reachable max_connections n s → serve_https_listener s s' →
    server_reachable max_connections n s'.

Fixpoint run_conns (s : Server) (evs : list (nat * ConnEvent)) : option Server :=
  match evs with
  | [] => Some s
  | (i, ev) :: evs => s' ← conn_step s i ev; run_conns s' evs
  end.

(** ** Idle tracking

    One [IdleState] per connection.  A request is pending until its future
    completes; then its response body holds the count until it ends, fails or is
    dropped.  [RBody] has the body's [decremented] flag, which only the code of
    [IdleTrackingBody] sets, and beside it whether the body is over, which only what
    happens to the body says: it was polled to its end or to an error, or dropped.
    [RAbandoned] is a future dropped before it completed: nothing of the source runs
    then. *)

Inductive ReqPhase := RPending | RBody (decremented over : bool) | RFailed | RAbandoned.

Record IdleState := mkIdle {
  last_activity : Instant;
  idle_in_flight : Z;
  idle_reqs : gmap nat ReqPhase;
}.

Definition IdleState_new (now : Instant) : IdleState := mkIdle now 0 ∅.

Definition touch (s : IdleState) (now : Instant) : IdleState :=
  mkIdle now (idle_in_flight s) (idle_reqs s).

Definition idle_for (s : IdleState) (now : Instant) : Duration := duration_since now (last_activity s).

Definition fetch_add (s : IdleState) (d : Z) : IdleState :=
  mkIdle (last_activity s) (idle_in_flight s + d) (idle_reqs s).

Definition set_req (s : IdleState) (i : nat) (p : ReqPhase) : IdleState :=
  mkIdle (last_activity s) (idle_in_flight s) (<[i := p]> (idle_reqs s)).

(** [IdleTrackingBody::release]: only the first call counts. *)
Definition release (s : IdleState) (i : nat) (now : Instant) : IdleState :=
  match idle_reqs s !! i with
  | Some (RBody false over) => touch (fetch_add (set_req s i (RBody true over)) (-1)) now
  | _ => s
  end.

(** What polling the inner body returns. *)
Inductive Poll := PollEnd | PollErr | PollFrame | PollPending.

Definition poll_frame (s : IdleState) (i : nat) (p : Poll) (now : Instant) : IdleState :=
  match p with
  | PollEnd | PollErr => release s i now
  | PollFrame => touch s now
  | PollPending => s
  end.

(** The inner body yields nothing after its end or an error. *)
Definition poll_is_last (p : Poll) : bool :=
  match p with PollEnd | PollErr => true | PollFrame | PollPending => false end.

(** Nothing of the body is left, whatever the code makes of it. *)
Definition body_over (s : IdleState) (i : nat) : IdleState :=
  match idle_reqs s !! i with
  | Some (RBody dec _) => set_req s i (RBody dec true)
  | _ => s
  end.

Inductive ReqEvent :=
| ReqCall                (** [IdleTrackingService::call] *)
| ReqResponse            (** the inner future completes with a response *)
| ReqError               (** … with an error *)
| ReqFrame (p : Poll)    (** the response body is polled *)
| ReqBodyDropped         (** [Drop for IdleTrackingBody] *)
| ReqFutureDropped.      (** the future is dropped while pending *)

Definition req_step (s : IdleState) (i : nat) (ev : ReqEvent) (now : Instant) : option IdleState :=
  match ev, idle_reqs s !! i with
  | ReqCall, None => Some (set_req (fetch_add (touch s now) 1) i RPending)
  | ReqResponse, Some RPending => Some (set_req s i (RBody false false))
  | ReqError, Some RPending => Some (set_req (touch (fetch_add s (-1)) now) i RFailed)
  | ReqFrame p, Some (RBody _ _) =>
      Some (poll_frame (if poll_is_last p then body_over s i else s) i p now)
  | ReqBodyDropped, Some (RBody _ _) => Some (release (body_over s i) i now)
  | ReqFutureDropped, Some RPending => Some (set_req s i RAbandoned)
  | _, _ => None
  end.

Inductive idle_reachable : IdleState → Prop :=
| idle_start now : idle_reachable (IdleState_new now)
| idle_next s i ev now s' : idle_reachable s → req_step s i ev now = Some s' → idle_reachable s'.

(** ** The watchdog *)

(** A round before its sleep: how long it sleeps, or that it returns. *)
Definition sleep_dur (s : IdleState) (d : Duration) (now : Instant) : option Duration :=
  let remaining := saturating_sub d (idle_for s now) in
  if 0 <? idle_in_flight s then Some d
  else if negb (remaining =? 0) then Some remaining
  else None.

(** … and after it: whether it returns. *)
Definition idle_after_sleep (s : IdleState) (d : Duration) (now : Instant) : bool :=
  (idle_in_flight s =? 0) && (d <=? idle_for s now).

(** Where the watchdog is: at the head of its loop, in its sleep, or past [return]. *)
Inductive WatchPhase := WLoop | WSleep (until : Instant) | WReturned.

(** The watchdog runs to its next suspension point; a sleep may end late. *)
Definition watchdog_step (s : IdleState) (d : Duration) (p : WatchPhase) (now : Instant) : option WatchPhase :=
  match p with
  | WLoop =>
      match sleep_dur s d now with
      | Some sleep => Some (WSleep (now + sleep))
      | None => Some WReturned
      end
  | WSleep until =>
      if until <=? now then Some (if idle_after_sleep s d now then WReturned else WLoop) else None
  | WReturned => None
  end.

(** The whole watchdog in time.  [hist t] is the state of the connection at the instant
    [t].  The sleep of each round takes the time asked for; the rest of a round takes
    none.  The result is the instant at which the watchdog returns. *)
Fixpoint idle_watchdog (fuel : nat) (hist : Instant → IdleState) (d : Duration) (now : Instant)
    : option Instant :=
  match fuel with
  | O => None
  | S fuel =>
      match sleep_dur (hist now) d now with
      | None => Some now
      | Some sleep =>
          let now := now + sleep in
          if idle_after_sleep (hist now) d now then Some now else idle_watchdog fuel hist d now
      end
  end.

(** ** The connection task

    From its start to its end, in time: the handshake under its timeout, then the
    connection future against the watchdog.  [accept] is the handshake future, whose
    value says whether HTTP/2 was negotiated; [serve] is hyper's connection future,
    [hist] the idle state it leaves at each instant, and [tie] the choice of [select!]
    when both are ready. *)
Definition connection_task (accept : Future (result bool IoError))
    (tls_handshake_timeout connection_idle_timeout : Duration)
    (serve : bool → Future (result unit ServeError)) (fuel : nat) (hist : Instant → IdleState)
    (tie : bool) (start : Instant) : option (Instant * ConnEnd) :=
  match accept_tls_with_timeout accept tls_handshake_timeout with
  | None => None
  | Some (t, Err e) => Some (start + t, HandshakeFailed e)
  | Some (t, Ok is_h2) =>
      let now := start + t in
      match serve is_h2, idle_watchdog fuel hist connection_idle_timeout now with
      | Some (d, r), Some w =>
          if (now + d <? w) || (now + d =? w) && tie then Some (now + d, ServeEnds r)
          else Some (w, IdleCloses)
      | Some (d, r), None => Some (now + d, ServeEnds r)
      | None, Some w => Some (w, IdleCloses)
      | None, None => None
      end
  end.

(** ** Draining

    [count t] is the in-flight counter at the instant [t]; the result is what is
    returned and when. *)
Fixpoint drain_loop (fuel : nat) (count : Instant → Z) (d : Duration) (start now : Instant)
    : option (Z * Instant) :=
  match fuel with
  | O => None
  | S fuel =>
      if count now =? 0 then Some (0, now)
      else if d <=? duration_since now start then Some (count now, now)
      else drain_loop fuel count d start (now + millis 100)
  end.

(** One poll per 100 ms, and one past the timeout. *)
Definition drain_fuel (d : Duration) : nat := S (S (Z.to_nat (d / millis 100))).

Definition drain_in_flight (count : Instant → Z) (d : Duration) (start : Instant) : option (Z * Instant) :=
  drain_loop (drain_fuel d) count d start start.

(** ** Requests on a connection *)

(** [ConnectInfoService::call]: the peer recorded at accept time replaces whatever
    the request carries. *)
Definition connect_info_service `{Http} {A} (remote_addr : SocketAddr) (inner : Request → A)
    (req : Request) : A :=
  inner (mkRequest (req_method req) (req_uri req) (req_headers req) (req_body req) (Some remote_addr)).

(** A request of a connection from [remote_addr] through the whole stack. *)
Definition serve_request `{Http, Unicode} (remote_addr : SocketAddr) (cfg : Loads) (clients : Clients)
    (l : RateLimiter) (c : Readings) (duration_ms : Z) : Request → RateLimiter * Outcome :=
  connect_info_service remote_addr (build_router cfg clients l c duration_ms).
