(* ===== verification/ServerProps.v ===== *)
(** * Properties of the server

    Accept errors are throttled without losing count; the connection cap is global
    and nothing leaks; the idle count is exact as long as no pending request is
    dropped; the watchdog and the drain terminate and decide what they promise. *)

From S2P Require Import Prelude Text Net Http Config Routing Fixtures F64 RateLimit RateLimitProps Proxy ProxyProps Server.
Local Open Scope Z_scope.

(** ** Accept errors *)

(** The errors a line of the log stands for. *)
Definition weight (em : Emitted) : Z := 1 + default 0 (em_suppressed em).

Fixpoint sum_weights (k : string) (out : list Emitted) : Z :=
  match out with
  | [] => 0
  | em :: out => (if bool_decide (io_display (em_error em) = k) then weight em else 0) + sum_weights k out
  end.

(** The errors with the message [k] that are reported. *)
Fixpoint reported (k : string) (es : list (IoError * Instant * Instant)) : Z :=
  match es with
  | [] => 0
  | (e, _, _) :: es =>
      (if negb (is_transient_accept_error e) && bool_decide (io_display e = k) then 1 else 0)
      + reported k es
  end.

(** Lines with the message [k] are ten seconds apart. *)
Fixpoint spaced (k : string) (prev : option Instant) (out : list Emitted) : Prop :=
  match out with
  | [] => True
  | em :: out =>
      if bool_decide (io_display (em_error em) = k)
      then match prev with Some t => t + ACCEPT_ERROR_SUPPRESS ≤ em_checked em | None => True end ∧
           spaced k (Some (em_logged em)) out
      else spaced k prev out
  end.

Definition report_of (reports : AcceptErrorReporter) (k : string) : AcceptErrorReport :=
  default AcceptErrorReport_new (reports !! k).

Definition wf_report (r : AcceptErrorReport) : Prop := last_log r = None → suppressed r = 0.

Lemma report_log_spec r e checked logged :
  wf_report r →
  let '(r', out) := report_log r e checked logged in
  wf_report r' ∧
  ((out = [] ∧ suppressed r' = suppressed r + 1 ∧ last_log r' = last_log r) ∨
   (∃ em, out = [em] ∧ em_error em = e ∧ weight em = suppressed r + 1 ∧ suppressed r' = 0 ∧
      last_log r' = Some (em_logged em) ∧
      ∀ t, last_log r = Some t → t + ACCEPT_ERROR_SUPPRESS ≤ em_checked em)).
Proof.
  unfold wf_report, report_log, weight. destruct r as [[t|] n]; simpl; intros Hwf.
  - destruct (Z.leb_spec ACCEPT_ERROR_SUPPRESS (duration_since checked t)) as [Hle|Hgt].
    + split; [done|]. right. eexists. split; [done|]. simpl. repeat split; [lia|].
      intros t' [= <-]. unfold duration_since, saturating_sub, ACCEPT_ERROR_SUPPRESS, secs in *. lia.
    + split; [done|]. by left.
  - rewrite Hwf by done. split; [done|]. right. eexists. split; [done|]. by simpl.
Qed.

Lemma report_of_insert reports k r k' :
  report_of (<[k := r]> reports) k' = if decide (k = k') then r else report_of reports k'.
Proof.
  unfold report_of. destruct (decide (k = k')) as [<-|Hne];
    [by rewrite lookup_insert_eq|by rewrite lookup_insert_ne].
Qed.

Lemma accept_errors_spec k es reports :
  wf_report (report_of reports k) →
  let '(reports', out) := accept_errors reports es in
  sum_weights k out + suppressed (report_of reports' k) = suppressed (report_of reports k) + reported k es ∧
  spaced k (last_log (report_of reports k)) out.
Proof.
  revert reports. induction es as [|[[e checked] logged] es IH]; intros reports Hwf; simpl; [lia|].
  unfold handle_accept_error. destruct (is_transient_accept_error e); simpl.
  { specialize (IH reports Hwf). by destruct (accept_errors reports es). }
  unfold report. fold (report_of reports (io_display e)).
  destruct (decide (io_display e = k)) as [Hk|Hk].
  - rewrite Hk, bool_decide_eq_true_2 by done.
    pose proof (report_log_spec (report_of reports k) e checked logged Hwf) as Hlog.
    destruct (report_log (report_of reports k) e checked logged) as [r out].
    destruct Hlog as [Hwf' Hlog]. specialize (IH (<[k := r]> reports)).
    rewrite report_of_insert, decide_True in IH by done. specialize (IH Hwf').
    destruct (accept_errors (<[k := r]> reports) es) as [reports' outs]. destruct IH as [IH1 IH2].
    destruct Hlog as [(-> & Hs & Hl)|(em & -> & He & Hw & Hs & Hl & Hsp)].
    + simpl. rewrite <- Hl. split; [lia|done].
    + simpl. rewrite He, bool_decide_eq_true_2 by done. rewrite Hl in IH2.
      split; [lia|]. split; [|done].
      destruct (last_log (report_of reports k)); [by apply Hsp|done].
  - rewrite bool_decide_eq_false_2 by done.
    assert (∀ em, em ∈ (report_log (report_of reports (io_display e)) e checked logged).2 → em_error em = e) as He.
    { unfold report_log. repeat case_match; simpl; intros em; rewrite ?elem_of_nil, ?list_elem_of_singleton; naive_solver. }
    destruct (report_log (report_of reports (io_display e)) e checked logged) as [r out].
    specialize (IH (<[io_display e := r]> reports)).
    rewrite report_of_insert, decide_False in IH by done. specialize (IH Hwf).
    destruct (accept_errors (<[io_display e := r]> reports) es) as [reports' outs].
    simpl in He. clear -He IH Hk. induction out as [|em out IHo]; simpl; [done|].
    rewrite (He em) by apply list_elem_of_here. rewrite !bool_decide_eq_false_2 by done.
    apply IHo. intros em' Hin. apply He. by apply list_elem_of_further.
Qed.

(** [C37] The accept-error log is throttled and loses no count.  For every message,
    the errors reported with it so far are exactly those accounted for by the lines
    logged (one each, plus the suppressed ones a line names) and those waiting in
    the reporter; and two lines with one message are at least ten seconds apart. *)
Theorem accept_error_accounting es k :
  let '(reports', out) := accept_errors ∅ es in
  sum_weights k out + suppressed (report_of reports' k) = reported k es ∧ spaced k None out.
Proof.
  pose proof (accept_errors_spec k es ∅) as Hs. unfold report_of at 1 3 4 in Hs.
  rewrite lookup_empty in Hs. simpl in Hs. specialize (Hs (λ _, eq_refl)).
  by destruct (accept_errors ∅ es).
Qed.

(** ** Connections *)

(** The phases that hold a permit, and those that are counted. *)
Definition holds_permit (p : ConnPhase) : bool :=
  match p with CSpawned | CHandshake | CServing _ => true | _ => false end.
Definition counted (p : ConnPhase) : bool :=
  match p with CHandshake | CServing _ | CClosing => true | _ => false end.

(** A client socket is open from the accept to the end of the task. *)
Definition has_socket (p : ConnPhase) : bool :=
  match p with CWaiting | CSpawned | CHandshake | CServing _ => true | _ => false end.
Definition waiting (p : ConnPhase) : bool := match p with CWaiting => true | _ => false end.
Definition acquiring (l : Listener) : bool :=
  match ls_loop l with LAcquiring _ => true | _ => false end.

Record server_inv (max : Z) (n : nat) (s : Server) : Prop := {
  si_max : sv_max s = max;
  si_permits : sv_permits s + n_in holds_permit (sv_conns s) = max;
  si_nonneg : 0 ≤ sv_permits s;
  si_in_flight : sv_in_flight s = n_in counted (sv_conns s);
  si_waiting : n_in waiting (sv_conns s) = n_in acquiring (sv_listeners s);
  si_listeners : size (sv_listeners s) = n;
}.

Lemma loop_of_Some s j p : loop_of s j = Some p → ∃ r, sv_listeners s !! j = Some (mkListener p r).
Proof. unfold loop_of. rewrite fmap_Some. intros ([p' r] & Hj & ->). by exists r. Qed.

Lemma set_listener_inv max n s j l l' :
  server_inv max n s → sv_listeners s !! j = Some l → acquiring l' = acquiring l →
  server_inv max n (set_listener s j l').
Proof.
  intros [Hm Hp Hn Hc Hw Hl] Hj Ha. split; simpl; try done.
  - rewrite (n_in_update _ _ _ _ _ Hj), Ha. lia.
  - by rewrite map_size_insert_Some by eauto.
Qed.

Lemma conn_step_inv max n s i ev s' :
  server_inv max n s → conn_step s i ev = Some s' → server_inv max n s'.
Proof.
  intros [Hm Hp Hn Hc Hw Hl]. unfold conn_step.
  destruct ev as [j|j| | |[]|], (sv_conns s !! i) as [[]|] eqn:Hi; try done;
    try (intros [= <-]; split; simpl; try done; rewrite ?(n_in_update _ _ _ _ _ Hi); simpl; lia).
  - destruct (loop_of s j) as [[]|] eqn:Hj; try done. apply loop_of_Some in Hj as [r Hj].
    intros [= <-]. unfold set_loop. simpl. rewrite Hj.
    split; simpl; rewrite ?(n_in_insert _ _ _ _ Hi), ?(n_in_update _ _ _ _ _ Hj); simpl; try lia.
    by rewrite map_size_insert_Some by eauto.
  - destruct (loop_of s j) as [[]|] eqn:Hj; try done. apply loop_of_Some in Hj as [r Hj].
    destruct (_ =? i)%nat; [|done].
    unfold acquire_owned. destruct (Z.ltb_spec 0 (sv_permits s)); [|done].
    cbn [mbind option_bind]. intros [= <-]. unfold set_loop. simpl. rewrite Hj.
    split; simpl; rewrite ?(n_in_update _ _ _ _ _ Hi), ?(n_in_update _ _ _ _ _ Hj); simpl; try lia.
    by rewrite map_size_insert_Some by eauto.
Qed.

Lemma loop_step_inv max n s j ev s' :
  server_inv max n s → loop_step s j ev = Some s' → server_inv max n s'.
Proof.
  intros Hinv (l & Hj & Hs)%bind_Some. revert Hs. unfold loop_shutdown, set_loop. rewrite Hj.
  destruct ev as [e c t|now|], (ls_loop l) eqn:Hp; try done.
  - destruct (handle_accept_error _ e c t) as [[r o] d]. intros [= <-].
    eapply set_listener_inv; [done..|]. unfold acquiring. rewrite Hp. simpl. by destruct (d =? 0).
  - case_match; [|done]. intros [= <-]. eapply set_listener_inv; [done..|]. unfold acquiring. by rewrite Hp.
  - case_match; [|done]. intros [= <-]. eapply set_listener_inv; [done..|]. unfold acquiring. by rewrite Hp.
Qed.

Lemma loop_step_conns s j ev s' : loop_step s j ev = Some s' → sv_conns s' = sv_conns s.
Proof.
  intros (l & Hj & Hs)%bind_Some. unfold loop_shutdown, set_loop in Hs. rewrite Hj in Hs.
  by repeat case_match; simplify_eq/=.
Qed.

Lemma Server_new_inv max n : 0 ≤ max → server_inv max n (Server_new max n).
Proof.
  intros Hmax. set (ls := (λ j, (j, mkListener LAccepting ∅)) <$> seq 0 n).
  assert (NoDup ls.*1) as Hnd.
  { unfold ls. rewrite <- list_fmap_compose. rewrite list_fmap_id. apply NoDup_seq. }
  split; simpl; fold ls; rewrite ?n_in_empty; try lia.
  - symmetry. apply n_in_zero. intros j l Hj%elem_of_list_to_map_2. unfold ls in Hj.
    by apply list_elem_of_fmap in Hj as (? & [= -> ->] & _).
  - rewrite map_size_list_to_map by done. unfold ls. by rewrite length_fmap, length_seq.
Qed.

Lemma serve_step_inv max n s s' :
  server_inv max n s → serve_https_listener s s' → server_inv max n s'.
Proof.
  intros Hinv Hstep. destruct Hstep as [s i ev s' Hs|s j ev s' Hs|s].
  - by eapply conn_step_inv.
  - by eapply loop_step_inv.
  - by destruct Hinv.
Qed.

Lemma server_reachable_inv max n s : 0 ≤ max → server_reachable max n s → server_inv max n s.
Proof.
  intros Hmax. induction 1 as [|s s' _ IH Hs]; [by apply Server_new_inv|by eapply serve_step_inv].
Qed.

(** Sockets are held by permits, or by the loops that wait for one. *)
Lemma sockets_split (m : gmap nat ConnPhase) : n_in has_socket m = n_in waiting m + n_in holds_permit m.
Proof.
  induction m as [|i p m Hi IH] using map_ind; [done|].
  rewrite !(n_in_insert _ _ _ _ Hi), IH. destruct p; simpl; lia.
Qed.

Lemma open_sockets_bound max n s :
  server_inv max n s → n_in has_socket (sv_conns s) ≤ max + Z.of_nat n.
Proof.
  intros [_ Hp Hn _ Hw Hl]. rewrite sockets_split, Hw.
  pose proof (n_in_le_size acquiring (sv_listeners s)). lia.
Qed.

(** [C9] The connection cap is global and nothing leaks.  In every reachable state,
    whatever connections the listeners accepted and however their loops and tasks
    interleave, at most [max_connections] connections hold a permit (and so run or are
    about to run), the available permits are the rest, and each listener holds at most
    one more accepted connection, so that at most [max_connections + n] client sockets
    are open; the in-flight counter is the number of tasks whose guard is alive; once
    every accepted connection has ended all permits are back and the counter is zero. *)
Theorem connection_cap max n s :
  0 ≤ max → server_reachable max n s →
  0 ≤ n_in holds_permit (sv_conns s) ≤ max ∧
  sv_permits s = max - n_in holds_permit (sv_conns s) ∧
  n_in has_socket (sv_conns s) ≤ max + Z.of_nat n ∧
  sv_in_flight s = n_in counted (sv_conns s) ∧
  ((∀ i p, sv_conns s !! i = Some p → p = CClosed) → sv_permits s = max ∧ is_zero s = true).
Proof.
  intros Hmax Hr. pose proof (server_reachable_inv max n s Hmax Hr) as Hinv.
  pose proof (open_sockets_bound _ _ _ Hinv). destruct Hinv as [Hm Hp Hn Hc _ _].
  pose proof (n_in_nonneg holds_permit (sv_conns s)). repeat split; [lia..|done| |].
  - rewrite (proj2 (n_in_zero holds_permit (sv_conns s))) in Hp; [lia|]. intros i p Hi. by rewrite (H1 i p Hi).
  - unfold is_zero. rewrite Hc, (proj2 (n_in_zero counted (sv_conns s))); [done|].
    intros i p Hi. by rewrite (H1 i p Hi).
Qed.

Lemma run_conns_reachable max n s evs s' :
  server_reachable max n s → run_conns s evs = Some s' → server_reachable max n s'.
Proof.
  revert s. induction evs as [|[i ev] evs IH]; intros s Hs; simpl; [naive_solver|].
  intros (s1 & H1 & H2)%bind_Some. apply (IH s1); [|done].
  eapply server_next; [done|]. by eapply serve_conn.
Qed.

(** The counter goes up when the task first runs, not when it is spawned: a drain
    that starts in between returns at once with a connection under way. *)
Lemma spawned_connection_not_counted :
  match run_conns (Server_new 1024 1) [(0%nat, ConnAccepted 0); (0%nat, ConnPermit 0)] with
  | Some s =>
      sv_conns s !! 0%nat = Some CSpawned ∧
      drain_in_flight (λ _, sv_in_flight (signal_shutdown s)) (secs 30) 0 = Some (0, 0)
  | None => False
  end.
Proof. vm_compute. done. Qed.

(** The permit comes back before the counter goes down: the counter can exceed the
    cap. *)
Lemma counter_can_exceed_cap :
  match run_conns (Server_new 1 1)
    [(0%nat, ConnAccepted 0); (0%nat, ConnPermit 0); (0%nat, ConnStarts);
     (0%nat, ConnEnds (HandshakeFailed HandshakeTimeout));
     (1%nat, ConnAccepted 0); (1%nat, ConnPermit 0); (1%nat, ConnStarts)] with
  | Some s => sv_in_flight s = 2
  | None => False
  end.
Proof. vm_compute. done. Qed.

(** A loop that waits for a permit does not see the shutdown, and ends only after a
    connection has. *)
Lemma blocked_loop_misses_shutdown :
  match run_conns (Server_new 1 2)
    [(0%nat, ConnAccepted 0); (0%nat, ConnPermit 0); (1%nat, ConnAccepted 1)] with
  | Some s =>
      let s := signal_shutdown s in
      loop_step s 1 LoopShutdown = None ∧ conn_step s 1 (ConnPermit 1) = None ∧
      (s ← loop_step s 0 LoopShutdown; loop_of s 0) = Some LStopped
  | None => False
  end.
Proof. vm_compute. done. Qed.

Lemma connection_cap_witness :
  match run_conns (Server_new 2 1) [(0%nat, ConnAccepted 0); (0%nat, ConnPermit 0); (0%nat, ConnStarts)] with
  | Some s => sv_permits s = 2 - n_in holds_permit (sv_conns s)
  | None => False
  end.
Proof.
  destruct (run_conns (Server_new 2 1) _) as [s|] eqn:E; [|vm_compute in E; discriminate E].
  apply (connection_cap 2 1 s); [lia|].
  eapply run_conns_reachable; [constructor|exact E].
Defined.

(** ** Idle tracking *)

(** Requests under way: the handler runs, or the response body is not over. *)
Definition live (p : ReqPhase) : bool :=
  match p with RPending | RBody _ false => true | _ => false end.
Definition abandoned (p : ReqPhase) : bool :=
  match p with RAbandoned => true | _ => false end.

(** The [decremented] flag of a body tells the truth. *)
Definition flag_true (p : ReqPhase) : Prop :=
  match p with RBody dec over => dec = over | _ => True end.

Record idle_inv (s : IdleState) : Prop := {
  ii_flags : map_Forall (λ _, flag_true) (idle_reqs s);
  ii_count : idle_in_flight s = n_in live (idle_reqs s) + n_in abandoned (idle_reqs s);
}.

(** A body that is over gives its count back, once. *)
Lemma release_inv s i now dec over :
  idle_inv s → idle_reqs s !! i = Some (RBody dec over) → idle_inv (release (body_over s i) i now).
Proof.
  intros [Hf Hc] Hi. pose proof (map_Forall_lookup_1 _ _ _ _ Hf Hi) as Hflag. simpl in Hflag. subst over.
  unfold release, body_over. rewrite Hi. simpl. rewrite lookup_insert_eq.
  destruct dec; split; simpl; rewrite ?insert_insert_eq; try by apply map_Forall_insert_2.
  all: rewrite !(n_in_update _ _ _ _ _ Hi); simpl; lia.
Qed.

Lemma req_step_idle_inv s i ev now s' : idle_inv s → req_step s i ev now = Some s' → idle_inv s'.
Proof.
  intros Hinv. unfold req_step.
  destruct ev, (idle_reqs s !! i) as [[|dec over| |]|] eqn:Hi; try done; intros [= <-];
    try (destruct Hinv as [Hf Hc]; split; simpl; [by apply map_Forall_insert_2|];
         rewrite ?(n_in_update _ _ _ _ _ Hi), ?(n_in_insert _ _ _ _ Hi); simpl; lia).
  - destruct p; simpl; try (by eapply release_inv); by destruct Hinv.
  - by eapply release_inv.
Qed.

Lemma idle_reachable_inv s : idle_reachable s → idle_inv s.
Proof. induction 1 as [now|s i ev now s' _ IH Hs]; [by split|by eapply req_step_idle_inv]. Qed.

(** An event of one request leaves the others alone. *)
Lemma req_step_other s i ev now s' j :
  req_step s i ev now = Some s' → j ≠ i → idle_reqs s' !! j = idle_reqs s !! j.
Proof.
  unfold req_step, poll_frame, release, body_over. intros Hs Hj.
  repeat case_match; simplify_eq/=; by rewrite ?lookup_insert_ne by done.
Qed.

(** [C20] The idle count is exact: on every connection, however its requests, response
    bodies and their drops interleave, [in_flight] is the number of requests whose
    handler runs or whose response body is not over (neither polled to its end or to an
    error, nor dropped), plus those whose future was dropped before it completed; it
    never goes below zero. *)
Theorem idle_count_exact s :
  idle_reachable s →
  idle_in_flight s = n_in live (idle_reqs s) + n_in abandoned (idle_reqs s) ∧ 0 ≤ idle_in_flight s.
Proof.
  intros [_ Hc]%idle_reachable_inv.
  pose proof (n_in_nonneg live (idle_reqs s)). pose proof (n_in_nonneg abandoned (idle_reqs s)). lia.
Qed.

Lemma idle_count_exact_witness :
  match req_step (IdleState_new 0) 1 ReqCall 5 with
  | Some s => idle_in_flight s = 1
  | None => False
  end.
Proof.
  destruct (req_step (IdleState_new 0) 1 ReqCall 5) as [s|] eqn:E; [|vm_compute in E; discriminate E].
  destruct (idle_count_exact s (idle_next _ _ _ _ _ (idle_start 0) E)) as [Hc _].
  rewrite Hc. vm_compute in E. injection E as <-. reflexivity.
Defined.

(** ** The watchdog *)

(** Both places where the watchdog returns require that nothing is in flight and that
    the last activity is at least the idle timeout ago. *)
Lemma sleep_dur_None s d now : sleep_dur s d now = None → idle_in_flight s ≤ 0 ∧ d ≤ idle_for s now.
Proof.
  unfold sleep_dur. destruct (Z.ltb_spec 0 (idle_in_flight s)); [done|].
  destruct (negb _) eqn:E; [done|]. intros _. bool_to_prop. unfold saturating_sub in *. lia.
Qed.

Lemma sleep_dur_Some s d now sleep : 0 < d → sleep_dur s d now = Some sleep → 0 < sleep ≤ d.
Proof.
  pose proof (duration_nonneg now (last_activity s)). unfold sleep_dur, idle_for, saturating_sub in *.
  intros Hd. destruct (0 <? idle_in_flight s); [intros [= <-]; lia|].
  destruct (Z.eqb_spec (Z.max 0 (d - duration_since now (last_activity s))) 0); [done|].
  intros [= <-]. lia.
Qed.

Lemma idle_after_sleep_true s d now :
  idle_after_sleep s d now = true → idle_in_flight s ≤ 0 ∧ d ≤ idle_for s now.
Proof. unfold idle_after_sleep. intros H. bool_to_prop. lia. Qed.

Lemma watchdog_returns_idle s d p now :
  watchdog_step s d p now = Some WReturned → idle_in_flight s ≤ 0 ∧ d ≤ idle_for s now.
Proof.
  destruct p as [|until|]; simpl; [| |done].
  - destruct (sleep_dur s d now) eqn:E; [done|]. intros _. by apply sleep_dur_None.
  - destruct (until <=? now); [|done]. destruct (idle_after_sleep s d now) eqn:E; [|done].
    intros _. by apply idle_after_sleep_true.
Qed.

(** The watchdog in time is a run of its steps. *)
Inductive watchdog_run (hist : Instant → IdleState) (d : Duration) : WatchPhase → Instant → Instant → Prop :=
| watch_return p now : watchdog_step (hist now) d p now = Some WReturned → watchdog_run hist d p now now
| watch_on p now p' now' t : watchdog_step (hist now) d p now = Some p' → p' ≠ WReturned → now ≤ now' →
    watchdog_run hist d p' now' t → watchdog_run hist d p now t.

Lemma idle_watchdog_run fuel hist d now t :
  0 < d → idle_watchdog fuel hist d now = Some t → watchdog_run hist d WLoop now t.
Proof.
  intros Hd. revert now. induction fuel as [|fuel IH]; intros now; [done|]. cbn [idle_watchdog].
  destruct (sleep_dur (hist now) d now) as [sleep|] eqn:E.
  - pose proof (sleep_dur_Some _ _ _ _ Hd E). cbv zeta. intros Ht.
    apply (watch_on _ _ _ _ (WSleep (now + sleep)) (now + sleep)); [simpl; by rewrite E|done|lia|].
    assert (watchdog_step (hist (now + sleep)) d (WSleep (now + sleep)) (now + sleep)
      = Some (if idle_after_sleep (hist (now + sleep)) d (now + sleep) then WReturned else WLoop)) as Hw
      by (simpl; by rewrite Z.leb_refl).
    destruct (idle_after_sleep _ _ _).
    + injection Ht as <-. by apply watch_return.
    + eapply watch_on; [exact Hw|done|reflexivity|]. by apply IH.
  - intros [= <-]. apply watch_return. simpl. by rewrite E.
Qed.

(** The watchdog never closes a connection in use: when it returns, no request
    is in flight and the last activity is at least the idle timeout ago. *)
Lemma watchdog_safe fuel hist d now t :
  idle_watchdog fuel hist d now = Some t →
  idle_in_flight (hist t) ≤ 0 ∧ d ≤ idle_for (hist t) t.
Proof.
  revert now. induction fuel as [|fuel IH]; intros now; [done|]. cbn [idle_watchdog].
  destruct (sleep_dur (hist now) d now) as [sleep|] eqn:E; [|intros [= <-]; by apply sleep_dur_None].
  cbv zeta. destruct (idle_after_sleep _ d _) eqn:Ew; [|apply IH]. intros [= <-].
  by apply idle_after_sleep_true.
Qed.

Lemma watchdog_after fuel hist d now t :
  0 < d → idle_watchdog fuel hist d now = Some t → now ≤ t.
Proof.
  intros Hd. revert now. induction fuel as [|fuel IH]; intros now; [done|]. cbn [idle_watchdog].
  destruct (sleep_dur (hist now) d now) as [sleep|] eqn:E; [|intros [= <-]; lia].
  pose proof (sleep_dur_Some _ _ _ _ Hd E).
  cbv zeta. destruct (idle_after_sleep _ _ _); [intros [= <-]; lia|]. intros Ht%IH. lia.
Qed.

Section Quiet.
Context (hist : Instant → IdleState) (d : Duration) (t0 a : Instant) (Hd : 0 < d) (Ha : a ≤ t0).
Context (Hquiet : ∀ t, t0 ≤ t → idle_in_flight (hist t) = 0 ∧ last_activity (hist t) = a).

(** Once quiet, one round is enough. *)
Lemma watchdog_quiet fuel now :
  t0 ≤ now → ∃ t, idle_watchdog (S fuel) hist d now = Some t ∧ t ≤ Z.max now (a + d).
Proof.
  intros Hnow. destruct (Hquiet now Hnow) as [Hf Hl]. cbn [idle_watchdog].
  unfold sleep_dur, idle_after_sleep. rewrite Hf. simpl. unfold idle_for, duration_since, saturating_sub. rewrite Hl.
  destruct (Z.eqb_spec (Z.max 0 (d - Z.max 0 (now - a))) 0) as [E|E]; simpl; [exists now; split; [done|lia]|].
  set (now' := now + _). assert (now' = a + d) as Hn by (unfold now'; lia). clearbody now'. subst now'.
  destruct (Hquiet (a + d)) as [-> Hl']; [lia|]. rewrite Hl'. simpl.
  destruct (Z.leb_spec d (Z.max 0 (a + d - a))); [|lia]. exists (a + d). split; [done|lia].
Qed.

Lemma watchdog_terminates n : ∀ now,
  Z.max 0 (t0 - now) ≤ Z.of_nat n →
  ∃ t, idle_watchdog (S n) hist d now = Some t ∧ t ≤ Z.max now t0 + d.
Proof.
  induction n as [|n IH]; intros now Hn.
  { destruct (watchdog_quiet 0 now) as (t & Ht & Hle); [lia|]. exists t. split; [done|lia]. }
  destruct (Z.le_gt_cases t0 now) as [Hge|Hlt].
  { destruct (watchdog_quiet (S n) now Hge) as (t & Ht & Hle). exists t. split; [done|lia]. }
  cbn [idle_watchdog]. destruct (sleep_dur (hist now) d now) as [sleep|] eqn:E;
    [|exists now; split; [done|lia]].
  pose proof (sleep_dur_Some _ _ _ _ Hd E). cbv zeta.
  destruct (idle_after_sleep _ _ _); [exists (now + sleep); split; [done|lia]|].
  destruct (Z.le_gt_cases t0 (now + sleep)) as [Hge|Hlt'].
  - destruct (watchdog_quiet n (now + sleep) Hge) as (t & Ht & Hle). exists t. split; [done|lia].
  - destruct (IH (now + sleep)) as (t & Ht & Hle); [lia|]. exists t. split; [done|lia].
Qed.
End Quiet.

(** A request whose future is dropped before it completes keeps its count, and the
    watchdog never closes the connection. *)
Lemma abandoned_request_pins_connection :
  match req_step (IdleState_new 0) 1 ReqCall 1 with
  | Some s =>
      match req_step s 1 ReqFutureDropped 2 with
      | Some s' =>
          n_in live (idle_reqs s') = 0 ∧
          ∀ fuel d now, 0 < d → idle_watchdog fuel (λ _, s') d now = None
      | None => False
      end
  | None => False
  end.
Proof.
  simpl. split; [by vm_compute|]. intros fuel d. induction fuel as [|fuel IH]; intros now Hd; [done|].
  cbn. by apply IH.
Qed.

(** More fuel does not change when the watchdog returns. *)
Lemma watchdog_fuel hist d fuel : ∀ fuel' now t,
  (fuel ≤ fuel')%nat → idle_watchdog fuel hist d now = Some t → idle_watchdog fuel' hist d now = Some t.
Proof.
  induction fuel as [|fuel IH]; intros [|fuel'] now t Hle; try done; [lia|]. cbn [idle_watchdog].
  destruct (sleep_dur (hist now) d now) as [sleep|]; [|done]. cbv zeta.
  destruct (idle_after_sleep _ _ _); [done|]. apply IH. lia.
Qed.

(** ** The connection task *)

(** [C21] Connections do not hold their permit for nothing.  Whatever the peer does in
    the handshake and however long hyper's connection future would run: if from [t0] on
    no request of the connection is in flight and nothing touches it, its task ends, at
    most one idle timeout after [t0] or the end of the handshake; a handshake that does
    not complete in time ends it exactly at the handshake timeout; and the watchdog is
    what ends it only when nothing is in flight and the idle timeout has passed. *)
Theorem connection_released accept handshake idle serve hist tie start t0 a :
  0 ≤ handshake → 0 < idle → a ≤ t0 →
  (∀ h2 d r, serve h2 = Some (d, r) → 0 ≤ d) →
  (∀ t r, accept = Some (t, r) → 0 ≤ t) →
  (∀ t, t0 ≤ t → idle_in_flight (hist t) = 0 ∧ last_activity (hist t) = a) →
  ∃ fuel0, ∀ fuel, (fuel0 ≤ fuel)%nat →
  ∃ t why, connection_task accept handshake idle serve fuel hist tie start = Some (t, why) ∧
    start ≤ t ≤ Z.max (start + handshake) t0 + idle ∧
    ((∀ t1 r, accept = Some (t1, r) → handshake < t1) →
     t = start + handshake ∧ why = HandshakeFailed HandshakeTimeout) ∧
    (why = IdleCloses → idle_in_flight (hist t) ≤ 0 ∧ idle ≤ idle_for (hist t) t).
Proof.
  intros Hh Hi Ha Hserve Hacc Hq. unfold connection_task, accept_tls_with_timeout, timeout.
  destruct accept as [[t1 r]|]; [destruct (Z.leb_spec t1 handshake)|].
  - specialize (Hacc t1 r eq_refl). destruct r as [h2|e].
    + set (n := Z.to_nat (Z.max 0 (t0 - (start + t1)))). exists (S n). intros fuel Hfuel. cbv zeta.
      destruct (watchdog_terminates hist idle t0 a Hi Ha Hq n (start + t1)) as (w & Hw & Hle); [lia|].
      apply (watchdog_fuel _ _ _ fuel) in Hw; [|done]. rewrite Hw.
      pose proof (watchdog_after _ _ _ _ _ Hi Hw) as Hge. pose proof (watchdog_safe _ _ _ _ _ Hw) as Hsafe.
      assert (∀ P : Prop, (∀ t2 (r2 : result bool IoError), Some (t1, Ok h2) = Some (t2, r2) → handshake < t2) → P) as Hno.
      { intros P Hlate. specialize (Hlate t1 (Ok h2) eq_refl). lia. }
      destruct (serve h2) as [[d r]|] eqn:Hs.
      * specialize (Hserve h2 d r Hs). destruct (_ || _) eqn:Hfirst.
        -- exists (start + t1 + d), (ServeEnds r). split; [done|].
           assert (start + t1 + d ≤ w) by (apply orb_true_iff in Hfirst as [?|[? _]%andb_true_iff]; lia).
           split; [lia|]. by split; [apply Hno|].
        -- exists w, IdleCloses. split; [done|]. split; [lia|]. by split; [apply Hno|].
      * exists w, IdleCloses. split; [done|]. split; [lia|]. by split; [apply Hno|].
    + exists 0%nat. intros fuel _. exists (start + t1), (HandshakeFailed (Handshake e)).
      split; [done|]. split; [lia|]. split; [|done]. intros Hlate. specialize (Hlate t1 (Err e) eq_refl). lia.
  - exists 0%nat. intros fuel _. exists (start + handshake), (HandshakeFailed HandshakeTimeout).
    split; [done|]. split; [lia|]. by split.
  - exists 0%nat. intros fuel _. exists (start + handshake), (HandshakeFailed HandshakeTimeout).
    split; [done|]. split; [lia|]. by split.
Qed.

(** A peer that completes the handshake and then keeps silent. *)
Lemma connection_released_witness :
  ∃ fuel0, ∀ fuel, (fuel0 ≤ fuel)%nat →
  ∃ t why, connection_task (Some (2, Ok true)) 10 60 (λ _, None) fuel (λ _, mkIdle 2 0 ∅) true 0 = Some (t, why) ∧
    t ≤ 70.
Proof.
  destruct (connection_released (Some (2, Ok true)) 10 60 (λ _, None) (λ _, mkIdle 2 0 ∅) true 0 2 2)
    as [fuel0 H]; [lia..|discriminate| | |].
  - intros t r [= <- _]. lia.
  - intros t _. split; reflexivity.
  - exists fuel0. intros fuel Hf. destruct (H fuel Hf) as (t & why & Ht & Hle & _). exists t, why.
    split; [exact Ht|]. lia.
Defined.

(** ** Draining *)

Lemma drain_loop_spec count d start fuel : ∀ now,
  (∀ t, 0 ≤ count t) → 0 ≤ d → start ≤ now → now < start + d + millis 100 →
  start + d - now ≤ (Z.of_nat fuel) * millis 100 →
  ∃ r t, drain_loop (S fuel) count d start now = Some (r, t) ∧ now ≤ t < start + d + millis 100 ∧
    r = count t ∧ (0 < r → start + d ≤ t).
Proof.
  induction fuel as [|fuel IH]; intros now Hpos Hd Hs Hlt Hfuel; cbn [drain_loop].
  all: destruct (Z.eqb_spec (count now) 0) as [E|E]; [exists 0, now; repeat split; lia|].
  all: unfold duration_since, saturating_sub.
  - destruct (Z.leb_spec d (Z.max 0 (now - start))); [|lia].
    exists (count now), now. repeat split; lia.
  - destruct (Z.leb_spec d (Z.max 0 (now - start))).
    + exists (count now), now. repeat split; lia.
    + destruct (IH (now + millis 100)) as (r & t & Hr & Ht & Hrest); unfold millis in *; [done|lia..|].
      exists r, t. split; [done|]. split; [lia|done].
Qed.

(** The drain terminates and reports the truth: it returns within the shutdown
    timeout plus one poll interval, with the value of the in-flight counter at that
    instant, and a value other than zero only after the whole timeout. *)
Theorem drain_bounded count d start :
  (∀ t, 0 ≤ count t) → 0 ≤ d →
  ∃ r t, drain_in_flight count d start = Some (r, t) ∧
    start ≤ t < start + d + millis 100 ∧ r = count t ∧ (0 < r → start + d ≤ t).
Proof.
  intros Hpos Hd. unfold drain_in_flight, drain_fuel.
  apply drain_loop_spec; [done..|lia|unfold millis; lia|].
  assert (0 < millis 100) as Hm by (unfold millis; lia).
  pose proof (Z.mul_succ_div_gt d (millis 100) Hm). pose proof (Z.div_pos d (millis 100) Hd Hm). nia.
Qed.

Lemma drain_bounded_witness :
  ∃ r t, drain_in_flight (λ t, if t <? millis 250 then 1 else 0) (secs 30) 0 = Some (r, t) ∧
    0 ≤ t < 0 + secs 30 + millis 100 ∧ r = (if t <? millis 250 then 1 else 0) ∧ (0 < r → 0 + secs 30 ≤ t).
Proof.
  apply (drain_bounded (λ t, if t <? millis 250 then 1 else 0) (secs 30) 0).
  - intros t. destruct (t <? millis 250); lia.
  - unfold secs. lia.
Defined.

(** ** The peer *)

(** A client cannot forge its address: for a request on a connection accepted
    from [remote_addr], the outcome does not depend on any connection information
    the request carries, the limiter charges the key of [remote_addr], and what an
    upstream receives as [X-Real-IP] and [X-Forwarded-For] is that address alone. *)
Theorem peer_identity `{HttpLaws, Unicode} remote_addr cfg clients l c ms req :
  wf_ip (sa_ip remote_addr) →
  let out := serve_request remote_addr cfg clients l c ms req in
  (∀ info, serve_request remote_addr cfg clients l c ms
     (mkRequest (req_method req) (req_uri req) (req_headers req) (req_body req) info) = out) ∧
  out.1 = (check_and_consume (cfg_rate cfg) l (sa_ip remote_addr) c).1 ∧
  (∀ tls r m, o_sent out.2 = Some (tls, r) → m = "x-real-ip"%string ∨ m = "x-forwarded-for"%string →
     ∃ v, hm_get_all (req_headers r) m = [v] ∧ to_str v = Some (show_ip (sa_ip remote_addr))).
Proof.
  intros Hwf out. split; [done|]. unfold out, serve_request, connect_info_service, build_router,
    rate_limit_middleware, rate_limit_gate. cbn [req_connect_info req_headers req_uri].
  destruct (check_and_consume _ _ _ _) as [l1 [|]]; cbn [fst snd]; [|by split].
  split; [done|]. intros tls r m Hs%body_limit_sent Hm. unfold proxy_router, extract_connect_info in Hs.
  cbn [with_body req_connect_info] in Hs.
  apply proxy_handler_sent_inv in Hs as (site & u & _ & _ & _ & Hr & _).
  apply built_request_headers in Hr as (_ & _ & _ & Hh).
  exists (ip_header_value remote_addr). split; [|by apply ip_header_value_spec].
  rewrite Hh. unfold forwarded_values. by destruct Hm as [-> | ->].
Qed.

Import Concrete.

Lemma peer_identity_witness :
  let u := ascii_only in
  (serve_request test_addr test_loads (answering 1) RateLimiter_new (at_instant 0) 0 spoofed_request).1
  = (check_and_consume test_dynamic_config RateLimiter_new (sa_ip test_addr) (at_instant 0)).1.
Proof.
  intros u. apply (peer_identity test_addr test_loads (answering 1) RateLimiter_new (at_instant 0) 0
    spoofed_request test_addr_wf).
Defined.
