(* ===== verification/Upstream.v ===== *)
(** * Upstream clients

    The two clients of [ProxyState] as [create_http_client] and [create_https_client]
    ([src/proxy/handler.rs]) configure them.  What hyper-util does with the
    configuration is a parameter, with its documented connect timeout as the only law. *)

From S2P Require Import Prelude Text Net Http Config Routing Toml Validation Fixtures.
From S2P Require Import RateLimit Proxy ProxyProps Server.
Local Open Scope string_scope.
Local Open Scope list_scope.

(** ** Configuration *)

Record HttpConnector := mkHttpConnector {
  connect_timeout : option Duration;
  enforce_http : bool;
}.

(** [HttpConnector::new] *)
Definition HttpConnector_new : HttpConnector := mkHttpConnector None true.

Definition set_connect_timeout (c : HttpConnector) (d : option Duration) : HttpConnector :=
  mkHttpConnector d (enforce_http c).
Definition set_enforce_http (c : HttpConnector) (b : bool) : HttpConnector :=
  mkHttpConnector (connect_timeout c) b.

(** [rustls::ClientConfig] and [hyper_rustls::HttpsConnector]; certificates are their DER
    bytes. *)
Record ClientConfig := mkClientConfig { root_store : list string; client_auth_cert : option string }.

Record HttpsConnector := mkHttpsConnector {
  tls_config : ClientConfig;
  https_only : bool;
  http1_enabled : bool;
  http2_enabled : bool;
  wrapped : HttpConnector;
}.

(** [hyper_util::client::legacy::Client] *)
Record Client (C : Type) := mkClient {
  pool_idle_timeout : Duration;
  pool_max_idle_per_host : Z;
  connector : C;
}.
Arguments mkClient {C}.
Arguments connector {C}.

Definition CONNECT_TIMEOUT_CEILING_SECS : Z := 30.
Definition POOL_MAX_IDLE_PER_HOST : Z := 10.

Definition create_http_client : Client HttpConnector :=
  mkClient (secs 90) POOL_MAX_IDLE_PER_HOST
    (set_connect_timeout HttpConnector_new (Some (secs CONNECT_TIMEOUT_CEILING_SECS))).

(** ** Root certificates *)

(** [rustls_native_certs::load_native_certs]. *)
Record CertificateResult := mkCertificateResult { certs : list string; cert_errors : list string }.

Inductive RootLog :=
| NoRootsLoaded (errors : nat)
| RootsLoaded (certs_loaded errors : nat)
| NativeCertFailed (error : string).

Section Roots.
(** Whether [RootCertStore::add] accepts a certificate. *)
Context (add : string → bool).

Definition root_certs (result : CertificateResult) : list string * list RootLog :=
  let roots := foldl (λ roots cert, if add cert then roots ++ [cert] else roots) [] (certs result) in
  let cert_count := length roots in
  let error_count := length (cert_errors result) in
  (roots,
   (if (cert_count =? 0)%nat then NoRootsLoaded error_count else RootsLoaded cert_count error_count)
   :: map NativeCertFailed (cert_errors result)).

Definition create_https_client (native : CertificateResult) : Client HttpsConnector :=
  let http_connector :=
    set_connect_timeout HttpConnector_new (Some (secs CONNECT_TIMEOUT_CEILING_SECS)) in
  let http_connector := set_enforce_http http_connector false in
  let tls_config := mkClientConfig (root_certs native).1 None in
  let https_connector := mkHttpsConnector tls_config false true false http_connector in
  mkClient (secs 90) POOL_MAX_IDLE_PER_HOST https_connector.

(** The store holds exactly the certificates the library accepts, in order; one it
    refuses does not keep out the others. *)
Lemma root_certs_spec native :
  (root_certs native).1 = List.filter add (certs native).
Proof.
  unfold root_certs. cbn [fst].
  assert (∀ cs acc, foldl (λ roots cert, if add cert then roots ++ [cert] else roots) acc cs
    = acc ++ List.filter add cs) as Hfold.
  { induction cs as [|c cs IH]; intros acc; simpl; [by rewrite app_nil_r|].
    rewrite IH. destruct (add c); [by rewrite <- app_assoc|done]. }
  apply (Hfold (certs native) []).
Qed.

(** Every failure of the system store is logged, and an unusable store is a warning. *)
Lemma root_certs_log native :
  (NoRootsLoaded (length (cert_errors native)) ∈ (root_certs native).2 ↔
     Forall (λ c, add c = false) (certs native)) ∧
  (∀ e, e ∈ cert_errors native → NativeCertFailed e ∈ (root_certs native).2).
Proof.
  pose proof (root_certs_spec native) as Hs. unfold root_certs in *. cbn [fst snd] in *. rewrite Hs. split.
  - rewrite elem_of_cons. split.
    + intros [Hlog|(e & ? & _)%list_elem_of_fmap]; [|done].
      destruct (Nat.eqb_spec (length (List.filter add (certs native))) 0) as [H0|]; [|done].
      apply Forall_forall. intros c Hc. destruct (add c) eqn:Ha; [|done].
      assert (In c (List.filter add (certs native))) as Hin
        by (apply filter_In; split; [by apply list_elem_of_In|done]).
      by destruct (List.filter add (certs native)).
    + intros Hall. left. replace (List.filter add (certs native)) with (@nil string); [done|].
      clear -Hall. induction Hall as [|c cs Hc _ IH]; simpl; [done|]. by rewrite Hc.
  - intros e He. right. apply list_elem_of_fmap. by exists e.
Qed.
End Roots.

(** ** Requests *)

(** [Client::request] over the two connectors.  A request is [unreachable] when its
    upstream is named by an IP address and no TCP connection to it can be established:
    connections are refused, or nothing answers. *)
Class Hyper `{Http} := {
  http_request : Client HttpConnector → Request → Future (result UpstreamResponse ClientError);
  https_request : Client HttpsConnector → Request → Future (result UpstreamResponse ClientError);
  unreachable : Request → Prop;
}.

(** [set_connect_timeout]: the attempt fails with a connect error, at the latest when the
    time is up. *)
Class HyperLaws `{Hyper} := {
  http_connect_timeout c d r :
    connect_timeout (connector c) = Some d → unreachable r →
    ∃ t e, (t ≤ d)%Z ∧ is_connect e = true ∧ http_request c r = Some (t, Err e);
  https_connect_timeout c d r :
    connect_timeout (wrapped (connector c)) = Some d → unreachable r →
    ∃ t e, (t ≤ d)%Z ∧ is_connect e = true ∧ https_request c r = Some (t, Err e);
}.

(** The [ProxyState] of [run_server]. *)
Definition proxy_state `{Hyper} (add : string → bool) (native : CertificateResult) : Clients :=
  mkClients (http_request create_http_client) (https_request (create_https_client add native)).


(** ** A concrete client *)

Import Concrete.

(** A network in which nothing can be reached. *)
Definition refused : ClientError := mkClientError true "tcp connect error: deadline has elapsed".

Definition dead_network : @Hyper http :=
  {| http_request := λ c _, d ← connect_timeout (connector c); Some (d, Err refused);
     https_request := λ c _, d ← connect_timeout (wrapped (connector c)); Some (d, Err refused);
     unreachable := λ _, True |}.

Lemma dead_network_laws : @HyperLaws http dead_network.
Proof. split; intros c d r Hd _; exists d, refused; simpl; by rewrite Hd. Qed.

Definition dead_clients : Clients :=
  proxy_state (H0 := dead_network) (λ _, true) (mkCertificateResult [] []).


(** ** A divergence *)

(** An attempt that the ceiling ends is reported as 502, though the connect phase timed
    out: with a site timeout of 31 seconds the silent upstream is a Bad Gateway. *)
Lemma ceiling_is_bad_gateway :
  let u := ascii_only in
  let site := mkSiteConfig "test.local" "127.0.0.1:8080" "http" 31%Z 60%Z in
  let p := mkPending "203.0.113.7" "GET" "/" "test.local" site spoofed_request in
  status_of (o_response (handler_finish dead_clients p 0)) = 502%Z.
Proof. vm_compute. done. Qed.
