(* ===== verification/System.v ===== *)
(** * The running proxy

    [run_server] of [main.rs] shares five things between its tasks: the
    configuration cells of the reload handle, the rate limiter, the connection
    semaphore, the in-flight counter and the router.  Here the components of the
    other files run together over that shared state: reload tasks and file writes
    ([ReloadConc]), connections of all listeners and their watchdogs ([Server]), the
    eviction task ([RateLimit]) and the requests of the open connections ([Proxy]), in any
    interleaving.  A request takes one step per layer of the router: the rate limiter,
    the body limit, the handler up to its call of the upstream, and the handler from
    there.  Each of the first three loads the configuration anew, and a reload may come
    in between; the future of a request may be dropped at any of them. *)

From S2P Require Import Prelude Text Net NetRoundtrip Http Config Routing Toml Validation Fixtures ValidRouting.
From S2P Require Import Reload ReloadProps ReloadConc RateLimit RateLimitProps Proxy ProxyProps Server ServerProps.
Local Open Scope string_scope.
Local Open Scope list_scope.

Section System.
Context `{Http, Unicode, FileSystem, Toml} (rlimit : option Z) (clients : Clients).

(** A request on connection [conn] from [peer], by what its future holds: the request as
    the rate limiter and the body limit passed it on, the call of the upstream it awaits,
    its answer.  [QDropped] is a request whose future was dropped before it completed,
    with what it had sent by then. *)
Inductive ReqTask :=
| QArrived (conn : nat) (peer : SocketAddr) (req : Request)
| QRated (conn : nat) (peer : SocketAddr) (req : Request) (passed : Request)
| QLimited (conn : nat) (peer : SocketAddr) (req : Request) (passed : Request)
| QSent (conn : nat) (peer : SocketAddr) (req : Request) (call : Pending)
| QDone (conn : nat) (peer : SocketAddr) (req : Request) (out : Outcome)
| QDropped (conn : nat) (peer : SocketAddr) (req : Request) (sent : option (bool * Request)).

Definition task_conn (t : ReqTask) : nat :=
  match t with
  | QArrived i _ _ | QRated i _ _ _ | QLimited i _ _ _ | QSent i _ _ _ | QDone i _ _ _
  | QDropped i _ _ _ => i
  end.

Definition task_peer (t : ReqTask) : SocketAddr :=
  match t with
  | QArrived _ p _ | QRated _ p _ _ | QLimited _ p _ _ | QSent _ p _ _ | QDone _ p _ _
  | QDropped _ p _ _ => p
  end.

Definition task_req (t : ReqTask) : Request :=
  match t with
  | QArrived _ _ r | QRated _ _ r _ | QLimited _ _ r _ | QSent _ _ r _ | QDone _ _ r _
  | QDropped _ _ r _ => r
  end.

(** The request an upstream client was given on behalf of the task. *)
Definition sent_of (t : ReqTask) : option (bool * Request) :=
  match t with
  | QArrived _ _ _ | QRated _ _ _ _ | QLimited _ _ _ _ => None
  | QSent _ _ _ p => Some (pn_tls p, pn_req p)
  | QDone _ _ _ out => o_sent out
  | QDropped _ _ _ sent => sent
  end.

(** The future of the request has neither completed nor been dropped. *)
Definition pending (t : ReqTask) : bool :=
  match t with QDone _ _ _ _ | QDropped _ _ _ _ => false | _ => true end.

(** [sys_idle] and [sys_watch] are the [IdleState]s and the watchdogs of the connections
    that got past their handshake. *)
Record System := mkSystem {
  sys_world : World;
  sys_limiter : RateLimiter;
  sys_server : Server;
  sys_peers : gmap nat SocketAddr;
  sys_idle : gmap nat IdleState;
  sys_watch : gmap nat WatchPhase;
  sys_reqs : gmap nat ReqTask;
  sys_idle_timeout : Duration;
}.

(** What [run_server] sets up before the listeners accept. *)
Definition sys_start (f : ConfigFile) (l : LoadedConfig) : System :=
  let c := lc_static_config l in
  mkSystem (mkWorld f (handle_of_loaded l) None ∅) RateLimiter_new
    (Server_new (max_connections c) (length (listeners c))) ∅ ∅ ∅ ∅
    (secs (connection_idle_timeout_secs c)).

Inductive SysEvent :=
| SReload (e : Event)
| SEvict (now : Instant)
| SLoop (j : nat) (ev : LoopEvent)
| SAccept (j i : nat) (peer : SocketAddr)
| SConn (i : nat) (ev : ConnEvent) (now : Instant)
| SWatch (i : nat) (now : Instant)              (** the watchdog runs to its next sleep *)
| SSignal
| SRequest (q i : nat) (req : Request) (now : Instant)
| SRate (q : nat) (c : Readings) (now : Instant)
| SBody (q : nat) (now : Instant)
| SHandle (q : nat) (duration_ms : Z) (now : Instant)   (** the handler up to its call *)
| SAnswer (q : nat) (duration_ms : Z) (now : Instant)   (** … and from its return *)
| SFrame (q : nat) (p : Poll) (now : Instant)   (** the response body is polled *)
| SBodyDrop (q : nat) (now : Instant)           (** … or dropped *)
| SAbort (q : nat) (now : Instant).             (** the request's future is dropped *)

Definition served_config (s : System) : DynamicConfig := h_config (w_handle (sys_world s)).

Definition is_serving (s : System) (i : nat) : bool :=
  match sv_conns (sys_server s) !! i with Some (CServing _) => true | _ => false end.

Definition with_world (s : System) (w : World) : System :=
  mkSystem w (sys_limiter s) (sys_server s) (sys_peers s) (sys_idle s) (sys_watch s) (sys_reqs s) (sys_idle_timeout s).
Definition with_limiter (s : System) (l : RateLimiter) : System :=
  mkSystem (sys_world s) l (sys_server s) (sys_peers s) (sys_idle s) (sys_watch s) (sys_reqs s) (sys_idle_timeout s).
Definition with_server (s : System) (sv : Server) : System :=
  mkSystem (sys_world s) (sys_limiter s) sv (sys_peers s) (sys_idle s) (sys_watch s) (sys_reqs s) (sys_idle_timeout s).
Definition with_peer (s : System) (i : nat) (peer : SocketAddr) : System :=
  mkSystem (sys_world s) (sys_limiter s) (sys_server s) (<[i := peer]> (sys_peers s)) (sys_idle s) (sys_watch s)
    (sys_reqs s) (sys_idle_timeout s).
Definition with_idle (s : System) (i : nat) (st : IdleState) : System :=
  mkSystem (sys_world s) (sys_limiter s) (sys_server s) (sys_peers s) (<[i := st]> (sys_idle s)) (sys_watch s)
    (sys_reqs s) (sys_idle_timeout s).
Definition with_watch (s : System) (i : nat) (p : WatchPhase) : System :=
  mkSystem (sys_world s) (sys_limiter s) (sys_server s) (sys_peers s) (sys_idle s) (<[i := p]> (sys_watch s))
    (sys_reqs s) (sys_idle_timeout s).
Definition with_req (s : System) (q : nat) (t : ReqTask) : System :=
  mkSystem (sys_world s) (sys_limiter s) (sys_server s) (sys_peers s) (sys_idle s) (sys_watch s)
    (<[q := t]> (sys_reqs s)) (sys_idle_timeout s).

(** The request [q] of connection [i] passes an event of its idle tracking. *)
Definition track (s : System) (i q : nat) (ev : ReqEvent) (now : Instant) : option System :=
  st ← sys_idle s !! i; st' ← req_step st q ev now; Some (with_idle s i st').

(** The watchdog of the connection [i] runs on; the phase it comes to. *)
Definition watch (s : System) (i : nat) (now : Instant) : option WatchPhase :=
  st ← sys_idle s !! i; p ← sys_watch s !! i; watchdog_step st (sys_idle_timeout s) p now.

(** A connection task: the select of its two futures ends with the one that is ready. *)
Definition sys_conn_step (s : System) (i : nat) (ev : ConnEvent) (now : Instant) : option System :=
  sv ← conn_step (sys_server s) i ev;
  let s' := with_server s sv in
  match ev with
  | ConnAccepted _ => None
  | ConnHandshakeDone _ => Some (with_watch (with_idle s' i (IdleState_new now)) i WLoop)
  | ConnEnds IdleCloses => match watch s i now with Some WReturned => Some s' | _ => None end
  | _ => Some s'
  end.

(** The future of the request completes.  The router does not fail, so the tracking
    service sees no error. *)
Definition reply (s : System) (q : nat) (t : ReqTask) (out : Outcome) (now : Instant) : option System :=
  s ← track s (task_conn t) q ReqResponse now;
  Some (with_req s q (QDone (task_conn t) (task_peer t) (task_req t) out)).

(** A layer passes its request on, or answers it. *)
Definition layer {A} (s : System) (q : nat) (t : ReqTask) (next : nat → SocketAddr → Request → A → ReqTask)
    (r : result A Outcome) (now : Instant) : option System :=
  match r with
  | Ok a => Some (with_req s q (next (task_conn t) (task_peer t) (task_req t) a))
  | Err out => reply s q t out now
  end.

(** The code of the three layers on the current state. *)
Definition run_rate (s : System) (c : Readings) (peer : SocketAddr) (req : Request)
    : RateLimiter * result Request Outcome :=
  connect_info_service peer (rate_limit_gate (served_config s) (sys_limiter s) c) req.
Definition run_body (s : System) (passed : Request) : result Request Outcome :=
  body_limit_gate (served_config s) passed.
Definition run_handler (s : System) (duration_ms : Z) (passed : Request) : result Pending Outcome :=
  extract_connect_info Err
    (λ remote_addr, handler_start (served_config s) remote_addr duration_ms passed) passed.

(** A step of the request [q] in the state [s]. *)
Definition sys_req_step (s : System) (q : nat) (t : ReqTask) (ev : SysEvent) : option System :=
  match ev, t with
  | SRate _ c now, QArrived _ peer req =>
      let '(l, r) := run_rate s c peer req in layer (with_limiter s l) q t QRated r now
  | SBody _ now, QRated _ _ _ passed => layer s q t QLimited (run_body s passed) now
  | SHandle _ ms now, QLimited _ _ _ passed => layer s q t QSent (run_handler s ms passed) now
  | SAnswer _ ms now, QSent _ _ _ p => reply s q t (handler_finish clients p ms) now
  | SFrame _ p now, QDone i _ _ _ => track s i q (ReqFrame p) now
  | SBodyDrop _ now, QDone i _ _ _ => track s i q ReqBodyDropped now
  | SAbort _ now, _ =>
      if pending t then
        s ← track s (task_conn t) q ReqFutureDropped now;
        Some (with_req s q (QDropped (task_conn t) (task_peer t) (task_req t) (sent_of t)))
      else None
  | _, _ => None
  end.

(** Requests arrive only while their connection is served.  Those under way may still make
    progress after it ended, since the streams of an HTTP/2 connection are tasks of their
    own, until their future is dropped. *)
Definition sys_step (s : System) (ev : SysEvent) : option System :=
  match ev with
  | SReload e => w ← run_event rlimit (sys_world s) e; Some (with_world s w)
  | SEvict now => Some (with_limiter s (evict_stale (sys_limiter s) eviction_max_age now))
  | SLoop j ev => sv ← loop_step (sys_server s) j ev; Some (with_server s sv)
  | SAccept j i peer =>
      sv ← conn_step (sys_server s) i (ConnAccepted j); Some (with_peer (with_server s sv) i peer)
  | SConn i ev now => sys_conn_step s i ev now
  | SWatch i now =>
      if is_serving s i then
        match watch s i now with
        | Some WReturned | None => None
        | Some p => Some (with_watch s i p)
        end
      else None
  | SSignal => Some (with_server s (signal_shutdown (sys_server s)))
  | SRequest q i req now =>
      match is_serving s i, sys_peers s !! i, sys_reqs s !! q with
      | true, Some peer, None => s ← track s i q ReqCall now; Some (with_req s q (QArrived i peer req))
      | _, _, _ => None
      end
  | SRate q _ _ | SBody q _ | SHandle q _ _ | SAnswer q _ _ | SFrame q _ _ | SBodyDrop q _ | SAbort q _ =>
      match sys_reqs s !! q with
      | Some t => sys_req_step s q t ev
      | None => None
      end
  end.

Inductive sys_reachable (s0 : System) : System → Prop :=
| sys_init : sys_reachable s0 s0
| sys_next s ev s' : sys_reachable s0 s → sys_step s ev = Some s' → sys_reachable s0 s'.

Lemma sys_run_reachable s0 s evs s' :
  sys_reachable s0 s → steps sys_step s evs = Some s' → sys_reachable s0 s'.
Proof. intros Hs. apply steps_preserve; [by intros; eapply sys_next|done]. Qed.

(** ** Invariant *)

(** A value the configuration cell can have held. *)
Definition from_file (flag : bool) (cfg : DynamicConfig) : Prop := ∃ c, file_config flag c cfg.

(** The peer of a request is that of its connection. *)
Definition task_ok (peers : gmap nat SocketAddr) (t : ReqTask) : Prop :=
  peers !! task_conn t = Some (task_peer t).

(** The phase in which the idle tracking of its connection has a request. *)
Definition tracked_as (t : ReqTask) (p : ReqPhase) : Prop :=
  match t with
  | QArrived _ _ _ | QRated _ _ _ _ | QLimited _ _ _ _ | QSent _ _ _ _ => p = RPending
  | QDone _ _ _ _ => ∃ dec over, p = RBody dec over
  | QDropped _ _ _ _ => p = RAbandoned
  end.

Definition tracked (idle : gmap nat IdleState) (q : nat) (t : ReqTask) : Prop :=
  ∃ st p, idle !! task_conn t = Some st ∧ idle_reqs st !! q = Some p ∧ tracked_as t p.

Definition past_handshake (p : ConnPhase) : bool :=
  match p with CServing _ | CClosing | CClosed => true | _ => false end.

Record sys_inv (flag : bool) (max : Z) (n : nat) (d : Duration) (s : System) : Prop := {
  si_world : sourced flag (sys_world s);
  si_server : server_inv max n (sys_server s);
  si_limiter : limiter_reachable (sys_limiter s);
  si_peers : ∀ i, sv_conns (sys_server s) !! i = None → sys_peers s !! i = None;
  si_reqs : map_Forall (λ _, task_ok (sys_peers s)) (sys_reqs s);
  si_idle : map_Forall (λ i st, idle_reachable st ∧
    ∃ p, sv_conns (sys_server s) !! i = Some p ∧ past_handshake p = true) (sys_idle s);
  si_tracked : map_Forall (tracked (sys_idle s)) (sys_reqs s);
  si_timeout : sys_idle_timeout s = d;
}.

(** Connections do not disappear or return to their handshake. *)
Lemma conn_step_conns sv i ev sv' j :
  conn_step sv i ev = Some sv' →
  (sv_conns sv' !! j = None → sv_conns sv !! j = None) ∧
  (∀ p, sv_conns sv !! j = Some p → past_handshake p = true →
   ∃ p', sv_conns sv' !! j = Some p' ∧ past_handshake p' = true).
Proof.
  unfold conn_step, acquire_owned, set_loop. intros Hs.
  destruct (decide (i = j)) as [->|Hij];
    repeat case_match; simplify_eq/=; repeat case_match; simplify_eq/=;
    rewrite ?lookup_insert_eq, ?lookup_insert_ne by done; naive_solver.
Qed.

Lemma served_from_file flag w : sourced flag w → from_file flag (h_config (w_handle w)).
Proof. by intros []. Qed.

Lemma from_file_rate flag cfg : from_file flag cfg → wf_rate_limit (rate_limit cfg).
Proof. intros [c (_ & [_ [Hr _]] & _)%file_config_typed]. done. Qed.

(** *** Updates *)

Lemma with_server_inv flag max n d s sv :
  sys_inv flag max n d s → server_inv max n sv →
  (∀ j, sv_conns sv !! j = None → sv_conns (sys_server s) !! j = None) →
  (∀ j p, sv_conns (sys_server s) !! j = Some p → past_handshake p = true →
   ∃ p', sv_conns sv !! j = Some p' ∧ past_handshake p' = true) →
  sys_inv flag max n d (with_server s sv).
Proof.
  intros [] Hsv Hnew Hpast. split; simpl; auto.
  eapply map_Forall_impl; [exact si_idle0|]. intros i st [Hst (p & Hp & Hpp)]. split; [done|eauto].
Qed.

Lemma conn_step_sys_inv flag max n d s i ev sv :
  sys_inv flag max n d s → conn_step (sys_server s) i ev = Some sv →
  sys_inv flag max n d (with_server s sv).
Proof.
  intros Hinv Hc. apply with_server_inv; [done| | |].
  - eapply conn_step_inv; [apply Hinv|done].
  - intros j. by apply (conn_step_conns _ _ _ _ j Hc).
  - intros j. by apply (conn_step_conns _ _ _ _ j Hc).
Qed.

Lemma with_req_inv flag max n d s q t :
  sys_inv flag max n d s → task_ok (sys_peers s) t → tracked (sys_idle s) q t →
  sys_inv flag max n d (with_req s q t).
Proof. intros [] Ht Hq. split; simpl; try done; by apply map_Forall_insert_2. Qed.

Lemma with_limiter_inv flag max n d s l :
  sys_inv flag max n d s → limiter_reachable l → sys_inv flag max n d (with_limiter s l).
Proof. by intros []. Qed.

(** A request passes an event of the tracking: the others stay as they were tracked. *)
Lemma track_spec s i q ev now s' :
  track s i q ev now = Some s' →
  ∃ st st', sys_idle s !! i = Some st ∧ req_step st q ev now = Some st' ∧ s' = with_idle s i st'.
Proof. intros (st & Hi & (st' & Hs & [= <-])%bind_Some)%bind_Some. by exists st, st'. Qed.

(** The phase an event of the tracking leaves the request itself in. *)
Definition phase_after (ev : ReqEvent) (p : ReqPhase) : Prop :=
  match ev with
  | ReqCall => p = RPending
  | ReqResponse => p = RBody false false
  | ReqError => p = RFailed
  | ReqFrame _ | ReqBodyDropped => ∃ dec over, p = RBody dec over
  | ReqFutureDropped => p = RAbandoned
  end.

Lemma req_step_own st q ev now st' :
  req_step st q ev now = Some st' → ∃ p, idle_reqs st' !! q = Some p ∧ phase_after ev p.
Proof.
  unfold req_step, poll_frame, release, body_over. intros Hs.
  repeat case_match; simplify_eq/=; rewrite ?lookup_insert_eq; naive_solver.
Qed.

(** A request that changes its task and its phase together. *)
Lemma track_req_inv flag max n d s i q ev now s' t :
  sys_inv flag max n d s → track s i q ev now = Some s' → task_conn t = i →
  task_ok (sys_peers s) t → (∀ p, phase_after ev p → tracked_as t p) →
  sys_inv flag max n d (with_req s' q t).
Proof.
  intros Hinv (st & st' & Hi & Hs & ->)%track_spec Hc Ht Hown.
  destruct (req_step_own _ _ _ _ _ Hs) as (p & Hp & Htr%Hown).
  pose proof Hinv as []. split; simpl; try done.
  - by apply map_Forall_insert_2.
  - apply map_Forall_insert_2; [|done]. destruct (map_Forall_lookup_1 _ _ _ _ si_idle0 Hi) as [Hr Hpp].
    split; [by eapply idle_next|done].
  - intros q' t' [[<- <-]|[Hne Hq']]%lookup_insert_Some.
    + exists st', p. by rewrite Hc, lookup_insert_eq.
    + destruct (map_Forall_lookup_1 _ _ _ _ si_tracked0 Hq') as (st0 & p' & Hst & Hp' & Ht').
      unfold tracked. destruct (decide (task_conn t' = i)) as [Ei|Hni].
      * rewrite Ei, lookup_insert_eq. rewrite Ei, Hi in Hst. injection Hst as <-.
        exists st', p'. by rewrite (req_step_other _ _ _ _ _ _ Hs) by done.
      * rewrite lookup_insert_ne by done. by exists st0, p'.
Qed.

(** An event that leaves the task as it is. *)
Lemma track_inv flag max n d s i q ev now s' t :
  sys_inv flag max n d s → track s i q ev now = Some s' → sys_reqs s !! q = Some t → task_conn t = i →
  (∀ p, phase_after ev p → tracked_as t p) → sys_inv flag max n d s'.
Proof.
  intros Hinv Htr Hq Hc Hown.
  pose proof (map_Forall_lookup_1 _ _ _ _ (si_reqs _ _ _ _ _ Hinv) Hq) as Ht.
  pose proof (track_req_inv _ _ _ _ _ _ _ _ _ _ _ Hinv Htr Hc Ht Hown) as Hn.
  apply track_spec in Htr as (st & st' & _ & _ & ->). unfold with_req in Hn. simpl in Hn.
  rewrite (insert_id _ _ _ Hq) in Hn. exact Hn.
Qed.

Lemma task_ok_accept peers i peer t :
  peers !! i = None → task_ok peers t → task_ok (<[i := peer]> peers) t.
Proof.
  intros Hi. assert (∀ j p, peers !! j = Some p → <[i := peer]> peers !! j = Some p) as Hk.
  { intros j p Hj. rewrite lookup_insert_ne; [done|]. intros ->. by rewrite Hi in Hj. }
  apply Hk.
Qed.

(** *** Steps *)

Lemma with_watch_inv flag max n d s i p : sys_inv flag max n d s → sys_inv flag max n d (with_watch s i p).
Proof. by intros []. Qed.

Lemma conn_event_inv flag max n d s i ev now s' :
  sys_inv flag max n d s → sys_conn_step s i ev now = Some s' → sys_inv flag max n d s'.
Proof.
  intros Hinv (sv & Hc & Hs)%bind_Some. pose proof (conn_step_sys_inv _ _ _ _ _ _ _ _ Hinv Hc) as Hinv'.
  destruct ev as [j|j| |h2|[]|]; try (by injection Hs as <-); try done.
  2: { destruct (watch s i now) as [[]|]; try done. by injection Hs as <-. }
  injection Hs as <-. apply with_watch_inv.
  assert (sys_idle s !! i = None) as Hi.
  { destruct (sys_idle s !! i) as [st|] eqn:E; [|done].
    destruct (map_Forall_lookup_1 _ _ _ _ (si_idle _ _ _ _ _ Hinv) E) as [_ (p & Hp & Hpast)].
    unfold conn_step in Hc. rewrite Hp in Hc. by destruct p. }
  pose proof Hinv' as []. split; simpl in *; try done.
  - apply map_Forall_insert_2; [|done]. split; [constructor|].
    unfold conn_step in Hc. repeat case_match; simplify_eq/=. rewrite lookup_insert_eq. eauto.
  - eapply map_Forall_impl; [exact si_tracked0|]. intros q t (st & p & Hst & Hp). exists st, p.
    rewrite lookup_insert_ne; [done|]. intros Heq. rewrite Heq in Hi. congruence.
Qed.

Lemma accept_inv flag max n d s j i peer s' :
  sys_inv flag max n d s → sys_step s (SAccept j i peer) = Some s' → sys_inv flag max n d s'.
Proof.
  intros Hinv (sv & Hc & [= <-])%bind_Some. pose proof (conn_step_sys_inv _ _ _ _ _ _ _ _ Hinv Hc) as Hinv'.
  assert (sys_peers s !! i = None) as Hi.
  { apply (si_peers _ _ _ _ _ Hinv). unfold conn_step in Hc. by destruct (sv_conns (sys_server s) !! i) as [[]|]. }
  pose proof Hinv' as []. split; simpl in *; try done.
  - intros j' Hj'. apply lookup_insert_None. split; [auto|]. intros ->.
    unfold conn_step, set_loop in Hc. repeat case_match; simplify_eq/=; by rewrite lookup_insert_eq in Hj'.
  - eapply map_Forall_impl; [exact si_reqs0|]. intros q t. by apply task_ok_accept.
Qed.

(** A request that enters the next layer keeps its phase. *)
Lemma next_layer_inv flag max n d s q t t' :
  sys_inv flag max n d s → sys_reqs s !! q = Some t → task_conn t' = task_conn t →
  (∀ p, tracked_as t p → tracked_as t' p) → task_ok (sys_peers s) t' →
  sys_inv flag max n d (with_req s q t').
Proof.
  intros Hinv Hq Hc Hp Ht. apply with_req_inv; [done..|].
  destruct (map_Forall_lookup_1 _ _ _ _ (si_tracked _ _ _ _ _ Hinv) Hq) as (st & p & Hst & Hph & Htr).
  exists st, p. rewrite Hc. eauto.
Qed.

Lemma reply_inv flag max n d s q t out now s' :
  sys_inv flag max n d s → task_ok (sys_peers s) t → reply s q t out now = Some s' → sys_inv flag max n d s'.
Proof.
  intros Hinv Ht (s1 & Htr & [= <-])%bind_Some. eapply track_req_inv; [done..|].
  intros p ->. by eexists _, _.
Qed.

Lemma layer_inv {A} flag max n d s q t (next : nat → SocketAddr → Request → A → ReqTask) r now s' :
  sys_inv flag max n d s → sys_reqs s !! q = Some t → pending t = true →
  (∀ i peer req a, let t' := next i peer req a in task_conn t' = i ∧ task_peer t' = peer ∧ pending t' = true) →
  layer s q t next r now = Some s' → sys_inv flag max n d s'.
Proof.
  intros Hinv Hq Hpend Hnext Hs.
  pose proof (map_Forall_lookup_1 _ _ _ _ (si_reqs _ _ _ _ _ Hinv) Hq) as Ht. simpl in Ht.
  destruct r as [a|out]; simpl in Hs; [|by eapply reply_inv].
  injection Hs as <-. destruct (Hnext (task_conn t) (task_peer t) (task_req t) a) as (Hc & Hp & Hn).
  eapply next_layer_inv; [done..| |].
  - intros p Hph. assert (p = RPending) as -> by (destruct t; simpl in *; congruence).
    destruct (next _ _ _ _); done.
  - unfold task_ok. by rewrite Hc, Hp.
Qed.

(** The first layer leaves the limiter as [check_and_consume] does. *)
Lemma run_rate_limiter s c peer req :
  (run_rate s c peer req).1 = (check_and_consume (served_config s) (sys_limiter s) (sa_ip peer) c).1.
Proof.
  unfold run_rate, connect_info_service, rate_limit_gate. simpl.
  by destruct (check_and_consume _ _ _ _) as [? [|]].
Qed.

Lemma sys_req_step_inv flag max n d s q t ev s' :
  sys_inv flag max n d s → sys_reqs s !! q = Some t → sys_req_step s q t ev = Some s' →
  sys_inv flag max n d s'.
Proof.
  intros Hinv Hq Hs. pose proof (map_Forall_lookup_1 _ _ _ _ (si_reqs _ _ _ _ _ Hinv) Hq) as Ht. simpl in Ht.
  destruct ev, t; try done; cbn [sys_req_step] in Hs;
    try (eapply layer_inv; [exact Hinv|exact Hq| | |exact Hs]; done); try (by eapply reply_inv); try (by eapply track_inv);
    try (simpl in Hs; apply bind_Some in Hs as (s1 & Htr & [= <-]); by eapply track_req_inv).
  pose proof (run_rate_limiter s c peer req) as Hl.
  destruct (run_rate s c peer req) as [l r]. simpl in Hl. subst l.
  eapply layer_inv; [|..|exact Hs]; [|exact Hq|done..]. apply with_limiter_inv; [done|].
  pose proof (limiter_next _ (OpCheck (served_config s) (sa_ip peer) c)
    (from_file_rate _ _ (served_from_file _ _ (si_world _ _ _ _ _ Hinv))) (si_limiter _ _ _ _ _ Hinv)) as Hn.
  simpl in Hn. by destruct (check_and_consume _ _ _ _).
Qed.

Lemma sys_step_inv flag max n d s ev s' :
  sys_inv flag max n d s → sys_step s ev = Some s' → sys_inv flag max n d s'.
Proof.
  intros Hinv Hs. destruct ev as [e|now|j ev|j i peer|i ev now|i now| |q i req now| | | | | | |];
    cbn [sys_step] in Hs.
  9-15: destruct (sys_reqs s !! q) as [t|] eqn:Hq; [|done];
    by eapply sys_req_step_inv.
  - apply bind_Some in Hs as (w & He & [= <-]). pose proof Hinv as []. split; simpl; try done.
    eapply sourced_step; [done|]. by eapply run_event_step.
  - injection Hs as <-. apply with_limiter_inv; [done|].
    apply (limiter_next _ (OpEvict eviction_max_age now)); [done|apply Hinv].
  - apply bind_Some in Hs as (sv & Hc & [= <-]). apply with_server_inv; [done| | |].
    + eapply loop_step_inv; [apply Hinv|done].
    + by rewrite (loop_step_conns _ _ _ _ Hc).
    + rewrite (loop_step_conns _ _ _ _ Hc). eauto.
  - by eapply accept_inv.
  - by eapply conn_event_inv.
  - destruct (is_serving s i); [|done]. destruct (watch s i now) as [[]|]; simplify_eq; by apply with_watch_inv.
  - injection Hs as <-. apply with_server_inv; [done| |done|eauto]. by destruct (si_server _ _ _ _ _ Hinv).
  - destruct (is_serving s i), (sys_peers s !! i) as [peer|] eqn:Hi, (sys_reqs s !! q); try done.
    apply bind_Some in Hs as (s1 & Htr & [= <-]). by eapply track_req_inv.
Qed.

Lemma sys_reachable_inv file cli f0 l s :
  load_config file rlimit cli = Ok l → sys_reachable (sys_start f0 l) s →
  let c := lc_static_config l in
  sys_inv (lc_allow_wildcard_bind l) (max_connections c) (length (listeners c))
    (secs (connection_idle_timeout_secs c)) s.
Proof.
  intros Hl. induction 1 as [|s ev s' _ IH Hs]; [|by eapply sys_step_inv].
  pose proof (sourced_handle_of_loaded rlimit file cli l f0 Hl) as Hsrc.
  split; simpl; try done; [|constructor]. apply Server_new_inv.
  destruct (src_static _ _ Hsrc) as [d ((_ & _ & _ & _ & _ & Hm) & _)%file_config_typed].
  simpl in Hm. destruct Hm. done.
Qed.
End System.

(** A run of the process. *)
Abbreviation sys_run rlimit clients := (steps (sys_step rlimit clients)).
