(* ===== verification/SystemTrail.v ===== *)
(** * The way of a request through the running proxy

    The steps of one request in terms of the code of the layers ([moves]), and the
    moments of a run at which they happened: every task of a run is traced
    back to the states of the process in which its layers ran ([run_trail]). *)

From S2P Require Import Prelude Text Net NetRoundtrip Http Config Routing Toml Validation Fixtures ValidRouting.
From S2P Require Import Reload ReloadProps ReloadConc RateLimit RateLimitProps Proxy ProxyProps Server ServerProps.
From S2P Require Import System.
Local Open Scope string_scope.
Local Open Scope list_scope.

Section Trail.
Context `{Http, Unicode, FileSystem, Toml} (rlimit : option Z) (clients : Clients).
Abbreviation step := (sys_step rlimit clients).
Abbreviation run := (sys_run rlimit clients).

(** The event moves the request [q] in the state [s] from one task to the other. *)
Inductive moves (s : System) (q : nat) : SysEvent → ReqTask → ReqTask → Prop :=
| moves_rated i peer req c now passed :
    (run_rate s c peer req).2 = Ok passed →
    moves s q (SRate q c now) (QArrived i peer req) (QRated i peer req passed)
| moves_rate_limited i peer req c now out :
    (run_rate s c peer req).2 = Err out →
    moves s q (SRate q c now) (QArrived i peer req) (QDone i peer req out)
| moves_limited i peer req r1 now r2 :
    run_body s r1 = Ok r2 → moves s q (SBody q now) (QRated i peer req r1) (QLimited i peer req r2)
| moves_too_large i peer req r1 now out :
    run_body s r1 = Err out → moves s q (SBody q now) (QRated i peer req r1) (QDone i peer req out)
| moves_sent i peer req r2 ms now p :
    run_handler s ms r2 = Ok p → moves s q (SHandle q ms now) (QLimited i peer req r2) (QSent i peer req p)
| moves_refused i peer req r2 ms now out :
    run_handler s ms r2 = Err out → moves s q (SHandle q ms now) (QLimited i peer req r2) (QDone i peer req out)
| moves_answered i peer req p ms now :
    moves s q (SAnswer q ms now) (QSent i peer req p) (QDone i peer req (handler_finish clients p ms))
| moves_dropped t now :
    pending t = true →
    moves s q (SAbort q now) t (QDropped (task_conn t) (task_peer t) (task_req t) (sent_of t)).

Lemma track_reqs s i q ev now s' : track s i q ev now = Some s' → sys_reqs s' = sys_reqs s.
Proof. intros (st & st' & _ & _ & ->)%track_spec. done. Qed.

Lemma reply_reqs s q t out now s' :
  reply s q t out now = Some s' →
  sys_reqs s' = <[q := QDone (task_conn t) (task_peer t) (task_req t) out]> (sys_reqs s).
Proof. intros (s1 & Hr%track_reqs & [= <-])%bind_Some. simpl. by rewrite Hr. Qed.

Lemma layer_reqs {A} s q t (next : nat → SocketAddr → Request → A → ReqTask) r now s' :
  layer s q t next r now = Some s' →
  sys_reqs s' = <[q := match r with
                       | Ok a => next (task_conn t) (task_peer t) (task_req t) a
                       | Err out => QDone (task_conn t) (task_peer t) (task_req t) out
                       end]> (sys_reqs s).
Proof. destruct r; simpl; [by intros [= <-]|apply reply_reqs]. Qed.

Lemma sys_req_step_moves s q t ev s' :
  sys_req_step clients s q t ev = Some s' →
  match ev with
  | SRate q' _ _ | SBody q' _ | SHandle q' _ _ | SAnswer q' _ _ | SAbort q' _ => q' = q
  | _ => True
  end →
  sys_reqs s' = sys_reqs s ∨ ∃ t', sys_reqs s' = <[q := t']> (sys_reqs s) ∧ moves s q ev t t'.
Proof.
  intros Hs Hq. destruct ev as [?|?|? ?|? ? ?|? ? ?|? ?| |? ? ? ?|q' c now|q' now|q' ms now|q' ms now|q' p now|q' now|q' now], t as
    [cn pr rq|cn pr rq r|cn pr rq r|cn pr rq p'|cn pr rq out|cn pr rq sent]; try done;
    cbn [sys_req_step] in Hs; subst; try (left; by eapply track_reqs); right.
  5-8: cbn [pending] in Hs; apply bind_Some in Hs as (s1 & Hr%track_reqs & [= <-]);
    match goal with |- context [moves _ _ _ ?t _] =>
      eexists; split; [simpl; by rewrite Hr|exact (moves_dropped s q t now eq_refl)] end.
  - destruct (run_rate s c pr rq) as [l r] eqn:E. apply layer_reqs in Hs.
    destruct r; (eexists; split; [exact Hs|]); [apply moves_rated|apply moves_rate_limited]; simpl; by rewrite E.
  - apply layer_reqs in Hs. destruct (run_body s r) eqn:E; (eexists; split; [exact Hs|]); by constructor.
  - apply layer_reqs in Hs. destruct (run_handler s ms r) eqn:E; (eexists; split; [exact Hs|]); by constructor.
  - apply reply_reqs in Hs. eexists. split; [exact Hs|constructor].
Qed.

(** What an event does to the tasks: nothing, a request arrives, or one moves on. *)
Lemma sys_step_reqs s ev s' :
  step s ev = Some s' →
  sys_reqs s' = sys_reqs s ∨
  (∃ q i peer req, sys_reqs s !! q = None ∧ sys_reqs s' = <[q := QArrived i peer req]> (sys_reqs s)) ∨
  (∃ q t t', sys_reqs s !! q = Some t ∧ sys_reqs s' = <[q := t']> (sys_reqs s) ∧ moves s q ev t t').
Proof.
  intros Hs. destruct ev as [e|now|j ev|j i peer|i ev now|i now| |q i req now| | | | | | |];
    cbn [sys_step] in Hs.
  9-15: destruct (sys_reqs s !! q) as [t|] eqn:Hq; [|done];
    apply sys_req_step_moves in Hs as [Hs|(t' & Hs & Hm)]; [by left|right; right; by exists q, t, t'|done].
  8: { destruct (is_serving s i), (sys_peers s !! i) as [peer|], (sys_reqs s !! q) eqn:Hq; try done.
       apply bind_Some in Hs as (s1 & Hr%track_reqs & [= <-]). right; left.
       exists q, i, peer, req. split; [done|]. simpl. by rewrite Hr. }
  all: left; unfold sys_conn_step in Hs; repeat (case_match; simplify_eq/=; try done);
    try (apply bind_Some in Hs as (? & ? & Hs)); repeat (case_match; simplify_eq/=; try done); by simplify_eq.
Qed.

(** The first layer charges the shared limiter. *)
Lemma track_limiter s i q ev now s' : track s i q ev now = Some s' → sys_limiter s' = sys_limiter s.
Proof. intros (st & st' & _ & _ & ->)%track_spec. done. Qed.

Lemma rate_step_limiter s q c now s' i peer req :
  step s (SRate q c now) = Some s' → sys_reqs s !! q = Some (QArrived i peer req) →
  sys_limiter s' = (check_and_consume (served_config s) (sys_limiter s) (sa_ip peer) c).1.
Proof.
  intros Hs Hq. cbn [sys_step] in Hs. rewrite Hq in Hs.
  cbn [sys_req_step] in Hs. rewrite <- (run_rate_limiter s c peer req).
  destruct (run_rate s c peer req) as [l [r|out]]; simpl in Hs; [by injection Hs as <-|].
  by apply bind_Some in Hs as (s1 & Hl%track_limiter & [= <-]).
Qed.

(** ** Trails *)

(** The moves that led a request from its arrival to a task. *)
Inductive trail (q : nat) : list (SysEvent * System) → ReqTask → Prop :=
| trail_start i peer req : trail q [] (QArrived i peer req)
| trail_next tr t s ev t' :
    trail q tr t → sys_reqs s !! q = Some t → moves s q ev t t' → trail q (tr ++ [(ev, s)]) t'.

Lemma run_trail s evs s' q t :
  sys_reqs s !! q = None → run s evs = Some s' → sys_reqs s' !! q = Some t →
  ∃ tr, moments step s evs tr ∧ trail q tr t.
Proof.
  intros Hnone. revert s' t. induction evs as [|ev evs IH] using rev_ind; intros s' t.
  { intros [= <-]. congruence. }
  intros (s1 & Hr & Hs)%steps_snoc Hq.
  assert (∀ t, sys_reqs s1 !! q = Some t → ∃ tr, moments step s (evs ++ [ev]) tr ∧ trail q tr t) as Hold.
  { intros t0 Hq0. destruct (IH _ _ Hr Hq0) as (tr & Hm & Ht). exists tr. split; [by apply moments_more|done]. }
  destruct (sys_step_reqs _ _ _ Hs) as [E|[(q' & i & peer & req & Hn & E)|(q' & t1 & t2 & Hq' & E & Hm)]];
    rewrite E in Hq; [by apply Hold|..];
    apply lookup_insert_Some in Hq as [[-> <-]|[_ Hq]]; try by apply Hold.
  - exists []. split; [done|constructor].
  - destruct (IH _ _ Hr Hq') as (tr & Hmom & Ht). exists (tr ++ [(ev, s1)]).
    split; [by eapply moments_snoc|by eapply trail_next].
Qed.

Lemma trail_arrived q tr i peer req : trail q tr (QArrived i peer req) → tr = [].
Proof. inversion 1 as [|??? ev ? _ _ Hm]; [done|inversion Hm]. Qed.

Lemma trail_rated q tr i peer req r1 :
  trail q tr (QRated i peer req r1) →
  ∃ c n s1, tr = [(SRate q c n, s1)] ∧ sys_reqs s1 !! q = Some (QArrived i peer req) ∧
    (run_rate s1 c peer req).2 = Ok r1.
Proof.
  inversion 1 as [|??? ev ? Ht Hq Hm]; subst. inversion Hm; subst.
  apply trail_arrived in Ht as ->. by eexists _, _, _.
Qed.

Lemma trail_limited q tr i peer req r2 :
  trail q tr (QLimited i peer req r2) →
  ∃ c n s1 r1 n' s2, tr = [(SRate q c n, s1); (SBody q n', s2)] ∧
    sys_reqs s1 !! q = Some (QArrived i peer req) ∧ (run_rate s1 c peer req).2 = Ok r1 ∧ run_body s2 r1 = Ok r2.
Proof.
  inversion 1 as [|??? ev ? Ht Hq Hm]; subst. inversion Hm; subst.
  apply trail_rated in Ht as (c & n & s1 & -> & Ha & Hr). by eexists _, _, _, _, _, _.
Qed.

(** What is sent upstream has passed three layers, each on the state of its moment. *)
Record sent_trail (q : nat) (tr : list (SysEvent * System)) (peer : SocketAddr) (req : Request) (p : Pending)
    (c : Readings) (n1 n2 n3 : Instant) (ms : Z) (s1 s2 s3 : System) : Prop := {
  st_moments : tr = [(SRate q c n1, s1); (SBody q n2, s2); (SHandle q ms n3, s3)];
  st_arrived : ∃ i, sys_reqs s1 !! q = Some (QArrived i peer req);
  st_layers : ∃ r1 r2, (run_rate s1 c peer req).2 = Ok r1 ∧ run_body s2 r1 = Ok r2 ∧ run_handler s3 ms r2 = Ok p;
}.

Lemma trail_sent q tr i peer req p :
  trail q tr (QSent i peer req p) →
  ∃ c n1 n2 n3 ms s1 s2 s3, sent_trail q tr peer req p c n1 n2 n3 ms s1 s2 s3.
Proof.
  inversion 1 as [|??? ev ? Ht Hq Hm]; subst. inversion Hm; subst.
  apply trail_limited in Ht as (c & n & s1 & r1 & n' & s2 & -> & Ha & H1' & H2').
  eexists c, n, n', _, _, s1, s2, _. split; [done|eauto..].
Qed.

(** A layer that answers itself has sent nothing. *)
Lemma run_rate_reply s c peer req out : (run_rate s c peer req).2 = Err out → o_sent out = None.
Proof.
  unfold run_rate, connect_info_service, rate_limit_gate. simpl.
  destruct (check_and_consume _ _ _ _) as [? [|]]; naive_solver.
Qed.

Lemma run_body_reply s r out : run_body s r = Err out → o_sent out = None.
Proof. unfold run_body, body_limit_gate. repeat case_match; naive_solver. Qed.

Lemma run_handler_reply s ms r out : run_handler s ms r = Err out → o_sent out = None.
Proof.
  unfold run_handler, extract_connect_info. destruct (req_connect_info r); [|naive_solver].
  by intros [? _]%handler_start_reply.
Qed.

(** Whatever became of the task after: something was sent only by the handler's call. *)
Lemma sent_has_trail q tr t tls r :
  trail q tr t → sent_of t = Some (tls, r) →
  ∃ tr0 tr1 p c n1 n2 n3 ms s1 s2 s3, tr = tr0 ++ tr1 ∧
    sent_trail q tr0 (task_peer t) (task_req t) p c n1 n2 n3 ms s1 s2 s3 ∧ tls = pn_tls p ∧ r = pn_req p.
Proof.
  intros Htr. revert tls r. induction Htr as [|tr t s ev t' Ht IH Hq Hm]; intros tls r; [done|].
  destruct Hm as [| i peer req c now out Ho | | i peer req r1 now out Ho |i peer req r2 ms now p Hp
    |i peer req r2 ms now out Ho|i peer req p ms now|t now _]; cbn [sent_of task_peer task_req]; try done.
  - by rewrite (run_rate_reply _ _ _ _ _ Ho).
  - by rewrite (run_body_reply _ _ _ Ho).
  - intros [= <- <-]. pose proof (trail_next _ _ _ _ _ _ Ht Hq (moves_sent s q i peer req r2 ms now p Hp)) as Hn.
    apply trail_sent in Hn as (c & n1 & n2 & n3 & ms' & s1 & s2 & s3 & Hst).
    exists (tr ++ [(SHandle q ms now, s)]), [], p, c, n1, n2, n3, ms', s1, s2, s3.
    by rewrite (right_id_L [] (++)).
  - by rewrite (run_handler_reply _ _ _ _ Ho).
  - rewrite (proj1 (handler_finish_spec clients p ms)). intros [= <- <-].
    destruct (IH _ _ eq_refl) as (tr0 & tr1 & p' & c & n1 & n2 & n3 & ms' & s1 & s2 & s3 & -> & Hst & E1 & E2).
    exists tr0, (tr1 ++ [(SAnswer q ms now, s)]), p', c, n1, n2, n3, ms', s1, s2, s3.
    by rewrite (assoc_L (++)).
  - intros Hs. destruct (IH _ _ Hs) as (tr0 & tr1 & p' & c & n1 & n2 & n3 & ms' & s1 & s2 & s3 & -> & Hst & E1 & E2).
    exists tr0, (tr1 ++ [(SAbort q now, s)]), p', c, n1, n2, n3, ms', s1, s2, s3.
    by rewrite (assoc_L (++)).
Qed.
End Trail.
