(* ===== verification/SystemProps.v ===== *)
(** * Properties of the running proxy

    What holds in every reachable state of [System]: the composition of the components'
    guarantees. *)

From S2P Require Import Prelude Text Net NetRoundtrip Http Config Routing Toml Validation Fixtures ValidRouting.
From S2P Require Import Reload ReloadProps ReloadConc RateLimit RateLimitProps Proxy ProxyProps Server ServerProps.
From S2P Require Import System SystemTrail.
Local Open Scope string_scope.
Local Open Scope list_scope.

(** ** Requests sent upstream *)

(** What the layers did for a request that was sent upstream. *)
Lemma sent_trail_spec `{HttpLaws, Unicode} (clients : Clients) q tr peer req p c n1 n2 n3 ms s1 s2 s3 :
  sent_trail q tr peer req p c n1 n2 n3 ms s1 s2 s3 →
  (check_and_consume (served_config s1) (sys_limiter s1) (sa_ip peer) c).2 = true ∧
  req_body (pn_req p) = limited (req_body req) (effective_limit (served_config s2)) ∧
  hm_get_all (req_headers (pn_req p)) "x-real-ip" = [ip_header_value peer] ∧
  ∃ site, lookup (served_config s3) (request_host req) = Some site ∧ pn_tls p = is_https site ∧
    build_upstream_uri (site_upstream_scheme site) (site_upstream site) (req_uri req)
    = Some (req_uri (pn_req p)).
Proof.
  intros [_ _ (r1 & r2 & H1' & H2' & H3')].
  unfold run_rate, connect_info_service, rate_limit_gate in H1'. cbn [req_connect_info req_headers req_uri] in H1'.
  destruct (check_and_consume _ _ _ _) as [l1 [|]]; simplify_eq/=. split; [done|].
  assert (r2 = with_body (mkRequest (req_method req) (req_uri req) (req_headers req) (req_body req) (Some peer))
    (limited (req_body req) (effective_limit (served_config s2)))) as ->.
  { unfold run_body, body_limit_gate in H2'. repeat case_match; by simplify_eq/=. }
  unfold run_handler, extract_connect_info in H3'. cbn [with_body req_connect_info] in H3'.
  assert (o_sent (proxy_handler (served_config s3) clients peer ms (with_body (mkRequest (req_method req)
    (req_uri req) (req_headers req) (req_body req) (Some peer)) (limited (req_body req)
    (effective_limit (served_config s2))))) = Some (pn_tls p, pn_req p)) as Hs.
  { unfold proxy_handler. rewrite H3'. apply (handler_finish_spec clients p ms). }
  apply proxy_handler_sent_inv in Hs as (site & u & _ & Hl & Hu & Hr & Htls).
  apply built_request_headers in Hr as (_ & <- & Hb & Hh). split; [done|]. split; [by rewrite Hh|].
  by exists site.
Qed.

Lemma from_file_limit `{Unicode, FileSystem, Toml} flag cfg :
  from_file flag cfg → (0 < limit_bytes (body cfg))%Z ∧ effective_limit cfg = limit_bytes (body cfg).
Proof.
  intros [c (_ & (_ & _ & Hr) & _ & _ & Hv)%file_config_typed].
  pose proof (vc_body _ _ _ Hv) as Hb. unfold effective_limit.
  rewrite (proj2 (Z.eqb_neq _ _) Hb). unfold in_range in Hr. split; [lia|done].
Qed.

(** [C1] End-to-end safety of the running process.  Start it on any file, let connections
    come and go, requests arrive and be dropped, the eviction task run, the file be
    rewritten and reloads run, in any interleaving: the connections being served never
    exceed [max_connections] of the startup file; and whenever a request was sent
    upstream, answered or not, the run passed three moments in this order.  At the first,
    the limiter shared by all requests, as it stood, was asked for the key of the TCP peer
    of the request's connection under the configuration then served, admitted it and was
    charged.  At the second the body limit was taken from the configuration then served,
    the limit of an accepted file, and the upstream gets no more body bytes than that.  At
    the third the configuration then served, the dynamic half of a file that parsed and
    passed [validate], had a site for the host the client asked for, and the request goes
    to that site's upstream, over TLS exactly if the site says so, at the client's path.
    The upstream was told the peer as the client address, in a form that parses back to
    it. *)
Theorem end_to_end_safety `{HttpLaws, Unicode, FileSystem, Toml} rlimit clients file cli f0 l evs s :
  load_config file rlimit cli = Ok l →
  sys_run rlimit clients (sys_start f0 l) evs = Some s →
  map_Forall (λ _ a, wf_ip (sa_ip a)) (sys_peers s) →
  (n_in holds_permit (sv_conns (sys_server s)) ≤ max_connections (lc_static_config l))%Z ∧
  ∀ q t tls r,
    sys_reqs s !! q = Some t → sent_of t = Some (tls, r) →
    let peer := task_peer t in let req := task_req t in
    sys_peers s !! task_conn t = Some peer ∧
    ∃ c n1 s1 n2 s2 ms n3 s3,
      moments (sys_step rlimit clients) (sys_start f0 l) evs
        [(SRate q c n1, s1); (SBody q n2, s2); (SHandle q ms n3, s3)] ∧
      (∃ s1', sys_step rlimit clients s1 (SRate q c n1) = Some s1' ∧
         check_and_consume (served_config s1) (sys_limiter s1) (sa_ip peer) c = (sys_limiter s1', true)) ∧
      ((0 < limit_bytes (body (served_config s2)))%Z ∧
       (data_bytes (body_frames (req_body r)) ≤ limit_bytes (body (served_config s2)))%Z) ∧
      (∃ content f site,
         toml_from_str content = Ok f ∧ (into_static_and_dynamic f).2 = served_config s3 ∧
         site ∈ flat_map listener_sites (full_listeners f) ∧ site_valid site ∧
         normalize_host (request_host req) = str_map ascii_lower (site_host site) ∧
         tls = is_https site ∧
         build_upstream_uri (site_upstream_scheme site) (site_upstream site) (req_uri req)
         = Some (req_uri r)) ∧
      (∃ v t, hm_get_all (req_headers r) "x-real-ip" = [v] ∧ to_str v = Some t ∧
         parse_ip_addr t = Some (sa_ip peer)).
Proof.
  intros Hl Hrun Hpeers.
  pose proof (sys_run_reachable _ _ _ _ _ _ (sys_init rlimit clients (sys_start f0 l)) Hrun) as Hr.
  pose proof (sys_reachable_inv rlimit clients file cli f0 l s Hl Hr) as Hinv.
  split; [destruct (si_server _ _ _ _ _ Hinv); lia|]. intros q t tls r Hq Hsent peer req.
  pose proof (map_Forall_lookup_1 _ _ _ _ (si_reqs _ _ _ _ _ Hinv) Hq) as Hp. split; [exact Hp|].
  destruct (run_trail rlimit clients (sys_start f0 l) evs s q t) as (tr & Hm & Htr); [done..|].
  destruct (sent_has_trail _ _ _ _ _ _ Htr Hsent) as
    (tr0 & tr1 & p & c & n1 & n2 & n3 & ms & s1 & s2 & s3 & -> & Hst & -> & ->).
  exists c, n1, s1, n2, s2, ms, n3, s3. apply moments_take in Hm.
  assert (∀ ev s0, (ev, s0) ∈ tr0 → from_file (lc_allow_wildcard_bind l) (served_config s0)) as Hff.
  { intros ev s0 Hin.
    pose proof (moments_state _ (sys_reachable rlimit clients (sys_start f0 l)) _ _ _ _ _
      (λ s ev s', sys_next _ _ _ s ev s') (sys_init _ _ _) Hm Hin) as Hr0.
    by apply served_from_file, (si_world _ _ _ _ _ (sys_reachable_inv rlimit clients file cli f0 l s0 Hl Hr0)). }
  destruct (sent_trail_spec clients _ _ _ _ _ _ _ _ _ _ _ _ _ Hst) as (Hadm & Hb & Hx & site & Hlook & Htls & Huri).
  rewrite (st_moments _ _ _ _ _ _ _ _ _ _ _ _ _ Hst) in Hm, Hff. split; [done|].
  split; [|split; [|split]].
  - destruct Hm as (e1 & e2 & s1' & _ & _ & Hs & _). exists s1'. split; [done|].
    destruct (st_arrived _ _ _ _ _ _ _ _ _ _ _ _ _ Hst) as [i Hi].
    rewrite (rate_step_limiter _ _ _ _ _ _ _ _ _ _ Hs Hi). by apply injective_projections.
  - destruct (from_file_limit _ _ (Hff (SBody q n2) s2 ltac:(set_solver))) as [Hpos Heff]. split; [done|].
    rewrite Hb, limited_frames, Heff. apply limit_frames_bytes. lia.
  - destruct (Hff (SHandle q ms n3) s3 ltac:(set_solver)) as [c' (content & f & Hf & Hacc)].
    exists content, f, site. split; [done|]. pose proof (proj1 Hacc) as Hi.
    apply (accepted_lookup _ _ _ _ _ _ Hacc) in Hlook as (Hsite & Hvalid & Hhost).
    rewrite Hi. split; [done|]. split; [|done].
    unfold into_static_and_dynamic in Hi. injection Hi as _ Hd. by rewrite <- Hd in Hsite.
  - pose proof (map_Forall_lookup_1 _ _ _ _ Hpeers Hp) as Hwf. simpl in Hwf.
    exists (ip_header_value peer), (show_ip (sa_ip peer)). split; [done|].
    split; [by apply ip_header_value_spec|by apply parse_show_ip].
Qed.

(** ** The watchdog *)


(** A watchdog that returns ends its connection. *)
Lemma watchdog_closes `{Http, Unicode, FileSystem, Toml} rlimit clients s i now :
  is_serving s i = true → watch s i now = Some WReturned →
  is_Some (sys_step rlimit clients s (SConn i (ConnEnds IdleCloses) now)).
Proof.
  intros Hi Hw. cbn [sys_step]. unfold sys_conn_step, conn_step. unfold is_serving in Hi.
  destruct (sv_conns (sys_server s) !! i) as [[]|]; try done. cbn [mbind option_bind]. rewrite Hw. eauto.
Qed.

(** ** Descriptors *)

(** The listening sockets [run_server] opens: one per listener, one more where it
    redirects, and the health listener. *)
Definition listening_sockets (c : StaticConfig) : Z :=
  Z.of_nat (length (listeners c)) +
  Z.of_nat (length (filter (λ l, (0 <? http_port l)%Z = true) (listeners c))) +
  if (0 <? health_check_port c)%Z then 1 else 0.

(** [C30] The descriptor budget of the HTTPS listeners is kept.  If the process started
    under a soft limit on open files, then in every reachable state the client sockets of
    its HTTPS listeners leave the whole reserve of the limit free, up to one socket per
    listener (the connection its loop accepted beyond the cap); and so they and the
    listening sockets together stay under the limit whenever three sockets per listener
    and one more fit in the reserve, that is with up to 21 listeners.  The client sockets
    of the redirect and health listeners, which the semaphore does not cap, are not
    counted. *)
Theorem descriptors_fit `{Http, Unicode, FileSystem, Toml} rlimit soft clients file cli f0 l s :
  load_config file rlimit cli = Ok l →
  soft_nofile_limit rlimit = Some soft →
  sys_reachable rlimit clients (sys_start f0 l) s →
  let n := Z.of_nat (length (listeners (lc_static_config l))) in
  let sockets := n_in has_socket (sv_conns (sys_server s)) in
  (sockets + RESERVED_FDS ≤ soft + n)%Z ∧
  (3 * n + 1 ≤ RESERVED_FDS → sockets + listening_sockets (lc_static_config l) ≤ soft)%Z.
Proof.
  intros Hl Hsoft Hr n sockets. pose proof (sys_reachable_inv rlimit clients file cli f0 l s Hl Hr) as Hinv.
  pose proof (open_sockets_bound _ _ _ (si_server _ _ _ _ _ Hinv)) as Hopen.
  pose proof (sourced_handle_of_loaded rlimit file cli l f0 Hl) as Hsrc.
  destruct (src_static _ _ Hsrc) as [d ((_ & _ & _ & _ & _ & Hm) & _)%file_config_typed]. simpl in Hm.
  apply load_config_ok in Hl as (content & f & _ & _ & _ & Hnf & _).
  apply validate_nofile_exact in Hnf; [|exact Hm].
  unfold fd_budget_ok in Hnf. rewrite Hsoft in Hnf.
  pose proof (length_filter (λ l, (0 <? http_port l)%Z = true) (listeners (lc_static_config l))).
  split; [lia|]. intros Hn. unfold listening_sockets. destruct (0 <? health_check_port _)%Z; lia.
Qed.

(** ** Witnesses *)

Import Concrete.

(** A process started on the file ["old"]: a connection is accepted and served, a request
    arrives and is rated, the file changes and a reload runs to its end, and the
    request goes on under the new configuration. *)
Definition witness_events : list SysEvent :=
  [SAccept 0 1 test_addr; SConn 1 (ConnPermit 0) 0%Z; SConn 1 ConnStarts 0%Z;
   SConn 1 (ConnHandshakeDone true) 0%Z; SWatch 1 0%Z; SRequest 7 1 spoofed_request 0%Z;
   SRate 7 (at_instant 0%Z) 0%Z;
   SReload (EvWrite (file_at 2 "new")); SReload (EvSpawn 1);
   SReload (EvRun 1); SReload (EvRun 1); SReload (EvRun 1); SReload (EvRun 1); SReload (EvRun 1); SReload (EvRun 1);
   SBody 7 1%Z; SHandle 7 0%Z 1%Z; SAnswer 7 3%Z 4%Z].

(** What is looked at: the peers, and of request 7 its connection, the status of its answer
    and whether it was sent; and the rate now served. *)
Definition summary (s : @System http) : list (nat * SocketAddr) * option (nat * Z * bool) * Z :=
  (map_to_list (sys_peers s),
   match sys_reqs s !! 7%nat with
   | Some (QDone i _ _ out) =>
       Some (i, status_of (o_response out), match received (o_sent out) with Some _ => true | None => false end)
   | _ => None
   end,
   requests_per_second (rate_limit (served_config s))).

Lemma end_to_end_safety_witness :
  let u := ascii_only in let fs := fs_with [] in
  let t := toml_with [("old", test_doc 10); ("new", test_doc 50)] in
  let s0 := sys_start (file_at 1 "old") old_loaded in
  match sys_run None (answering 1) s0 witness_events with
  | Some s =>
      (n_in holds_permit (sv_conns (sys_server s)) ≤ 1024)%Z ∧
      ∃ t tls r c n1 s1 n2 s2 ms n3 s3,
        sys_reqs s !! 7%nat = Some t ∧ sent_of t = Some (tls, r) ∧
        moments (sys_step None (answering 1)) s0 witness_events
          [(SRate 7 c n1, s1); (SBody 7 n2, s2); (SHandle 7 ms n3, s3)]
  | None => False
  end.
Proof.
  intros u fs t s0.
  assert (summary <$> sys_run None (answering 1) s0 witness_events
    = Some ([(1%nat, test_addr)], Some (1%nat, 200%Z, true), 50%Z)) as Hsum by (vm_compute; reflexivity).
  destruct (sys_run _ _ _ _) as [s|] eqn:E; [|discriminate Hsum].
  injection Hsum as Hpeers Hreq _.
  destruct (end_to_end_safety None (answering 1) (λ _, Ok "old") test_cli (file_at 1 "old") old_loaded
    witness_events s) as [Hcap Hsent].
  - vm_compute. reflexivity.
  - exact E.
  - apply map_Forall_to_list. rewrite Hpeers. repeat constructor; vm_compute; discriminate.
  - split; [exact Hcap|].
    destruct (sys_reqs s !! 7%nat) as [[| | | |i peer req out|]|] eqn:Hq; try discriminate Hreq.
    injection Hreq as _ _ Hr. destruct (o_sent out) as [[tls r]|] eqn:Ho; [|discriminate Hr].
    destruct (Hsent 7%nat (QDone i peer req out) tls r Hq Ho) as [_ (c & n1 & s1 & n2 & s2 & ms & n3 & s3 & Hm & _)].
    exists (QDone i peer req out), tls, r, c, n1, s1, n2, s2, ms, n3, s3. split; [reflexivity|split; [exact Ho|exact Hm]].
Defined.

(** The response of request 7 is sent to its end, and the connection falls silent: its
    watchdog wakes up after the idle timeout of 60 s. *)
Definition quiet_events : list SysEvent :=
  witness_events ++ [SFrame 7 PollFrame 5%Z; SFrame 7 PollEnd 6%Z; SWatch 1 (secs 60); SWatch 1 (secs 60)].

(** Request 7 is done, and the watchdog of its connection returns after 200 s. *)
Definition can_close (s : @System http) : bool :=
  match sys_reqs s !! 7%nat with Some (QDone 1 _ _ _) => true | _ => false end &&
  match watch s 1 (secs 200) with Some WReturned => true | _ => false end && is_serving s 1.


(** The events of the witness up to the arrival of request 7. *)
Definition arrival_events : list SysEvent := take 6 witness_events.

Definition has_arrived (s : @System http) : bool :=
  match sys_reqs s !! 7%nat with Some (QArrived 1 _ _) => true | _ => false end && is_serving s 1.

Lemma descriptors_fit_witness :
  let u := ascii_only in let fs := fs_with [] in let t := toml_with [("old", test_doc 10)] in
  match sys_run (Some 4096%Z) (answering 1) (sys_start (file_at 1 "old") old_loaded) arrival_events with
  | Some s => (n_in has_socket (sv_conns (sys_server s)) + listening_sockets (lc_static_config old_loaded) ≤ 4096)%Z
  | None => False
  end.
Proof.
  intros u fs t.
  assert (has_arrived <$> sys_run (Some 4096%Z) (answering 1) (sys_start (file_at 1 "old") old_loaded) arrival_events
    = Some true) as Hsum by (vm_compute; reflexivity).
  destruct (sys_run _ _ _ _) as [s|] eqn:E; [|discriminate Hsum].
  apply (descriptors_fit (Some 4096%Z) 4096 (answering 1) (λ _, Ok "old") test_cli (file_at 1 "old") old_loaded s).
  - vm_compute. reflexivity.
  - reflexivity.
  - eapply sys_run_reachable; [constructor|exact E].
  - vm_compute. discriminate.
Defined.
