(* ===== verification/SystemRate.v ===== *)
(** * The rate limit of the running proxy

    The limiter inside [System]: the operations a run performs on it, one by one with
    the configuration each of them loaded, and the bound they put on what one client can
    send to the upstreams, whatever connections it uses and whatever reloads happen. *)

From S2P Require Import Prelude Text Net NetRoundtrip Http Config Routing Toml Validation Fixtures ValidRouting.
From S2P Require Import Reload ReloadProps ReloadConc RateLimit RateLimitProps Proxy ProxyProps Server ServerProps.
From S2P Require Import System SystemTrail SystemProps.
Local Open Scope string_scope.
Local Open Scope list_scope.

(** ** Counting in a map *)

Definition count_in {A} (P : nat → A → bool) (m : gmap nat A) : Z :=
  Z.of_nat (size (filter (λ kv, P kv.1 kv.2 = true) m)).

Lemma count_in_insert {A} (P : nat → A → bool) m i x :
  (count_in P (<[i := x]> m) ≤ count_in P m + if P i x then 1 else 0)%Z.
Proof.
  unfold count_in. rewrite map_filter_insert. cbn [fst snd].
  destruct (P i x); (destruct (decide _); [|try done]); try done.
  - rewrite map_size_insert. destruct (filter _ m !! i); simpl; lia.
  - rewrite map_filter_delete, map_size_delete. destruct (filter _ m !! i); simpl; lia.
Qed.

(** An entry that counts replaces one that did. *)
Lemma count_in_update {A} (P : nat → A → bool) m i x y :
  m !! i = Some x → (P i y = true → P i x = true) → (count_in P (<[i := y]> m) ≤ count_in P m)%Z.
Proof.
  intros Hi Himp. destruct (P i y) eqn:Hy.
  - unfold count_in. rewrite map_filter_insert_True by done. rewrite map_size_insert.
    rewrite (map_lookup_filter_Some_2 _ m i x) by (done || by apply Himp). done.
  - pose proof (count_in_insert P m i y) as Hc. rewrite Hy in Hc. lia.
Qed.

Lemma count_in_mono {A} (P Q : nat → A → bool) m :
  (∀ i x, m !! i = Some x → P i x = true → Q i x = true) → (count_in P m ≤ count_in Q m)%Z.
Proof.
  intros Himp. unfold count_in. apply inj_le, map_subseteq_size, map_filter_subseteq_ext.
  intros i x Hi HP. by apply Himp.
Qed.

Lemma count_in_zero {A} (P : nat → A → bool) m :
  (∀ i x, m !! i = Some x → P i x = false) → count_in P m = 0%Z.
Proof.
  intros Hz. unfold count_in. rewrite map_empty_filter_2; [done|].
  intros i x Hi. simpl. by rewrite (Hz i x Hi).
Qed.

Section Trace.
Context `{Http, Unicode, FileSystem, Toml} (rlimit : option Z) (clients : Clients).

(** What an event does to the limiter. *)
Definition event_ops (s : System) (ev : SysEvent) : list LimiterOp :=
  match ev with
  | SEvict now => [OpEvict eviction_max_age now]
  | SRate q c _ =>
      match sys_reqs s !! q with
      | Some (QArrived _ peer _) => [OpCheck (served_config s) (sa_ip peer) c]
      | _ => []
      end
  | _ => []
  end.

Fixpoint sys_ops (s : System) (evs : list SysEvent) : list LimiterOp :=
  match evs with
  | [] => []
  | ev :: evs =>
      match sys_step rlimit clients s ev with
      | Some s' => event_ops s ev ++ sys_ops s' evs
      | None => []
      end
  end.

(** The requests of the key [k] that went upstream: they await the answer, got it, or were
    dropped after they were sent … *)
Definition sent_from (k : IpAddr) (t : ReqTask) : bool :=
  bool_decide (normalize_ip (sa_ip (task_peer t)) = k) && bool_decide (is_Some (sent_of t)).

(** … and those that went upstream or still may. *)
Definition let_through (k : IpAddr) (t : ReqTask) : bool :=
  bool_decide (normalize_ip (sa_ip (task_peer t)) = k) &&
  match t with
  | QArrived _ _ _ => false
  | QRated _ _ _ _ | QLimited _ _ _ _ => true
  | _ => bool_decide (is_Some (sent_of t))
  end.

(** The limiter has not yet been asked about the request [q]. *)
Definition unrated (s : System) (q : nat) : bool :=
  match sys_reqs s !! q with None | Some (QArrived _ _ _) => true | Some _ => false end.

(** The requests of [k] sent upstream in [s'] that came to the limiter after [s]. *)
Definition sent_since (s s' : System) (k : IpAddr) : Z :=
  count_in (λ q t, unrated s q && sent_from k t) (sys_reqs s').

Definition is_check_of (k : IpAddr) (op : LimiterOp) : bool :=
  match op with OpCheck _ ip _ => bool_decide (normalize_ip ip = k) | OpEvict _ _ => false end.

(** The requests of [k] the limiter was asked about. *)
Definition asked (k : IpAddr) (ops : list LimiterOp) : Z :=
  Z.of_nat (length (filter (λ op, is_check_of k op = true) ops)).

Lemma asked_verdicts k l ops : Z.of_nat (length (verdicts_for k (limiter_run l ops).2)) = asked k ops.
Proof.
  unfold asked. revert l. induction ops as [|op ops IH]; intros l; [done|].
  change (op :: ops) with ([op] ++ ops). rewrite limiter_run_app, filter_app, length_app, Nat2Z.inj_add.
  destruct (limiter_run l [op]) as [l1 out] eqn:E. specialize (IH l1).
  destruct (limiter_run l1 ops) as [l2 out2]. cbn [snd] in *.
  rewrite verdicts_for_app, length_app, Nat2Z.inj_add, IH. f_equal.
  pose proof (proj2 (limiter_run_client l [op] k)) as Hv. rewrite E in Hv. cbn [snd] in Hv. rewrite Hv.
  rewrite filter_cons, filter_nil. destruct op as [config ip c|]; [|done]. simpl.
  case_bool_decide as Hk; destruct (decide (normalize_ip ip = k)); try done.
  by destruct (bucket_check _ _ _).
Qed.

(** The steps of the system are steps of the limiter. *)
Lemma reply_limiter s q t out now s' : reply s q t out now = Some s' → sys_limiter s' = sys_limiter s.
Proof. by intros (s1 & <-%track_limiter & [= <-])%bind_Some. Qed.

Lemma layer_limiter {A} s q t (next : nat → SocketAddr → Request → A → ReqTask) r now s' :
  layer s q t next r now = Some s' → sys_limiter s' = sys_limiter s.
Proof. destruct r; simpl; [by intros [= <-]|apply reply_limiter]. Qed.

Lemma event_limiter s ev s' :
  sys_step rlimit clients s ev = Some s' →
  (limiter_run (sys_limiter s) (event_ops s ev)).1 = sys_limiter s'.
Proof.
  intros Hs. destruct ev as [e|now|j ev|j i peer|i ev now|i now| |q i req now|q c now|q now|q ms now|q ms now
    |q p now|q now|q now].
  9: { cbn [event_ops]. pose proof Hs as Hs'. cbn [sys_step] in Hs.
       destruct (sys_reqs s !! q) as [[i peer req| | | | |]|] eqn:Hq; try done.
       rewrite (rate_step_limiter _ _ _ _ _ _ _ _ _ _ Hs' Hq). simpl.
       by destruct (check_and_consume _ _ _ _). }
  9-14: cbn [sys_step] in Hs; destruct (sys_reqs s !! q) as [t|]; [|done];
    symmetry; destruct t; try done; cbn [sys_req_step] in Hs;
    try (by eapply layer_limiter); try (by eapply reply_limiter); try (by eapply track_limiter);
    cbn [pending] in Hs; by apply bind_Some in Hs as (s1 & <-%track_limiter & [= <-]).
  all: cbn [sys_step event_ops] in *; unfold sys_conn_step, track in Hs;
    repeat (case_match; simplify_eq/=; try done);
    repeat match goal with E : _ ≫= _ = Some _ |- _ => apply bind_Some in E as (? & ? & ?); simplify_eq/= end;
    repeat (case_match; simplify_eq/=; try done); by simplify_eq.
Qed.

Lemma verdict_of k config l ip c :
  count_true (verdicts_for k (limiter_run l [OpCheck config ip c]).2)
  = (if bool_decide (normalize_ip ip = k) && (check_and_consume config l ip c).2 then 1 else 0)%Z.
Proof.
  simpl. destruct (check_and_consume config l ip c) as [l1 v]. unfold verdicts_for. simpl.
  rewrite filter_cons, filter_nil. simpl. case_bool_decide; [rewrite decide_True by done|by rewrite decide_False].
  by destruct v.
Qed.

(** A request is let through by a positive verdict, and stays what it was or ends. *)
Lemma moves_let_through k s q ev t t' :
  moves clients s q ev t t' → sys_reqs s !! q = Some t →
  (let_through k t' = true → let_through k t = true) ∨
  count_true (verdicts_for k (limiter_run (sys_limiter s) (event_ops s ev)).2)
  = (if let_through k t' then 1 else 0)%Z.
Proof.
  intros Hm Hq. destruct Hm as [i peer req c now r1 Hr|i peer req c now out Ho| |i peer req r1 now out Ho| |
    i peer req r2 ms now out Ho|i peer req p ms now|t now Hp]; unfold let_through; cbn [task_peer sent_of];
    try (left; by rewrite andb_true_iff, ?bool_decide_eq_true).
  - right. cbn [event_ops]. rewrite Hq, verdict_of, andb_true_r.
    unfold run_rate, connect_info_service, rate_limit_gate in Hr. cbn [req_connect_info req_headers req_uri] in Hr.
    destruct (check_and_consume _ _ _ _) as [l1 [|]]; simplify_eq/=. by rewrite andb_true_r.
  - left. rewrite (run_rate_reply _ _ _ _ _ Ho). by rewrite andb_false_r.
  - left. rewrite (run_body_reply _ _ _ Ho). by rewrite andb_false_r.
  - left. rewrite andb_true_r, andb_true_iff. naive_solver.
  - left. rewrite (run_handler_reply _ _ _ _ Ho). by rewrite andb_false_r.
  - left. by rewrite (proj1 (handler_finish_spec clients p ms)).
  - left. destruct t; cbn [task_peer sent_of]; try done; rewrite !andb_true_iff; naive_solver.
Qed.

Lemma event_admitted s0 k s ev s' :
  sys_step rlimit clients s ev = Some s' →
  let P := λ q t, unrated s0 q && let_through k t in
  (count_in P (sys_reqs s') ≤ count_in P (sys_reqs s)
   + count_true (verdicts_for k (limiter_run (sys_limiter s) (event_ops s ev)).2))%Z.
Proof.
  intros Hs P. set (vs := count_true _).
  assert (0 ≤ vs)%Z as Hpos by (unfold vs, count_true; lia).
  destruct (sys_step_reqs _ _ _ _ _ Hs) as [->|[(q & i & peer & req & _ & ->)|(q & t & t' & Hq & -> & Hm)]]; [lia| |].
  - etransitivity; [apply count_in_insert|]. unfold P, let_through. rewrite !andb_false_r. lia.
  - destruct (moves_let_through k _ _ _ _ _ Hm Hq) as [Hold|Hnew].
    + etransitivity; [apply (count_in_update _ _ _ _ _ Hq)|lia]. unfold P. rewrite !andb_true_iff. naive_solver.
    + etransitivity; [apply count_in_insert|]. unfold vs. rewrite Hnew. unfold P.
      destruct (unrated s0 q); simpl; [done|]. destruct (let_through k t'); lia.
Qed.

(** Over a run: the limiter moves as by its operations, and at most the admitted
    verdicts are added. *)
Lemma run_admitted s0 k s evs s' :
  sys_run rlimit clients s evs = Some s' →
  let P := λ q t, unrated s0 q && let_through k t in
  (count_in P (sys_reqs s') ≤ count_in P (sys_reqs s)
   + count_true (verdicts_for k (limiter_run (sys_limiter s) (sys_ops s evs)).2))%Z.
Proof.
  revert s. induction evs as [|ev evs IH]; intros s; simpl.
  { intros [= <-]. simpl. unfold verdicts_for, count_true. simpl. lia. }
  intros (s1 & Hs & Hr)%bind_Some. rewrite Hs, limiter_run_app.
  pose proof (event_limiter _ _ _ Hs) as Hl. pose proof (event_admitted s0 k _ _ _ Hs) as Ha.
  destruct (limiter_run (sys_limiter s) (event_ops s ev)) as [l1 out1]. simpl in Hl, Ha. subst l1.
  specialize (IH _ Hr). simpl in IH. destruct (limiter_run (sys_limiter s1) (sys_ops s1 evs)) as [l2 out2].
  simpl in *. rewrite verdicts_for_app, count_true_app. lia.
Qed.

Lemma event_ops_typed flag max n d s ev s' :
  sys_inv flag max n d s → sys_step rlimit clients s ev = Some s' → Forall op_typed (event_ops s ev).
Proof.
  intros Hinv Hs. destruct ev; simpl; try done; [by constructor|].
  repeat case_match; try done. apply Forall_singleton. eapply from_file_rate, served_from_file, Hinv.
Qed.

Lemma sys_ops_typed flag max n d s evs :
  sys_inv flag max n d s → Forall op_typed (sys_ops s evs).
Proof.
  revert s. induction evs as [|ev evs IH]; intros s Hinv; simpl; [constructor|].
  destruct (sys_step rlimit clients s ev) as [s1|] eqn:Hs; [|constructor].
  apply Forall_app. split; [by eapply event_ops_typed|]. apply IH. by eapply sys_step_inv.
Qed.

(** The evictions of a run are those of [main.rs]. *)
Lemma sys_ops_evict s evs :
  Forall (λ op, match op with OpEvict m _ => m = eviction_max_age | OpCheck _ _ _ => True end) (sys_ops s evs).
Proof.
  revert s. induction evs as [|ev evs IH]; intros s; simpl; [constructor|].
  destruct (sys_step rlimit clients s ev) as [s1|]; [|constructor].
  apply Forall_app. split; [|apply IH]. destruct ev; cbn [event_ops]; try constructor; try done.
  repeat case_match; by repeat constructor.
Qed.
End Trace.

(** ** The window *)

(** [C3] The rate limit of the running process.  Take any reachable state and any run from
    it, with reloads, evictions, other clients and connections coming and going in
    between.  If the clock readings of the limiter calls for a key lie in [lo, hi] in
    order and the configurations they load have rates up to [rate] and bursts up to
    [max], then of the requests that key brought to the limiter in the run, over all its
    connections and for all sites together, at most [max + R * (hi - lo)] were sent to
    upstreams, whether they were answered, are awaited or were dropped after.  [R] is
    [rate] or, if larger, [max] per 300 seconds, the age at which the eviction task gives
    an idle client a full bucket anew; it is [rate] for every configuration whose burst
    is at most 300 times its rate.  This is up to the rounding of binary64: at most one
    more when the run asks for fewer than [2^52 / (max + 1)] admissions and [2^49]
    tokens. *)
Theorem client_window `{Http, Unicode, FileSystem, Toml} rlimit clients file cli f0 l s evs s' k lo hi rate max :
  load_config file rlimit cli = Ok l →
  sys_reachable rlimit clients (sys_start f0 l) s →
  sys_run rlimit clients s evs = Some s' →
  let ops := sys_ops rlimit clients s evs in
  (0 ≤ rate)%Z → (0 ≤ max)%Z → timed k lo hi ops →
  (∀ config ip c, OpCheck config ip c ∈ ops →
     (requests_per_second (rate_limit config) ≤ rate)%Z ∧ (burst (rate_limit config) ≤ max)%Z) →
  let R := window_rate rate max eviction_max_age in
  (2 ^ 53 * 10 ^ 9 * sent_since s s' k
   ≤ 2 ^ 53 * 10 ^ 9 * max + (2 ^ 53 + 8) * (R * (hi - lo)) + 10 ^ 9 * (max + 1) * asked k ops)%Z ∧
  ((max + 1) * asked k ops < 2 ^ 52 → R * (hi - lo) ≤ 2 ^ 49 * 10 ^ 9 →
   sent_since s s' k ≤ max + R * (hi - lo) / 10 ^ 9 + 1)%Z ∧
  (max ≤ 300 * rate → R = rate)%Z.
Proof.
  intros Hl Hr Hrun ops Hrate Hmax Htm Hcfg R.
  pose proof (sys_reachable_inv rlimit clients file cli f0 l s Hl Hr) as Hinv.
  assert (0 < eviction_max_age)%Z as Hage by done.
  assert (Forall (op_within R max) ops) as Hw.
  { apply Forall_forall. intros op Hin. apply op_bounded_within; [done..|].
    pose proof (proj1 (Forall_forall _ _) (sys_ops_evict rlimit clients s evs) op Hin) as Hev.
    destruct op as [config ip c|m now]; [by eapply Hcfg|]. simpl in *. by subst. }
  pose proof (limiter_window _ ops k lo hi R max ltac:(unfold R, window_rate; lia) Hmax
    (limiter_reachable_wf _ (si_limiter _ _ _ _ _ Hinv)) Htm (sys_ops_typed _ _ _ _ _ _ _ _ Hinv) Hw) as Hb.
  simpl in Hb. rewrite asked_verdicts in Hb.
  pose proof (run_admitted rlimit clients s k s evs s' Hrun) as Ha. simpl in Ha. fold ops in Ha.
  rewrite (count_in_zero _ (sys_reqs s)) in Ha.
  2: { intros q t Hq. unfold unrated. rewrite Hq. destruct t; try done. unfold let_through. by rewrite !andb_false_r. }
  assert (sent_since s s' k ≤ count_true (verdicts_for k (limiter_run (sys_limiter s) ops).2))%Z as Hs.
  { etransitivity; [|exact Ha]. apply count_in_mono. intros q t _. unfold sent_from, let_through.
    rewrite !andb_true_iff. intros (Hu & Hk & Hsent). split; [done|]. split; [done|]. by destruct t. }
  assert (2 ^ 53 * 10 ^ 9 * sent_since s s' k
   ≤ 2 ^ 53 * 10 ^ 9 * max + (2 ^ 53 + 8) * (R * (hi - lo)) + 10 ^ 9 * (max + 1) * asked k ops)%Z as Hn
    by lia.
  split; [exact Hn|]. split; [apply window_requests, Hn|]. intros Hplain.
  apply window_rate_plain; [done|]. unfold eviction_max_age. lia.
Qed.

(** ** Witness *)

Import Concrete.

(** The run of [end_to_end_safety]'s witness, in which the file changes from a rate of 10 to
    a rate of 50, and then two more requests of the same client, of which the first is
    dropped while it awaits the upstream. *)
Definition three_requests : list SysEvent :=
  witness_events ++
  [SRequest 8 1 spoofed_request 5%Z; SRate 8 (at_instant (10 ^ 9)%Z) 5%Z; SBody 8 5%Z; SHandle 8 0%Z 6%Z; SAbort 8 7%Z;
   SRequest 9 1 spoofed_request 8%Z; SRate 9 (at_instant (10 ^ 9)%Z) 8%Z; SBody 9 8%Z; SHandle 9 0%Z 8%Z].

(** The limits the calls of the limiter load, in order. *)
Definition loaded_limits (ops : list LimiterOp) : list (Z * Z) :=
  omap (λ op, match op with
              | OpCheck config _ _ =>
                  Some (requests_per_second (rate_limit config), burst (rate_limit config))
              | OpEvict _ _ => None
              end) ops.

Lemma limits_within rate max :
  ((rate, max) ∈ [(10, 20); (50, 20); (50, 20)] → rate ≤ 50 ∧ max ≤ 20)%Z.
Proof. rewrite !elem_of_cons, elem_of_nil. intros [[= -> ->]|[[= -> ->]|[[= -> ->]|[]]]]; lia. Qed.

Lemma client_window_witness :
  let u := ascii_only in let fs := fs_with [] in
  let t := toml_with [("old", test_doc 10); ("new", test_doc 50)] in
  let s := sys_start (file_at 1 "old") old_loaded in
  match sys_run None (answering 1) s three_requests with
  | Some s' => sent_since s s' (V4 203 0 113 7) = 3%Z ∧ (sent_since s s' (V4 203 0 113 7) ≤ 20 + 50 + 1)%Z
  | None => False
  end.
Proof.
  intros u fs t s.
  assert ((λ s', sent_since s s' (V4 203 0 113 7)) <$> sys_run None (answering 1) s three_requests = Some 3%Z)
    as Hsum by (vm_compute; reflexivity).
  destruct (sys_run _ _ _ _) as [s'|] eqn:E; [|discriminate Hsum]. injection Hsum as Hsum.
  split; [exact Hsum|].
  destruct (client_window None (answering 1) (λ _, Ok "old") test_cli (file_at 1 "old") old_loaded s three_requests
    s' (V4 203 0 113 7) 0%Z (10 ^ 9)%Z 50%Z 20%Z) as (_ & Hb & HR).
  - vm_compute. reflexivity.
  - constructor.
  - exact E.
  - lia.
  - lia.
  - vm_compute. repeat (split || discriminate).
  - intros config ip c Hin.
    assert ((requests_per_second (rate_limit config), burst (rate_limit config))
      ∈ loaded_limits (sys_ops None (answering 1) s three_requests)) as Hl
      by (apply list_elem_of_omap; eexists; split; [exact Hin|reflexivity]).
    assert (loaded_limits (sys_ops None (answering 1) s three_requests) = [(10, 20); (50, 20); (50, 20)]%Z) as Ell
      by (vm_compute; reflexivity).
    rewrite Ell in Hl. exact (limits_within _ _ Hl).
  - rewrite HR in Hb by lia. apply Hb; vm_compute; congruence.
Defined.
