(* ===== verification/SystemLoads.v ===== *)
(** * The configuration a request sees

    A request of the running proxy loads the configuration up to three times while reloads
    may store new ones.  Every answered request is traced back to the moments of the run
    at which its layers ran: its answer is that of the whole stack on the states the
    process had at these moments. *)

From S2P Require Import Prelude Text Net NetRoundtrip Http Config Routing Toml Validation Fixtures ValidRouting.
From S2P Require Import Reload ReloadProps ReloadConc RateLimit RateLimitProps Proxy ProxyProps Server ServerProps.
From S2P Require Import System SystemTrail SystemProps.
Local Open Scope string_scope.
Local Open Scope list_scope.

Section Loads.
Context `{Http, Unicode, FileSystem, Toml} (rlimit : option Z) (clients : Clients).
Abbreviation step := (sys_step rlimit clients).
Abbreviation run := (sys_run rlimit clients).

(** What the sequential stack answers with the limiter of [s1] and the configurations of
    [s1], [s2] and [s3]. *)
Definition stack_answer (s1 s2 s3 : System) (peer : SocketAddr) (c : Readings) (ms : Z) (req : Request)
    : Outcome :=
  let loads := mkLoads (served_config s1) (served_config s2) (served_config s3) in
  (serve_request peer loads clients (sys_limiter s1) c ms req).2.

(** The stack, layer by layer. *)
Lemma stack_answer_rate s1 s2 s3 peer c ms req out :
  (run_rate s1 c peer req).2 = Err out → stack_answer s1 s2 s3 peer c ms req = out.
Proof.
  unfold stack_answer, serve_request, build_router, rate_limit_middleware, run_rate, connect_info_service.
  cbn [cfg_rate]. destruct (rate_limit_gate _ _ _ _) as [l r]. simpl. by intros ->.
Qed.

Lemma stack_answer_admitted s1 s2 s3 peer c ms req r1 :
  (run_rate s1 c peer req).2 = Ok r1 →
  stack_answer s1 s2 s3 peer c ms req
  = body_limit_middleware (served_config s2) (proxy_router (served_config s3) clients ms) r1.
Proof.
  unfold stack_answer, serve_request, build_router, rate_limit_middleware, run_rate, connect_info_service.
  cbn [cfg_rate]. destruct (rate_limit_gate _ _ _ _) as [l r]. simpl. by intros ->.
Qed.

Lemma stack_answer_body s1 s2 s3 peer c ms req r1 out :
  (run_rate s1 c peer req).2 = Ok r1 → run_body s2 r1 = Err out → stack_answer s1 s2 s3 peer c ms req = out.
Proof.
  intros Hr Hb. rewrite (stack_answer_admitted _ _ _ _ _ _ _ _ Hr).
  unfold body_limit_middleware. fold (run_body s2 r1). by rewrite Hb.
Qed.

Lemma stack_answer_routed s1 s2 s3 peer c ms req r1 r2 :
  (run_rate s1 c peer req).2 = Ok r1 → run_body s2 r1 = Ok r2 →
  stack_answer s1 s2 s3 peer c ms req
  = match run_handler s3 ms r2 with Ok p => handler_finish clients p ms | Err out => out end.
Proof.
  intros Hr Hb. rewrite (stack_answer_admitted _ _ _ _ _ _ _ _ Hr).
  unfold body_limit_middleware. fold (run_body s2 r1). rewrite Hb.
  unfold proxy_router, run_handler, extract_connect_info, proxy_handler. by destruct (req_connect_info r2).
Qed.

(** The duration matters to the log only. *)
Lemma run_handler_call s ms ms' r p : run_handler s ms r = Ok p → run_handler s ms' r = Ok p.
Proof. unfold run_handler, extract_connect_info. destruct (req_connect_info r); [apply handler_start_call|done]. Qed.

(** How a request came by its answer: the layer that gave it, and the states in which that
    layer and those before it ran. *)
Lemma trail_done q tr i peer req out :
  trail clients q tr (QDone i peer req out) →
  ∃ c n1 s1,
    (tr = [(SRate q c n1, s1)] ∧ ∀ s2 s3 ms, out = stack_answer s1 s2 s3 peer c ms req) ∨
    ∃ n2 s2,
      (tr = [(SRate q c n1, s1); (SBody q n2, s2)] ∧ ∀ s3 ms, out = stack_answer s1 s2 s3 peer c ms req) ∨
      ∃ ms3 n3 s3,
        (tr = [(SRate q c n1, s1); (SBody q n2, s2); (SHandle q ms3 n3, s3)] ∧
         out = stack_answer s1 s2 s3 peer c ms3 req) ∨
        ∃ ms n4 s4,
          tr = [(SRate q c n1, s1); (SBody q n2, s2); (SHandle q ms3 n3, s3); (SAnswer q ms n4, s4)] ∧
          out = stack_answer s1 s2 s3 peer c ms req.
Proof.
  inversion 1 as [|tr' t s ev t' Ht Hq Hm]; subst. inversion Hm; subst.
  - apply trail_arrived in Ht as ->. eexists _, _, _. left. split; [done|].
    intros s2 s3 ms. symmetry. by apply stack_answer_rate.
  - apply trail_rated in Ht as (c & n1 & s1 & -> & _ & Hr). exists c, n1, s1. right. eexists _, _. left.
    split; [done|]. intros s3 ms. symmetry. by eapply stack_answer_body.
  - apply trail_limited in Ht as (c & n1 & s1 & r1 & n2 & s2 & -> & _ & Hr & Hb).
    exists c, n1, s1. right. exists n2, s2. right. eexists _, _, _. left. split; [done|].
    rewrite (stack_answer_routed _ _ _ _ _ _ _ _ _ Hr Hb). by case_match; simplify_eq.
  - apply trail_sent in Ht as (c & n1 & n2 & n3 & ms' & s1 & s2 & s3 & [-> _ (r1 & r2 & Hr & Hb & Hh)]).
    exists c, n1, s1. right. exists n2, s2. right. exists ms', n3, s3. right. eexists _, _, _. split; [done|].
    rewrite (stack_answer_routed _ _ _ _ _ _ _ _ _ Hr Hb). by rewrite (run_handler_call _ _ _ _ _ Hh).
Qed.

(** The reload handle is left alone. *)
Definition is_reload (ev : SysEvent) : bool := match ev with SReload _ => true | _ => false end.

Lemma track_world s i q ev now s' : track s i q ev now = Some s' → sys_world s' = sys_world s.
Proof. intros (st & st' & _ & _ & ->)%track_spec. done. Qed.

Lemma reply_world s q t out now s' : reply s q t out now = Some s' → sys_world s' = sys_world s.
Proof. by intros (s1 & <-%track_world & [= <-])%bind_Some. Qed.

Lemma layer_world {A} s q t (next : nat → SocketAddr → Request → A → ReqTask) r now s' :
  layer s q t next r now = Some s' → sys_world s' = sys_world s.
Proof. destruct r; simpl; [by intros [= <-]|apply reply_world]. Qed.

Lemma sys_req_step_world s q t ev s' : sys_req_step clients s q t ev = Some s' → sys_world s' = sys_world s.
Proof.
  intros Hs. destruct ev, t; try done; cbn [sys_req_step pending] in Hs;
    try (by eapply layer_world); try (by eapply reply_world); try (by eapply track_world);
    try (by apply bind_Some in Hs as (s1 & <-%track_world & [= <-])).
  destruct (run_rate s c peer req) as [l r]. by apply layer_world in Hs.
Qed.

Lemma step_served s ev s' : step s ev = Some s' → is_reload ev = false → served_config s' = served_config s.
Proof.
  intros Hs Hev. unfold served_config. f_equal. f_equal.
  destruct ev as [e|now|j ev|j i peer|i ev now|i now| |q i req now| | | | | | |]; try done; cbn [sys_step] in Hs.
  8-14: destruct (sys_reqs s !! q) as [t|]; [|done];
    by eapply sys_req_step_world.
  all: unfold sys_conn_step, track in Hs; repeat (case_match; simplify_eq/=; try done);
    repeat match goal with E : _ ≫= _ = Some _ |- _ => apply bind_Some in E as (? & ? & ?); simplify_eq/= end;
    repeat (case_match; simplify_eq/=; try done); by simplify_eq.
Qed.

Lemma run_served s evs s' :
  run s evs = Some s' → Forall (λ ev, is_reload ev = false) evs → served_config s' = served_config s.
Proof.
  revert s. induction evs as [|ev evs IH]; intros s; simpl; [by intros [= <-]|].
  intros (s1 & Hs & Hr)%bind_Some [Hev Hevs]%Forall_cons.
  by rewrite (IH _ Hr Hevs), (step_served _ _ _ Hs Hev).
Qed.

Lemma moments_served s evs tr ev s1 :
  moments (sys_step rlimit clients) s evs tr → Forall (λ ev, is_reload ev = false) evs → (ev, s1) ∈ tr →
  served_config s1 = served_config s.
Proof.
  revert s evs. induction tr as [|[e s0] tr IH]; intros s evs; simpl; [by rewrite elem_of_nil|].
  intros (e1 & e2 & s2 & -> & Hr & Hs & Hm) [He1 [He He2]%Forall_cons]%Forall_app Hin.
  pose proof (run_served _ _ _ Hr He1) as H0'. apply elem_of_cons in Hin as [[= -> ->]|Hin]; [done|].
  rewrite (IH _ _ Hm He2 Hin), (step_served _ _ _ Hs He). done.
Qed.
End Loads.

(** [C4] Every answer is accounted for.  Whatever runs between the arrival of a request and
    its answer (reloads, evictions, other requests), its answer is the one the sequential
    stack [serve_request] gives on states the process really had, in this order: the
    limiter's verdict on the limiter and configuration when the first layer ran, and, as
    far as the request got, the body limit of the configuration when the second ran and
    the routing of the configuration when the handler ran; a request the handler sends on
    gets the answer made of the upstream's at a fourth, later moment.  In particular a
    request during which no reload runs is served from its arrival to its answer under the
    one configuration that was in the cell when it came, so a finished reload is in force
    for every later request. *)
Theorem request_explained `{Http, Unicode, FileSystem, Toml} rlimit clients s evs s' q i peer req out :
  sys_reqs s !! q = None → sys_run rlimit clients s evs = Some s' →
  sys_reqs s' !! q = Some (QDone i peer req out) →
  let answer s1 s2 s3 c ms :=
    out = (serve_request peer (mkLoads (served_config s1) (served_config s2) (served_config s3)) clients
             (sys_limiter s1) c ms req).2 in
  let passes := moments (sys_step rlimit clients) s evs in
  (∃ c n1 s1,
    (passes [(SRate q c n1, s1)] ∧ ∀ s2 s3 ms, answer s1 s2 s3 c ms) ∨
    ∃ n2 s2,
      (passes [(SRate q c n1, s1); (SBody q n2, s2)] ∧ ∀ s3 ms, answer s1 s2 s3 c ms) ∨
      ∃ ms3 n3 s3,
        (passes [(SRate q c n1, s1); (SBody q n2, s2); (SHandle q ms3 n3, s3)] ∧ answer s1 s2 s3 c ms3) ∨
        ∃ ms n4 s4,
          passes [(SRate q c n1, s1); (SBody q n2, s2); (SHandle q ms3 n3, s3); (SAnswer q ms n4, s4)] ∧
          answer s1 s2 s3 c ms) ∧
  (Forall (λ ev, is_reload ev = false) evs →
   ∃ c n1 s1 ms, passes [(SRate q c n1, s1)] ∧
     out = (serve_request peer (mkLoads (served_config s) (served_config s) (served_config s)) clients
              (sys_limiter s1) c ms req).2).
Proof.
  intros Hnone Hrun Hq answer passes.
  destruct (run_trail rlimit clients s evs s' q _ Hnone Hrun Hq) as (tr & Hm & Htr).
  apply trail_done in Htr as (c & n1 & s1 & Htr). split.
  - exists c, n1, s1. destruct Htr as [[-> ?]|(n2 & s2 & [[-> ?]|(ms3 & n3 & s3 & [[-> ?]|(ms & n4 & s4 & -> & ?)])])];
      [left; by split|right; exists n2, s2..]; [left; by split|right; exists ms3, n3, s3..];
      [left; by split|right; by exists ms, n4, s4].
  - intros Hev. pose proof (λ ev s0, moments_served rlimit clients _ _ tr ev s0 Hm Hev) as Hsame.
    assert (∃ tr', tr = (SRate q c n1, s1) :: tr') as [tr' Etr].
    { destruct Htr as [[-> _]|(n2 & s2 & [[-> _]|(ms3 & n3 & s3 & [[-> _]|(ms & n4 & s4 & -> & _)])])]; eauto. }
    assert (passes [(SRate q c n1, s1)]) as H1'.
    { rewrite Etr in Hm. by apply (moments_take _ _ _ [(SRate q c n1, s1)]) in Hm. }
    destruct Htr as [[-> Ho]|(n2 & s2 & [[-> Ho]|(ms3 & n3 & s3 & [[-> Ho]|(ms & n4 & s4 & -> & Ho)])])];
      unfold stack_answer in Ho; eexists c, n1, s1, _; (split; [done|]);
      pose proof (Hsame (SRate q c n1) s1 ltac:(set_solver)) as E1;
      try pose proof (Hsame (SBody q n2) s2 ltac:(set_solver)) as E2;
      try pose proof (Hsame (SHandle q ms3 n3) s3 ltac:(set_solver)) as E3;
      rewrite <- ?E1, <- ?E2, <- ?E3.
    + rewrite (Ho s1 s1 0%Z). by rewrite ?E1.
    + rewrite (Ho s1 0%Z). by rewrite ?E1, ?E2.
    + rewrite Ho. by rewrite ?E1, ?E2, ?E3.
    + rewrite Ho. by rewrite ?E1, ?E2, ?E3.
Qed.

(** ** Witness *)

Import Concrete.

(** The run in which the file changes from a rate of 10 to a rate of 50 between the first and
    the second layer of request 7. *)
Lemma request_explained_witness :
  let u := ascii_only in let fs := fs_with [] in
  let t := toml_with [("old", test_doc 10); ("new", test_doc 50)] in
  let s := sys_start (file_at 1 "old") old_loaded in
  match sys_run None (answering 1) s witness_events with
  | Some s' =>
      ∃ i peer req out c n1 s1, sys_reqs s' !! 7%nat = Some (QDone i peer req out) ∧
        moments (sys_step None (answering 1)) s witness_events [(SRate 7 c n1, s1)]
  | None => False
  end.
Proof.
  intros u fs t s.
  assert (summary <$> sys_run None (answering 1) s witness_events
    = Some ([(1%nat, test_addr)], Some (1%nat, 200%Z, true), 50%Z)) as Hsum by (vm_compute; reflexivity).
  destruct (sys_run _ _ _ _) as [s'|] eqn:E; [|discriminate Hsum]. injection Hsum as _ Hreq _.
  destruct (sys_reqs s' !! 7%nat) as [[| | | |i peer req out|]|] eqn:Hq; try discriminate Hreq.
  destruct (request_explained None (answering 1) s witness_events s' 7 i peer req out) as [(c & n1 & s1 & Hex) _].
  - reflexivity.
  - exact E.
  - exact Hq.
  - exists i, peer, req, out, c, n1, s1. split; [reflexivity|].
    destruct Hex as [[Hm _]|(n2 & s2 & [[Hm _]|(ms3 & n3 & s3 & [[Hm _]|(ms & n4 & s4 & Hm & _)])])];
      apply (moments_take _ _ _ [(SRate 7 c n1, s1)]) in Hm; exact Hm.
Defined.
