(* ===== verification/Tls.v ===== *)
(** * TLS setup

    [tls/config.rs], [tls/acceptor.rs] and [tls/acme.rs]: the server configurations
    the listeners use, and the task that drives certificate renewal.  PEM parsing,
    the check of a certificate against its key and the ACME state machine itself are
    parameters. *)

From S2P Require Import Prelude Text Net Config Routing Validation Fixtures ValidRouting.
Local Open Scope string_scope.
Local Open Scope list_scope.
Local Open Scope rust_scope.

(** [rustls-pemfile] and the certificate checks of [rustls]. *)
Class TlsLib := {
  pem_certs : string → result (list string) string;
  pem_private_key : string → result (option string) string;
  with_single_cert : list string → string → result unit string;
}.

(** ** Server configurations ([config.rs]) *)

Definition RESTRICTED_CIPHER_SUITES : list string :=
  ["TLS_ECDHE_ECDSA_WITH_AES_128_GCM_SHA256";
   "TLS_ECDHE_RSA_WITH_AES_128_GCM_SHA256";
   "TLS_ECDHE_ECDSA_WITH_AES_256_GCM_SHA384";
   "TLS_ECDHE_RSA_WITH_AES_256_GCM_SHA384";
   "TLS13_AES_128_GCM_SHA256";
   "TLS13_AES_256_GCM_SHA384";
   "TLS13_CHACHA20_POLY1305_SHA256"].

Record CryptoProvider := mkProvider {
  cipher_suites : list string;
  kx_groups : list string;
}.

Definition crypto_provider : CryptoProvider :=
  mkProvider RESTRICTED_CIPHER_SUITES ["X25519"; "SECP256R1"; "SECP384R1"].

(** Where the certificate of a connection comes from. *)
Inductive CertSource :=
| SingleCert (certs : list string) (key : string)
| AcmeResolver (domains : list string).

Record ServerConfig := mkServerConfig {
  sc_provider : CryptoProvider;
  sc_versions : list string;
  sc_cert : CertSource;
  sc_alpn_protocols : list string;
}.

Section Manual.
Context `{TlsLib}.

(** [file] is what opening and reading a path returns. *)
Definition load_certs (file : string → result string string) (path : string)
    : result (list string) string :=
  content <-? map_err (λ _, "failed to open certificate file: " +:+ path) (file path);
  certs <-? map_err (λ _, "failed to parse certificate file: " +:+ path) (pem_certs content);
  if bool_decide (certs = []) then Err ("no certificates found in " +:+ path) else Ok certs.

Definition load_private_key (file : string → result string string) (path : string)
    : result string string :=
  content <-? map_err (λ _, "failed to open private key file: " +:+ path) (file path);
  key <-? map_err (λ _, "failed to parse private key file: " +:+ path) (pem_private_key content);
  match key with Some k => Ok k | None => Err ("no private key found in " +:+ path) end.

Definition build_server_config (certs : list string) (key : string) : result ServerConfig string :=
  _ <-? map_err (λ _, "failed to configure certificate/key pair") (with_single_cert certs key);
  Ok (mkServerConfig crypto_provider ["TLS12"; "TLS13"] (SingleCert certs key) ["h2"; "http/1.1"]).

Definition build_manual_server_config (file : string → result string string)
    (cert_path key_path : string) : result ServerConfig string :=
  certs <-? load_certs file cert_path;
  key <-? load_private_key file key_path;
  build_server_config certs key.

Definition build_manual_server_config_from_certs (certs : list string) (key : string)
    : result ServerConfig string := build_server_config certs key.
End Manual.

(** ** ACME ([acme.rs]) *)

Definition LETS_ENCRYPT_PRODUCTION_DIRECTORY : string :=
  "https://acme-v02.api.letsencrypt.org/directory".
Definition LETS_ENCRYPT_STAGING_DIRECTORY : string :=
  "https://acme-staging-v02.api.letsencrypt.org/directory".

Record AcmeTlsConfig := mkAcmeTlsConfig {
  acme_cfg_domains : list string;
  acme_cfg_cache_dir : string;
  acme_cfg_directory : string;
  acme_cfg_contact : list string;
}.

Definition directory_url (c : AcmeTlsConfig) : string :=
  if (acme_cfg_directory c =? "production")%string then LETS_ENCRYPT_PRODUCTION_DIRECTORY
  else if (acme_cfg_directory c =? "staging")%string then LETS_ENCRYPT_STAGING_DIRECTORY
  else acme_cfg_directory c.

(** What [AcmeConfig] is given: the state machine is created from these. *)
Record AcmeTlsSetup := mkAcmeSetup {
  as_domains : list string;
  as_cache_dir : string;
  as_directory_url : string;
  as_contact : list string;
}.

Definition acme_setup (c : AcmeTlsConfig) : result AcmeTlsSetup string :=
  Ok (mkAcmeSetup (acme_cfg_domains c) (acme_cfg_cache_dir c) (directory_url c) (acme_cfg_contact c)).

Inductive EventOk := DeployedCachedCert | DeployedNewCert | EvCertCacheStore | EvAccountCacheStore.
Inductive EventError := CertCacheLoad | AccountCacheLoad | ErrCertCacheStore | ErrAccountCacheStore
  | CachedCertParse | OrderError | NewCertParse.

Inductive Level := LInfo | LWarn | LError.

(** What the select of the task wakes up with. *)
Inductive AcmeWake :=
| AcmeEvent (e : result EventOk EventError)
| AcmeEnd
| AcmeShutdown.

Definition acme_log (e : result EventOk EventError) : Level * string :=
  match e with
  | Ok DeployedCachedCert => (LInfo, "ACME: deployed cached certificate")
  | Ok DeployedNewCert => (LInfo, "ACME: deployed new certificate")
  | Ok EvCertCacheStore => (LInfo, "ACME: certificate stored to cache")
  | Ok EvAccountCacheStore => (LInfo, "ACME: account stored to cache")
  | Err CertCacheLoad => (LError, "ACME: certificate cache load failed")
  | Err AccountCacheLoad => (LError, "ACME: account cache load failed")
  | Err ErrCertCacheStore => (LWarn, "ACME: certificate cache store failed")
  | Err ErrAccountCacheStore => (LWarn, "ACME: account cache store failed")
  | Err CachedCertParse => (LError, "ACME: cached certificate parse failed")
  | Err OrderError => (LWarn, "ACME: certificate order failed, will retry")
  | Err NewCertParse => (LError, "ACME: new certificate parse failed")
  end.

(** The log of the task, and whether it has ended. *)
Fixpoint spawn_acme_state (wakes : list AcmeWake) : list (Level * string) * bool :=
  match wakes with
  | [] => ([], false)
  | AcmeEvent e :: wakes => let '(log, ended) := spawn_acme_state wakes in (acme_log e :: log, ended)
  | AcmeEnd :: _ => ([(LInfo, "ACME: state machine ended")], true)
  | AcmeShutdown :: _ => ([(LInfo, "ACME: state machine shutting down")], true)
  end.

(** ** Acceptors ([acceptor.rs]) *)

Definition ACME_TLS_ALPN_01 : string := "acme-tls/1".

Definition build_acme_server_config (domains : list string) : result ServerConfig string :=
  Ok (mkServerConfig crypto_provider ["TLS12"; "TLS13"] (AcmeResolver domains)
        ["h2"; "http/1.1"; ACME_TLS_ALPN_01]).

(** [Acme] also carries the state machine the renewal task runs. *)
Inductive TlsMode :=
| Manual (config : ServerConfig)
| Acme (default_config : ServerConfig) (state : AcmeTlsSetup).

Definition setup_tls `{TlsLib} (file : string → result string string) (t : TlsConfig)
    : result TlsMode string :=
  if (tls_mode t =? "manual")%string then
    if is_empty (cert_path t) then Err "manual TLS mode requires cert_path"
    else if is_empty (key_path t) then Err "manual TLS mode requires key_path"
    else
      config <-? build_manual_server_config file (cert_path t) (key_path t);
      Ok (Manual config)
  else if (tls_mode t =? "acme")%string then
    if bool_decide (acme_domains t = [])
    then Err "ACME TLS mode requires at least one domain in acme_domains"
    else if is_empty (acme_cache_dir t) then Err "ACME TLS mode requires acme_cache_dir"
    else
      setup <-? acme_setup (mkAcmeTlsConfig (acme_domains t) (acme_cache_dir t) (acme_directory t)
                              [acme_contact t]);
      default_config <-? build_acme_server_config (acme_domains t);
      Ok (Acme default_config setup)
  else Err ("unknown TLS mode: '" +:+ tls_mode t +:+ "', expected 'manual' or 'acme'").

(** The configuration a listener's acceptor is made from. *)
Definition server_config (m : TlsMode) : ServerConfig :=
  match m with Manual c => c | Acme c _ => c end.

(** ** Properties *)

(** [C39] Every TLS configuration the process accepts connections with, in either mode, is
    restricted to these seven AEAD cipher suites with forward secrecy, these three key
    exchange groups and TLS 1.2 and 1.3; it offers exactly HTTP/2 and HTTP/1.1 in manual
    mode, and the ACME challenge protocol besides in ACME mode; in manual mode the
    certificates are those of the configured file, there is at least one, and they were
    accepted with the key; in ACME mode they are ordered for the configured domains. *)
Theorem tls_policy `{TlsLib} file t m :
  setup_tls file t = Ok m →
  let c := server_config m in
  cipher_suites (sc_provider c) =
    ["TLS_ECDHE_ECDSA_WITH_AES_128_GCM_SHA256"; "TLS_ECDHE_RSA_WITH_AES_128_GCM_SHA256";
     "TLS_ECDHE_ECDSA_WITH_AES_256_GCM_SHA384"; "TLS_ECDHE_RSA_WITH_AES_256_GCM_SHA384";
     "TLS13_AES_128_GCM_SHA256"; "TLS13_AES_256_GCM_SHA384"; "TLS13_CHACHA20_POLY1305_SHA256"] ∧
  kx_groups (sc_provider c) = ["X25519"; "SECP256R1"; "SECP384R1"] ∧
  sc_versions c = ["TLS12"; "TLS13"] ∧
  match sc_cert c with
  | SingleCert certs key =>
      tls_mode t = "manual" ∧ sc_alpn_protocols c = ["h2"; "http/1.1"] ∧
      certs ≠ [] ∧ with_single_cert certs key = Ok tt ∧
      ∃ content kcontent, file (cert_path t) = Ok content ∧ pem_certs content = Ok certs ∧
        file (key_path t) = Ok kcontent ∧ pem_private_key kcontent = Ok (Some key)
  | AcmeResolver domains =>
      tls_mode t = "acme" ∧ sc_alpn_protocols c = ["h2"; "http/1.1"; "acme-tls/1"] ∧
      domains = acme_domains t ∧ domains ≠ []
  end.
Proof.
  unfold setup_tls. destruct (String.eqb_spec (tls_mode t) "manual") as [Hm|Hm].
  - do 2 (case_match; [done|]). intros (c & Hc & [= <-])%and_then_Ok.
    apply and_then_Ok in Hc as (certs & Hcerts & Hc). apply and_then_Ok in Hc as (key & Hkey & Hc).
    apply and_then_Ok in Hc as ([] & Hpair & [= <-]). simpl.
    apply and_then_Ok in Hcerts as (content & Hf & Hcerts).
    apply and_then_Ok in Hcerts as (certs' & Hp & Hcerts). case_bool_decide as Hne; [done|].
    injection Hcerts as <-. apply and_then_Ok in Hkey as (kc & Hkf & Hkey).
    apply and_then_Ok in Hkey as (k & Hk & Hkey). destruct k as [k|]; [|done]. injection Hkey as <-.
    split_and!; [done|done|done|done|done|done| |].
    + by destruct (with_single_cert certs' k) as [[]|].
    + exists content, kc. destruct (file (cert_path t)), (pem_certs content), (file (key_path t)),
        (pem_private_key kc); simplify_eq/=; done.
  - destruct (String.eqb_spec (tls_mode t) "acme") as [Ha|Ha]; [|done].
    case_bool_decide as Hd; [done|]. case_match; [done|]. intros [= <-]. simpl.
    by split_and!.
Qed.

(** A validated ACME listener starts exactly if it has a cache directory, which
    [validate] does not ask for. *)
Lemma validated_acme_setup `{TlsLib, FileSystem} file t :
  tls_valid t → tls_mode t = "acme" →
  (is_ok (setup_tls file t) = true ↔ acme_cache_dir t ≠ "").
Proof.
  intros [Hv _] Hm. destruct (Hv Hm) as [Hd _]. unfold setup_tls. rewrite Hm. simpl.
  rewrite bool_decide_eq_false_2 by done.
  destruct (acme_cache_dir t); simpl; split; done.
Qed.

(** A listener with any other mode passes [validate] and fails at startup. *)
Lemma unknown_mode_passes_validation `{TlsLib, Unicode, FileSystem} file l :
  tls_mode (tls l) = "none" → validate_tls l = [] ∧ is_ok (setup_tls file (tls l)) = false.
Proof. intros Hm. unfold validate_tls, setup_tls. rewrite Hm. done. Qed.

(** The renewal task survives every error: it logs each event, success or
    failure, in order, and ends only when the state machine ends or the process shuts
    down, whichever wake-up comes first. *)
Theorem acme_task_total events rest :
  spawn_acme_state (map AcmeEvent events) = (map acme_log events, false) ∧
  (∀ w, w = AcmeEnd ∨ w = AcmeShutdown →
     ∃ msg, spawn_acme_state (map AcmeEvent events ++ w :: rest) = (map acme_log events ++ [(LInfo, msg)], true)).
Proof.
  induction events as [|e events [IH1 IH2]]; simpl.
  - split; [done|]. intros w [-> | ->]; eauto.
  - rewrite IH1. split; [done|]. intros w Hw. destruct (IH2 w Hw) as [msg ->]. eauto.
Qed.

(** ** Witness *)

Definition test_tls_lib : TlsLib :=
  {| pem_certs := λ s, Ok [s]; pem_private_key := λ s, Ok (Some s); with_single_cert := λ _ _, Ok tt |}.

Lemma tls_policy_witness :
  let lib := test_tls_lib in
  match setup_tls (λ _, Err "no file") (tls (test_listener [])) with
  | Ok m => kx_groups (sc_provider (server_config m)) = ["X25519"; "SECP256R1"; "SECP384R1"]
  | Err _ => False
  end.
Proof.
  intros lib. destruct (setup_tls (λ _, Err "no file") (tls (test_listener []))) as [m|e] eqn:E.
  - apply (tls_policy _ _ _ E).
  - vm_compute in E. discriminate E.
Defined.
