(* ===== verification/Logging.v ===== *)
(** * Log files

    [logging/mod.rs], [logging/reopen.rs] and the visitor of [logging/format.rs].  The
    log file writer shares the open file with the handle that reopens it, so the model
    keeps the sharing: a store of files, a table of open file descriptions with their
    offsets, and the cell ([ArcSwap<File>]) that names the current one. *)

From stdpp Require Import fin_sets infinite.
From S2P Require Import Prelude Text Config.
Local Open Scope string_scope.
Local Open Scope list_scope.

(** ** Files *)

(** Directory entries name inodes; an open description is an inode and an offset. *)
Record Files := mkFiles {
  f_dir : gmap string nat;
  f_inodes : gmap nat string;
  f_descs : gmap nat (nat * nat);
}.

Definition fresh_id {A} (m : gmap nat A) : nat := base.fresh (dom m : gset nat).

Lemma fresh_id_new {A} (m : gmap nat A) : m !! fresh_id m = None.
Proof. apply not_elem_of_dom, is_fresh. Qed.

(** Opening for writing with [create] and [truncate]: [File::create], and the
    options of [reopen].  [denied] paths cannot be opened. *)
Definition open_truncate (denied : string → bool) (fs : Files) (path : string)
    : result (Files * nat) string :=
  if denied path then Err "permission denied"
  else
    let ino := default (fresh_id (f_inodes fs)) (f_dir fs !! path) in
    let fd := fresh_id (f_descs fs) in
    Ok (mkFiles (<[path := ino]> (f_dir fs)) (<[ino := ""]> (f_inodes fs))
          (<[fd := (ino, 0%nat)]> (f_descs fs)), fd).

Definition zeros (n : nat) : string := String.concat "" (replicate n (String Ascii.zero "")).

(** [write] at the offset of the description: bytes there are replaced, a gap is
    filled with zeros. *)
Definition pwrite (content : string) (off : nat) (buf : string) : string :=
  str_take off content +:+ zeros (off - String.length content) +:+ buf +:+
  str_drop (off + String.length buf) content.

Definition write_desc (fs : Files) (fd : nat) (buf : string) : Files :=
  match f_descs fs !! fd with
  | Some (ino, off) =>
      mkFiles (f_dir fs)
        (<[ino := pwrite (default "" (f_inodes fs !! ino)) off buf]> (f_inodes fs))
        (<[fd := (ino, off + String.length buf)%nat]> (f_descs fs))
  | None => fs
  end.

(** What a rotation tool does. *)
Definition rename (fs : Files) (from to : string) : Files :=
  match f_dir fs !! from with
  | Some ino => mkFiles (<[to := ino]> (delete from (f_dir fs))) (f_inodes fs) (f_descs fs)
  | None => fs
  end.

Definition content_at (fs : Files) (path : string) : option string :=
  ino ← f_dir fs !! path; f_inodes fs !! ino.

(** ** The writer ([reopen.rs]) *)

(** [ReopenableFileWriter] and [LogReopenHandle] share the cell [w_file]; creating
    the parent directories is left to [mkdir]. *)
Record LogWriter := mkWriter { w_files : Files; w_file : nat; w_path : string }.

Definition ReopenableFileWriter_new (mkdir : string → result unit string) (denied : string → bool)
    (fs : Files) (path : string) : result LogWriter string :=
  (_ <-? mkdir path;
   r <-? open_truncate denied fs path;
   Ok (mkWriter r.1 r.2 path))%rust.

(** A handle from [handle] has no path; one from [handle_with_path] has it. *)
Definition handle (w : LogWriter) : LogWriter := mkWriter (w_files w) (w_file w) "".
Definition handle_with_path (w : LogWriter) (path : string) : LogWriter :=
  mkWriter (w_files w) (w_file w) path.

(** [make_writer] takes the description that is current at that moment. *)
Definition make_writer (w : LogWriter) : nat := w_file w.

Definition writer_write (w : LogWriter) (fd : nat) (buf : string) : LogWriter :=
  mkWriter (write_desc (w_files w) fd buf) (w_file w) (w_path w).

Definition reopen (denied : string → bool) (w : LogWriter) : result unit string * LogWriter :=
  if is_empty (w_path w) then (Err "log reopen path not configured", w)
  else match open_truncate denied (w_files w) (w_path w) with
  | Ok (fs, fd) => (Ok tt, mkWriter fs fd (w_path w))
  | Err e => (Err e, w)
  end.

Definition writer_rename (w : LogWriter) (from to : string) : LogWriter :=
  mkWriter (rename (w_files w) from to) (w_file w) (w_path w).

(** A log line written through a writer made for it. *)
Definition log_line (w : LogWriter) (buf : string) : LogWriter := writer_write w (make_writer w) buf.

Definition log_lines (w : LogWriter) (bufs : list string) : LogWriter := foldl log_line w bufs.

(** ** Initialisation ([mod.rs]) *)

Inductive LogFormat := FormatJson | FormatText.

Record LogInit := mkLogInit { li_format : LogFormat; li_level : string; li_writer : option LogWriter }.

(** [init_json] and [init_text] differ in the format of both layers only.  A second
    global subscriber is refused ([try_init]). *)
Definition init_layers (format : LogFormat) (mkdir : string → result unit string)
    (denied : string → bool) (installed : bool) (fs : Files) (level : string)
    (log_file_path : option string) : result LogInit string :=
  (w <-? match log_file_path with
         | Some path =>
             w <-? ReopenableFileWriter_new mkdir denied fs path;
             Ok (Some (handle_with_path w path))
         | None => Ok None
         end;
   if installed then Err "a global default trace dispatcher has already been set"
   else Ok (mkLogInit format level w))%rust.

(** [parse_level] is [tracing::Level::from_str]; unknown levels mean INFO. *)
Definition init (parse_level : string → option string) (mkdir : string → result unit string)
    (denied : string → bool) (installed : bool) (fs : Files) (config : LoggingConfig)
    : result LogInit string :=
  let level := default "INFO" (parse_level (log_level config)) in
  if (log_format config =? "json")%string
  then init_layers FormatJson mkdir denied installed fs level (log_file_path config)
  else init_layers FormatText mkdir denied installed fs level (log_file_path config).

(** ** Key-value lines ([format.rs]) *)

Definition dquote : ascii := Ascii.ascii_of_nat 34.

Record KvVisitor := mkKv { pairs : list (string * string) }.

(** Recorded fields, numbers and booleans in their decimal and literal form. *)
Inductive FieldValue :=
| FStr (s : string) | FDebug (s : string) | FU64 (n : Z) | FI64 (n : Z) | FBool (b : bool).

Definition show_int (n : Z) : string :=
  if (n <? 0)%Z then "-" +:+ show_uint (- n) else show_uint n.

(** [record_str], [record_debug], [record_u64], [record_i64] and [record_bool]; the
    debug text of a value is the caller's. *)
Definition record_field (v : KvVisitor) (field : string) (value : FieldValue) : KvVisitor :=
  mkKv (pairs v ++
        [(field, match value with
                 | FStr s | FDebug s => s
                 | FU64 n | FI64 n => show_int n
                 | FBool b => if b then "true" else "false"
                 end)]).

(** [replace] of every double quote by a backslash and the quote. *)
Fixpoint escape_quotes (s : string) : string :=
  match s with
  | EmptyString => EmptyString
  | String a s =>
      if Ascii.eqb a dquote then String "\" (String dquote (escape_quotes s))
      else String a (escape_quotes s)
  end.

Definition format_pair (kv : string * string) : string :=
  if contains_char " " kv.2 || contains_char dquote kv.2
  then kv.1 +:+ "=" +:+ String dquote (escape_quotes kv.2) +:+ String dquote ""
  else kv.1 +:+ "=" +:+ kv.2.

Definition kv_format (v : KvVisitor) : string := join " " (format_pair <$> pairs v).

(** ** Properties *)

Lemma str_take_ge n s : (String.length s ≤ n)%nat → str_take n s = s.
Proof. revert s. induction n as [|n IH]; intros [|a s] Hl; simpl in *; try done; [lia|]. rewrite IH; [done|lia]. Qed.

Lemma str_drop_ge n s : (String.length s ≤ n)%nat → str_drop n s = "".
Proof. revert s. induction n as [|n IH]; intros [|a s] Hl; simpl in *; try done; [lia|]. apply IH. lia. Qed.

(** Writing at the end appends. *)
Lemma pwrite_end c buf : pwrite c (String.length c) buf = c +:+ buf.
Proof.
  unfold pwrite. rewrite str_take_ge, str_drop_ge by lia. rewrite Nat.sub_diag. simpl.
  by rewrite str_app_nil_r.
Qed.

Fixpoint concat_lines (bufs : list string) : string :=
  match bufs with [] => "" | b :: bufs => b +:+ concat_lines bufs end.

(** The description [fd] is at the end of the inode [ino], which holds [c]. *)
Definition at_end (fs : Files) (fd ino : nat) (c : string) : Prop :=
  f_inodes fs !! ino = Some c ∧ f_descs fs !! fd = Some (ino, String.length c).

Lemma write_desc_spec fs fd ino c buf :
  at_end fs fd ino c →
  at_end (write_desc fs fd buf) fd ino (c +:+ buf) ∧ f_dir (write_desc fs fd buf) = f_dir fs ∧
  (∀ ino', ino' ≠ ino → f_inodes (write_desc fs fd buf) !! ino' = f_inodes fs !! ino') ∧
  (∀ fd', fd' ≠ fd → f_descs (write_desc fs fd buf) !! fd' = f_descs fs !! fd').
Proof.
  intros [Hi Hd]. unfold at_end, write_desc. rewrite Hd, Hi. simpl.
  rewrite !lookup_insert_eq, pwrite_end, str_length_app. repeat split; intros; by rewrite lookup_insert_ne.
Qed.

Lemma log_lines_spec w ino c bufs :
  at_end (w_files w) (w_file w) ino c →
  let w' := log_lines w bufs in
  at_end (w_files w') (w_file w') ino (c +:+ concat_lines bufs) ∧
  f_dir (w_files w') = f_dir (w_files w) ∧
  (∀ ino', ino' ≠ ino → f_inodes (w_files w') !! ino' = f_inodes (w_files w) !! ino').
Proof.
  revert w c. induction bufs as [|b bufs IH]; intros w c Hw; simpl.
  - by rewrite str_app_nil_r.
  - destruct (write_desc_spec _ _ _ _ b Hw) as (He & Hdir & Hino & _).
    destruct (IH (log_line w b) (c +:+ b)) as (He' & Hdir' & Hino'); [exact He|].
    rewrite str_app_assoc in He'. unfold log_lines in *. split; [done|]. split; [by rewrite Hdir'|].
    intros ino' Hne. rewrite Hino' by done. by apply Hino.
Qed.

(** The writer is at the end of the file its path names. *)
Definition wf_writer (w : LogWriter) (c : string) : Prop :=
  ∃ ino, f_dir (w_files w) !! w_path w = Some ino ∧ at_end (w_files w) (w_file w) ino c.

Lemma open_truncate_spec denied fs path :
  denied path = false →
  let ino := default (fresh_id (f_inodes fs)) (f_dir fs !! path) in
  ∃ fs' fd, open_truncate denied fs path = Ok (fs', fd) ∧ f_descs fs !! fd = None ∧
    f_dir fs' = <[path := ino]> (f_dir fs) ∧ f_inodes fs' = <[ino := ""]> (f_inodes fs) ∧
    f_descs fs' = <[fd := (ino, 0%nat)]> (f_descs fs).
Proof.
  intros Hd ino. unfold open_truncate. rewrite Hd. eexists _, _. split; [done|].
  split; [apply fresh_id_new|done].
Qed.

(** Starting and logging keep the writer at the end of its file. *)
Lemma new_writer_wf mkdir denied fs path w :
  ReopenableFileWriter_new mkdir denied fs path = Ok w → wf_writer w "".
Proof.
  intros ([] & _ & Hw)%and_then_Ok. apply and_then_Ok in Hw as ([fs' fd] & Ho & [= <-]).
  destruct (denied path) eqn:Hd; [by unfold open_truncate in Ho; rewrite Hd in Ho|].
  destruct (open_truncate_spec denied fs path Hd) as (fs2 & fd2 & Ho2 & _ & Hdir & Hino & Hdesc).
  rewrite Ho in Ho2. injection Ho2 as -> ->.
  eexists. simpl. rewrite Hdir, lookup_insert_eq. split; [done|]. unfold at_end.
  by rewrite Hino, Hdesc, !lookup_insert_eq.
Qed.

(** [C35] Rotation loses no log line.  When a tool renames the log file and asks for
    it to be reopened, the renamed file keeps everything logged before, a writer
    obtained before the reopen still appends to it, and every line logged afterwards
    is in a new file at the configured path, in order; if the reopen fails, logging
    goes on as before. *)
Theorem rotation_lossless denied w c to late lines :
  wf_writer w c → to ≠ w_path w → is_empty (w_path w) = false →
  let moved := writer_rename w (w_path w) to in
  let '(r, w2) := reopen denied moved in
  if denied (w_path w) then is_ok r = false ∧ w2 = moved
  else
    let w3 := log_lines (writer_write w2 (make_writer w) late) lines in
    r = Ok tt ∧ content_at (w_files w3) to = Some (c +:+ late) ∧
    content_at (w_files w3) (w_path w) = Some (concat_lines lines).
Proof.
  intros (ino & Hdir & Hend) Hto Hp. cbv zeta.
  assert (reopen denied (writer_rename w (w_path w) to) =
    match open_truncate denied (rename (w_files w) (w_path w) to) (w_path w) with
    | Ok (fs, fd) => (Ok tt, mkWriter fs fd (w_path w))
    | Err e => (Err e, writer_rename w (w_path w) to)
    end) as -> by (unfold reopen; simpl; by rewrite Hp).
  destruct (denied (w_path w)) eqn:Hd; [by unfold open_truncate; rewrite Hd|].
  destruct (open_truncate_spec denied (rename (w_files w) (w_path w) to) (w_path w) Hd)
    as (fs & fd & -> & Hfd & Hfdir & Hfino & Hfdesc).
  unfold rename in Hfd, Hfdir, Hfino, Hfdesc. rewrite Hdir in Hfd, Hfdir, Hfino, Hfdesc.
  cbn [f_dir f_inodes f_descs] in *.
  rewrite lookup_insert_ne, lookup_delete_eq in Hfdir, Hfino, Hfdesc by done. simpl in Hfdir, Hfino, Hfdesc.
  set (ino2 := fresh_id (f_inodes (w_files w))) in *.
  pose proof (fresh_id_new (f_inodes (w_files w))) as Hnew. fold ino2 in Hnew.
  destruct Hend as [Hc Hoff]. assert (ino ≠ ino2) as Hne by congruence.
  assert (w_file w ≠ fd) as Hnfd by congruence.
  assert (at_end fs (w_file w) ino c) as Hold.
  { unfold at_end. rewrite Hfino, Hfdesc, !lookup_insert_ne by done. done. }
  destruct (write_desc_spec _ _ _ _ late Hold) as ([Hlate _] & Hwdir & Hwino & Hwdesc).
  set (w2 := writer_write (mkWriter fs fd (w_path w)) (make_writer w) late).
  assert (at_end (w_files w2) (w_file w2) ino2 "") as H2.
  { unfold at_end, w2. simpl. unfold make_writer. rewrite Hwino, Hwdesc by done.
    by rewrite Hfino, Hfdesc, !lookup_insert_eq. }
  destruct (log_lines_spec w2 ino2 "" lines H2) as ([Hl _] & Hld & Hlino).
  split; [done|]. unfold content_at. rewrite Hld. unfold w2 at 1 3. simpl. unfold make_writer.
  rewrite Hwdir, Hfdir, lookup_insert_ne, !lookup_insert_eq by done. simpl.
  split; [|done]. rewrite Hlino by done. exact Hlate.
Qed.

(** Reopening empties a log file that was not moved away. *)
Lemma reopen_truncates denied w c :
  wf_writer w c → is_empty (w_path w) = false → denied (w_path w) = false →
  content_at (w_files (reopen denied w).2) (w_path w) = Some "".
Proof.
  intros (ino & Hdir & _) Hp Hd. unfold reopen. rewrite Hp.
  destruct (open_truncate_spec denied (w_files w) (w_path w) Hd) as (fs & fd & -> & _ & Hfd & Hfi & _).
  rewrite Hdir in Hfd, Hfi. unfold content_at. simpl. rewrite Hfd, Hfi, lookup_insert_eq. simpl.
  by rewrite lookup_insert_eq.
Qed.

Definition empty_files : Files := mkFiles ∅ ∅ ∅.

Lemma rotation_lossless_witness :
  match ReopenableFileWriter_new (λ _, Ok tt) (λ _, false) empty_files "log" with
  | Ok w0 =>
      let w := log_line w0 "a" in
      match reopen (λ _, false) (writer_rename w "log" "log.1") with
      | (Ok _, w2) => content_at (w_files (log_lines (writer_write w2 (make_writer w) "b") ["c"; "d"])) "log.1"
                      = Some "ab"
      | (Err _, _) => False
      end
  | Err _ => False
  end.
Proof.
  destruct (ReopenableFileWriter_new (λ _, Ok tt) (λ _, false) empty_files "log") as [w0|] eqn:E;
    [|vm_compute in E; discriminate E].
  assert (w_path w0 = "log") as Hp by (vm_compute in E; injection E as <-; reflexivity).
  assert (wf_writer (log_line w0 "a") "a") as Hwf.
  { destruct (new_writer_wf _ _ _ _ _ E) as (ino & Hd & He). exists ino.
    destruct (write_desc_spec _ _ _ _ "a" He) as (He' & Hd' & _). split; [|exact He'].
    change (f_dir (write_desc (w_files w0) (w_file w0) "a") !! w_path w0 = Some ino).
    rewrite Hd'. exact Hd. }
  pose proof (rotation_lossless (λ _, false) (log_line w0 "a") "a" "log.1" "b" ["c"; "d"] Hwf) as H.
  change (w_path (log_line w0 "a")) with (w_path w0) in H. rewrite Hp in H.
  specialize (H ltac:(discriminate) eq_refl).
  cbv zeta. revert H. cbv zeta.
  destruct (reopen (λ _, false) (writer_rename (log_line w0 "a") "log" "log.1")) as [[]]; intros H.
  - apply H.
  - destruct H as [H _]. discriminate H.
Defined.
