(* ===== verification/Shutdown.v ===== *)
(** * Signals and shutdown

    [shutdown.rs]: the shutdown flag and its watch channel, and the task that turns
    signals into reloads, log reopens and the shutdown. *)

From S2P Require Import Prelude Text Net Config Routing Toml Validation Fixtures ValidRouting Reload ReloadProps.
From S2P Require Import RateLimit Server Logging.
Local Open Scope string_scope.
Local Open Scope list_scope.

(** ** The shutdown channel

    A [watch] channel counts the values sent; a receiver remembers the count it has
    seen, and a clone starts from the count of the original.  [gs_seen] is that of
    the receiver kept in the struct, which is never polled. *)
Record GracefulShutdown := mkShutdown {
  gs_timeout : Duration;
  gs_version : nat;
  gs_seen : nat;
  gs_requested : bool;
}.

Definition GracefulShutdown_new (shutdown_timeout_secs : Z) : GracefulShutdown :=
  mkShutdown (secs shutdown_timeout_secs) 0 0 false.

Definition is_shutdown_requested (g : GracefulShutdown) : bool := gs_requested g.
Definition shutdown_timeout (g : GracefulShutdown) : Duration := gs_timeout g.

(** The version the new receiver has seen. *)
Definition subscribe (g : GracefulShutdown) : nat := gs_seen g.

Definition trigger_shutdown (g : GracefulShutdown) : GracefulShutdown :=
  mkShutdown (gs_timeout g) (S (gs_version g)) (gs_seen g) true.

(** [Receiver::changed] completes. *)
Definition changed (g : GracefulShutdown) (rx : nat) : bool := negb (rx =? gs_version g)%nat.

(** ** Signals *)

Inductive Signal := SIGTERM | SIGINT | SIGHUP | SIGUSR1 | OtherSignal (n : Z).

(** The events of the log. *)
Inductive SignalEvent :=
| EvSignal (s : Signal)
| EvReload (status : string)
| EvReopen (status : string).

(** What the signal task can change. *)
Record Process := mkProcess {
  pr_shutdown : GracefulShutdown;
  pr_reload : ConfigReloadHandle;
  pr_log : option LogWriter;
}.

Section Signals.
Context `{Unicode, FileSystem, Toml} (rlimit : option Z) (denied : string → bool).

Definition handle_sighup_reload (h : ConfigReloadHandle) (reads : FileReads)
    : ConfigReloadHandle * list SignalEvent :=
  match read_and_validate_config reads (h_cli_allow_wildcard_bind h) with
  | Err _ => (h, [EvReload "error"])
  | Ok (new_static, new_dynamic) =>
      match reload rlimit h new_static new_dynamic with
      | (Ok changed_fields, h') =>
          (h', (if bool_decide (changed_fields = []) then [] else [EvReload "warning"])
               ++ [EvReload "success"])
      | (Err _, h') => (h', [EvReload "error"])
      end
  end.

Definition handle_sigusr1_log_reopen (w : option LogWriter) : option LogWriter * list SignalEvent :=
  match w with
  | Some w =>
      match reopen denied w with
      | (Ok _, w') => (Some w', [EvReopen "success"])
      | (Err _, w') => (Some w', [EvReopen "error"])
      end
  | None => (None, [EvReopen "skipped"])
  end.

(** One signal, with what reading the config file returns; [true] ends the task. *)
Definition handle_signal (p : Process) (s : Signal) (reads : FileReads)
    : Process * list SignalEvent * bool :=
  match s with
  | SIGTERM | SIGINT =>
      (mkProcess (trigger_shutdown (pr_shutdown p)) (pr_reload p) (pr_log p), [EvSignal s], true)
  | SIGHUP =>
      let '(h, ev) := handle_sighup_reload (pr_reload p) reads in
      (mkProcess (pr_shutdown p) h (pr_log p), EvSignal s :: ev, false)
  | SIGUSR1 =>
      let '(w, ev) := handle_sigusr1_log_reopen (pr_log p) in
      (mkProcess (pr_shutdown p) (pr_reload p) w, EvSignal s :: ev, false)
  | OtherSignal _ => (p, [EvSignal s], false)
  end.

(** The task of [register_signal_handlers], over the signals the channel delivers. *)
Fixpoint register_signal_handlers (p : Process) (sigs : list (Signal * FileReads))
    : Process * list SignalEvent :=
  match sigs with
  | [] => (p, [])
  | (s, reads) :: sigs =>
      let '(p, ev, ended) := handle_signal p s reads in
      if ended then (p, ev)
      else let '(p, evs) := register_signal_handlers p sigs in (p, ev ++ evs)
  end.

(** ** Properties *)

Definition terminates (s : Signal) : bool :=
  match s with SIGTERM | SIGINT => true | _ => false end.

(** The reloads and reopens of a sequence of signals, one after the other. *)
Definition apply_signals (p : Process) (sigs : list (Signal * FileReads)) : Process :=
  foldl (λ p sr,
    match sr.1 with
    | SIGHUP => mkProcess (pr_shutdown p) (reload_from_file rlimit (pr_reload p) sr.2).2 (pr_log p)
    | SIGUSR1 => mkProcess (pr_shutdown p) (pr_reload p)
                   (match pr_log p with Some w => Some (reopen denied w).2 | None => None end)
    | _ => p
    end) p sigs.

Lemma handle_signal_apply p s reads :
  terminates s = false →
  ∃ ev, handle_signal p s reads = (apply_signals p [(s, reads)], ev, false).
Proof.
  unfold handle_signal, apply_signals, reload_from_file, handle_sighup_reload, handle_sigusr1_log_reopen.
  destruct s; simpl; try done; intros _.
  - destruct (read_and_validate_config _ _) as [[c d]|]; [|eauto].
    destruct (reload _ _ _ _) as [[] h]; eauto.
  - destruct (pr_log p) as [w|]; [|eauto]. destruct (reopen denied w) as [[] w']; eauto.
  - destruct p. eauto.
Qed.

End Signals.

(** [C36] Signals are handled in order until the first SIGTERM or SIGINT: the ones
    before it take effect as so many reloads and log reopens, it requests the
    shutdown, and nothing after it is handled; without one the shutdown is not
    requested. *)
Theorem signals_in_order `{Unicode, FileSystem, Toml} rlimit denied p pre :
  Forall (λ sr, terminates sr.1 = false) pre →
  (register_signal_handlers rlimit denied p pre).1 = apply_signals rlimit denied p pre ∧
  pr_shutdown (apply_signals rlimit denied p pre) = pr_shutdown p ∧
  ∀ s reads post, terminates s = true →
    let p' := apply_signals rlimit denied p pre in
    (register_signal_handlers rlimit denied p (pre ++ (s, reads) :: post)).1
    = mkProcess (trigger_shutdown (pr_shutdown p)) (pr_reload p') (pr_log p').
Proof.
  intros Hpre. revert p. induction Hpre as [|[s reads] pre Hs _ IH]; intros p.
  - split; [done|]. split; [done|]. intros s reads post Hs. simpl. by destruct s.
  - simpl in Hs. destruct (handle_signal_apply rlimit denied p s reads Hs) as [ev Hev].
    destruct (IH (apply_signals rlimit denied p [(s, reads)])) as (IH1 & IH2 & IH3).
    assert (pr_shutdown (apply_signals rlimit denied p [(s, reads)]) = pr_shutdown p) as Hsd
      by (by destruct s).
    change (apply_signals rlimit denied p ((s, reads) :: pre))
      with (apply_signals rlimit denied (apply_signals rlimit denied p [(s, reads)]) pre).
    split; [|split].
    + rewrite <- IH1. cbn [register_signal_handlers]. rewrite Hev.
      by case_match.
    + by rewrite IH2.
    + intros s' reads' post Hs'. specialize (IH3 s' reads' post Hs'). cbv zeta in IH3 |- *.
      cbn [register_signal_handlers app]. rewrite Hev. rewrite <- Hsd, <- IH3.
      by case_match.
Qed.

(** No subscriber misses the shutdown: a receiver sees the channel change once
    the shutdown has been triggered, whether it subscribed before or after that, and
    never before. *)
Theorem no_lost_shutdown timeout_secs n m :
  let g := Nat.iter n trigger_shutdown (GracefulShutdown_new timeout_secs) in
  let later := Nat.iter m trigger_shutdown g in
  changed later (subscribe g) = is_shutdown_requested later ∧
  changed later (subscribe later) = is_shutdown_requested later ∧
  is_shutdown_requested later = negb (n + m =? 0)%nat.
Proof.
  intros g later.
  assert (∀ k g0, gs_seen (Nat.iter k trigger_shutdown g0) = gs_seen g0 ∧
    gs_version (Nat.iter k trigger_shutdown g0) = (k + gs_version g0)%nat ∧
    gs_requested (Nat.iter k trigger_shutdown g0) = gs_requested g0 || negb (k =? 0)%nat) as Hit.
  { intros k g0. induction k as [|k (IH1 & IH2 & IH3)]; simpl; [by rewrite orb_false_r|].
    rewrite IH1, IH2. by rewrite orb_true_r. }
  destruct (Hit n (GracefulShutdown_new timeout_secs)) as (Hs & Hv & Hr). fold g in Hs, Hv, Hr.
  destruct (Hit m g) as (Hs' & Hv' & Hr'). fold later in Hs', Hv', Hr'.
  unfold changed, subscribe, is_shutdown_requested. rewrite Hs', Hv', Hr', Hr, Hs, Hv. simpl.
  rewrite Nat.add_0_r. destruct n, m; done.
Qed.

Lemma signals_in_order_witness :
  let u := ascii_only in let fs := fs_with [] in let t := toml_with [] in
  let reads := mkFileReads (Ok None) (Err "gone") (Ok None) in
  let p := mkProcess (GracefulShutdown_new 30) test_handle None in
  (register_signal_handlers None (λ _, false) p
     [(SIGHUP, reads); (SIGUSR1, reads); (SIGTERM, reads); (SIGHUP, reads)]).1
  = mkProcess (trigger_shutdown (GracefulShutdown_new 30)) test_handle None.
Proof.
  intros u fs t reads p.
  apply (signals_in_order None (λ _, false) p [(SIGHUP, reads); (SIGUSR1, reads)]).
  - repeat constructor.
  - reflexivity.
Defined.
