(* ===== verification/TestsServer.v ===== *)
(** * The unit tests of the server and its listeners

    The test modules of [src/server.rs], [src/health.rs], [src/admin/auth.rs] and
    [src/shutdown.rs], evaluated on the model.  Time is explicit; a test takes none except
    where it sleeps.  Digests are those of the concrete library of [Admin]. *)

From S2P Require Import Prelude Text Net Http Config Routing Toml Validation Fixtures TestsValidation.
From S2P Require Import ValidRouting Reload ReloadProps ReloadConc TestsConfig.
From S2P Require Import RateLimit RateLimitProps Proxy Admin Server ServerProps Logging Shutdown.
Local Open Scope string_scope.
Local Open Scope list_scope.
Import Concrete.

#[local] Existing Instance ascii_only.
#[local] Existing Instance no_files.

(** ** [server.rs]: accept errors *)

(** [Error::from_raw_os_error]: none of the codes of the tests has a kind the server looks at. *)
Definition os_error (errno : Z) : IoError := mkIoError OtherKind (Some errno) (show_uint errno).
Definition emfile : IoError := os_error EMFILE.

(** [Error::new(kind, text)] *)
Definition new_error (kind : ErrorKind) (text : string) : IoError := mkIoError kind None text.

Definition transient_accept_errors_are_wouldblock_or_interrupted : bool :=
  is_transient_accept_error (new_error WouldBlock "would block") &&
  is_transient_accept_error (new_error Interrupted "interrupted") &&
  negb (is_transient_accept_error emfile).

Definition resource_accept_errors_include_emfile_enfile_enobufs_enomem : bool :=
  forallb (λ errno, is_resource_accept_error (os_error errno)) [EMFILE; ENFILE; ENOBUFS; ENOMEM] &&
  is_resource_accept_error (new_error ConnectionAborted "aborted") &&
  negb (is_resource_accept_error (new_error OtherKind "denied")) &&
  negb (is_resource_accept_error (new_error OtherKind "other")).

Definition resource_error_kinds_are_not_transient : bool :=
  forallb (λ errno, negb (is_transient_accept_error (os_error errno))) [EMFILE; ENFILE; ENOBUFS; ENOMEM].

Definition reporter_emits_first_error_immediately : bool :=
  let report := AcceptErrorReport_new in
  let report' := (report_log report emfile 0 0)%Z.1 in
  bool_decide (last_log report = None) && bool_decide (is_Some (last_log report')) &&
  (suppressed report' =? 0)%Z.

Definition reporter_suppresses_repeats_within_window : bool :=
  let report := (report_log AcceptErrorReport_new emfile 0 0)%Z.1 in
  let report := Nat.iter 1000 (λ r, (report_log r emfile 0 0)%Z.1) report in
  (suppressed report =? 1000)%Z.

(** [now] is a reading of the clock long after the start. *)
Definition reporter_emits_summary_after_window_with_suppressed_count : bool :=
  let now := secs 100 in
  let report := mkReport (Some (now - ACCEPT_ERROR_SUPPRESS)%Z) 5558248 in
  let report := (report_log report emfile now now).1 in
  (suppressed report =? 0)%Z &&
  match last_log report with Some t => (now - secs 1 <? t)%Z | None => false end.

Definition reporter_keys_by_error_signature : bool :=
  let seen_kinds := (report ∅ emfile 0 0)%Z.1 in
  let seen_kinds := (report seen_kinds (os_error ENFILE) 0 0)%Z.1 in
  (size seen_kinds =? 2)%nat.

(** The handshake future never completes. *)
Definition accept_tls_with_timeout_times_out_on_stalled_handshake : bool :=
  match accept_tls_with_timeout (None : Future (result unit IoError)) (secs 3) with
  | Some (t, Err HandshakeTimeout) => (t =? secs 3)%Z
  | _ => false
  end.

(** It completes after a millisecond. *)
Definition accept_tls_with_timeout_completes_real_handshake : bool :=
  match accept_tls_with_timeout (Some (millis 1, Ok tt)) (secs 5) with
  | Some (_, Ok _) => true
  | _ => false
  end.

Definition handle_accept_error_sleeps_on_resource_errors : bool :=
  ((handle_accept_error ∅ emfile 0 0)%Z.2 =? ACCEPT_BACKOFF_RESOURCE)%Z.

Definition handle_accept_error_sleeps_less_on_other_errors : bool :=
  ((handle_accept_error ∅ (new_error OtherKind "boom") 0 0)%Z.2 =? ACCEPT_BACKOFF_OTHER)%Z.

Definition handle_accept_error_does_not_sleep_on_transient_errors : bool :=
  ((handle_accept_error ∅ (new_error Interrupted "interrupted") 0 0)%Z.2 =? 0)%Z.

(** ** [server.rs]: connections and idle tracking *)

Definition idle_state_starts_not_idle : bool :=
  let state := IdleState_new 0%Z in
  (idle_for state 0 <? millis 100)%Z && (idle_in_flight state =? 0)%Z.

Definition connection_semaphore_reports_cap : bool := (max_connections_of (Server_new 7 0) =? 7)%Z.

Definition connection_semaphore_permits_are_shared_across_clones : bool :=
  match acquire_owned (Server_new 2 0) with
  | None => false
  | Some sem =>
      match acquire_owned sem with
      | None => false
      | Some sem =>
          match acquire_owned sem with Some _ => false | None => true end &&
          match acquire_owned (drop_permit (drop_permit sem)) with Some _ => true | None => false end
      end
  end.

Definition idle_state_touch_updates_last_activity : bool :=
  let state := IdleState_new 0%Z in
  (millis 50 <=? idle_for state (millis 50))%Z &&
  (idle_for (touch state (millis 50)) (millis 50) <? millis 10)%Z.

Definition idle_state_in_flight_tracks_increments_and_decrements : bool :=
  let s0 := IdleState_new 0%Z in
  let s1 := fetch_add s0 1 in
  let s2 := fetch_add s1 1 in
  let s3 := fetch_add s2 (-1) in
  bool_decide (idle_in_flight <$> [s0; s1; s2; s3] = [0; 1; 2; 1]%Z).

(** The watchdog with a state that does not change, for at most [n] rounds. *)
Definition watch (n : nat) (s : IdleState) (d : Duration) (start : Instant) : option Instant :=
  idle_watchdog n (λ _, s) d start.

Definition idle_watchdog_fires_after_timeout_when_idle : bool :=
  match watch 10 (IdleState_new 0%Z) (millis 50) 0%Z with
  | Some t => (millis 50 <=? t)%Z && (t <? millis 150)%Z
  | None => false
  end.

(** Four rounds of 50 ms are the 200 ms of the test, six the 300 ms of the last one. *)
Definition idle_watchdog_does_not_fire_while_request_in_flight : bool :=
  let state := fetch_add (IdleState_new 0%Z) 1 in
  match watch 4 state (millis 50) 0%Z with Some _ => false | None => true end &&
  (idle_in_flight state =? 1)%Z.

Definition idle_watchdog_resets_after_request_completes : bool :=
  let state := fetch_add (IdleState_new 0%Z) 1 in
  let state := touch (fetch_add state (-1)) (millis 30) in
  match watch 10 state (millis 50) (millis 30) with
  | Some t => (millis 50 <=? t - millis 30)%Z
  | None => false
  end.

Definition idle_watchdog_rechecks_after_short_sleep_when_partially_idle : bool :=
  match watch 10 (IdleState_new 0%Z) (millis 100) (millis 40) with
  | Some t => (millis 60 <=? t - millis 40)%Z && (t - millis 40 <? millis 200)%Z
  | None => false
  end.

Definition idle_watchdog_never_fires_with_persistent_in_flight : bool :=
  match watch 6 (fetch_add (IdleState_new 0%Z) 1) (millis 50) 0%Z with Some _ => false | None => true end.

Lemma server_tests_pass :
  forallb id
    [transient_accept_errors_are_wouldblock_or_interrupted;
     resource_accept_errors_include_emfile_enfile_enobufs_enomem; resource_error_kinds_are_not_transient;
     reporter_emits_first_error_immediately; reporter_suppresses_repeats_within_window;
     reporter_emits_summary_after_window_with_suppressed_count; reporter_keys_by_error_signature;
     accept_tls_with_timeout_times_out_on_stalled_handshake;
     accept_tls_with_timeout_completes_real_handshake; handle_accept_error_sleeps_on_resource_errors;
     handle_accept_error_sleeps_less_on_other_errors;
     handle_accept_error_does_not_sleep_on_transient_errors; idle_state_starts_not_idle;
     connection_semaphore_reports_cap; connection_semaphore_permits_are_shared_across_clones;
     idle_state_touch_updates_last_activity; idle_state_in_flight_tracks_increments_and_decrements;
     idle_watchdog_fires_after_timeout_when_idle; idle_watchdog_does_not_fire_while_request_in_flight;
     idle_watchdog_resets_after_request_completes;
     idle_watchdog_rechecks_after_short_sleep_when_partially_idle;
     idle_watchdog_never_fires_with_persistent_in_flight] = true.
Proof. vm_compute. reflexivity. Qed.

(** ** [auth.rs] *)

#[local] Existing Instance test_crypto.
#[local] Existing Instance no_trim.

(** [load_admin_key] of a file with the given content. *)
Definition load_key (content : string) : result (option string) AdminKeyError :=
  load_admin_key (λ _, Ok content) "/tmp/dir/admin-key".

Definition load_admin_key_empty_path_returns_none : bool :=
  match load_admin_key (λ _, Err "not found") "" with Ok None => true | _ => false end.

Definition load_admin_key_missing_file_returns_none : bool :=
  match load_admin_key (λ _, Err "not found") "/nonexistent/admin-key" with Ok None => true | _ => false end.

Definition hash_is (r : result (option string) AdminKeyError) (key : string) : bool :=
  match r with Ok (Some h) => (h =? sha256 key)%string | _ => false end.

Definition load_admin_key_valid_file_returns_hash : bool :=
  hash_is (load_key ("test-secret-key" +:+ newline)) "test-secret-key".

Definition load_admin_key_trims_whitespace : bool :=
  hash_is (load_key ("  test-secret-key  " +:+ newline)) "test-secret-key".

Definition load_admin_key_empty_file_returns_error : bool :=
  match load_key ("  " +:+ newline) with Err EmptyFile => true | _ => false end.

Lemma auth_tests_pass :
  forallb id
    [load_admin_key_empty_path_returns_none; load_admin_key_missing_file_returns_none;
     load_admin_key_valid_file_returns_hash; load_admin_key_trims_whitespace;
     load_admin_key_empty_file_returns_error] = true.
Proof. vm_compute. reflexivity. Qed.

(** ** [health.rs] *)

Definition test_config_content : list (string * TomlValue) :=
  [("health_check_port", TInteger 9900); ("admin_key_path", TString "/tmp/test-admin-key");
   logging_doc "info" "text"] ++ limits_doc 10 20 ++
  [("listeners", TArray [ports_doc "127.0.0.1" tls_doc [site_doc "test.local" "127.0.0.1:8080" []]])].

#[local] Instance admin_texts : Toml :=
  toml_with [("config", test_config_content); ("sighup", valid_config_toml)].

(** The state of the listener for a key file with the given content. *)
Definition start_test_listener_with_admin (key_content : string) : AdminState :=
  match load_key key_content with
  | Ok (Some key_hash) => mkAdmin test_handle "/tmp/dir/config.toml" 0 key_hash
  | _ => mkAdmin test_handle "/tmp/dir/config.toml" 0 ""
  end.

Definition test_request (m path : string) (auth : option string) : Request :=
  @mkRequest http m (mkU None path None)
    (match auth with Some a => [("authorization", a)] | None => [] end) [] None.

(** The config file of the listener is missing, or holds the text. *)
Definition inputs_with (content : option string) : Inputs :=
  mkInputs None
    (match content with
     | Some text => reads text
     | None => mkFileReads (Err "not found") (Err "not found") (Err "not found")
     end) 0 "0123456789abcdef0123456789abcdef".

Definition status_of_request (state : AdminState) (content : option string) (m path : string)
    (auth : option string) : Z :=
  reply_status (admin_router (inputs_with content) state (test_request m path auth)).2.

Definition health_check_returns_200 : bool :=
  (status_of_request (start_test_listener_with_admin "test-admin-key") None "GET" "/health" None =? 200)%Z.

(** [TcpListener::bind] on port 0 gives some port of the same address. *)
Definition health_check_binds_to_localhost : bool :=
  match start_health_check_listener (λ a, Ok (mk_socket_addr (sa_ip a) 40000)) 0 with
  | Ok addr => match sa_ip addr with V4 127 _ _ _ => true | _ => false end
  | Err _ => false
  end.

Definition admin_reload_with_valid_token : bool :=
  let state := start_test_listener_with_admin ("test-admin-key" +:+ newline) in
  match (admin_router (inputs_with (Some "config")) state
           (test_request "POST" "/admin/reload" (Some "Bearer test-admin-key"))).2 with
  | ReloadResponse 200 status _ => (status =? "ok")%string
  | _ => false
  end.

Definition admin_reload_with_wrong_token_returns_401 : bool :=
  (status_of_request (start_test_listener_with_admin "correct-key") None "POST" "/admin/reload"
     (Some "Bearer wrong-key") =? 401)%Z.

Definition admin_reload_with_no_token_returns_401 : bool :=
  (status_of_request (start_test_listener_with_admin "some-key") None "POST" "/admin/reload" None =? 401)%Z.

Definition admin_status_with_valid_token : bool :=
  let state := start_test_listener_with_admin "status-key" in
  match (admin_router (inputs_with None) state
           (test_request "GET" "/admin/status" (Some "Bearer status-key"))).2 with
  | StatusResponse status _ _ => (status =? "ok")%string
  | _ => false
  end.

Definition admin_rotate_key : bool :=
  let state := start_test_listener_with_admin "initial-key" in
  let r := admin_router (inputs_with None) state
             (test_request "POST" "/admin/rotate-key" (Some "Bearer initial-key")) in
  match r.2 with
  | RotateKeyResponse status new_key =>
      (status =? "ok")%string && negb (is_empty new_key) &&
      (status_of_request r.1 None "GET" "/admin/status" (Some "Bearer initial-key") =? 401)%Z &&
      (status_of_request r.1 None "GET" "/admin/status" (Some ("Bearer " +:+ new_key)) =? 200)%Z
  | _ => false
  end.

Definition health_endpoint_always_200 : bool :=
  let state := start_test_listener_with_admin "any-key" in
  (status_of_request state None "GET" "/health" None =? 200)%Z &&
  (status_of_request state None "GET" "/health" (Some "Bearer random") =? 200)%Z.

(** Without an admin state the listener serves [health_only]. *)
Definition admin_disabled_returns_404 : bool :=
  let status m path auth := reply_status (health_only (test_request m path auth)) in
  (status "POST" "/admin/reload" (Some "Bearer some-key") =? 404)%Z &&
  (status "GET" "/admin/status" (Some "Bearer some-key") =? 404)%Z &&
  (status "GET" "/health" None =? 200)%Z.

Lemma health_tests_pass :
  forallb id
    [health_check_returns_200; health_check_binds_to_localhost; admin_reload_with_valid_token;
     admin_reload_with_wrong_token_returns_401; admin_reload_with_no_token_returns_401;
     admin_status_with_valid_token; admin_rotate_key; health_endpoint_always_200;
     admin_disabled_returns_404] = true.
Proof. vm_compute. reflexivity. Qed.

(** ** [shutdown.rs] *)

Definition graceful_shutdown_new_default_timeout : bool :=
  let shutdown := GracefulShutdown_new 30 in
  (shutdown_timeout shutdown =? secs 30)%Z && negb (is_shutdown_requested shutdown).

Definition graceful_shutdown_trigger : bool :=
  let shutdown := GracefulShutdown_new 10 in
  negb (is_shutdown_requested shutdown) && is_shutdown_requested (trigger_shutdown shutdown).

(** The receiver sees the value, and whether it changed since. *)
Definition graceful_shutdown_subscribe_receives_signal : bool :=
  let shutdown := GracefulShutdown_new 5 in
  let rx := subscribe shutdown in
  let shutdown' := trigger_shutdown shutdown in
  negb (is_shutdown_requested shutdown) && changed shutdown' rx && is_shutdown_requested shutdown'.

Definition graceful_shutdown_custom_timeout : bool :=
  (shutdown_timeout (GracefulShutdown_new 60) =? secs 60)%Z.

(** The limits in the cell after a SIGHUP that reads the file. *)
Definition limits_after (r : FileReads) : RateLimitConfig :=
  rate_limit (h_config (handle_sighup_reload None test_handle r).1).

Definition sighup_reload_valid_config : bool :=
  bool_decide (limits_after (reads "sighup") = mkRateLimitConfig 20 40).

Definition sighup_reload_invalid_config_keeps_old : bool :=
  (requests_per_second (limits_after (reads "invalid toml {{{")) =? 10)%Z.

Definition sighup_reload_missing_file_logs_error : bool :=
  (requests_per_second
     (limits_after (mkFileReads (Err "not found") (Err "not found") (Err "not found"))) =? 10)%Z.

Lemma shutdown_tests_pass :
  forallb id
    [graceful_shutdown_new_default_timeout; graceful_shutdown_trigger;
     graceful_shutdown_subscribe_receives_signal; graceful_shutdown_custom_timeout;
     sighup_reload_valid_config; sighup_reload_invalid_config_keeps_old;
     sighup_reload_missing_file_logs_error] = true.
Proof. vm_compute. reflexivity. Qed.
