(* ===== verification/TestsTls.v ===== *)
(** * The unit tests of TLS setup and logging

    The test modules of [src/tls/config.rs], [src/tls/acceptor.rs], [src/tls/acme.rs],
    [src/logging/mod.rs], [src/logging/reopen.rs] and [src/logging/format.rs], evaluated
    on the model.  Generated certificates stand for themselves: a PEM file with one entry
    is that entry. *)

From S2P Require Import Prelude Text Config Tls Logging.
Local Open Scope string_scope.
Local Open Scope list_scope.

(** A PEM library in which the empty file has no entries, and any other has one. *)
#[local] Instance one_entry : TlsLib := {
  pem_certs content := Ok (if is_empty content then [] else [content]);
  pem_private_key content := Ok (if is_empty content then None else Some content);
  with_single_cert _ _ := Ok tt;
}.

(** ** [config.rs] *)

Definition generate_test_cert_pem (domain : string) : string * string :=
  ("cert of " +:+ domain, "key of " +:+ domain).

Definition generate_test_cert (domain : string) : list string * string :=
  ([(generate_test_cert_pem domain).1], (generate_test_cert_pem domain).2).

(** The directory of the tests. *)
Definition tempdir (path : string) : result string string :=
  if (path =? "cert.pem")%string then Ok (generate_test_cert_pem "test.example.com").1
  else if (path =? "key.pem")%string then Ok (generate_test_cert_pem "test.example.com").2
  else if (path =? "empty.pem")%string then Ok ""
  else Err "not found".

Definition test_build_manual_server_config : bool :=
  let '(certs, key) := generate_test_cert "test.example.com" in
  is_ok (build_manual_server_config_from_certs certs key).

Definition test_load_certs_from_pem : bool :=
  match load_certs tempdir "cert.pem" with Ok certs => (length certs =? 1)%nat | Err _ => false end.

Definition test_load_private_key_from_pem : bool := is_ok (load_private_key tempdir "key.pem").

Definition test_build_manual_server_config_from_files : bool :=
  is_ok (build_manual_server_config tempdir "cert.pem" "key.pem").

Definition test_cipher_suite_restriction : bool :=
  let suites := cipher_suites crypto_provider in
  (length suites =? 7)%nat &&
  forallb (λ name, existsb (contains name) suites)
    ["AES_256_GCM_SHA384"; "AES_128_GCM_SHA256"; "CHACHA20_POLY1305_SHA256";
     "ECDHE_ECDSA_WITH_AES_256_GCM_SHA384"; "ECDHE_ECDSA_WITH_AES_128_GCM_SHA256";
     "ECDHE_RSA_WITH_AES_256_GCM_SHA384"; "ECDHE_RSA_WITH_AES_128_GCM_SHA256"].

Definition test_no_chacha20_for_tls12 : bool :=
  negb (existsb (λ cs, contains "ECDHE" cs && contains "CHACHA20" cs) (cipher_suites crypto_provider)).

Definition test_protocol_versions_configured : bool :=
  let '(certs, key) := generate_test_cert "test.example.com" in
  match build_manual_server_config_from_certs certs key with
  | Ok config => bool_decide (sc_versions config = ["TLS12"; "TLS13"])
  | Err _ => false
  end.

Definition test_load_certs_empty_file : bool := negb (is_ok (load_certs tempdir "empty.pem")).
Definition test_load_certs_nonexistent_file : bool :=
  negb (is_ok (load_certs tempdir "/nonexistent/path/cert.pem")).
Definition test_load_private_key_nonexistent_file : bool :=
  negb (is_ok (load_private_key tempdir "/nonexistent/path/key.pem")).

(** ** [acceptor.rs] *)

Definition test_acme_tls_alpn_value : bool := (ACME_TLS_ALPN_01 =? "acme-tls/1")%string.

Definition test_build_acme_server_config : bool :=
  match build_acme_server_config ["test.example.com"] with
  | Ok config =>
      forallb (λ p, existsb (String.eqb p) (sc_alpn_protocols config)) ["h2"; "http/1.1"; ACME_TLS_ALPN_01]
  | Err _ => false
  end.

(** [setup_tls] fails with a message that has the given text. *)
Definition setup_fails (t : TlsConfig) (text : string) : bool :=
  match setup_tls tempdir t with Err e => contains text e | Ok _ => false end.

Definition test_setup_tls_manual_missing_cert_path : bool :=
  setup_fails (mkTlsConfig "manual" [] "" "production" "" "" "/some/key.pem") "cert_path".
Definition test_setup_tls_manual_missing_key_path : bool :=
  setup_fails (mkTlsConfig "manual" [] "" "production" "" "/some/cert.pem" "") "key_path".
Definition test_setup_tls_acme_missing_domains : bool :=
  setup_fails (mkTlsConfig "acme" [] "/tmp/cache" "staging" "mailto:admin@example.com" "" "") "acme_domains".
Definition test_setup_tls_acme_missing_cache_dir : bool :=
  setup_fails (mkTlsConfig "acme" ["example.com"] "" "staging" "mailto:admin@example.com" "" "")
    "acme_cache_dir".
Definition test_setup_tls_unknown_mode : bool :=
  setup_fails (mkTlsConfig "invalid" [] "" "production" "" "" "") "unknown TLS mode".

(** ** [acme.rs] *)

Definition test_acme_config_production_directory : bool :=
  (directory_url (mkAcmeTlsConfig ["example.com"] "/tmp/test-cache" "production" [])
   =? LETS_ENCRYPT_PRODUCTION_DIRECTORY)%string.
Definition test_acme_config_staging_directory : bool :=
  (directory_url (mkAcmeTlsConfig ["example.com"] "/tmp/test-cache" "staging" [])
   =? LETS_ENCRYPT_STAGING_DIRECTORY)%string.
Definition test_acme_config_custom_directory : bool :=
  let custom_url := "https://custom-acme.example.com/directory" in
  (directory_url (mkAcmeTlsConfig ["example.com"] "/tmp/test-cache" custom_url []) =? custom_url)%string.
Definition test_acme_config_multiple_domains : bool :=
  let config := mkAcmeTlsConfig ["git.alk.dev"; "alk.dev"] "/var/lib/reverse-proxy/acme-cache"
                  "production" ["mailto:admin@alk.dev"] in
  (length (acme_cfg_domains config) =? 2)%nat &&
  (directory_url config =? LETS_ENCRYPT_PRODUCTION_DIRECTORY)%string.
Definition test_acme_setup_creates_resolver : bool :=
  is_ok (acme_setup (mkAcmeTlsConfig ["test.example.com"] "/tmp/dir" "staging" ["mailto:admin@example.com"])).

Lemma tls_tests_pass :
  forallb id
    [test_build_manual_server_config; test_load_certs_from_pem; test_load_private_key_from_pem;
     test_build_manual_server_config_from_files; test_cipher_suite_restriction;
     test_no_chacha20_for_tls12; test_protocol_versions_configured; test_load_certs_empty_file;
     test_load_certs_nonexistent_file; test_load_private_key_nonexistent_file;
     test_acme_tls_alpn_value; test_build_acme_server_config;
     test_setup_tls_manual_missing_cert_path; test_setup_tls_manual_missing_key_path;
     test_setup_tls_acme_missing_domains; test_setup_tls_acme_missing_cache_dir;
     test_setup_tls_unknown_mode; test_acme_config_production_directory;
     test_acme_config_staging_directory; test_acme_config_custom_directory;
     test_acme_config_multiple_domains; test_acme_setup_creates_resolver] = true.
Proof. vm_compute. reflexivity. Qed.

(** ** [logging/mod.rs] *)

(** [init] on an empty file system, with [INFO] for every level; the subscriber of an
    earlier test may be [installed]. *)
Definition init_with (installed : bool) (path : option string) : result LogInit string :=
  init (λ _, Some "INFO") (λ _, Ok tt) (λ _, false) installed empty_files
    (mkLoggingConfig "info" "text" path).

(** The tests tolerate this error only. *)
Definition already_set (e : string) : bool :=
  contains "global default trace dispatcher" e || contains "already been set" e.

(** The new file is checked where [init] returns it; the test also checks it after the error. *)
Definition init_creates_log_directory_and_file : bool :=
  match init_with false (Some "logs/access.log") with
  | Ok i =>
      match li_writer i with
      | Some w => bool_decide (is_Some (content_at (w_files w) "logs/access.log"))
      | None => false
      end
  | Err _ => false
  end.

Definition init_returns_reopen_handle_when_file_configured : bool :=
  forallb (λ installed,
    match init_with installed (Some "access.log") with
    | Ok i => bool_decide (is_Some (w_path <$> li_writer i))
    | Err e => already_set e
    end) [false; true].

Definition init_returns_no_reopen_handle_when_no_file : bool :=
  forallb (λ installed,
    match init_with installed None with
    | Ok i => bool_decide (w_path <$> li_writer i = None)
    | Err e => already_set e
    end) [false; true].

(** ** [reopen.rs] *)

(** [std::fs::write]: open with truncation and write. *)
Definition fs_write (w : LogWriter) (path content : string) : LogWriter :=
  match open_truncate (λ _, false) (w_files w) path with
  | Ok (fs, fd) => mkWriter (write_desc fs fd content) (w_file w) (w_path w)
  | Err _ => w
  end.

Definition new_writer (path : string) : result LogWriter string :=
  ReopenableFileWriter_new (λ _, Ok tt) (λ _, false) empty_files path.

Definition reopen_swaps_underlying_file : bool :=
  match new_writer "access.log" with
  | Ok w =>
      let w := log_line (handle_with_path w "access.log") "first" in
      let w := fs_write w "access.log" "ROTATED" in
      match reopen (λ _, false) w with
      | (Ok _, w) => bool_decide (content_at (w_files (log_line w "second")) "access.log" = Some "second")
      | (Err _, _) => false
      end
  | Err _ => false
  end.

Definition reopen_without_path_returns_error : bool :=
  match new_writer "access.log" with
  | Ok w => negb (is_ok (reopen (λ _, false) (handle w)).1)
  | Err _ => false
  end.

(** ** [format.rs] *)

Definition quoted (s : string) : string := String dquote s +:+ String dquote "".
Definition escaped (s : string) : string := String "\" (String dquote s) +:+ String "\" (String dquote "").

Definition kv_visitor_formats_simple_key_value : bool :=
  (kv_format (mkKv [("client_ip", "203.0.113.50"); ("status", "200")])
   =? "client_ip=203.0.113.50 status=200")%string.
Definition kv_visitor_quotes_values_with_spaces : bool :=
  (kv_format (mkKv [("error", "connection refused")]) =? "error=" +:+ quoted "connection refused")%string.
Definition kv_visitor_escapes_quotes_in_values : bool :=
  contains ("connection " +:+ escaped "timeout")
    (kv_format (mkKv [("error", "connection " +:+ quoted "timeout")])).
Definition kv_visitor_handles_numeric_values : bool :=
  let formatted := kv_format (mkKv [("status", "200"); ("duration_ms", "45")]) in
  contains "status=200" formatted && contains "duration_ms=45" formatted.
Definition kv_visitor_handles_empty : bool := (kv_format (mkKv []) =? "")%string.

Lemma logging_tests_pass :
  forallb id
    [init_creates_log_directory_and_file; init_returns_reopen_handle_when_file_configured;
     init_returns_no_reopen_handle_when_no_file; reopen_swaps_underlying_file;
     reopen_without_path_returns_error; kv_visitor_formats_simple_key_value;
     kv_visitor_quotes_values_with_spaces; kv_visitor_escapes_quotes_in_values;
     kv_visitor_handles_numeric_values; kv_visitor_handles_empty] = true.
Proof. vm_compute. reflexivity. Qed.
