(* ===== verification/Main.v ===== *)
(** * The process

    [main.rs]: the exit status of the program, the startup sequence of [run_server]
    and its shutdown sequence.  What the system calls return is a record of
    functions; the servers the listeners run are those of the other files. *)

From S2P Require Import CommandLine.
From S2P Require Import Prelude Text Net Http Config Routing Toml Validation Fixtures ValidRouting Reload ReloadProps.
From S2P Require Import RateLimit Server ServerProps Tls Redirect Admin Logging Shutdown.
Local Open Scope string_scope.
Local Open Scope list_scope.
Local Open Scope rust_scope.

(** ** Startup *)

Record Env := mkEnv {
  (** [logging::init] *)
  env_log : LoggingConfig → result LogInit string;
  (** [Signals::new] *)
  env_signals : result unit string;
  env_read : string → result string string;
  (** [TcpListener::bind] followed by [local_addr] *)
  env_bind : SocketAddr → result SocketAddr string;
}.

(** What is running once [run_server] waits for the shutdown. *)
Record Running := mkRunning {
  (** The loopback listener, and the digest of the admin key if there is one. *)
  run_health : option (SocketAddr * option string);
  run_redirects : list (SocketAddr * Z);
  run_https : list (ListenerConfig * SocketAddr * TlsMode);
}.

Section Startup.
Context `{Http, TlsLib, Crypto, UnicodeTrim} (env : Env).

Definition admin_auth (c : StaticConfig) : option string :=
  if is_empty (admin_key_path c) then None
  else match load_admin_key (env_read env) (admin_key_path c) with
  | Ok (Some hash) => Some hash
  | Ok None => None
  | Err _ => None
  end.

Definition start_health (c : StaticConfig) : result (option (SocketAddr * option string)) string :=
  if (0 <? health_check_port c)%Z then
    addr <-? map_err (λ _, "failed to bind health check port")
               (start_health_check_listener (env_bind env) (health_check_port c));
    Ok (Some (addr, admin_auth c))
  else Ok None.

Definition https_addr_text (l : ListenerConfig) : string :=
  bind_addr l +:+ ":" +:+ show_uint (https_port l).

(** The loop that binds the listeners: the redirect addresses and the HTTPS ones. *)
Fixpoint bind_listeners (ls : list ListenerConfig)
    : result (list (SocketAddr * Z) * list (ListenerConfig * SocketAddr)) string :=
  match ls with
  | [] => Ok ([], [])
  | l :: ls =>
      redirect <-?
        (if (0 <? http_port l)%Z then
           r <-? map_err (λ _, "failed to bind HTTP redirect listener on " +:+ bind_addr l)
                   (start_http_redirect_listener (env_bind env) l);
           Ok [(r.1, https_port l)]
         else Ok []);
      https_addr <-? match parse_socket_addr (https_addr_text l) with
                     | Some a => Ok a
                     | None => Err ("invalid HTTPS bind address " +:+ https_addr_text l)
                     end;
      local_addr <-? map_err (λ _, "failed to bind HTTPS listener on " +:+ https_addr_text l)
                       (env_bind env https_addr);
      rest <-? bind_listeners ls;
      Ok (redirect ++ rest.1, (l, local_addr) :: rest.2)
  end.

(** The loop that makes the acceptors. *)
Fixpoint setup_acceptors (bound : list (ListenerConfig * SocketAddr)) : result (list TlsMode) string :=
  match bound with
  | [] => Ok []
  | (l, _) :: bound =>
      m <-? map_err (λ _, "failed to setup TLS for listener " +:+ bind_addr l)
              (setup_tls (env_read env) (tls l));
      ms <-? setup_acceptors bound;
      Ok (m :: ms)
  end.

(** [run_server] until the HTTPS listeners accept connections.  The health and redirect
    listeners serve from the moment their ports are bound, also when a later step fails
    and the process exits. *)
Definition run_server (c : StaticConfig) : result Running string :=
  _ <-? map_err (λ _, "failed to initialize logging") (env_log env (logging c));
  _ <-? env_signals env;
  health <-? start_health c;
  bound <-? bind_listeners (listeners c);
  acceptors <-? setup_acceptors bound.2;
  if negb (length bound.2 =? length acceptors)%nat then Err "listener/acceptor count mismatch"
  else Ok (mkRunning health bound.1
             (zip_with (λ la m, (la.1, la.2, m)) bound.2 acceptors)).

(** The exit status of the program. *)
Definition main_exit `{Unicode, FileSystem, Toml} (rlimit : option Z) (cli : Cli) : Z :=
  if cli_validate cli then
    match (run_validate (env_read env) rlimit cli).2 with Ok _ => 0 | Err _ => 1 end
  else match load_config (env_read env) rlimit cli with
  | Err _ => 1
  | Ok loaded => match run_server (lc_static_config loaded) with Ok _ => 0 | Err _ => 1 end
  end%Z.

(** [main]: the command line, then the program. *)
Definition main `{Clap, Unicode, FileSystem, Toml} (rlimit : option Z) (args : list string) : Z :=
  match parse_from args with Ok cli => main_exit rlimit cli | Err status => status end.

(** [notify_systemd_ready] tells systemd only where it asked to be told, and its failure
    is only logged. *)
Inductive NotifyLog := NotifySent | NotifyFailed (e : string).

Definition notify_systemd_ready (notify_socket : option string) (notify : result unit string) : list NotifyLog :=
  match notify_socket with
  | Some _ => match notify with Ok _ => [NotifySent] | Err e => [NotifyFailed e] end
  | None => []
  end.

(** *** What makes the startup succeed *)

Definition listener_starts (l : ListenerConfig) : Prop :=
  ((0 < http_port l)%Z → is_ok (start_http_redirect_listener (env_bind env) l) = true) ∧
  (∃ a, parse_socket_addr (https_addr_text l) = Some a ∧ is_ok (env_bind env a) = true) ∧
  is_ok (setup_tls (env_read env) (tls l)) = true.

Lemma setup_acceptors_Ok bound ms :
  setup_acceptors bound = Ok ms ↔
  Forall2 (λ la m, setup_tls (env_read env) (tls la.1) = Ok m) bound ms.
Proof.
  revert ms. induction bound as [|[l a] bound IH]; intros ms; simpl.
  - split; [by intros [= <-]; constructor|]. intros Hn. by inversion Hn.
  - destruct (setup_tls (env_read env) (tls l)) as [m|e] eqn:Hm; simpl.
    + rewrite and_then_Ok. split.
      * intros (ms' & Hms & [= <-]). constructor; [done|by apply IH].
      * inversion 1 as [|? m' ? ms' Hm' Hf]; subst. simpl in Hm'.
        assert (m' = m) as -> by congruence. exists ms'. split; [by apply IH|done].
    + split; [done|]. inversion 1 as [|? m' ? ms' Hm' Hf]; subst. simpl in Hm'. congruence.
Qed.

Lemma bind_listeners_Ok ls redirects bound :
  bind_listeners ls = Ok (redirects, bound) →
  bound.*1 = ls ∧ redirects.*2 = https_port <$> filter (λ l, 0 < http_port l)%Z ls ∧
  Forall (λ la, ∃ a, parse_socket_addr (https_addr_text la.1) = Some a ∧ env_bind env a = Ok la.2) bound.
Proof.
  revert redirects bound. induction ls as [|l ls IH]; intros redirects bound; cbn [bind_listeners].
  { intros [= <- <-]. split; [done|]. split; [done|constructor]. }
  intros (rd & Hrd & (a & Ha & (la & Hla & ([rs bs] & Hrest & [= <- <-])%and_then_Ok)%and_then_Ok)%and_then_Ok)%and_then_Ok.
  destruct (IH rs bs Hrest) as (IH1 & IH2 & IH3). cbn [fst snd].
  split; [by rewrite fmap_cons, IH1|]. split.
  - rewrite fmap_app, IH2, filter_cons. destruct (Z.ltb_spec 0 (http_port l)).
    + rewrite decide_True by done. apply and_then_Ok in Hrd as (r & _ & [= <-]). done.
    + rewrite decide_False by lia. by injection Hrd as <-.
  - constructor; [|done]. simpl. destruct (parse_socket_addr _) as [a'|]; [|done].
    injection Ha as <-. exists a'. split; [done|]. by destruct (env_bind env a'); simplify_eq/=.
Qed.

Lemma bind_listeners_is_ok ls :
  is_ok (bind_listeners ls) = true ↔
  Forall (λ l, ((0 < http_port l)%Z → is_ok (start_http_redirect_listener (env_bind env) l) = true) ∧
               ∃ a, parse_socket_addr (https_addr_text l) = Some a ∧ is_ok (env_bind env a) = true) ls.
Proof.
  induction ls as [|l ls IH]; cbn [bind_listeners]; [by rewrite Forall_nil|]. rewrite Forall_cons, <- IH.
  assert (∀ k : list (SocketAddr * Z) → result (list (SocketAddr * Z) * list (ListenerConfig * SocketAddr)) string,
    (∀ r, is_ok (k r) = is_ok (k [])) →
    is_ok (and_then (if (0 <? http_port l)%Z then
           r <-? map_err (λ _, "failed to bind HTTP redirect listener on " +:+ bind_addr l)
                   (start_http_redirect_listener (env_bind env) l);
           Ok [(r.1, https_port l)]
         else Ok []) k) = true ↔
    ((0 < http_port l)%Z → is_ok (start_http_redirect_listener (env_bind env) l) = true) ∧ is_ok (k []) = true) as Hred.
  { intros k Hk. destruct (Z.ltb_spec 0 (http_port l)).
    - destruct (start_http_redirect_listener _ l) as [r|]; simpl; [rewrite Hk|]; naive_solver.
    - simpl. split; [|naive_solver]. intros. split; [lia|done]. }
  rewrite Hred.
  - destruct (parse_socket_addr (https_addr_text l)) as [a|]; cbn [and_then];
      [|split; [by intros [_ ?]|by intros [[_ (? & ? & _)] _]]].
    destruct (env_bind env a) as [la|] eqn:Hb; cbn [map_err and_then].
    + assert (is_ok (and_then (bind_listeners ls)
        (λ rest, Ok ([] ++ rest.1, (l, la) :: rest.2) : result _ string)) = is_ok (bind_listeners ls)) as ->
        by (by destruct (bind_listeners ls)).
      split; [|by intros [[? _] ?]]. intros [Hr Hl]. split; [|done]. split; [done|].
      exists a. by rewrite Hb.
    + split; [by intros [_ ?]|]. intros [[_ (a' & [= <-] & Hok)] _]. by rewrite Hb in Hok.
  - intros r. destruct (parse_socket_addr _) as [a|]; simpl; [|done].
    destruct (env_bind env a); simpl; [|done]. by destruct (bind_listeners ls).
Qed.
End Startup.

Section StartupFacts.
Context `{Http, TlsLib, Crypto, UnicodeTrim} (env : Env).

(** The acceptors are as many as the listeners: the mismatch branch is dead. *)
Lemma run_server_steps c r :
  run_server env c = Ok r ↔
  ∃ log health redirects bound ms,
    env_log env (logging c) = Ok log ∧ env_signals env = Ok tt ∧ start_health env c = Ok health ∧
    bind_listeners env (listeners c) = Ok (redirects, bound) ∧ setup_acceptors env bound = Ok ms ∧
    r = mkRunning health redirects (zip_with (λ la m, (la.1, la.2, m)) bound ms).
Proof.
  unfold run_server. split.
  - intros (log & Hlog & (sig & Hsig & (health & Hh & ([rs bs] & Hb & (ms & Hms & Hr)%and_then_Ok)%and_then_Ok)%and_then_Ok)%and_then_Ok)%and_then_Ok.
    destruct sig. exists log, health, rs, bs, ms.
    destruct (negb _) in Hr; [done|]. injection Hr as <-.
    destruct (env_log env (logging c)); simplify_eq/=. done.
  - intros (log & health & rs & bs & ms & Hlog & Hsig & Hh & Hb & Hms & ->).
    rewrite Hlog, Hsig, Hh, Hb. cbn [map_err and_then fst snd]. rewrite Hms. cbn [and_then].
    apply setup_acceptors_Ok, Forall2_length in Hms. rewrite Hms, Nat.eqb_refl. done.
Qed.
End StartupFacts.

(** [C27] A server that starts serves what is configured: the HTTPS listeners are
    those of the configuration, in order, each bound to its own address and using
    the TLS configuration set up for it; there is a redirect for each listener with
    an HTTP port, to that listener's HTTPS port. *)
Theorem startup_complete `{Http, TlsLib, Crypto, UnicodeTrim} env c r :
  run_server env c = Ok r →
  (run_https r).*1.*1 = listeners c ∧
  Forall (λ lam, (∃ a, parse_socket_addr (https_addr_text lam.1.1) = Some a ∧
                       env_bind env a = Ok lam.1.2) ∧
                 setup_tls (env_read env) (tls lam.1.1) = Ok lam.2) (run_https r) ∧
  (run_redirects r).*2 = https_port <$> filter (λ l, 0 < http_port l)%Z (listeners c).
Proof.
  intros (log & health & rs & bs & ms & _ & _ & _ & Hb & Hms & ->)%run_server_steps. cbn [run_https run_redirects].
  apply bind_listeners_Ok in Hb as (Hls & Hrs & Haddr). apply setup_acceptors_Ok in Hms.
  split; [|split; [|done]].
  - rewrite <- Hls. clear -Hms. induction Hms as [|[l a] m bs ms _ _ IH]; simpl; [done|].
    unfold fmap in IH. by rewrite IH.
  - clear -Hms Haddr. revert Haddr. induction Hms as [|[l a] m bs ms Hm _ IH]; simpl; [constructor|].
    rewrite Forall_cons. intros [Ha Hbs]. constructor; [done|]. by apply IH.
Qed.

Lemma acme_setup_exact `{TlsLib} file t :
  tls_mode t = "acme" →
  (is_ok (setup_tls file t) = true ↔ acme_domains t ≠ [] ∧ acme_cache_dir t ≠ "").
Proof.
  intros Hm. unfold setup_tls. rewrite Hm. simpl. case_bool_decide; [naive_solver|].
  destruct (acme_cache_dir t); simpl; naive_solver.
Qed.


(** ** Shutdown *)

(** The listener tasks are joined one after the other, each with the timeout:
    [ends] are the instants at which the tasks end.  The result is when the joins are
    over, and how many timed out. *)
Fixpoint join_listeners (d : Duration) (now : Instant) (ends : list (option Instant)) : Instant * nat :=
  match ends with
  | [] => (now, 0%nat)
  | e :: ends =>
      let '(now, late) :=
        match e with
        | Some t => if (t <=? now + d)%Z then (Z.max now t, 0%nat) else (now + d, 1%nat)%Z
        | None => (now + d, 1%nat)%Z
        end in
      let '(now, lates) := join_listeners d now ends in (now, (late + lates)%nat)
  end.

(** From the shutdown signal to the end of [run_server]: how many connections are
    left, and when. *)
Definition shutdown_sequence (d : Duration) (start : Instant) (ends : list (option Instant))
    (count : Instant → Z) : option (Z * Instant) :=
  let '(now, _) := join_listeners d start ends in drain_in_flight count d now.

Lemma join_listeners_bound d start ends :
  (0 ≤ d)%Z →
  (start ≤ (join_listeners d start ends).1 ≤ start + d * Z.of_nat (length ends))%Z.
Proof.
  intros Hd. revert start. induction ends as [|e ends IH]; intros start; cbn [join_listeners].
  { simpl. lia. }
  set (step := match e with Some t => _ | None => _ end).
  assert (start ≤ step.1 ≤ start + d)%Z as Hs.
  { unfold step. destruct e as [t|]; [destruct (Z.leb_spec t (start + d))|]; cbn [fst]; lia. }
  destruct step as [now late]. specialize (IH now).
  destruct (join_listeners d now ends) as [now' lates]. cbn [fst length] in *. lia.
Qed.

(** Joins take no longer than the last of the listener tasks. *)
Lemma join_listeners_prompt d m ends : ∀ n,
  (n ≤ m)%Z → Forall (λ e, ∃ t, e = Some t ∧ t ≤ m ∧ t ≤ n + d)%Z ends → (0 ≤ d)%Z →
  ((join_listeners d n ends).1 ≤ m)%Z.
Proof.
  induction ends as [|e ends IH]; intros n Hn Hends Hd; cbn [join_listeners]; [done|].
  apply Forall_cons in Hends as [(t & -> & Ht & Htd) Hends]. destruct (Z.leb_spec t (n + d)); [|lia].
  assert (Forall (λ e, ∃ t', e = Some t' ∧ t' ≤ m ∧ t' ≤ Z.max n t + d)%Z ends) as Hends'.
  { eapply Forall_impl; [exact Hends|]. intros e (t' & -> & ? & ?). exists t'. split; [done|lia]. }
  specialize (IH (Z.max n t) ltac:(lia) Hends' Hd). by destruct (join_listeners d (Z.max n t) ends).
Qed.

(** [C29] The shutdown terminates and tells the truth.  Let the server be in a reachable
    state at every instant.  However its listener tasks and connections behave,
    [run_server] returns within [(n + 1)] shutdown timeouts and one poll interval of
    the signal, [n] being the number of listeners; if the listener tasks end within
    [eps] of the signal, within one timeout, [eps] and one poll interval.  The number
    it reports is that of the connections whose handshake, serving or closing is under
    way at that moment, so with 0 none is being served, and it reports more only after
    a full timeout of waiting for them. *)
Theorem shutdown_bounded d start ends max n hist eps :
  (0 ≤ d)%Z → (0 ≤ max)%Z → (∀ t : Instant, server_reachable max n (hist t)) →
  ∃ left t, shutdown_sequence d start ends (λ t, sv_in_flight (hist t)) = Some (left, t) ∧
    left = n_in counted (sv_conns (hist t)) ∧
    (left = 0 → ∀ i h2, sv_conns (hist t) !! i ≠ Some (CServing h2))%Z ∧
    (start ≤ t < start + (Z.of_nat (length ends) + 1) * d + millis 100)%Z ∧
    ((0 < left)%Z → (start + d ≤ t)%Z) ∧
    ((0 ≤ eps ≤ d)%Z → Forall (λ e, ∃ t0, e = Some t0 ∧ t0 ≤ start + eps)%Z ends →
     (t < start + eps + d + millis 100)%Z).
Proof.
  intros Hd Hmax Hreach. set (count := λ t, sv_in_flight (hist t)).
  assert (∀ t, count t = n_in counted (sv_conns (hist t))) as Hcount.
  { intros t. by destruct (server_reachable_inv _ _ _ Hmax (Hreach t)). }
  assert (∀ t, 0 ≤ count t)%Z as Hpos by (intros t; rewrite Hcount; apply n_in_nonneg).
  unfold shutdown_sequence. destruct (join_listeners_bound d start ends Hd) as [Hj1 Hj3].
  destruct (join_listeners d start ends) as [now late] eqn:Hj. cbn [fst snd] in *.
  unfold drain_in_flight. destruct (drain_loop_spec count d now (S (Z.to_nat (d / millis 100))) now)
    as (r & t & Hr & Ht & -> & Hlate); [done..|lia|unfold millis; lia| |].
  { assert (0 < millis 100)%Z as Hm by (unfold millis; lia).
    pose proof (Z.mul_succ_div_gt d (millis 100) Hm). pose proof (Z.div_pos d (millis 100) Hd Hm). nia. }
  exists (count t), t. split; [exact Hr|]. split; [done|].
  split; [rewrite Hcount; intros Hz i h2 Hi; by pose proof (proj1 (n_in_zero _ _) Hz i _ Hi)|].
  split; [nia|]. split; [lia|]. intros Heps Hends.
  assert ((join_listeners d start ends).1 ≤ start + eps)%Z as Hprompt.
  { apply join_listeners_prompt; [lia| |lia]. eapply Forall_impl; [exact Hends|].
    intros e (t0 & -> & ?). exists t0. split; [done|lia]. }
  rewrite Hj in Hprompt. simpl in Hprompt. lia.
Qed.

(** A listener blocked on the connection cap does not see the shutdown: with one such
    listener and one lasting connection the shutdown takes twice its timeout. *)
Lemma shutdown_takes_two_timeouts :
  shutdown_sequence (secs 30) 0%Z [None] (λ _, 1%Z) = Some (1%Z, secs 60).
Proof. vm_compute. done. Qed.

(** ** Witnesses *)

Definition test_env : Env :=
  mkEnv (λ _, Ok (mkLogInit FormatText "INFO" None)) (Ok tt) (λ _, Err "no such file") Ok.

Import Concrete.

Lemma startup_complete_witness :
  let lib := test_tls_lib in let k := test_crypto in let n := no_trim in
  match run_server test_env test_static_config with
  | Ok r => (run_https r).*1.*1 = listeners test_static_config
  | Err _ => False
  end.
Proof.
  intros lib k n. destruct (run_server test_env test_static_config) as [r|] eqn:E.
  - apply (startup_complete test_env test_static_config r E).
  - vm_compute in E. discriminate E.
Defined.

Lemma shutdown_bounded_witness :
  ∃ left t, shutdown_sequence (secs 30) 0%Z [Some 5%Z; Some 7%Z] (λ _, sv_in_flight (Server_new 10 2))
    = Some (left, t) ∧ (t < 0 + 7 + secs 30 + millis 100)%Z.
Proof.
  destruct (shutdown_bounded (secs 30) 0%Z [Some 5%Z; Some 7%Z] 10 2 (λ _, Server_new 10 2) 7%Z)
    as (left & t & Hs & _ & _ & _ & _ & Ht).
  - vm_compute. discriminate.
  - lia.
  - intros t. constructor.
  - exists left, t. split; [exact Hs|]. apply Ht.
    + split; vm_compute; discriminate.
    + repeat constructor; eexists; (split; [reflexivity|vm_compute; discriminate]).
Defined.

(** An IPv6 bind address without brackets, or a host name, passes [validate] and
    stops the startup. *)
Lemma bind_addr_not_validated :
  let u := ascii_only in let fs := fs_with [] in
  let lib := test_tls_lib in let k := test_crypto in let n := no_trim in
  let l := {| bind_addr := "localhost"; http_port := 80; https_port := 443;
              tls := tls (test_listener []); listener_sites := [] |} in
  let c := {| listeners := [l]; allow_wildcard_bind := false; health_check_port := 9900;
              admin_key_path := ""; shutdown_timeout_secs := 30; connection_idle_timeout_secs := 60;
              tls_handshake_timeout_secs := 10; max_connections := 1024;
              logging := LoggingConfig_default |} in
  validate c test_dynamic_config false = Ok tt ∧ is_ok (run_server test_env c) = false.
Proof. vm_compute. done. Qed.
