(* ===== verification/TestsIntegration.v ===== *)
(** * The integration tests

    The tests of [tests/integration_test.rs], run on the model: the sockets are the
    peers and bindings given as arguments, the upstreams of
    [tests/helpers/http_test_helper.rs] are client functions, sleeps are instants, and
    the server of [mod idle_timeout_tests] is the connection task over its idle state.
    Two tests that only exercise the helpers (spawning an upstream, generating a
    certificate) have nothing to run here. *)

From S2P Require Import CommandLine.
From S2P Require Import Prelude Text Net Http Config Routing Toml Validation Fixtures TestsValidation.
From S2P Require Import ValidRouting Reload ReloadProps ReloadConc TestsConfig.
From S2P Require Import RateLimit RateLimitProps Proxy ProxyProps Redirect TestsProxy.
From S2P Require Import Admin Server ServerProps Tls Logging Shutdown Main.
Local Open Scope string_scope.
Local Open Scope list_scope.
Import Concrete.

#[local] Existing Instance ascii_only.
#[local] Existing Instance no_files.
#[local] Existing Instance long_options.
#[local] Existing Instance test_tls_lib.
#[local] Existing Instance test_crypto.
#[local] Existing Instance no_trim.

(** [TcpListener::bind] and [local_addr]: port 0 gives some free port. *)
Definition bind_any (a : SocketAddr) : result SocketAddr string :=
  Ok (if (sa_port a =? 0)%Z then mk_socket_addr (sa_ip a) 40000 else a).

(** ** Fixtures and the health check *)

Definition test_config_fixtures : bool :=
  match listeners test_static_config, sites test_dynamic_config with _ :: _, _ :: _ => true | _, _ => false end.

(** A GET to the listener started on port 0 without an admin key. *)
Definition get_health : option Reply :=
  match start_health_check_listener bind_any 0 with
  | Ok _ => Some (health_only (@mkRequest http "GET" (mkU None "/health" None) [] [] (Some client_addr)))
  | Err _ => None
  end.

Definition test_health_check_local_port_returns_200 : bool :=
  match get_health with Some (Empty 200) => true | _ => false end.

Definition health_addr (asserts : SocketAddr → bool) : bool :=
  match start_health_check_listener bind_any 0 with Ok addr => asserts addr | Err _ => false end.

Definition test_health_check_local_port_binds_localhost : bool :=
  health_addr (λ addr, match sa_ip addr with V4 127 _ _ _ => true | _ => false end &&
                       (show_ip (sa_ip addr) =? "127.0.0.1")).

Definition test_health_check_binds_random_port_when_zero : bool :=
  health_addr (λ addr, negb (sa_port addr =? 0)%Z).

(** ** Rate limiting *)

(** The app of [make_rate_limit_app] served to one client: the status and text of its
    answers to requests with the given headers. *)
Fixpoint make_rate_limit_app (config : DynamicConfig) (l : RateLimiter) (peer : option SocketAddr)
    (requests : list (list (string * string))) : list (Z * string) :=
  match requests with
  | [] => []
  | headers :: requests =>
      let req := mkRequest "GET" (mkU None "/" None) headers [] peer in
      let '(l, out) := rate_limit_middleware config l (at_instant 0%Z)
                         (λ _, mkOutcome (text_response 200 "ok") None []) req in
      match o_response out with
      | Local status _ text => (status, text)
      | Forwarded status _ _ => (status, "")
      end :: make_rate_limit_app config l peer requests
  end.

Definition answers (rps burst : Z) (requests : list (list (string * string))) : list (Z * string) :=
  make_rate_limit_app (make_limiter rps burst) RateLimiter_new (Some client_addr) requests.

Definition ok_answer : Z * string := (200%Z, "ok").
Definition rejected : Z * string := (429%Z, "Too Many Requests").

Definition test_rate_limit_allows_within_burst : bool :=
  bool_decide (answers 10 5 (replicate 5 []) = replicate 5 ok_answer).

Definition test_rate_limit_rejects_above_burst : bool :=
  bool_decide (answers 10 2 (replicate 3 []) = [ok_answer; ok_answer; rejected]).

Definition test_rate_limit_429_response_body : bool :=
  bool_decide (answers 10 1 (replicate 2 []) = [ok_answer; rejected]).

Definition test_rate_limit_per_ip_independent : bool :=
  bool_decide ((answers 10 1 (replicate 2 [])).*1 = [200; 429]%Z).

(** The app served without connect info. *)
Definition test_rate_limit_without_connect_info_rejected_with_429 : bool :=
  bool_decide (make_rate_limit_app (make_limiter 10 20) RateLimiter_new None [[]] = [rejected]).

Definition test_rate_limit_xff_header_ignored_same_bucket : bool :=
  bool_decide ((answers 10 2 ((λ ip, [("x-forwarded-for", ip)]) <$> ["10.0.0.1"; "10.0.0.2"; "10.0.0.3"])).*1
               = [200; 200; 429]%Z).

(** Ticks every 50 ms, the first at once, until 200 ms; buckets live 100 ms. *)
Definition test_rate_limit_eviction_task : bool :=
  let ip := V4 192 168 1 1 in
  let l := (check_and_consume (make_limiter 10 20) RateLimiter_new ip (at_instant 0%Z)).1 in
  contains_ip l ip &&
  negb (contains_ip (start_eviction_task l (ms 100) (EvTick <$> (ms <$> [0; 50; 100; 150; 200]%Z))).1 ip).

(** ** The redirect listener *)

Definition make_redirect_listener_config (addr : string) (http https : Z) : ListenerConfig :=
  {| bind_addr := addr; http_port := http; https_port := https;
     tls := {| tls_mode := "manual"; acme_domains := []; acme_cache_dir := "";
               acme_directory := "production"; acme_contact := ""; cert_path := ""; key_path := "" |};
     listener_sites := [] |}.

(** The answer to a GET with the [Host] header, if any. *)
Definition redirected (https : Z) (host : option string) (path : string) (query : option string) : option Response :=
  match start_http_redirect_listener bind_any (make_redirect_listener_config "127.0.0.1" 0 https) with
  | Ok (_, router) =>
      Some (router (mkRequest "GET" (mkU None path query)
        (match host with Some h => [("host", h)] | None => [] end) [] (Some client_addr)))
  | Err _ => None
  end.

Definition location_is (r : option Response) (location : string) : bool :=
  match r with
  | Some (Local 301 hs _) => bool_decide (assoc "location" hs = Some location)
  | _ => false
  end.

Definition status_is (r : option Response) (status : Z) : bool :=
  match r with Some r => (status_of r =? status)%Z | None => false end.

Definition test_http_redirect_returns_301_with_location : bool :=
  location_is (redirected 443 (Some "example.com") "/some/path" None) "https://example.com/some/path".

Definition test_http_redirect_port_443_omitted_from_url : bool :=
  location_is (redirected 443 (Some "example.com") "/" None) "https://example.com/".

Definition test_http_redirect_non_443_port_included_in_url : bool :=
  location_is (redirected 8443 (Some "example.com") "/" None) "https://example.com:8443/".

Definition test_http_redirect_empty_host_returns_400 : bool := status_is (redirected 443 (Some "") "/" None) 400.

Definition test_http_redirect_no_host_header_returns_400 : bool := status_is (redirected 443 None "/" None) 400.

Definition test_http_redirect_strips_host_port : bool :=
  location_is (redirected 443 (Some "example.com:8080") "/path" None) "https://example.com/path".

Definition test_http_redirect_preserves_query_string : bool :=
  location_is (redirected 443 (Some "git.alk.dev") "/search" (Some "q=test&page=1"))
    "https://git.alk.dev/search?q=test&page=1".

Definition test_http_redirect_acme_challenge_returns_404 : bool :=
  status_is (redirected 443 (Some "example.com") "/.well-known/acme-challenge/abc123" None) 404.

Lemma listener_tests_pass :
  forallb id
    [test_config_fixtures; test_health_check_local_port_returns_200; test_health_check_local_port_binds_localhost;
     test_health_check_binds_random_port_when_zero; test_rate_limit_allows_within_burst;
     test_rate_limit_rejects_above_burst; test_rate_limit_429_response_body; test_rate_limit_per_ip_independent;
     test_rate_limit_without_connect_info_rejected_with_429; test_rate_limit_xff_header_ignored_same_bucket;
     test_rate_limit_eviction_task; test_http_redirect_returns_301_with_location;
     test_http_redirect_port_443_omitted_from_url; test_http_redirect_non_443_port_included_in_url;
     test_http_redirect_empty_host_returns_400; test_http_redirect_no_host_header_returns_400;
     test_http_redirect_strips_host_port; test_http_redirect_preserves_query_string;
     test_http_redirect_acme_challenge_returns_404] = true.
Proof. vm_compute. reflexivity. Qed.

(** ** Forwarding *)

Definition make_site_config (upstream_addr : string) : SiteConfig :=
  mkSiteConfig "test.local" upstream_addr "http" 5 60.

Definition make_dynamic_config_with_site (upstream_addr : string) : DynamicConfig :=
  from_sites [make_site_config upstream_addr] (mkRateLimitConfig 100 100) (mkBodyConfig 104857600).

(** An upstream with one route, which answers a GET with the text; it takes a millisecond. *)
Definition upstream_with (answer : Request → string) : Clients :=
  let f req :=
    Some (ms 1, Ok (if (u_path (req_uri req : U) =? "/") && (req_method req =? "GET")
                    then mkUpstream 200 [("content-type", "text/plain; charset=utf-8")] [Ok (answer req)]
                    else mkUpstream 404 [] [])) in
  mkClients f f.

Definition spawn_ok : Clients := upstream_with (λ _, "ok").

Definition spawn_echoing_upstream : Clients :=
  upstream_with (λ req,
    let header n := default "" (hm_get (req_headers req) n : option string) in
    "host=" +:+ header "host" +:+ "|proto=" +:+ header "x-forwarded-proto").

(** The frames of a forwarded response. *)
Definition forwarded_frames (r : @Response http) : option (list (result string string)) :=
  match r with Forwarded _ _ b => Some (body_frames b) | Local _ _ _ => None end.

Definition proxy_loads : Loads :=
  let config := make_dynamic_config_with_site "127.0.0.1:3000" in mkLoads config config config.

(** [router.oneshot] *)
Definition oneshot (req : @Request http) : @Response http :=
  o_response (build_router proxy_loads spawn_echoing_upstream RateLimiter_new (at_instant 0%Z) 0%Z req).2.

Definition oneshot_body (uri : string) (headers : list (string * string)) (port : Z)
    : option (list (result string string)) :=
  u ← parse_u uri;
  forwarded_frames (oneshot (mkRequest "GET" u headers [] (Some (mk_socket_addr (V4 127 0 0 1) port)))).

Definition test_proxy_forwards_client_authority_as_host : bool :=
  bool_decide (oneshot_body "http://test.local/" [("x-forwarded-proto", "https")] 54321
               = Some [Ok "host=test.local|proto=https"]).

Definition test_proxy_preserves_client_host_header_for_http1 : bool :=
  bool_decide (oneshot_body "/" [("host", "test.local"); ("x-forwarded-proto", "https")] 54322
               = Some [Ok "host=test.local|proto=https"]).

(** ** The body limit *)

Definition test_dynamic_config_with_limit (limit_bytes : Z) : DynamicConfig :=
  from_sites [test_site] (mkRateLimitConfig 10 20) (mkBodyConfig limit_bytes).

(** A POST of [n] bytes, whose length the client declares, to a route that answers
    ["ok"] without reading the body. *)
Definition post_bytes (limit_bytes : Z) (n : nat) : Z * string :=
  let body := Nat.iter n (String Ascii.zero) "" in
  let req := mkRequest "POST" (mkU None "/" None) [("content-length", show_uint (Z.of_nat n))] [Ok body]
               (Some client_addr) in
  match o_response (body_limit_middleware (test_dynamic_config_with_limit limit_bytes)
                      (λ _, mkOutcome (text_response 200 "ok") None []) req) with
  | Local status _ text => (status, text)
  | Forwarded status _ _ => (status, "")
  end.

Definition too_large : Z * string := (413%Z, "Payload Too Large").

Definition test_body_limit_rejects_oversized_request : bool := bool_decide (post_bytes 100 200 = too_large).
Definition test_body_limit_allows_request_within_limit : bool := ((post_bytes 100 50).1 =? 200)%Z.
Definition test_body_limit_allows_request_at_exact_limit : bool := ((post_bytes 100 100).1 =? 200)%Z.
Definition test_body_limit_content_length_header_rejection : bool := bool_decide (post_bytes 100 200 = too_large).
Definition test_body_limit_default_is_100mb : bool := (DEFAULT_BODY_LIMIT_BYTES =? 104857600)%Z.
Definition test_body_limit_empty_body_request_succeeds : bool := ((post_bytes 100 0).1 =? 200)%Z.

Lemma request_tests_pass :
  forallb id
    [test_proxy_forwards_client_authority_as_host; test_proxy_preserves_client_host_header_for_http1;
     test_body_limit_rejects_oversized_request; test_body_limit_allows_request_within_limit;
     test_body_limit_allows_request_at_exact_limit; test_body_limit_content_length_header_rejection;
     test_body_limit_default_is_100mb; test_body_limit_empty_body_request_succeeds] = true.
Proof. vm_compute. reflexivity. Qed.

(** ** The binary with [--validate] *)

Definition write_valid_config : list (string * TomlValue) :=
  [("health_check_port", TInteger 9900); ("admin_key_path", TString "/etc/reverse-proxy/admin-key");
   logging_doc "info" "text";
   ("listeners", TArray [TTable [("bind_addr", TString "127.0.0.1"); ("https_port", TInteger 443);
      ("tls", tls_doc'); ("sites", TArray [site_doc "test.local" "127.0.0.1:8080" []])]])]
  ++ limits_doc 10 20.

Definition write_invalid_config : list (string * TomlValue) := [("health_check_port", TInteger 9900)].

#[local] Instance config_texts : Toml :=
  toml_with [("valid config", write_valid_config); ("invalid config", write_invalid_config);
             ("sighup", valid_config_toml)].

(** The exit status of the binary in a directory with the given config file. *)
Definition binary_status (config : option string) (path : string) (more : list string) : Z :=
  let read p := match config with
                | Some text => if p =? "/tmp/dir/config.toml" then Ok text else Err "not found"
                | None => Err "not found"
                end in
  main (mkEnv (λ _, Err "not reached") (Err "not reached") read (λ _, Err "not reached")) (Some 4096%Z)
    (["reverse-proxy"; "--config"; path; "--validate"] ++ more).

Definition test_validate_valid_config_exits_0 : bool :=
  (binary_status (Some "valid config") "/tmp/dir/config.toml" [] =? 0)%Z.

Definition test_validate_invalid_config_exits_1 : bool :=
  let status := binary_status (Some "invalid config") "/tmp/dir/config.toml" [] in (status =? 1)%Z || (status =? 2)%Z.

Definition test_validate_missing_config_file_exits_1 : bool :=
  negb (binary_status None "/nonexistent/path/config.toml" [] =? 0)%Z.

Definition test_validate_wildcard_bind_via_cli_flag : bool :=
  (binary_status (Some "valid config") "/tmp/dir/config.toml" ["--allow-wildcard-bind"] =? 0)%Z.

(** ** Shutdown and reload *)

Definition test_graceful_shutdown_trigger : bool :=
  let shutdown := GracefulShutdown_new 30 in
  let rx := subscribe shutdown in
  let triggered := trigger_shutdown shutdown in
  negb (is_shutdown_requested shutdown) && is_shutdown_requested triggered && changed triggered rx.

Definition test_graceful_shutdown_custom_timeout : bool :=
  (shutdown_timeout (GracefulShutdown_new 60) =? secs 60)%Z.

Definition test_graceful_shutdown_subscribe_multiple_receivers : bool :=
  let shutdown := GracefulShutdown_new 10 in
  let rx1 := subscribe shutdown in
  let rx2 := subscribe shutdown in
  let triggered := trigger_shutdown shutdown in
  negb (is_shutdown_requested shutdown) && changed triggered rx1 && changed triggered rx2.

(** The limits in the cell after a SIGHUP that reads the text. *)
Definition limits_after_sighup (text : string) : RateLimitConfig :=
  rate_limit (h_config (handle_sighup_reload (Some 4096%Z) test_handle (reads text)).1).

Definition test_sighup_config_reload_valid_config : bool :=
  bool_decide (limits_after_sighup "sighup" = mkRateLimitConfig 20 40).

Definition test_sighup_config_reload_invalid_config_keeps_old : bool :=
  (requests_per_second (limits_after_sighup "invalid toml {{{") =? 10)%Z.

Definition test_graceful_shutdown_with_health_check : bool :=
  let shutdown := GracefulShutdown_new 5 in
  let triggered := trigger_shutdown shutdown in
  match get_health with Some (Empty 200) => true | _ => false end &&
  negb (is_shutdown_requested shutdown) && is_shutdown_requested triggered &&
  changed triggered (subscribe shutdown).

Lemma process_tests_pass :
  forallb id
    [test_validate_valid_config_exits_0; test_validate_invalid_config_exits_1;
     test_validate_missing_config_file_exits_1; test_validate_wildcard_bind_via_cli_flag;
     test_graceful_shutdown_trigger; test_graceful_shutdown_custom_timeout;
     test_graceful_shutdown_subscribe_multiple_receivers; test_sighup_config_reload_valid_config;
     test_sighup_config_reload_invalid_config_keeps_old; test_graceful_shutdown_with_health_check] = true.
Proof. vm_compute. reflexivity. Qed.

(** ** The HTTPS server *)

(** The idle state at each instant of a connection whose handshake took 50 ms, with the
    events of its only request. *)
Definition idle_history (evs : list (Instant * ReqEvent)) (now : Instant) : IdleState :=
  foldl (λ st tev, if (tev.1 <=? now)%Z then default st (req_step st 0 tev.2 tev.1) else st)
    (IdleState_new (ms 50)) evs.

(** When and why the server ends a connection that the client keeps open. *)
Definition spawn_test_https_server (idle_timeout handshake_timeout : Duration)
    (accept : Future (result bool IoError)) (evs : list (Instant * ReqEvent)) : option (Instant * ConnEnd) :=
  connection_task accept handshake_timeout idle_timeout (λ _, None) 100 (idle_history evs) true 0%Z.

Definition connect_tls : Future (result bool IoError) := Some (ms 50, Ok false).

(** The in-flight count at [now], for a connection that ends as given. *)
Definition in_flight_at (ended : option (Instant * ConnEnd)) (handshake : bool) (now : Instant) : option Z :=
  let opens := [(0, ConnAccepted 0); (0, ConnPermit 0); (0, ConnStarts)]%Z ++
               if handshake then [(ms 50, ConnHandshakeDone false)] else [] in
  let closes := match ended with Some (t, why) => [(t, ConnEnds why); (t, ConnGuardDrops)] | None => [] end in
  sv_in_flight <$> run_conns (Server_new 1024 1)
    ((λ tev, (0%nat, tev.2)) <$> List.filter (λ tev, (tev.1 <=? now)%Z) (opens ++ closes)).

(** [GET /] on the connection. *)
Definition root_request : @Request http :=
  mkRequest "GET" (mkU None "/" None) [("host", "test.local"); ("connection", "keep-alive")] [] None.

Definition get_root (clients : @Clients http) : @Response http :=
  o_response (serve_request client_addr proxy_loads clients RateLimiter_new (at_instant 0%Z) 0%Z root_request).2.

Definition round_trip : bool := (status_of (get_root spawn_ok) =? 200)%Z.

(** The request arrives when the handshake is done and is answered within 3 ms. *)
Definition one_request : list (Instant * ReqEvent) :=
  [(ms 50, ReqCall); (ms 52, ReqResponse); (ms 52, ReqFrame PollFrame); (ms 53, ReqFrame PollEnd);
   (ms 53, ReqBodyDropped)].

(** The response is read at 53 ms, the count looked at 100 ms later, the close awaited for
    the idle timeout and two seconds, and the count looked at again. *)
Definition idle_http1_connection_closed_after_timeout : bool :=
  let ended := spawn_test_https_server (ms 500) (secs 10) connect_tls one_request in
  round_trip && bool_decide (in_flight_at ended true (ms 153) = Some 1%Z) &&
  match ended with
  | Some (t, IdleCloses) => (ms 153 <? t)%Z && (t <=? ms 153 + ms 500 + secs 2)%Z
  | _ => false
  end && bool_decide (in_flight_at ended true (ms 153 + ms 500 + secs 2)%Z = Some 0%Z).

Definition active_http1_connection_not_closed_within_timeout : bool :=
  let ended := spawn_test_https_server (secs 2) (secs 10) connect_tls one_request in
  round_trip &&
  match ended with Some (t, _) => (ms 53 + secs 1 <? t)%Z | None => false end &&
  bool_decide (in_flight_at ended true (ms 53 + secs 1)%Z = Some 1%Z).

(** One chunk every [chunk_interval], [num_chunks] of them. *)
Definition chunks (num_chunks : nat) : list (result string string) :=
  (λ i, Ok ("<" +:+ show_uint (Z.of_nat i) +:+ ">")) <$> seq 0 num_chunks.

Definition spawn_slow_stream (num_chunks : nat) : Clients :=
  let f := λ _ : Request, Some (ms 1, Ok (mkUpstream 200 [] (chunks num_chunks))) in mkClients f f.

Definition streaming (chunk_interval : Duration) (num_chunks : nat) : list (Instant * ReqEvent) :=
  let chunk i := (ms 52 + chunk_interval * Z.of_nat i)%Z in
  [(ms 50, ReqCall); (ms 52, ReqResponse)] ++
  ((λ i, (chunk i, ReqFrame PollFrame)) <$> seq 1 num_chunks) ++
  [(chunk num_chunks, ReqFrame PollEnd); (chunk num_chunks, ReqBodyDropped)].

(** Every chunk is forwarded, and the connection outlives the last one. *)
Definition streaming_body_not_killed_by_idle_watchdog : bool :=
  let ended := spawn_test_https_server (ms 500) (secs 10) connect_tls (streaming (ms 200) 15) in
  bool_decide (forwarded_frames (get_root (spawn_slow_stream 15)) = Some (chunks 15)) &&
  match ended with Some (t, _) => (ms 52 + ms 200 * 15 <? t)%Z | None => false end.

(** The client sends nothing: its handshake never completes. *)
Definition stalled_tls_handshake_closed_after_timeout_and_permit_released : bool :=
  let ended := spawn_test_https_server (secs 60) (ms 300) None [] in
  match ended with
  | Some (t, HandshakeFailed HandshakeTimeout) => (t <=? ms 300 + ms 500)%Z
  | _ => false
  end && bool_decide (in_flight_at ended false (ms 300 + ms 600)%Z = Some 0%Z).

Definition real_handshake_completes_within_handshake_timeout : bool :=
  let ended := spawn_test_https_server (secs 60) (ms 300) connect_tls one_request in
  round_trip && bool_decide (in_flight_at ended true (ms 53) = Some 1%Z).

(** Two listeners with a cap of two: a connection on each; a third one is accepted and
    gets no permit until one of them closes. *)
Definition connection_semaphore_is_shared_across_listeners : bool :=
  let connects i j := [(i, ConnAccepted j); (i, ConnPermit j); (i, ConnStarts); (i, ConnHandshakeDone false)] in
  match run_conns (Server_new 2 2) (connects 1 0 ++ connects 2 1 ++ [(3, ConnAccepted 0)])%nat with
  | None => false
  | Some full =>
      match conn_step full 3 (ConnPermit 0) with Some _ => false | None => true end &&
      match run_conns full [(2, ConnEnds (ServeEnds (Ok tt))); (3, ConnPermit 0); (3, ConnStarts);
                            (3, ConnHandshakeDone false)]%nat with
      | Some s => match sv_conns s !! 3%nat with Some (CServing _) => round_trip | _ => false end
      | None => false
      end
  end.

Lemma https_server_tests_pass :
  forallb id
    [idle_http1_connection_closed_after_timeout; active_http1_connection_not_closed_within_timeout;
     streaming_body_not_killed_by_idle_watchdog;
     stalled_tls_handshake_closed_after_timeout_and_permit_released;
     real_handshake_completes_within_handshake_timeout;
     connection_semaphore_is_shared_across_listeners] = true.
Proof. vm_compute. reflexivity. Qed.
